(** * EM_Image_Segmentation: tiling, merging and augmentation helpers

    A shallow embedding of [FIBSEM_EPFL/scripts/data.py]: the grid cropper
    ([crop_data]), the overlap tiler and merger ([crop_data_with_overlap],
    [merge_data_with_overlap]), the foreground ratio estimator, the random
    crop and the transform pipeline of [ImageDataGenerator].

    Python integers are [Z]; NumPy arrays are nested lists whose shape is
    read off the lists; float32 samples are exact rationals ([Q]); Python
    exceptions are the [Raise] branch of [result]. *)

From Stdlib Require Import String Ascii ZArith QArith Qabs Qpower List Bool.
From Stdlib Require Import Lia Lqa.
Import ListNotations.
Local Open Scope Z_scope.

(* ================================================================== *)
(** * Part I: definitions *)
(* ================================================================== *)

(** ** Python exceptions and the error monad *)

Inductive exn : Set :=
| AssertionError
| ValueError
| IndexError
| ZeroDivisionError
| UnboundLocalError
| AttributeError
| OSError.

Inductive result (A : Type) : Type :=
| Ok (a : A)
| Raise (e : exn).
Arguments Ok {A} a.
Arguments Raise {A} e.

Definition bind {A B : Type} (m : result A) (f : A -> result B) : result B :=
  match m with
  | Ok a => f a
  | Raise e => Raise e
  end.

Declare Scope py_scope.
Delimit Scope py_scope with py.
Notation "x <- m ;; k" := (bind m (fun x => k))
  (at level 61, m at next level, right associativity) : py_scope.
Notation "' p <- m ;; k" := (bind m (fun x => match x with p => k end))
  (at level 61, p pattern, m at next level, right associativity) : py_scope.
Local Open Scope py_scope.

(** [assert cond] *)
Definition assert (cond : bool) : result unit :=
  if cond then Ok tt else Raise AssertionError.

Module Py.

(** [len(range(start, stop, step))] for a non-zero step. *)
Definition range_len (start stop step : Z) : Z :=
  if 0 <? step then
    if start <? stop then (stop - start - 1) / step + 1 else 0
  else
    if stop <? start then (start - stop - 1) / (- step) + 1 else 0.

Definition range_list (start stop step : Z) : list Z :=
  map (fun t => start + Z.of_nat t * step)
      (seq 0 (Z.to_nat (range_len start stop step))).

(** [range(start, stop, step)]: a zero step is a [ValueError]. *)
Definition range (start stop step : Z) : result (list Z) :=
  if step =? 0 then Raise ValueError else Ok (range_list start stop step).

(** [for i in l: body], threading the loop state and stopping at the first
    exception. *)
Fixpoint for_each {I S : Type} (l : list I) (body : I -> S -> result S)
         (s : S) : result S :=
  match l with
  | [] => Ok s
  | i :: l' => s' <- body i s ;; for_each l' body s'
  end.

(** [for i in range(start, stop, step): body]. *)
Definition for_range {S : Type} (start stop step : Z)
           (body : Z -> S -> result S) (s : S) : result S :=
  l <- range start stop step ;; for_each l body s.

(** A slice bound [i] of a sequence of length [n]: negative bounds count
    from the end, and the result is clipped to [0..n]. *)
Definition clamp (n i : Z) : Z :=
  if i <? 0 then Z.max 0 (i + n) else Z.min i n.

(** [l[lo:hi]]. *)
Definition slice {A : Type} (lo hi : Z) (l : list A) : list A :=
  let n := Z.of_nat (length l) in
  firstn (Z.to_nat (clamp n hi - clamp n lo)) (skipn (Z.to_nat (clamp n lo)) l).

(** [int(a / b)] on integers: true division, then truncation toward zero. *)
Definition int_div (a b : Z) : Z := Z.quot a b.

(** [sys.maxsize] on a 64-bit build. *)
Definition sys_maxsize : Z := 2 ^ 63 - 1.

End Py.

(** ** NumPy arrays as nested lists *)

Module Np.

(** One axis of [n] entries, all [x]. *)
Definition zeros {A : Type} (n : Z) (x : A) : list A := repeat x (Z.to_nat n).

(** [a.shape[0]] and [a.shape[1]], [a.shape[2]], [a.shape[3]]: an axis below
    an empty axis reads [0]. *)
Definition shape0 {A : Type} (a : list A) : Z := Z.of_nat (length a).
Definition shape1 {A : Type} (a : list (list A)) : Z := shape0 (hd [] a).
Definition shape2 {A : Type} (a : list (list (list A))) : Z := shape1 (hd [] a).
Definition shape3 {A : Type} (a : list (list (list (list A)))) : Z :=
  shape2 (hd [] a).

(** [a[i]] for an index known to be in range (a loop variable). *)
Definition get {A : Type} (d : A) (a : list A) (i : Z) : A :=
  nth (Z.to_nat i) a d.

(** [a[i] = v]: [IndexError] outside [-n..n-1]. *)
Definition norm_index (n i : Z) : result Z :=
  if (0 <=? i) && (i <? n) then Ok i
  else if (- n <=? i) && (i <? 0) then Ok (i + n)
  else Raise IndexError.

Fixpoint set_nth {A : Type} (i : nat) (v : A) (a : list A) : list A :=
  match a, i with
  | [], _ => []
  | _ :: a', O => v :: a'
  | x :: a', S i' => x :: set_nth i' v a'
  end.

(** Broadcasting one axis of a value to length [n]: equal lengths pass, a
    length-one axis is repeated, anything else is the [ValueError]
    "could not broadcast input array". *)
Definition bcast {A : Type} (n : Z) (v : list A) : result (list A) :=
  if shape0 v =? n then Ok v
  else match v with
       | [x] => Ok (zeros n x)
       | _ => Raise ValueError
       end.

Fixpoint map_result {A B : Type} (f : A -> result B) (l : list A)
  : result (list B) :=
  match l with
  | [] => Ok []
  | x :: l' => y <- f x ;; ys <- map_result f l' ;; Ok (y :: ys)
  end.

(** Broadcasting a [h' x w' x c'] value to shape [(h, w, c)]. *)
Definition bcast3 {A : Type} (h w c : Z) (v : list (list (list A)))
  : result (list (list (list A))) :=
  rows <- bcast h v ;;
  map_result (fun row => cols <- bcast w row ;; map_result (bcast c) cols) rows.

(** [a[lo0:hi0, lo1:hi1, :]] on a [h x w x c] array. *)
Definition slice2 {A : Type} (lo0 hi0 lo1 hi1 : Z) (a : list (list A))
  : list (list A) :=
  map (Py.slice lo1 hi1) (Py.slice lo0 hi0 a).

(** Index-wise map, the index counted from [i]. *)
Fixpoint imap_from {A B : Type} (f : Z -> A -> B) (i : Z) (l : list A) : list B :=
  match l with
  | [] => []
  | x :: l' => f i x :: imap_from f (i + 1) l'
  end.

(** Position [p] of an axis of length [n] lies in the slice [lo:hi]. *)
Definition in_slice (n lo hi p : Z) : bool :=
  (Py.clamp n lo <=? p) && (p <? Py.clamp n hi).

(** An in-place update of the slice [a[lo:hi]]: the element at position [p]
    of the slice (offset [p - lo'] from its clipped start) is replaced by
    [f (p - lo') a[p]], the rest of [a] stays. *)
Definition update_slice {A : Type} (lo hi : Z) (f : Z -> A -> A) (a : list A)
  : list A :=
  let n := shape0 a in
  imap_from (fun p x =>
               if in_slice n lo hi p then f (p - Py.clamp n lo) x else x) 0 a.

(** Length of the slice [a[lo:hi]] of an axis of length [n]. *)
Definition slice_len (n lo hi : Z) : Z := Z.max 0 (Py.clamp n hi - Py.clamp n lo).

End Np.

(** ** Pixels

    A float32 sample is the rational number it denotes; the sums and
    quotients that the code computes in a float32 array are rounded to
    binary32 as the hardware does (to nearest, ties to even). A sample that
    is not finite (an overflow, or a division by a zero count, where NumPy
    yields [inf] or [nan] with a warning and no exception) is [NonFinite],
    and stays so under further arithmetic. *)

Inductive f32 : Type :=
| Fin (q : Q)
| NonFinite.

Module F32.

(** [2^e] for an integer [e]. *)
Definition pow2 (e : Z) : Q :=
  if 0 <=? e then inject_Z (2 ^ e) else (1 / inject_Z (2 ^ (- e)))%Q.

(** [floor(log2 |q|)] for [q <> 0]. *)
Definition floor_log2 (q : Q) : Z :=
  let k := Z.log2 (Z.abs (Qnum q)) - Z.log2 (Zpos (Qden q)) in
  if Qle_bool (pow2 k) (Qabs q) then k else k - 1.

(** The integer nearest to [q], the even one of the two when [q] lies
    halfway. *)
Definition round_even (q : Q) : Z :=
  let f := Qnum q / Zpos (Qden q) in
  match 2 * (Qnum q mod Zpos (Qden q)) ?= Zpos (Qden q) with
  | Lt => f
  | Gt => f + 1
  | Eq => if Z.even f then f else f + 1
  end.

(** Rounding to binary32, to nearest and ties to even: 24 significant bits,
    the last place never below [2^-149], overflow from [2^128] on. *)
Definition round (q : Q) : f32 :=
  let q := Qred q in
  if Qeq_bool q 0 then Fin 0
  else
    let e := Z.max (-149) (floor_log2 q - 23) in
    let r := (inject_Z (round_even (q / pow2 e)) * pow2 e)%Q in
    if Qle_bool (pow2 128) (Qabs r) then NonFinite else Fin (Qred r).

(** [2^-24], half the distance between 1 and the next binary32 value, and
    [2^-150], half the smallest positive one. *)
Definition eps : Q := 1 # 16777216.
Definition tiny : Q := Qmake 1 (2 ^ 150).

End F32.

(** [a + b] in a float32 array. *)
Definition f32_add (a b : f32) : f32 :=
  match a, b with
  | Fin x, Fin y => F32.round (x + y)
  | _, _ => NonFinite
  end.

(** [np.true_divide] of a float32 sample by a count. *)
Definition true_divide (a : f32) (n : Z) : f32 :=
  match a with
  | Fin x => if n =? 0 then NonFinite else F32.round (x / inject_Z n)
  | NonFinite => NonFinite
  end.

(** [a * k] for a float32 sample and a Python integer. *)
Definition f32_scale (a : f32) (k : Z) : f32 :=
  match a with
  | Fin x => F32.round (x * inject_Z k)
  | NonFinite => NonFinite
  end.

(** Arrays: [H x W x C] images and [N x H x W x C] volumes. *)
Definition image (A : Type) := list (list (list A)).
Definition volume (A : Type) := list (image A).

(** ** Foreground ratio estimator (data.py, lines 296-314) *)

(** The truth value of [mask[i][j] == class_tag]: a scalar compares directly;
    a channel vector compares elementwise and has a truth value only when it
    holds one element (more is a [ValueError], none is false). *)
Class PyEqTag (A : Type) := eq_tag : A -> Z -> result bool.

#[export] Instance PyEqTag_scalar : PyEqTag Q :=
  fun v tag => Ok (Qeq_bool v (inject_Z tag)).

#[export] Instance PyEqTag_channels : PyEqTag (list Q) :=
  fun v tag =>
    match v with
    | [] => Ok false
    | [x] => Ok (Qeq_bool x (inject_Z tag))
    | _ => Raise ValueError
    end.

Definition __foreground_percentage {A : Type} `{PyEqTag A} (d : A)
           (mask : list (list A)) (class_tag : Z) : result Q :=
  c <- Py.for_range 0 (Np.shape0 mask) 1 (fun i c =>
         Py.for_range 0 (Np.shape1 mask) 1 (fun j c =>
           b <- eq_tag (Np.get d (Np.get [] mask i) j) class_tag ;;
           Ok (if b then c + 1 else c)) c) 0 ;;
  if Np.shape0 mask * Np.shape1 mask =? 0 then Raise ZeroDivisionError
  else Ok (inject_Z (c * 100) / inject_Z (Np.shape0 mask * Np.shape1 mask))%Q.

(** ** Overlap layout (data.py, lines 478-486 and 580-588, 500-519 and 593-612) *)

(** One iteration of the search loop over the state [(min_d, rows, columns)]. *)
Definition layout_step (subdivision : Z) (i : Z) (st : Z * Z * Z) : Z * Z * Z :=
  let '(min_d, rows, columns) := st in
  if (subdivision mod i =? 0) && (Z.abs (subdivision / i - i) <? min_d)
  then (Z.abs (subdivision / i - i), i, Py.int_div subdivision i)
  else st.

(** The minimum-overlap configuration [(rows, columns)]; the loop is written
    twice in the source with the same statements. *)
Definition min_overlap_layout (subdivision : Z) : Z * Z :=
  let '(_, rows, columns) :=
    fold_left (fun st i => layout_step subdivision i st)
              (Py.range_list 1 (Py.int_div subdivision 2 + 1) 1)
              (Py.sys_maxsize, 1, 1) in
  (rows, columns).

(** Overlap, remainder and step along one axis of length [dim] carrying [k]
    tiles: [(y_ov, r_y, step_y)] and [(x_ov, r_x, step_x)]. *)
Definition axis_overlap (dim window_size k : Z) : Z * Z * Z :=
  if negb (k =? 1) then
    let ov := Py.int_div (Z.abs (dim - window_size * k)) (k - 1) in
    (ov, Z.abs (dim - window_size * k) mod (k - 1), window_size - ov)
  else (0, 0, dim).

(** [d_y] and [d_x]: the last crop on an axis is moved back by the remainder. *)
Definition last_offset (i window_size dim r : Z) : Z :=
  if i + window_size <? dim then 0 else r.

(** ** Helpers shared by the croppers and the merger *)

Module Arr.

(** [np.zeros((h, w, c))] and [np.zeros((n, h, w, c))]: a negative dimension
    is a [ValueError]. *)
Definition zeros3 {A : Type} (h w c : Z) (x : A) : result (image A) :=
  if (h <? 0) || (w <? 0) || (c <? 0) then Raise ValueError
  else Ok (Np.zeros h (Np.zeros w (Np.zeros c x))).

Definition zeros4 {A : Type} (n h w c : Z) (x : A) : result (volume A) :=
  if n <? 0 then Raise ValueError
  else img <- zeros3 h w c x ;; Ok (Np.zeros n img).

(** [a[k]] with the bounds check of an integer index. *)
Definition item {A : Type} (d : A) (a : list A) (k : Z) : result A :=
  k' <- Np.norm_index (Np.shape0 a) k ;; Ok (Np.get d a k').

Definition bcast4 {A : Type} (n h w c : Z) (v : volume A) : result (volume A) :=
  imgs <- Np.bcast n v ;; Np.map_result (Np.bcast3 h w c) imgs.

(** [a[cont] = tile] on an array of [h x w x c] tiles. *)
Definition set_tile {A : Type} (h w c : Z) (a : volume A) (cont : Z)
           (tile : image A) : result (volume A) :=
  i <- Np.norm_index (Np.shape0 a) cont ;;
  t <- Np.bcast3 h w c tile ;;
  Ok (Np.set_nth (Z.to_nat i) t a).

Fixpoint zip_with {A B C : Type} (f : A -> B -> C) (l : list A) (l' : list B)
  : list C :=
  match l, l' with
  | x :: t, y :: t' => f x y :: zip_with f t t'
  | _, _ => []
  end.

(** [a[lo0:hi0, lo1:hi1, :] += 1] on a count matrix. *)
Definition incr_window (lo0 hi0 lo1 hi1 : Z) (a : image Z) : image Z :=
  Np.update_slice lo0 hi0
    (fun _ row => Np.update_slice lo1 hi1 (fun _ px => map (Z.add 1) px) row) a.

(** [a[lo0:hi0, lo1:hi1, :] += tile] on an [h x w x c] image: the tile must
    broadcast to the shape of the window. *)
Definition add_window (h w c : Z) (lo0 hi0 lo1 hi1 : Z) (tile : image Q)
           (a : image f32) : result (image f32) :=
  t <- Np.bcast3 (Np.slice_len h lo0 hi0) (Np.slice_len w lo1 hi1) c tile ;;
  Ok (Np.update_slice lo0 hi0
        (fun oy row =>
           Np.update_slice lo1 hi1
             (fun ox px =>
                zip_with (fun m v => f32_add m (Fin v)) px
                         (Np.get [] (Np.get [] t oy) ox)) row) a).

(** [a[lo:hi, col] = v] and [a[row, lo:hi] = v] on an array whose first two
    axes have lengths [h] and [w]: the integer index is checked against its
    axis. *)
Definition set_column {A : Type} (w : Z) (lo hi col : Z) (v : A) (a : image A)
  : result (image A) :=
  col' <- Np.norm_index w col ;;
  Ok (Np.update_slice lo hi
        (fun _ row =>
           Np.update_slice col' (col' + 1) (fun _ px => map (fun _ => v) px) row) a).

Definition set_row {A : Type} (h : Z) (row lo hi : Z) (v : A) (a : image A)
  : result (image A) :=
  row' <- Np.norm_index h row ;;
  Ok (Np.update_slice row' (row' + 1)
        (fun _ r => Np.update_slice lo hi (fun _ px => map (fun _ => v) px) r) a).

(** [np.true_divide(img, overlap_matrix)], elementwise. *)
Definition divide_image (img : image f32) (overlap_matrix : image Z) : image f32 :=
  zip_with (zip_with (zip_with true_divide)) img overlap_matrix.

End Arr.

(** ** Overlap tiler (data.py, lines 441-537) *)

(** Lines 527-532: the body of the innermost loop, on the state
    [(cropped_data, cropped_data_mask, cont)]. *)
Definition crop_one (data data_mask : volume Q) (window_size r_y r_x : Z)
           (k i j : Z) (st : volume Q * volume Q * Z)
  : result (volume Q * volume Q * Z) :=
  let '(cropped_data, cropped_data_mask, cont) := st in
  let d_y := last_offset i window_size (Np.shape1 data) r_y in
  let d_x := last_offset j window_size (Np.shape2 data) r_x in
  cropped_data <-
    Arr.set_tile window_size window_size (Np.shape3 data) cropped_data cont
      (Np.slice2 (i - d_y) (i + window_size) (j - d_x) (j + window_size)
                 (Np.get [] data k)) ;;
  img_mask <- Arr.item [] data_mask k ;;
  cropped_data_mask <-
    Arr.set_tile window_size window_size (Np.shape3 data) cropped_data_mask cont
      (Np.slice2 (i - d_y) (i + window_size) (j - d_x) (j + window_size)
                 img_mask) ;;
  Ok (cropped_data, cropped_data_mask, cont + 1).

Definition crop_data_with_overlap (data data_mask : volume Q)
           (window_size subdivision : Z) : result (volume Q * volume Q) :=
  _ <- assert ((subdivision mod 2 =? 0) || (subdivision =? 1)) ;;
  _ <- assert (window_size <=? Np.shape1 data) ;;
  _ <- assert (window_size <=? Np.shape2 data) ;;
  (* Crop data *)
  let total_cropped := Np.shape0 data * subdivision in
  cropped_data <- Arr.zeros4 total_cropped window_size window_size
                             (Np.shape3 data) 0%Q ;;
  cropped_data_mask <- Arr.zeros4 total_cropped window_size window_size
                                  (Np.shape3 data) 0%Q ;;
  (* Find the minimum overlap configuration *)
  let '(rows, columns) := min_overlap_layout subdivision in
  _ <- (if negb (subdivision =? 1) then
          _ <- assert (window_size * rows >=? Np.shape1 data) ;;
          assert (window_size * columns >=? Np.shape2 data)
        else Ok tt) ;;
  let '(y_ov, r_y, step_y) := axis_overlap (Np.shape1 data) window_size rows in
  let '(x_ov, r_x, step_x) := axis_overlap (Np.shape2 data) window_size columns in
  (* Create the crops *)
  '(cropped_data, cropped_data_mask, _) <-
    Py.for_range 0 (Np.shape0 data) 1 (fun k st =>
      Py.for_range 0 (Np.shape1 data - y_ov) step_y (fun i st =>
        Py.for_range 0 (Np.shape2 data - x_ov) step_x (fun j st =>
          crop_one data data_mask window_size r_y r_x k i j st) st) st)
      (cropped_data, cropped_data_mask, 0) ;;
  Ok (cropped_data, cropped_data_mask).

(** ** Overlap merger (data.py, lines 540-701)

    [original_shape] is [(width, height)]. With [ov_map] (the default) the
    function also paints a map of the overlaps over one merged image and
    saves it as a PNG file: the model returns, next to the merged volume,
    the pictures saved. What the file system does with a file written in a
    directory is the parameter [accepts]. The crops are float32 arrays, as
    the tiler builds them. *)

(** The overlap-count matrix (lines 574-575, 580-620). *)
Definition overlap_matrix_of (original_shape : Z * Z) (channels : Z)
           (window_size subdivision : Z) : result (image Z) :=
  let '(os0, os1) := original_shape in
  overlap_matrix <- Arr.zeros3 os1 os0 channels 0 ;;
  let '(rows, columns) := min_overlap_layout subdivision in
  let '(y_ov, r_y, step_y) := axis_overlap os1 window_size rows in
  let '(x_ov, r_x, step_x) := axis_overlap os0 window_size columns in
  Py.for_range 0 (os1 - y_ov) step_y (fun i m =>
    Py.for_range 0 (os0 - x_ov) step_x (fun j m =>
      let d_y := last_offset i window_size os1 r_y in
      let d_x := last_offset j window_size os0 r_x in
      Ok (Arr.incr_window (i - d_y) (i + window_size) (j - d_x) (j + window_size) m))
      m) overlap_matrix.

(** Lines 643-646: the body of the innermost merging loop, on the state
    [(merged_data, cont)]. *)
Definition merge_one (data : volume Q) (os0 os1 window_size r_y r_x : Z)
           (k i j : Z) (st : volume f32 * Z) : result (volume f32 * Z) :=
  let '(merged_data, cont) := st in
  let d_y := last_offset i window_size os1 r_y in
  let d_x := last_offset j window_size os0 r_x in
  tile <- Arr.item [] data cont ;;
  img <- Arr.add_window os1 os0 (Np.shape3 data)
           (i - d_y) (i + window_size) (j - d_x) (j + window_size)
           tile (Np.get [] merged_data k) ;;
  Ok (Np.set_nth (Z.to_nat k) img merged_data, cont + 1).

(** Line 648: [merged_data[k] = np.true_divide(merged_data[k], overlap_matrix)]. *)
Definition normalize (overlap_matrix : image Z) (k : Z) (st : volume f32 * Z)
  : volume f32 * Z :=
  let '(merged_data, cont) := st in
  (Np.set_nth (Z.to_nat k)
     (Arr.divide_image (Np.get [] merged_data k) overlap_matrix) merged_data,
   cont).

(** Lines 622-633: the border of the crop at [(i, j)] is marked with [-4]
    in the map. *)
Definition mark_border (os0 os1 window_size r_y r_x : Z) (i j : Z)
           (ov_map_matrix : image Z) : result (image Z) :=
  let d_y := last_offset i window_size os1 r_y in
  let d_x := last_offset j window_size os0 r_x in
  m <- Arr.set_column os0 (i - d_y) (i + window_size - 1) (j - d_x) (-4)
                      ov_map_matrix ;;
  m <- Arr.set_column os0 (i - d_y) (i + window_size - 1)
                      (j + window_size - 1 - d_x) (-4) m ;;
  m <- Arr.set_row os1 (i - d_y) (j - d_x) (j + window_size - 1) (-4) m ;;
  Arr.set_row os1 (i + window_size - 1 - d_y) (j - d_x) (j + window_size - 1)
              (-4) m.

(** Lines 653-655: the counts of the map become the codes [-1] (8 crops or
    more), [-2] (3 to 7 crops) and [-3] (2 crops). *)
Definition overlap_codes (ov_map_matrix : image Z) : image Z :=
  let recode (least code x : Z) := if least <=? x then code else x in
  map (map (map (fun x => recode 2 (-3) (recode 3 (-2) (recode 8 (-1) x)))))
      ov_map_matrix.

(** A pixel of the saved map: what PIL makes of a float32 sample when the
    image is converted to RGB, or a colour painted over it. *)
Inductive colour : Type :=
| Rendered (v : f32)
| Painted (r g b : Z).

(** A picture saved by the code as [os.path.join(out_dir, file_name)]. *)
Record saved_image : Type := {
  file_directory : string;
  file_name : string;
  file_pixels : list (list colour)
}.

(** Lines 664-691: the colour of a pixel of the map, from the code of the
    map and the merged sample. *)
Definition overlap_colour (code : Z) (sample : f32) (old : colour) : colour :=
  let white := match sample with
               | Fin q => Qeq_bool q 1
               | NonFinite => false
               end in
  if code =? -4 then Painted 255 255 255
  else if code =? -3 then
    if white then Painted 73 100 73 else Painted 0 74 0
  else if code =? -2 then
    if white then Painted 100 100 73 else Painted 74 74 0
  else if code =? -1 then
    if white then Painted 100 73 73 else Painted 74 0 0
  else old.

(** Lines 657-693: the picture built from [merged_data[ov_data_img, :, :, 0]]
    times 255. The test [ov_map_matrix[im_j, im_i] == -4] compares the whole
    channel vector: with more than one channel its truth value is a
    [ValueError]. *)
Definition overlap_picture (os0 os1 channels : Z) (ov_map_matrix : image Z)
           (merged_data : volume f32) (ov_data_img : Z)
  : result (list (list colour)) :=
  img <- Arr.item [] merged_data ov_data_img ;;
  _ <- Np.norm_index channels 0 ;;
  let im := map (map (fun px => Rendered (f32_scale (Np.get NonFinite px 0) 255)))
                img in
  Py.for_range 0 os0 1 (fun im_i im =>
    Py.for_range 0 os1 1 (fun im_j im =>
      match Np.get [] (Np.get [] ov_map_matrix im_j) im_i with
      | [] => Ok im
      | [code] =>
          let row := Np.get [] im im_j in
          let sample :=
            Np.get NonFinite (Np.get [] (Np.get [] img im_j) im_i) 0 in
          Ok (Np.set_nth (Z.to_nat im_j)
                (Np.set_nth (Z.to_nat im_i)
                   (overlap_colour code sample
                      (Np.get (Rendered NonFinite) row im_i)) row) im)
      | _ => Raise ValueError
      end) im) im.

(** [im.save(os.path.join(out_dir, name))]: the file system accepts the file
    or the call raises an [OSError] (a missing directory, for one). *)
Definition save_image (accepts : string -> bool) (out_dir name : string)
           (im : list (list colour)) : result saved_image :=
  if accepts out_dir
  then Ok {| file_directory := out_dir; file_name := name; file_pixels := im |}
  else Raise OSError.

Definition merge_data_with_overlap (accepts : string -> bool)
           (data : volume Q) (original_shape : Z * Z)
           (window_size subdivision : Z) (out_dir : string) (ov_map : bool)
           (ov_data_img : Z) : result (volume f32 * list saved_image) :=
  let '(os0, os1) := original_shape in
  (* Merged data *)
  _ <- (if subdivision =? 0 then Raise ZeroDivisionError else Ok tt) ;;
  let total_images := Py.int_div (Np.shape0 data) subdivision in
  merged_data <- Arr.zeros4 total_images os1 os0 (Np.shape3 data) (Fin 0) ;;
  (* Calculate the overlapping matrix; the same loop adds the same counts to
     the map *)
  overlap_matrix <- overlap_matrix_of original_shape (Np.shape3 data)
                                      window_size subdivision ;;
  let '(rows, columns) := min_overlap_layout subdivision in
  let '(y_ov, r_y, step_y) := axis_overlap os1 window_size rows in
  let '(x_ov, r_x, step_x) := axis_overlap os0 window_size columns in
  (* Mark the border of each crop in the map *)
  ov_map_matrix <-
    (if ov_map then
       Py.for_range 0 (os1 - y_ov) step_y (fun i m =>
         Py.for_range 0 (os0 - x_ov) step_x (fun j m =>
           mark_border os0 os1 window_size r_y r_x i j m) m) overlap_matrix
     else Ok overlap_matrix) ;;
  (* Merge the overlapping crops *)
  '(merged_data, _) <-
    Py.for_range 0 total_images 1 (fun k st =>
      st <- Py.for_range 0 (os1 - y_ov) step_y (fun i st =>
              Py.for_range 0 (os0 - x_ov) step_x (fun j st =>
                merge_one data os0 os1 window_size r_y r_x k i j st) st) st ;;
      Ok (normalize overlap_matrix k st))
      (merged_data, 0) ;;
  (* Save a copy of the merged data with the overlapped regions colored *)
  files <-
    (if ov_map then
       im <- overlap_picture os0 os1 (Np.shape3 data)
                             (overlap_codes ov_map_matrix) merged_data
                             ov_data_img ;;
       file <- save_image accepts out_dir "merged_ov_map.png" im ;;
       Ok [file]
     else Ok []) ;;
  Ok (merged_data, files).

(** ** Grid cropper (data.py, lines 317-438) *)

Module Grid.

(** [r[:n, :h, :w, :c] = data] on an [n' x h' x w' x c'] array [r]: the data
    must broadcast to the shape of the (clipped) window. *)
Definition paste (n' h' w' c' : Z) (n h w c : Z) (data r : volume Q)
  : result (volume Q) :=
  v <- Arr.bcast4 (Np.slice_len n' 0 n) (Np.slice_len h' 0 h)
                  (Np.slice_len w' 0 w) (Np.slice_len c' 0 c) data ;;
  Ok (Np.update_slice 0 n (fun k img =>
        Np.update_slice 0 h (fun y row =>
          Np.update_slice 0 w (fun x px =>
            Np.update_slice 0 c (fun ch _ =>
              Np.get 0%Q (Np.get [] (Np.get [] (Np.get [] v k) y) x) ch) px)
            row) img) r).

(** Lines 345-351: the number of crops per axis. *)
Definition layout (data : volume Q) (crop_shape force_shape : Z * Z)
  : result (Z * Z) :=
  let '(cs0, cs1) := crop_shape in
  if (fst force_shape =? 0) && (snd force_shape =? 0) then
    _ <- (if cs0 =? 0 then Raise ZeroDivisionError else Ok tt) ;;
    let h_num := Py.int_div (Np.shape1 data) cs0
                 + (if Np.shape1 data mod cs0 >? 0 then 1 else 0) in
    _ <- (if cs1 =? 0 then Raise ZeroDivisionError else Ok tt) ;;
    let v_num := Py.int_div (Np.shape2 data) cs1
                 + (if Np.shape2 data mod cs1 >? 0 then 1 else 0) in
    Ok (h_num, v_num)
  else Ok force_shape.

(** Lines 356-365: the zero-padded copy of an array. *)
Definition resize (h_num v_num : Z) (crop_shape : Z * Z) (data : volume Q)
  : result (volume Q) :=
  let '(cs0, cs1) := crop_shape in
  r_data <- Arr.zeros4 (Np.shape0 data) (h_num * cs1) (v_num * cs0)
                       (Np.shape3 data) 0%Q ;;
  paste (Np.shape0 data) (h_num * cs1) (v_num * cs0) (Np.shape3 data)
        (Np.shape0 data) (Np.shape1 data) (Np.shape2 data) (Np.shape3 data)
        data r_data.

(** The window of crop [(i, j)] of image [img]:
    [img[(i*cs0):((i+1)*cs1), (j*cs0):((j+1)*cs1), :]]. *)
Definition window (crop_shape : Z * Z) (img : image Q) (i j : Z) : image Q :=
  let '(cs0, cs1) := crop_shape in
  Np.slice2 (i * cs0) ((i + 1) * cs1) (j * cs0) ((j + 1) * cs1) img.

(** Lines 375-388: the indices of the crops to keep and the number of
    discarded ones. *)
Definition select (n h_num v_num : Z) (crop_shape : Z * Z)
           (r_data_mask : volume Q) (d_percentage : Q)
  : result (list Z * Z) :=
  '(selected_images, discarded, _) <-
    Py.for_range 0 n 1 (fun img_num st =>
      Py.for_range 0 h_num 1 (fun i st =>
        Py.for_range 0 v_num 1 (fun j st =>
          let '(selected_images, discarded, cont) := st in
          img <- Arr.item [] r_data_mask img_num ;;
          p <- __foreground_percentage [] (window crop_shape img i j) 1 ;;
          if negb (Qle_bool p d_percentage)
          then Ok (selected_images ++ [cont], discarded, cont + 1)
          else Ok (selected_images, discarded + 1, cont + 1)) st) st)
      ([], 0, 0) ;;
  Ok (selected_images, discarded).

End Grid.

Definition crop_data (data : volume Q) (crop_shape : Z * Z)
           (data_mask : option (volume Q)) (force_shape : Z * Z)
           (d_percentage : Q)
  : result (volume Q * option (volume Q) * (Z * Z)) :=
  let '(cs0, cs1) := crop_shape in
  (* Calculate the number of images to be generated *)
  '(h_num, v_num) <- Grid.layout data crop_shape force_shape ;;
  let force_shape := (h_num, v_num) in
  let total_cropped := Np.shape0 data * h_num * v_num in
  (* Resize data to adjust to a value divisible by height and width *)
  r_data <- Grid.resize h_num v_num crop_shape data ;;
  r_data_mask <- match data_mask with
                 | Some m => r <- Grid.resize h_num v_num crop_shape m ;; Ok (Some r)
                 | None => Ok None
                 end ;;
  let discarding := negb (Qle_bool d_percentage 0) in
  (* Discard images from the data set *)
  '(selected_images, discarded) <-
    match r_data_mask with
    | Some rm =>
        if discarding
        then Grid.select (Np.shape0 data) h_num v_num crop_shape rm d_percentage
        else Ok ([], 0)
    | None => Ok ([], 0)
    end ;;
  (* Crop data *)
  cropped_data <- Arr.zeros4 (total_cropped - discarded) cs1 cs0
                             (Np.shape3 data) 0%Q ;;
  cropped_data_mask <-
    match data_mask with
    | Some m => c <- Arr.zeros4 (total_cropped - discarded) cs1 cs0
                                (Np.shape3 m) 0%Q ;; Ok (Some c)
    | None => Ok None
    end ;;
  '(cropped_data, cropped_data_mask, _, _) <-
    Py.for_range 0 (Np.shape0 data) 1 (fun img_num st =>
      Py.for_range 0 h_num 1 (fun i st =>
        Py.for_range 0 v_num 1 (fun j st =>
          let '(cropped_data, cropped_data_mask, cont, l_i) := st in
          let tile := Grid.window crop_shape (Np.get [] r_data img_num) i j in
          match data_mask, r_data_mask, cropped_data_mask with
          | Some m, Some rm, Some cm =>
              if discarding && negb (Np.shape0 selected_images =? 0) then
                sel <- Arr.item 0 selected_images l_i ;;
                if (sel =? cont) || (l_i =? Np.shape0 selected_images - 1) then
                  cropped_data <- Arr.set_tile cs1 cs0 (Np.shape3 data)
                                               cropped_data l_i tile ;;
                  img_mask <- Arr.item [] rm img_num ;;
                  cm <- Arr.set_tile cs1 cs0 (Np.shape3 m) cm l_i
                                     (Grid.window crop_shape img_mask i j) ;;
                  Ok (cropped_data, Some cm, cont + 1,
                      if negb (l_i =? Np.shape0 selected_images - 1)
                      then l_i + 1 else l_i)
                else Ok (cropped_data, Some cm, cont + 1, l_i)
              else
                cropped_data <- Arr.set_tile cs1 cs0 (Np.shape3 data)
                                             cropped_data cont tile ;;
                img_mask <- Arr.item [] rm img_num ;;
                cm <- Arr.set_tile cs1 cs0 (Np.shape3 m) cm cont
                                   (Grid.window crop_shape img_mask i j) ;;
                Ok (cropped_data, Some cm, cont + 1, l_i)
          | _, _, _ =>
              cropped_data <- Arr.set_tile cs1 cs0 (Np.shape3 data)
                                           cropped_data cont tile ;;
              Ok (cropped_data, cropped_data_mask, cont + 1, l_i)
          end) st) st)
      (cropped_data, cropped_data_mask, 0, 0) ;;
  Ok (cropped_data, cropped_data_mask, force_shape).

(** ** Random-crop augmentor (data.py, lines 1732-1780) *)

Module Rand.

(** The state of NumPy's global generator: a stream of raw draws. *)
Definition rng := nat -> Z.

Definition advance (g : rng) : rng := fun n => g (S n).

(** [np.random.randint(low, high)]: some value of [low..high-1]. *)
Definition randint (low high : Z) (g : rng) : result (Z * rng) :=
  if low <? high then Ok (low + g O mod (high - low), advance g)
  else Raise ValueError.

Definition Qsum (p : list Q) : Q := fold_right Qplus 0%Q p.

(** Indices of the entries of [p] with positive weight. *)
Definition support (p : list Q) : list Z :=
  map fst (filter (fun ip => negb (Qle_bool (snd ip) 0))
                  (combine (Py.range_list 0 (Np.shape0 p) 1) p)).

(** [np.random.choice(choices, size=1, p=p)]: an index of positive weight;
    weights that are negative, do not sum to one or do not match [choices]
    are a [ValueError]. *)
Definition choice (choices : Z) (p : list Q) (g : rng) : result (Z * rng) :=
  if negb (Np.shape0 p =? choices)
     || negb (forallb (Qle_bool 0) p)
     || negb (Qeq_bool (Qsum p) 1)
  then Raise ValueError
  else Ok (Np.get 0 (support p) (g O mod Np.shape0 (support p)), advance g).

End Rand.

(** What [random_crop] returns: the two crops, and with
    [draw_prob_map_points] also the sampled point and the crop origin. *)
Inductive crop_result : Type :=
| Crops (img mask : image Q)
| CropsAndPoints (img mask : image Q) (ox oy x y : Z).

(** The origin along one axis in probability-map mode (lines 1760-1772). *)
Definition origin_from_point (p dim size : Z) : Z :=
  if p <? Py.int_div size 2 then 0
  else if p >? dim - Py.int_div size 2 then dim - size
  else p - Py.int_div size 2.

Definition random_crop (img mask : image Q) (random_crop_size : Z * Z)
           (val prob_map draw_prob_map_points : bool)
           (img_prob : option (list (list Q))) (g : Rand.rng)
  : result (crop_result * Rand.rng) :=
  _ <- assert (Np.shape2 img =? 1) ;;
  let height := Np.shape0 img in
  let width := Np.shape1 img in
  let '(dy, dx) := random_crop_size in
  '(x, y, o, g) <-
    (if val then Ok (0, 0, None, g)
     else if prob_map then
       match img_prob with
       | None => Raise AttributeError
       | Some pm =>
           let prob := concat pm in
           let choices := Np.shape0 pm * Np.shape1 pm in
           '(index, g) <- Rand.choice choices prob g ;;
           let x := index mod Np.shape1 pm in
           let y := index / Np.shape1 pm in
           Ok (origin_from_point x (Np.shape1 img) (snd random_crop_size),
               origin_from_point y (Np.shape0 img) (fst random_crop_size),
               Some (x, y), g)
       end
     else
       '(x, g) <- Rand.randint 0 (width - dx + 1) g ;;
       '(y, g) <- Rand.randint 0 (height - dy + 1) g ;;
       Ok (x, y, None, g)) ;;
  let img_crop := Np.slice2 y (y + dy) x (x + dx) img in
  let mask_crop := Np.slice2 y (y + dy) x (x + dx) mask in
  if draw_prob_map_points then
    match o with
    | Some (ox, oy) => Ok (CropsAndPoints img_crop mask_crop ox oy x y, g)
    | None => Raise UnboundLocalError
    end
  else Ok (Crops img_crop mask_crop, g).

(** ** Transform pipeline (data.py, lines 1037-1203) *)

Module Img.

(** [np.flip(im, 0)] and [np.flip(im, 1)]. *)
Definition flip0 {A : Type} (im : list (list A)) : list (list A) := rev im.
Definition flip1 {A : Type} (im : list (list A)) : list (list A) := map (@rev A) im.

(** Column [j] of an image and its transpose. *)
Definition column {A : Type} (d : A) (im : list (list A)) (j : Z) : list A :=
  map (fun row => Np.get d row j) im.
Definition transpose {A : Type} (d : A) (im : list (list A)) : list (list A) :=
  map (column d im) (Py.range_list 0 (Np.shape1 im) 1).

(** [np.rot90(im, k)]: [k] counter-clockwise quarter turns. *)
Definition rot90 {A : Type} (d : A) (im : list (list A)) : list (list A) :=
  rev (transpose d im).
Definition rot90_k {A : Type} (d : A) (k : nat) (im : list (list A))
  : list (list A) := Nat.iter k (rot90 d) im.

(** [__draw_grid]: every [grid_width]-th column and row is set to [v]. *)
Definition draw_grid (im : image Q) (grid_width : Z) (m : bool) : result (image Q) :=
  let v := if m then [1%Q] else [255%Q] in
  cols <- Py.range 0 (Np.shape1 im) grid_width ;;
  rows <- Py.range 0 (Np.shape0 im) grid_width ;;
  let im1 := map (Np.imap_from (fun x px =>
                    if existsb (Z.eqb x) cols
                    then map (fun _ => hd 0%Q v) px else px) 0) im in
  Ok (Np.imap_from (fun y row =>
        if existsb (Z.eqb y) rows
        then map (map (fun _ => hd 0%Q v)) row else row) 0 im1).

(** [int(theta)] on a float. *)
Definition trunc (q : Q) : Z := Z.quot (Qnum q) (Zpos (Qden q)).

End Img.

(** The fields of [ImageDataGenerator] that [apply_transform] reads. *)
Record generator : Type := {
  e_prob : Q;
  elastic : bool;
  vflip : bool;
  hflip : bool;
  rotation90 : bool;
  rotation_range : Q;
  brightness_range : Q * Q;
  median_filter_size : Z * Z;
  squared : bool;
  t_counter : list Z
}.

(** The values returned by the generator calls of one [apply_transform], in
    the order of the calls. *)
Record draws : Type := {
  u_elastic : Q;
  u_flip : Q;
  u_theta : Q;
  u_rot90 : Q;
  u_brightness : Q;
  u_mf_size : Z
}.

(** [self.t_counter[i] += 1]. *)
Definition bump (i : Z) (t_counter : list Z) : list Z :=
  Np.update_slice i (i + 1) (fun _ c => c + 1) t_counter.

Definition Qin (lo u hi : Q) : bool := Qle_bool lo u && negb (Qle_bool hi u).

(** The state threaded through the steps: [trans_image], [trans_mask],
    [transform_string], [transformed], [self.t_counter]. *)
Record tstate : Type := {
  trans_image : image Q;
  trans_mask : image Q;
  transform_string : string;
  transformed : bool;
  counters : list Z
}.

(** Lines 1100-1129: the flip step. *)
Definition flip_step (self : generator) (prob : Q) (s : tstate) : tstate :=
  if vflip self && Qin 0 prob 0.25 then
    {| trans_image := Img.flip0 (trans_image s);
       trans_mask := Img.flip0 (trans_mask s);
       transform_string := transform_string s ++ "_vf";
       transformed := true;
       counters := bump 1 (counters s) |}
  else if hflip self && Qin 0.25 prob 0.5 then
    {| trans_image := Img.flip1 (trans_image s);
       trans_mask := Img.flip1 (trans_mask s);
       transform_string := transform_string s ++ "_hf";
       transformed := true;
       counters := bump 2 (counters s) |}
  else if hflip self && Qin 0.5 prob 0.75 then
    {| trans_image := Img.flip1 (Img.flip0 (trans_image s));
       trans_mask := Img.flip1 (Img.flip0 (trans_mask s));
       transform_string := transform_string s ++ "_hfvf";
       transformed := true;
       counters := bump 2 (bump 1 (counters s)) |}
  else s.

(** Lines 1141-1176: rotations by multiples of 90 degrees. *)
Definition rot90_step (self : generator) (prob : Q) (s : tstate) : tstate :=
  let rot k tag i :=
    {| trans_image := Img.rot90_k [] k (trans_image s);
       trans_mask := Img.rot90_k [] k (trans_mask s);
       transform_string := transform_string s ++ tag;
       transformed := true;
       counters := bump i (counters s) |} in
  if squared self then
    if rotation90 self && Qin 0 prob 0.25 then rot 1%nat "_r90"%string 3
    else if rotation90 self && Qin 0.25 prob 0.5 then rot 2%nat "_r180"%string 4
    else if rotation90 self && Qin 0.5 prob 0.75 then rot 3%nat "_r270"%string 5
    else s
  else
    if rotation90 self && Qin 0 prob 0.5 then rot 2%nat "_r180"%string 4
    else s.

Section Transform.

(** The image-processing collaborators (SciPy, PIL, OpenCV) and the
    number printers. They are taken to return: an exception raised inside
    one of them (OpenCV rejects a median kernel above 5 on 16-bit input, for
    one) is outside this model, and a property that needs them to behave
    says so in its hypotheses. *)
Variable elastic_transform : image Q -> Q -> Q -> Q -> image Q.
Variable ndimage_rotate : image Q -> Q -> Z -> image Q.
Variable enhance_brightness : image Q -> Q -> image Q.
Variable median_blur : image Q -> Z -> image Q.
Variable str_int : Z -> string.
Variable str_round2 : Q -> string.

(** Lines 1079-1097. *)
Definition elastic_step (self : generator) (grid : bool) (prob : Q) (s : tstate)
  : result tstate :=
  if elastic self && negb (Qle_bool (e_prob self) prob) then
    '(im, mk) <- (if grid then
                    im <- Img.draw_grid (trans_image s) 50 false ;;
                    mk <- Img.draw_grid (trans_mask s) 50 true ;;
                    Ok (im, mk)
                  else Ok (trans_image s, trans_mask s)) ;;
    (* np.concatenate(..., axis=2) needs equal heights and widths *)
    _ <- (if (Np.shape0 im =? Np.shape0 mk) && (Np.shape1 im =? Np.shape1 mk)
          then Ok tt else Raise ValueError) ;;
    let im_concat := Arr.zip_with (Arr.zip_with (@app Q)) im mk in
    let w := inject_Z (Np.shape1 im_concat) in
    let im_concat_r :=
      elastic_transform im_concat (w * 2)%Q (w * 0.08)%Q (w * 0.08)%Q in
    Ok {| trans_image := map (map (fun px => [Np.get 0%Q px 0])) im_concat_r;
          trans_mask := map (map (fun px => [Np.get 0%Q px 1])) im_concat_r;
          transform_string := "_e";
          transformed := true;
          counters := bump 0 (counters s) |}
  else Ok s.

(** Lines 1131-1139. *)
Definition free_rotation_step (self : generator) (theta : Q) (s : tstate) : tstate :=
  if negb (Qeq_bool (rotation_range self) 0) then
    {| trans_image := ndimage_rotate (trans_image s) theta 1;
       trans_mask := ndimage_rotate (trans_mask s) theta 0;
       transform_string :=
         transform_string s ++ "_rRange" ++ str_int (Img.trunc theta);
       transformed := true;
       counters := counters s |}
  else s.

(** Lines 1178-1187. *)
Definition brightness_step (self : generator) (brightness : Q) (s : tstate) : tstate :=
  if negb (Qeq_bool (fst (brightness_range self)) 1
           && Qeq_bool (snd (brightness_range self)) 1) then
    {| trans_image := enhance_brightness (trans_image s) brightness;
       trans_mask := trans_mask s;
       transform_string := transform_string s ++ "_b" ++ str_round2 brightness;
       transformed := true;
       counters := counters s |}
  else s.

(** Lines 1189-1198. *)
Definition median_step (self : generator) (mf : Z) (s : tstate) : result tstate :=
  if negb ((fst (median_filter_size self) =? 0)
           && (snd (median_filter_size self) =? 0)) then
    _ <- (if fst (median_filter_size self) <? snd (median_filter_size self)
          then Ok tt else Raise ValueError) ;;
    let mf_size := if mf mod 2 =? 0 then mf + 1 else mf in
    Ok {| trans_image := median_blur (trans_image s) mf_size;
          trans_mask := trans_mask s;
          transform_string := transform_string s ++ "_mf" ++ str_int mf_size;
          transformed := true;
          counters := counters s |}
  else Ok s.

(** [apply_transform]: the transformed image and mask, the description and
    the counters as the call leaves them. *)
Definition apply_transform (self : generator) (im mask : image Q)
           (grid : bool) (d : draws)
  : result (image Q * image Q * string * list Z) :=
  let s := {| trans_image := im; trans_mask := mask;
              transform_string := ""; transformed := false;
              counters := t_counter self |} in
  s <- elastic_step self grid (u_elastic d) s ;;
  let s := flip_step self (u_flip d) s in
  let s := free_rotation_step self (u_theta d) s in
  let s := rot90_step self (u_rot90 d) s in
  let s := brightness_step self (u_brightness d) s in
  s <- median_step self (u_mf_size d) s ;;
  Ok (trans_image s, trans_mask s,
      if transformed s then transform_string s else "_none"%string,
      counters s).

End Transform.

(* ================================================================== *)
(** * Part I, continued: the vocabulary of the properties *)
(* ================================================================== *)

(** The state of the search loop after the candidates [1..m]. *)
Definition layout_after (subdivision : Z) (m : nat) : Z * Z * Z :=
  fold_left (fun st i => layout_step subdivision i st)
            (map (fun t => 1 + Z.of_nat t) (seq 0 m))
            (Py.sys_maxsize, 1, 1).

(** What the search loop guarantees after the candidates [1..m]. *)
Definition layout_inv (subdivision m : Z) (st : Z * Z * Z) : Prop :=
  let '(min_d, rows, columns) := st in
  1 <= rows <= m /\ subdivision mod rows = 0 /\ columns = subdivision / rows
  /\ min_d = Z.abs (columns - rows)
  /\ forall j, 1 <= j <= m -> subdivision mod j = 0 ->
               (min_d <= Z.abs (subdivision / j - j))
               /\ (Z.abs (subdivision / j - j) = min_d -> rows <= j).

(** Pixels of a mask that carry the class value. *)
Definition tagged (class_tag : Z) (l : list Q) : list Q :=
  filter (fun v => Qeq_bool v (inject_Z class_tag)) l.

Definition count_tagged (class_tag : Z) (l : list Q) : Z :=
  Z.of_nat (length (tagged class_tag l)).

Definition mask_4x4 : list (list Q) :=
  [[1; 1; 0; 0]; [1; 1; 0; 0]; [0; 0; 0; 0]; [0; 0; 0; 0]]%Q.

(** What a call returns or raises, the generator state left aside. *)
Definition outcome {A G : Type} (r : result (A * G)) : result A :=
  match r with
  | Ok (a, _) => Ok a
  | Raise e => Raise e
  end.

Definition image_3x3 : image Q :=
  [[[1]; [2]; [3]]; [[4]; [5]; [6]]; [[7]; [8]; [9]]]%Q.
Definition mask_3x3 : image Q :=
  [[[1]; [0]; [0]]; [[0]; [0]; [0]]; [[0]; [0]; [1]]]%Q.
Definition image_rgb : image Q := [[[1; 2; 3]]]%Q.

Definition flips_horizontal_only : generator :=
  {| e_prob := 0; elastic := false; vflip := false; hflip := true;
     rotation90 := false; rotation_range := 0; brightness_range := (1, 1)%Q;
     median_filter_size := (0, 0); squared := true;
     t_counter := [0; 0; 0; 0; 0; 0] |}.

(** A generator whose median filter has the fixed size 3. *)
Definition median_fixed_size : generator :=
  {| e_prob := 0; elastic := false; vflip := true; hflip := true;
     rotation90 := true; rotation_range := 0; brightness_range := (1, 1)%Q;
     median_filter_size := (3, 3); squared := true;
     t_counter := [0; 0; 0; 0; 0; 0] |}.

Definition draws_flip_06 : draws :=
  {| u_elastic := 0.9; u_flip := 0.6; u_theta := 0; u_rot90 := 0.9;
     u_brightness := 1; u_mf_size := 0 |}.

(** A single-channel [h x w] image whose pixel [(y, x)] is [f y x]. *)
Definition tabulate (h w : Z) (f : Z -> Z -> Z) : image Q :=
  map (fun y => map (fun x => [inject_Z (f y x)]) (Py.range_list 0 w 1))
      (Py.range_list 0 h 1).

Definition data_2x2 : volume Q := [[[[10]; [20]]; [[30]; [40]]]]%Q.
Definition mask_2x2 : volume Q := [[[[1]; [0]]; [[0]; [0]]]]%Q.
Definition data_5x5 : volume Q := [tabulate 5 5 (fun y x => 10 * y + x)].

Definition volume_6x6 : volume Q := [tabulate 6 6 (fun y x => 10 * y + x)].
Definition volume_4x4 : volume Q := [tabulate 4 4 (fun y x => 10 * y + x)].

(** The float32 value nearest to 173/255, a 6x7 image that holds it at every
    pixel, and 4x4 images of two channels and of none. *)
Definition sample_173 : Q := 5691095 # 8388608.
Definition volume_6x7 : volume Q := [Np.zeros 6 (Np.zeros 7 [sample_173])].
Definition volume_two_channels : volume Q := [Np.zeros 4 (Np.zeros 4 [1; 1]%Q)].
Definition volume_no_channel : volume Q := [Np.zeros 4 (Np.zeros 4 [])].

(** The sample at row [y], column [x], channel [c] of an image. *)
Definition px3 {A : Type} (d : A) (a : image A) (y x c : Z) : A :=
  Np.get d (Np.get [] (Np.get [] a y) x) c.

(** A well-formed [h x w x c] image, and a volume of [n] of them. *)
Definition rect3 {A : Type} (h w c : Z) (a : image A) : Prop :=
  Np.shape0 a = h
  /\ Forall (fun row => Np.shape0 row = w
                        /\ Forall (fun px => Np.shape0 px = c) row) a.

Definition rect4 {A : Type} (n h w c : Z) (v : volume A) : Prop :=
  Np.shape0 v = n /\ Forall (rect3 h w c) v.

(** The loop positions [range(0, dim - ov, step)] along an axis, and the
    slice bounds of the crop at position [i]. *)
Definition axis_ov (dim window_size k : Z) : Z :=
  fst (fst (axis_overlap dim window_size k)).
Definition axis_rem (dim window_size k : Z) : Z :=
  snd (fst (axis_overlap dim window_size k)).
Definition axis_step (dim window_size k : Z) : Z :=
  snd (axis_overlap dim window_size k).

Definition axis_steps (dim window_size k : Z) : list Z :=
  Py.range_list 0 (dim - axis_ov dim window_size k) (axis_step dim window_size k).

Definition axis_window (dim window_size k i : Z) : Z * Z :=
  (i - last_offset i window_size dim (axis_rem dim window_size k), i + window_size).

(** The precondition of the tiler on one axis, with the window strictly
    shorter than an axis that carries several tiles. *)
Definition axis_ok (dim window_size k : Z) : Prop :=
  1 <= window_size /\ window_size <= dim <= window_size * k
  /\ (k = 1 \/ (2 <= k /\ window_size < dim)).

(** A window is the pair of slices [(lo0, hi0, lo1, hi1)] of one crop. *)
Definition covers (h w : Z) (win : Z * Z * Z * Z) (y x : Z) : bool :=
  let '(lo0, hi0, lo1, hi1) := win in
  Np.in_slice h lo0 hi0 y && Np.in_slice w lo1 hi1 x.

(** The number of windows of a list that contain the pixel [(y, x)]. *)
Definition cover_count (h w : Z) (wins : list (Z * Z * Z * Z)) (y x : Z) : Z :=
  fold_right (fun win n => (if covers h w win y x then 1 else 0) + n) 0 wins.

(** The crop at loop position [ij] of an image. *)
Definition position_window (window_size h w r_y r_x : Z) (ij : Z * Z)
  : Z * Z * Z * Z :=
  (fst ij - last_offset (fst ij) window_size h r_y, fst ij + window_size,
   snd ij - last_offset (snd ij) window_size w r_x, snd ij + window_size).

(** The windows of the crops of one [h x w] image, in loop order. *)
Definition crop_window (h w window_size rows columns : Z) (ij : Z * Z)
  : Z * Z * Z * Z :=
  position_window window_size h w (axis_rem h window_size rows)
                  (axis_rem w window_size columns) ij.

Definition crop_windows (h w window_size rows columns : Z)
  : list (Z * Z * Z * Z) :=
  map (crop_window h w window_size rows columns)
      (list_prod (axis_steps h window_size rows) (axis_steps w window_size columns)).

Definition incr_win (win : Z * Z * Z * Z) (m : image Z) : image Z :=
  let '(lo0, hi0, lo1, hi1) := win in Arr.incr_window lo0 hi0 lo1 hi1 m.

(** ** Layouts on which the tiler works

    On an axis with several tiles the tiler needs the remainder to be smaller
    than the step: then the axis carries exactly [k] crops, the last one
    moved back by the remainder, and every crop is [window_size] long. *)
Definition axis_good (dim window_size k : Z) : Prop :=
  axis_ok dim window_size k
  /\ (k <> 1 -> axis_rem dim window_size k < axis_step dim window_size k).

Definition window_tile (win : Z * Z * Z * Z) (img : image Q) : image Q :=
  let '(lo0, hi0, lo1, hi1) := win in Np.slice2 lo0 hi0 lo1 hi1 img.

(** The crops of a volume: image by image, window by window. *)
Definition tiles_of (wins : list (Z * Z * Z * Z)) (v : volume Q) : volume Q :=
  flat_map (fun img => map (fun win => window_tile win img) wins) v.

(** The effect of [m[lo0:hi0, lo1:hi1, :] += tile] when the tile has the
    shape of the window. *)
Definition add_tile (win : Z * Z * Z * Z) (tile : image Q) (m : image f32)
  : image f32 :=
  let '(lo0, hi0, lo1, hi1) := win in
  Np.update_slice lo0 hi0
    (fun oy row =>
       Np.update_slice lo1 hi1
         (fun ox px =>
            Arr.zip_with (fun a v => f32_add a (Fin v)) px
                         (Np.get [] (Np.get [] tile oy) ox)) row) m.

(** A rational that binary32 holds without rounding. *)
Definition is_f32 (q : Q) : Prop :=
  exists r, F32.round q = Fin r /\ (r == q)%Q.

(** The multiples [v, 2v, ..., kv] of a sample are all held without
    rounding: the sums that the merger builds at a pixel of overlap count
    [k] are then exact. *)
Definition sums_exact (k : Z) (v : Q) : Prop :=
  forall j, 1 <= j <= k -> is_f32 (inject_Z j * v).

(** The float32 sum of [k] copies of a sample, added one at a time to a zero
    accumulator, and its float32 quotient by [count]: the average that the
    merger computes at a pixel covered by [count] crops. *)
Definition accumulate_copies (k : nat) (v : Q) : f32 :=
  Nat.iter k (fun a => f32_add a (Fin v)) (Fin 0).

Definition mean_of_copies (count : Z) (v : Q) : f32 :=
  true_divide (accumulate_copies (Z.to_nat count) v) count.

(** How far rounding can take the float32 average of [count] copies of a
    sample [v] from the sample: [count * |v| * 2^-22 + 2^-148]. *)
Definition rounding_bound (count : Z) (v : Q) : Q :=
  (inject_Z count * Qabs v * (1 # 4194304) + Qmake 1 (2 ^ 148))%Q.

(** The accumulator [m] after [done y x] crops of [V] were added at the
    pixel [(y, x)]. *)
Definition accumulated_to (h w c : Z) (V : image Q) (done : Z -> Z -> Z)
           (m : image f32) : Prop :=
  rect3 h w c m
  /\ forall y x ch, 0 <= y < h -> 0 <= x < w -> 0 <= ch < c ->
       px3 NonFinite m y x ch
       = accumulate_copies (Z.to_nat (done y x)) (px3 0%Q V y x ch).

(** The image accumulated from the crops of [V], the crops taken at the loop
    positions [ijs]. *)
Definition accumulated (os0 os1 window_size r_y r_x : Z) (ijs : list (Z * Z))
           (V : image Q) (m : image f32) : image f32 :=
  fold_left (fun m' ij =>
               add_tile (position_window window_size os1 os0 r_y r_x ij)
                        (window_tile (position_window window_size os1 os0 r_y r_x ij) V)
                        m') ijs m.

(** One iteration of the outer loop of the merger: accumulate the crops of
    image [k], then normalize it. *)
Definition merge_image (T : volume Q) (os0 os1 window_size r_y r_x : Z)
           (counts : image Z) (ijs : list (Z * Z)) (k : Z) (st : volume f32 * Z)
  : result (volume f32 * Z) :=
  st' <- Py.for_each ijs
           (fun ij st' => merge_one T os0 os1 window_size r_y r_x k
                                    (fst ij) (snd ij) st') st ;;
  Ok (normalize counts k st').

(** The image merged from the crops of [V]. *)
Definition merged_image (T : volume Q) (os0 os1 window_size r_y r_x : Z)
           (counts : image Z) (ijs : list (Z * Z)) (V : image Q) : image f32 :=
  Arr.divide_image
    (accumulated os0 os1 window_size r_y r_x ijs V
       (Np.zeros os1 (Np.zeros os0 (Np.zeros (Np.shape3 T) (Fin 0%Q)))))
    counts.

(* ================================================================== *)
(** * Part I, continued: the grid merger, the generator and the vocabulary
      of their properties *)
(* ================================================================== *)

(** ** Loops that can return

    A loop body either goes on with a new state or executes [return]; the
    loops below stop at the first [return] and at the first exception. *)

Inductive flow (S R : Type) : Type :=
| Next (s : S)
| Return (r : R).
Arguments Next {S R} s.
Arguments Return {S R} r.

Fixpoint for_each_flow {I S R : Type} (l : list I)
         (body : I -> S -> result (flow S R)) (s : S) : result (flow S R) :=
  match l with
  | [] => Ok (Next s)
  | i :: l' =>
      f <- body i s ;;
      match f with
      | Next s' => for_each_flow l' body s'
      | Return r => Ok (Return r)
      end
  end.

Definition for_range_flow {S R : Type} (start stop step : Z)
           (body : Z -> S -> result (flow S R)) (s : S) : result (flow S R) :=
  l <- Py.range start stop step ;; for_each_flow l body s.

(** ** Grid merger (data.py, lines 704-760) *)

Module Mix.

(** [np.max(a)] over the entries of an array: an empty array has no maximum
    ([ValueError]). *)
Definition amax (entries : list Q) : result Q :=
  match entries with
  | [] => Raise ValueError
  | x :: rest => Ok (fold_left (fun m y => if Qle_bool m y then y else m) rest x)
  end.

Definition ravel (data : volume Q) : list Q := concat (concat (concat data)).

(** Lines 725-729: the value of the grid lines, bound only when [grid] is
    set. *)
Definition grid_value (data : volume Q) (grid : bool) : result (option Q) :=
  if grid then
    m <- amax (ravel data) ;;
    Ok (Some (if negb (Qle_bool m 1) then 255%Q else 1%Q))
  else Ok None.

(** [a[lo0:hi0, lo1:hi1] = tile] on an [h x w x c] image: the tile must
    broadcast to the shape of the window. *)
Definition set_window (h w c : Z) (lo0 hi0 lo1 hi1 : Z) (tile : image Q)
           (a : image Q) : result (image Q) :=
  t <- Np.bcast3 (Np.slice_len h lo0 hi0) (Np.slice_len w lo1 hi1) c tile ;;
  Ok (Np.update_slice lo0 hi0
        (fun oy row =>
           Np.update_slice lo1 hi1
             (fun ox _ => Np.get [] (Np.get [] t oy) ox) row) a).

(** [a[lo:hi, col] = v] on an [h x w x c] image: the integer index is
    checked against the axis. *)
Definition paint_column (w : Z) (lo hi col : Z) (v : Q) (a : image Q)
  : result (image Q) :=
  col' <- Np.norm_index w col ;;
  Ok (Np.update_slice lo hi
        (fun _ row =>
           Np.update_slice col' (col' + 1) (fun _ px => map (fun _ => v) px) row) a).

(** [a[row, lo:hi] = v]. *)
Definition paint_row (h : Z) (row lo hi : Z) (v : Q) (a : image Q)
  : result (image Q) :=
  row' <- Np.norm_index h row ;;
  Ok (Np.update_slice row' (row' + 1)
        (fun _ r => Np.update_slice lo hi (fun _ px => map (fun _ => v) px) r) a).

(** Lines 745-756: the crop [tile] is written into cell [(i, j)] of an image
    and, with [grid], the border of the cell is painted. *)
Definition place (h w c width height : Z) (v : option Q) (i j : Z)
           (tile : image Q) (img : image Q) : result (image Q) :=
  img <- set_window h w c (i * width) ((i + 1) * height)
                    (j * width) ((j + 1) * height) tile img ;;
  match v with
  | Some v =>
      img <- paint_column w (i * width) ((i + 1) * height - 1) (j * width) v img ;;
      img <- paint_column w (i * width) ((i + 1) * height - 1)
                          ((j + 1) * width - 1) v img ;;
      img <- paint_row h (i * height) (j * width) ((j + 1) * height - 1) v img ;;
      paint_row h ((i + 1) * height - 1) (j * width) ((j + 1) * height - 1) v img
  | None => Ok img
  end.

End Mix.

(** Lines 742-757: the body of the innermost loop, on the state
    [(mixed_data, cont)]; it returns from the function when the crops are
    used up. *)
Definition merge_cell (data : volume Q) (h w width height : Z) (v : option Q)
           (img_num i j : Z) (st : volume Q * Z)
  : result (flow (volume Q * Z) (volume Q)) :=
  let '(mixed_data, cont) := st in
  if cont =? Np.shape0 data then Ok (Return mixed_data)
  else
    tile <- Arr.item [] data cont ;;
    img <- Mix.place h w (Np.shape3 data) width height v i j tile
                     (Np.get [] mixed_data img_num) ;;
    Ok (Next (Np.set_nth (Z.to_nat img_num) img mixed_data, cont + 1)).

Definition merge_data_without_overlap (data : volume Q) (num : Z)
           (out_shape : Z * Z) (grid : bool) : result (volume Q) :=
  (* To difference between data and masks *)
  v <- Mix.grid_value data grid ;;
  let width := Np.shape1 data in
  let height := Np.shape2 data in
  let h := snd out_shape * width in
  let w := fst out_shape * height in
  mixed_data <- Arr.zeros4 num h w (Np.shape3 data) 0%Q ;;
  r <- for_range_flow 0 num 1 (fun img_num st =>
         for_range_flow 0 (snd out_shape) 1 (fun i st =>
           for_range_flow 0 (fst out_shape) 1 (fun j st =>
             merge_cell data h w width height v img_num i j st) st) st)
         (mixed_data, 0) ;;
  match r with
  | Next (mixed_data, _) => Ok mixed_data
  | Return mixed_data => Ok mixed_data
  end.

(** The cell border that the grid merger paints in a [t x t] cell: the
    first and the last row and column, the bottom-right corner left out. *)
Definition on_grid (t u s : Z) : bool :=
  ((u <? t - 1) && ((s =? 0) || (s =? t - 1)))
  || ((s <? t - 1) && ((u =? 0) || (u =? t - 1))).

(** An image of shape [h x w x c] whose samples are given by [F]. *)
Definition shows (h w c : Z) (img : image Q) (F : Z -> Z -> Z -> Q) : Prop :=
  rect3 h w c img
  /\ forall y x ch, 0 <= y < h -> 0 <= x < w -> 0 <= ch < c ->
       px3 0%Q img y x ch = F y x ch.

(** The content of a cell after a crop was placed in it: sample [(u, s, ch)]
    of the crop, or the grid value on the painted border. *)
Definition cell_value (t : Z) (v : option Q) (tile : image Q) (u s ch : Z) : Q :=
  match v with
  | Some g => if on_grid t u s then g else px3 0%Q tile u s ch
  | None => px3 0%Q tile u s ch
  end.

(** The number, in loop order, of the cell that holds pixel [(y, x)] of
    output image [k], for [a] cells per row, [b] rows of cells and cells of
    side [t]. *)
Definition cell_number (a b t k y x : Z) : Z :=
  k * (a * b) + y / t * a + x / t.

(** What the grid merger has written after [p] crops. *)
Definition merged_so_far (data : volume Q) (t c num a b : Z) (v : option Q) (p : Z)
           (mixed : volume Q) : Prop :=
  rect4 num (b * t) (a * t) c mixed
  /\ forall k y x ch,
      0 <= k < num -> 0 <= y < b * t -> 0 <= x < a * t -> 0 <= ch < c ->
      px3 0%Q (Np.get [] mixed k) y x ch
      = if cell_number a b t k y x <? p
        then cell_value t v (Np.get [] data (cell_number a b t k y x))
                        (y mod t) (x mod t) ch
        else 0%Q.


(** The padded value of a sample: the sample inside the data, zero beyond. *)
Definition padded (data : volume Q) (h w : Z) (k y x ch : Z) : Q :=
  if (y <? h) && (x <? w) then px3 0%Q (Np.get [] data k) y x ch else 0%Q.

(** The number of cells along an axis, as the grid cropper counts them. *)
Definition cells_along (dim t : Z) : Z :=
  Py.int_div dim t + (if dim mod t >? 0 then 1 else 0).

(** The cells of [n] images cut into [rows x columns] cells, in loop order,
    and the crop of a cell of side [t]. *)
Definition grid_cells (n rows columns : Z) : list (Z * (Z * Z)) :=
  list_prod (Py.range_list 0 n 1)
            (list_prod (Py.range_list 0 rows 1) (Py.range_list 0 columns 1)).

Definition grid_tile (r_data : volume Q) (t : Z) (cell : Z * (Z * Z)) : image Q :=
  Grid.window (t, t) (Np.get [] r_data (fst cell)) (fst (snd cell)) (snd (snd cell)).

(** A description that names a transformation: an underscore followed by a
    letter other than [n]. *)
Definition names_a_transformation (s : string) : Prop :=
  exists ch rest, s = String "_"%char (String ch rest) /\ ch <> "n"%char.

(** What the pipeline keeps true of its state: either nothing was applied
    and the state is the initial one, or the description names what was. *)
Definition pipeline_inv (im mask : image Q) (t_counter : list Z) (s : tstate) : Prop :=
  (transformed s = false /\ transform_string s = ""%string
   /\ trans_image s = im /\ trans_mask s = mask /\ counters s = t_counter)
  \/ (transformed s = true /\ names_a_transformation (transform_string s)).


(** The colour of the grid lines. *)
Definition grid_colour (data : volume Q) : Q :=
  if existsb (fun q => negb (Qle_bool q 1)) (Mix.ravel data) then 255%Q else 1%Q.


(** The body of the innermost loop of the grid cropper when nothing is
    discarded and no mask is given (lines 419-425). *)
Definition fill_cell (r : volume Q) (t c : Z) (cell : Z * (Z * Z))
           (st : volume Q * option (volume Q) * Z * Z)
  : result (volume Q * option (volume Q) * Z * Z) :=
  let '(cropped_data, cropped_data_mask, cont, l_i) := st in
  cropped_data <- Arr.set_tile t t c cropped_data cont (grid_tile r t cell) ;;
  Ok (cropped_data, cropped_data_mask, cont + 1, l_i).


(** The body of the innermost loop of the grid cropper when nothing is
    discarded and a mask is given (lines 419-425): the data crop and the
    mask crop of the same cell go to the same position. *)
Definition fill_cell_pair (r rm : volume Q) (t c c' : Z) (cell : Z * (Z * Z))
           (st : volume Q * option (volume Q) * Z * Z)
  : result (volume Q * option (volume Q) * Z * Z) :=
  let '(cropped_data, cropped_data_mask, cont, l_i) := st in
  match cropped_data_mask with
  | Some cm =>
      cropped_data <- Arr.set_tile t t c cropped_data cont (grid_tile r t cell) ;;
      img_mask <- Arr.item [] rm (fst cell) ;;
      cm <- Arr.set_tile t t c' cm cont
                         (Grid.window (t, t) img_mask (fst (snd cell))
                                      (snd (snd cell))) ;;
      Ok (cropped_data, Some cm, cont + 1, l_i)
  | None =>
      cropped_data <- Arr.set_tile t t c cropped_data cont (grid_tile r t cell) ;;
      Ok (cropped_data, None, cont + 1, l_i)
  end.

(** Sample inputs. *)
Definition tiles_2x2 : volume Q :=
  [ [[[1]; [2]]; [[3]; [4]]]; [[[5]; [6]]; [[7]; [8]]];
    [[[9]; [10]]; [[11]; [12]]]; [[[13]; [14]]; [[15]; [16]]] ]%Q.

Definition prob_centre_3x3 : list (list Q) :=
  [[0; 0; 0]; [0; 1; 0]; [0; 0; 0]]%Q.

Definition draws_flip_09 : draws :=
  {| u_elastic := 0.9; u_flip := 0.9; u_theta := 0; u_rot90 := 0.9;
     u_brightness := 1; u_mf_size := 0 |}.

(** ** Crop generator (data.py, lines 1711-1729)

    One resumption of the generator, from [next(batches)] to the [yield]:
    the batch that the inner iterator hands over is cropped image by image.
    The generator never ends by itself; each [next] runs this once. *)
Definition crop_generator (batch_x batch_y : volume Q) (crop_length : Z)
           (val prob_map : bool) (g : Rand.rng)
  : result (volume Q * volume Q * Rand.rng) :=
  batch_crops_x <- Arr.zeros4 (Np.shape0 batch_x) crop_length crop_length 1 0%Q ;;
  batch_crops_y <- Arr.zeros4 (Np.shape0 batch_y) crop_length crop_length 1 0%Q ;;
  Py.for_range 0 (Np.shape0 batch_x) 1 (fun i st =>
    let '(batch_crops_x, batch_crops_y, g) := st in
    img <- Arr.item [] batch_x i ;;
    mask <- Arr.item [] batch_y i ;;
    '(crops, g) <- random_crop img mask (crop_length, crop_length) val prob_map
                               false None g ;;
    match crops with
    | Crops crop_x crop_y =>
        batch_crops_x <- Arr.set_tile crop_length crop_length 1
                                      batch_crops_x i crop_x ;;
        batch_crops_y <- Arr.set_tile crop_length crop_length 1
                                      batch_crops_y i crop_y ;;
        Ok (batch_crops_x, batch_crops_y, g)
    | CropsAndPoints _ _ _ _ _ _ => Raise ValueError
    end) (batch_crops_x, batch_crops_y, g).


(** ** The batch generator (data.py, lines 894-1035) *)

(** [x[i], x[j] = x[j], x[i]] *)
Definition swap (i j : nat) (x : list Z) : list Z :=
  Np.set_nth i (nth j x 0) (Np.set_nth j (nth i x 0) x).

(** [np.random.shuffle(x)] on a one-dimensional array: for [i] from the last
    position down to [1], the entry at [i] changes places with the entry at
    a position drawn from [0..i]. *)
Fixpoint shuffle_down (i : nat) (x : list Z) (g : Rand.rng) : list Z * Rand.rng :=
  match i with
  | O => (x, g)
  | S i' =>
      let j := Z.to_nat (g O mod (Z.of_nat i + 1)) in
      shuffle_down i' (swap i j x) (Rand.advance g)
  end.

Definition np_random_shuffle (x : list Z) (g : Rand.rng) : list Z * Rand.rng :=
  shuffle_down (length x - 1) x g.

(** The attributes of an [ImageDataGenerator]; [aug] holds the ones that
    [apply_transform] reads and the transformation counters. *)
Record ImageDataGenerator : Type := {
  dim : Z * Z;
  batch_size : Z;
  Y : volume Q;
  X : volume Q;
  n_channels : Z;
  shuffle : bool;
  da : bool;
  aug : generator;
  random_crops_in_DA : bool;
  crop_length : Z;
  prob_map : bool;
  train_prob : option (list (list (list Q)));
  val : bool;
  indexes : list Z
}.

Definition with_indexes (self : ImageDataGenerator) (l : list Z)
  : ImageDataGenerator :=
  {| dim := dim self; batch_size := batch_size self; Y := Y self; X := X self;
     n_channels := n_channels self; shuffle := shuffle self; da := da self;
     aug := aug self; random_crops_in_DA := random_crops_in_DA self;
     crop_length := crop_length self; prob_map := prob_map self;
     train_prob := train_prob self; val := val self; indexes := l |}.

Definition with_dim (self : ImageDataGenerator) (d : Z * Z) : ImageDataGenerator :=
  {| dim := d; batch_size := batch_size self; Y := Y self; X := X self;
     n_channels := n_channels self; shuffle := shuffle self; da := da self;
     aug := aug self; random_crops_in_DA := random_crops_in_DA self;
     crop_length := crop_length self; prob_map := prob_map self;
     train_prob := train_prob self; val := val self; indexes := indexes self |}.

Definition with_aug (self : ImageDataGenerator) (a : generator)
  : ImageDataGenerator :=
  {| dim := dim self; batch_size := batch_size self; Y := Y self; X := X self;
     n_channels := n_channels self; shuffle := shuffle self; da := da self;
     aug := a; random_crops_in_DA := random_crops_in_DA self;
     crop_length := crop_length self; prob_map := prob_map self;
     train_prob := train_prob self; val := val self; indexes := indexes self |}.

Definition with_counters (a : generator) (l : list Z) : generator :=
  {| e_prob := e_prob a; elastic := elastic a; vflip := vflip a; hflip := hflip a;
     rotation90 := rotation90 a; rotation_range := rotation_range a;
     brightness_range := brightness_range a;
     median_filter_size := median_filter_size a; squared := squared a;
     t_counter := l |}.

(** [on_epoch_end] (lines 1030-1035). *)
Definition on_epoch_end (self : ImageDataGenerator) (g : Rand.rng)
  : ImageDataGenerator * Rand.rng :=
  let indexes := Py.range_list 0 (Np.shape0 (X self)) 1 in
  if shuffle self then
    let '(indexes, g) := np_random_shuffle indexes g in
    (with_indexes self indexes, g)
  else (with_indexes self indexes, g).

(** [__init__] (lines 894-971). *)
Definition __init__ (X Y : volume Q) (batch_size : Z) (dim : Z * Z)
           (n_channels : Z) (shuffle da : bool) (e_prob : Q)
           (elastic vflip hflip rotation90 : bool) (rotation_range : Q)
           (brightness_range : Q * Q) (median_filter_size : Z * Z)
           (random_crops_in_DA : bool) (crop_length : Z) (prob_map : bool)
           (train_prob : option (list (list (list Q)))) (val : bool)
           (g : Rand.rng)
  : ImageDataGenerator * Rand.rng :=
  let self :=
    {| dim := dim; batch_size := batch_size;
       Y := map (map (map (map (fun v => v / 255)%Q))) Y; X := X;
       n_channels := n_channels; shuffle := shuffle; da := da;
       aug := {| e_prob := e_prob; elastic := elastic; vflip := vflip;
                 hflip := hflip; rotation90 := rotation90;
                 rotation_range := rotation_range;
                 brightness_range := brightness_range;
                 median_filter_size := median_filter_size;
                 squared := (Np.shape1 X =? Np.shape2 X) || random_crops_in_DA;
                 t_counter := [0; 0; 0; 0; 0; 0] |};
       random_crops_in_DA := random_crops_in_DA; crop_length := crop_length;
       prob_map := prob_map; train_prob := train_prob; val := val;
       indexes := [] |} in
  let '(self, g) := on_epoch_end self g in
  if random_crops_in_DA then (with_dim self (crop_length, crop_length), g)
  else (self, g).

(** [__len__] (lines 973-976): the number of batches per epoch. *)
Definition __len__ (self : ImageDataGenerator) : result Z :=
  if batch_size self =? 0 then Raise ZeroDivisionError
  else Ok (Np.shape0 (X self) / batch_size self).

(** [__getitem__] can also fail with a [TypeError], when it subscripts a
    probability map that is [None]. *)
Inductive batch_exn : Set :=
| Std (e : exn)
| TypeError.

Inductive batch_result (A : Type) : Type :=
| Done (a : A)
| Failed (e : batch_exn).
Arguments Done {A} a.
Arguments Failed {A} e.

Definition lift {A : Type} (r : result A) : batch_result A :=
  match r with
  | Ok a => Done a
  | Raise e => Failed (Std e)
  end.

Definition batch_bind {A B : Type} (m : batch_result A)
           (f : A -> batch_result B) : batch_result B :=
  match m with
  | Done a => f a
  | Failed e => Failed e
  end.

Notation "x <~ m ;; k" := (batch_bind m (fun x => k))
  (at level 61, m at next level, right associativity) : py_scope.
Notation "' p <~ m ;; k" := (batch_bind m (fun x => match x with p => k end))
  (at level 61, p pattern, m at next level, right associativity) : py_scope.

Fixpoint batch_for_each {I S : Type} (l : list I)
         (body : I -> S -> batch_result S) (s : S) : batch_result S :=
  match l with
  | [] => Done s
  | i :: l' => s' <~ body i s ;; batch_for_each l' body s'
  end.

(** [np.empty((n, h, w, c))]: an array of the given shape whose contents are
    whatever the memory holds, here the values of [junk]. *)
Definition tabulate4 (n h w c : Z) (junk : Z -> Z -> Z -> Z -> Q) : volume Q :=
  map (fun k =>
         map (fun y =>
                map (fun x => map (junk k y x) (Py.range_list 0 c 1))
                    (Py.range_list 0 w 1))
             (Py.range_list 0 h 1))
      (Py.range_list 0 n 1).

Definition np_empty (n h w c : Z) (junk : Z -> Z -> Z -> Z -> Q)
  : result (volume Q) :=
  if (n <? 0) || (h <? 0) || (w <? 0) || (c <? 0) then Raise ValueError
  else Ok (tabulate4 n h w c junk).

Section Batches.

Variable elastic_transform : image Q -> Q -> Q -> Q -> image Q.
Variable ndimage_rotate : image Q -> Q -> Z -> image Q.
Variable enhance_brightness : image Q -> Q -> image Q.
Variable median_blur : image Q -> Z -> image Q.
Variable str_int : Z -> string.
Variable str_round2 : Q -> string.

(** The body of the loop of [__getitem__] (lines 993-1015) for row [i] of
    the batch and sample [j]; [ds i] holds the values that the generator
    calls of [apply_transform] return for this row. *)
Definition getitem_row (self : ImageDataGenerator) (ds : Z -> draws)
           (ij : Z * Z) (st : volume Q * volume Q * list Z * Rand.rng)
  : batch_result (volume Q * volume Q * list Z * Rand.rng) :=
  let '(i, j) := ij in
  let '(batch_x, batch_y, counters, g) := st in
  let '(h, w) := dim self in
  let c := n_channels self in
  let transform im mask :=
    lift (apply_transform elastic_transform ndimage_rotate enhance_brightness
                          median_blur str_int str_round2
                          (with_counters (aug self) counters) im mask false
                          (ds i)) in
  if negb (da self) then
    if random_crops_in_DA self then
      x <~ lift (Arr.item [] (X self) j) ;;
      y <~ lift (Arr.item [] (Y self) j) ;;
      img_prob <~ match train_prob self with
                  | Some tp => p <~ lift (Arr.item [] tp j) ;; Done (Some p)
                  | None => Done None
                  end ;;
      '(crops, g) <~ lift (random_crop x y (crop_length self, crop_length self)
                                       (val self) (prob_map self) false
                                       img_prob g) ;;
      match crops with
      | Crops crop_x crop_y =>
          batch_x <~ lift (Arr.set_tile h w c batch_x i crop_x) ;;
          batch_y <~ lift (Arr.set_tile h w c batch_y i crop_y) ;;
          Done (batch_x, batch_y, counters, g)
      | CropsAndPoints _ _ _ _ _ _ => Failed (Std ValueError)
      end
    else
      x <~ lift (Arr.item [] (X self) j) ;;
      y <~ lift (Arr.item [] (Y self) j) ;;
      batch_x <~ lift (Arr.set_tile h w c batch_x i x) ;;
      batch_y <~ lift (Arr.set_tile h w c batch_y i y) ;;
      Done (batch_x, batch_y, counters, g)
  else
    if random_crops_in_DA self then
      x <~ lift (Arr.item [] (X self) j) ;;
      y <~ lift (Arr.item [] (Y self) j) ;;
      img_prob <~ match train_prob self with
                  | Some tp => lift (Arr.item [] tp j)
                  | None => Failed TypeError
                  end ;;
      '(crops, g) <~ lift (random_crop x y (crop_length self, crop_length self)
                                       (val self) (prob_map self) false
                                       (Some img_prob) g) ;;
      match crops with
      | Crops crop_x crop_y =>
          batch_x <~ lift (Arr.set_tile h w c batch_x i crop_x) ;;
          batch_y <~ lift (Arr.set_tile h w c batch_y i crop_y) ;;
          x <~ lift (Arr.item [] batch_x i) ;;
          y <~ lift (Arr.item [] batch_y i) ;;
          '(trans_x, trans_y, _, counters) <~ transform x y ;;
          batch_x <~ lift (Arr.set_tile h w c batch_x i trans_x) ;;
          batch_y <~ lift (Arr.set_tile h w c batch_y i trans_y) ;;
          Done (batch_x, batch_y, counters, g)
      | CropsAndPoints _ _ _ _ _ _ => Failed (Std ValueError)
      end
    else
      x <~ lift (Arr.item [] (X self) j) ;;
      y <~ lift (Arr.item [] (Y self) j) ;;
      '(trans_x, trans_y, _, counters) <~ transform x y ;;
      batch_x <~ lift (Arr.set_tile h w c batch_x i trans_x) ;;
      batch_y <~ lift (Arr.set_tile h w c batch_y i trans_y) ;;
      Done (batch_x, batch_y, counters, g).

(** [__getitem__] (lines 978-1018): the batch, the generator object as the
    call leaves it and the state of the random generator. *)
Definition __getitem__ (self : ImageDataGenerator) (index : Z)
           (junk_x junk_y : Z -> Z -> Z -> Z -> Q) (ds : Z -> draws)
           (g : Rand.rng)
  : batch_result (volume Q * volume Q * ImageDataGenerator * Rand.rng) :=
  let '(h, w) := dim self in
  batch_x <~ lift (np_empty (batch_size self) h w (n_channels self) junk_x) ;;
  batch_y <~ lift (np_empty (batch_size self) h w (n_channels self) junk_y) ;;
  (* Generate indexes of the batch *)
  let indexes := Py.slice (index * batch_size self)
                          ((index + 1) * batch_size self) (indexes self) in
  '(batch_x, batch_y, counters, g) <~
    batch_for_each (combine (Py.range_list 0 (batch_size self) 1) indexes)
                   (getitem_row self ds)
                   (batch_x, batch_y, t_counter (aug self), g) ;;
  Done (batch_x, batch_y, with_aug self (with_counters (aug self) counters), g).

End Batches.

(** A list that holds every index of [0..n-1] once. *)
Definition arrangement (n : Z) (l : list Z) : Prop :=
  NoDup l /\ forall j, In j l <-> 0 <= j < n.

(** ** Median filter along the first axis (data.py, lines 1783-1806) *)

(** [data[:, :, i, 0]] *)
Definition column_plane (data : volume Q) (i : Z) : list (list Q) :=
  map (map (fun row => Np.get 0%Q (Np.get [] row i) 0)) data.

Section ZFilter.

(** [cv2.medianBlur] on a two-dimensional array. *)
Variable medianBlur : list (list Q) -> Z -> list (list Q).

Definition calculate_z_filtering (data : volume Q) (mf_size : Z)
  : result (volume Q) :=
  let out_data := data in
  (* Must be odd *)
  let mf_size := if mf_size mod 2 =? 0 then mf_size + 1 else mf_size in
  Py.for_range 0 (Np.shape2 data) 1 (fun i out_data =>
    _ <- Np.norm_index (Np.shape3 data) 0 ;;
    let sl := column_plane data i in
    let sl := medianBlur sl mf_size in
    (* out_data[:, :, i] = np.expand_dims(sl, axis=-1) *)
    value <- Np.bcast3 (Np.shape0 out_data) (Np.shape1 out_data)
                       (Np.shape3 out_data) (map (map (fun v => [v])) sl) ;;
    Ok (Arr.zip_with
          (Arr.zip_with (fun row px => Np.set_nth (Z.to_nat i) px row))
          out_data value)) out_data.

End ZFilter.

(** A well-formed [n x h] matrix. *)
Definition rect2 (n h : Z) (sl : list (list Q)) : Prop :=
  Np.shape0 sl = n /\ Forall (fun r => Np.shape0 r = h) sl.

(** The data after the filter has run on the columns below [p]. *)
Definition z_filtered (medianBlur : list (list Q) -> Z -> list (list Q))
           (data : volume Q) (n h w c mf : Z) (p : Z) (out : volume Q) : Prop :=
  rect4 n h w c out
  /\ forall k y x ch,
      0 <= k < n -> 0 <= y < h -> 0 <= x < w -> 0 <= ch < c ->
      px3 0%Q (Np.get [] out k) y x ch
      = if x <? p
        then Np.get 0%Q (Np.get [] (medianBlur (column_plane data x) mf) k) y
        else px3 0%Q (Np.get [] data k) y x ch.

(** Sample inputs: a batch of two images, the batch of their masks and a
    generator object that serves them in reverse order. *)
Definition batch_images : volume Q := [image_3x3; mask_3x3].
Definition batch_masks : volume Q := [mask_3x3; mask_3x3].

Definition plain_generator : ImageDataGenerator :=
  {| dim := (3, 3); batch_size := 1; Y := batch_masks; X := batch_images;
     n_channels := 1; shuffle := false; da := false;
     aug := flips_horizontal_only; random_crops_in_DA := false;
     crop_length := 0; prob_map := false; train_prob := None; val := false;
     indexes := [1; 0] |}.

(* ================================================================== *)
(** * Part II: properties *)
(* ================================================================== *)

(** ** The error monad and ranges *)

Lemma range_list_unit (a b : Z) :
  Py.range_list a b 1 = map (fun t => a + Z.of_nat t) (seq 0 (Z.to_nat (b - a))).
Proof.
  unfold Py.range_list, Py.range_len. simpl (0 <? 1).  cbv iota.
  destruct (a <? b) eqn:Hab.
  - apply Z.ltb_lt in Hab. rewrite Z.div_1_r.
    replace (b - a - 1 + 1) with (b - a) by lia.
    apply map_ext. intros t. lia.
  - apply Z.ltb_ge in Hab. replace (Z.to_nat (b - a)) with O by lia. reflexivity.
Qed.

Lemma range_unit (a b : Z) : Py.range a b 1 = Ok (Py.range_list a b 1).
Proof. reflexivity. Qed.

Lemma in_range_list_unit (a b i : Z) :
  In i (Py.range_list a b 1) <-> a <= i < b.
Proof.
  rewrite range_list_unit, in_map_iff. split.
  - intros (t & <- & Ht). apply in_seq in Ht. lia.
  - intros Hi. exists (Z.to_nat (i - a)). split; [lia|]. apply in_seq. lia.
Qed.

(** ** Overlap layout *)

Section Layout.

Variable subdivision : Z.
Hypothesis Hsub : 2 <= subdivision.
Hypothesis Hmax : subdivision <= Py.sys_maxsize.

Lemma layout_after_S (m : nat) :
  layout_after subdivision (S m)
  = layout_step subdivision (1 + Z.of_nat m) (layout_after subdivision m).
Proof.
  unfold layout_after. rewrite seq_S, map_app, fold_left_app. reflexivity.
Qed.

Lemma layout_inv_first : layout_inv subdivision 1 (layout_after subdivision 1).
Proof.
  unfold layout_after. simpl fold_left. unfold layout_step.
  change (1 + Z.of_nat 0) with 1.
  rewrite Z.mod_1_r, Z.div_1_r. simpl (0 =? 0). cbv beta iota.
  assert (Hlt : (Z.abs (subdivision - 1) <? Py.sys_maxsize) = true).
  { apply Z.ltb_lt. lia. }
  rewrite Hlt. simpl andb. cbv iota. unfold layout_inv, Py.int_div.
  rewrite Z.quot_1_r.
  repeat split; try lia.
  - apply Z.mod_1_r.
  - now rewrite Z.div_1_r.
  - assert (j = 1) by lia. subst j. rewrite Z.div_1_r. lia.
Qed.

Lemma layout_inv_step (m : Z) (st : Z * Z * Z) :
  1 <= m -> layout_inv subdivision m st ->
  layout_inv subdivision (m + 1) (layout_step subdivision (m + 1) st).
Proof.
  intros Hm. destruct st as [[min_d rows] columns].
  intros (Hr & Hdiv & Hc & Hd & Hmin).
  unfold layout_step.
  destruct ((subdivision mod (m + 1) =? 0)
            && (Z.abs (subdivision / (m + 1) - (m + 1)) <? min_d)) eqn:Hcond.
  - apply andb_true_iff in Hcond. destruct Hcond as [H0 Hlt].
    apply Z.eqb_eq in H0. apply Z.ltb_lt in Hlt.
    unfold layout_inv, Py.int_div.
    rewrite Z.quot_div_nonneg by lia.
    repeat split; try lia.
    + destruct (Z.eq_dec j (m + 1)) as [->|Hne]; [lia|].
      destruct (Hmin j) as [Hle _]; [lia | assumption | lia].
    + intros Heq. destruct (Z.eq_dec j (m + 1)) as [->|Hne]; [lia|].
      destruct (Hmin j) as [Hle _]; [lia | assumption | lia].
  - unfold layout_inv. repeat split; try lia.
    + destruct (Z.eq_dec j (m + 1)) as [->|Hne].
      * apply andb_false_iff in Hcond. destruct Hcond as [Hc0|Hc0].
        -- apply Z.eqb_neq in Hc0. contradiction.
        -- apply Z.ltb_ge in Hc0. lia.
      * destruct (Hmin j) as [Hle _]; [lia | assumption | lia].
    + intros Heq. destruct (Z.eq_dec j (m + 1)) as [->|Hne]; [lia|].
      destruct (Hmin j) as [_ Htie]; [lia | assumption |]. apply Htie. lia.
Qed.

Lemma layout_inv_after (m : nat) :
  layout_inv subdivision (Z.of_nat (S m)) (layout_after subdivision (S m)).
Proof.
  induction m as [|m IH].
  - apply layout_inv_first.
  - rewrite layout_after_S.
    replace (Z.of_nat (S (S m))) with (Z.of_nat (S m) + 1) by lia.
    replace (1 + Z.of_nat (S m)) with (Z.of_nat (S m) + 1) by lia.
    apply layout_inv_step; [lia | exact IH].
Qed.

Lemma min_overlap_layout_after :
  min_overlap_layout subdivision
  = let '(_, rows, columns) := layout_after subdivision (Z.to_nat (subdivision / 2)) in
    (rows, columns).
Proof.
  unfold min_overlap_layout, layout_after, Py.int_div.
  rewrite Z.quot_div_nonneg by lia. rewrite range_list_unit.
  replace (subdivision / 2 + 1 - 1) with (subdivision / 2) by lia.
  reflexivity.
Qed.

(** The chosen pair, with everything the search guarantees. *)
Lemma min_overlap_layout_inv :
  exists min_d,
    layout_inv subdivision (subdivision / 2)
               (min_d, fst (min_overlap_layout subdivision),
                snd (min_overlap_layout subdivision)).
Proof.
  rewrite min_overlap_layout_after.
  assert (Hhalf : 1 <= subdivision / 2).
  { apply Z.div_le_lower_bound; lia. }
  destruct (Z.to_nat (subdivision / 2)) as [|m] eqn:Hm; [lia|].
  pose proof (layout_inv_after m) as Hinv. rewrite <- Hm in Hinv.
  rewrite Z2Nat.id in Hinv by lia. rewrite Hm in Hinv.
  destruct (layout_after subdivision (S m)) as [[min_d rows] columns].
  exists min_d. exact Hinv.
Qed.

End Layout.

(** C4. For every even subdivision (a tile count of at least two, exactly
    representable as a double), the pair [(rows, columns)] that
    [crop_data_with_overlap] chooses, and that [merge_data_with_overlap]
    recomputes with the same loop, satisfies [rows * columns = subdivision]
    with [rows] in [1 .. subdivision/2]; no factor pair of [subdivision] has a
    strictly smaller [|columns - rows|], and among the minimizing pairs the
    one with the smallest [rows] is chosen. *)
Theorem min_overlap_layout_optimal (subdivision : Z)
        (Heven : subdivision mod 2 = 0)
        (Hpos : 2 <= subdivision)
        (Hexact : subdivision < 2 ^ 53) :
  let rows := fst (min_overlap_layout subdivision) in
  let columns := snd (min_overlap_layout subdivision) in
  rows * columns = subdivision
  /\ 1 <= rows <= subdivision / 2
  /\ forall a b : Z,
      0 < a -> a * b = subdivision ->
      Z.abs (columns - rows) <= Z.abs (b - a)
      /\ (Z.abs (b - a) = Z.abs (columns - rows) -> rows <= a).
Proof.
  intros rows columns.
  assert (Hmax : subdivision <= Py.sys_maxsize).
  { unfold Py.sys_maxsize. change (2 ^ 53) with 9007199254740992 in Hexact.
    change (2 ^ 63) with 9223372036854775808. lia. }
  destruct (min_overlap_layout_inv subdivision Hpos Hmax) as [min_d Hinv].
  fold rows columns in Hinv. unfold layout_inv in Hinv.
  destruct Hinv as (Hr & Hdiv & Hc & Hd & Hmin).
  assert (Hprod : rows * columns = subdivision).
  { rewrite Hc. symmetry. apply Z_div_exact_full_2; [lia | exact Hdiv]. }
  split; [exact Hprod|]. split; [exact Hr|].
  intros a b Ha Hab.
  assert (Hb : 1 <= b) by nia.
  assert (Hamod : subdivision mod a = 0).
  { rewrite <- Hab, Z.mul_comm. apply Z.mod_mul. lia. }
  assert (Hbq : subdivision / a = b).
  { rewrite <- Hab, Z.mul_comm. apply Z.div_mul. lia. }
  destruct (Z_le_gt_dec a (subdivision / 2)) as [Hle|Hgt].
  - destruct (Hmin a) as [H1 H2]; [lia | exact Hamod |].
    rewrite Hbq in H1, H2. split; [lia|]. intros Heq. apply H2. lia.
  - assert (Hb1 : b = 1).
    { assert (subdivision < 2 * a).
      { pose proof (Z.mul_succ_div_gt subdivision 2). lia. }
      nia. }
    subst b. assert (a = subdivision) by lia. subst a.
    destruct (Hmin 1) as [H1 _]; [lia | apply Z.mod_1_r |].
    rewrite Z.div_1_r in H1. split; [lia|]. intros _. lia.
Qed.

Lemma min_overlap_layout_optimal_witness :
  let rows := fst (min_overlap_layout 12) in
  let columns := snd (min_overlap_layout 12) in
  rows * columns = 12
  /\ 1 <= rows <= 12 / 2
  /\ forall a b : Z,
      0 < a -> a * b = 12 ->
      Z.abs (columns - rows) <= Z.abs (b - a)
      /\ (Z.abs (b - a) = Z.abs (columns - rows) -> rows <= a).
Proof.
  apply (min_overlap_layout_optimal 12); [reflexivity | lia | reflexivity].
Defined.

Example min_overlap_layout_12 : min_overlap_layout 12 = (3, 4).
Proof. reflexivity. Qed.

Example min_overlap_layout_6 : min_overlap_layout 6 = (2, 3).
Proof. reflexivity. Qed.

(** ** Loops over the indices of a list *)

Lemma for_each_app {I T : Type} (l l' : list I) (body : I -> T -> result T) (s : T) :
  Py.for_each (l ++ l') body s
  = bind (Py.for_each l body s) (Py.for_each l' body).
Proof.
  revert s. induction l as [|i l IH]; intros s; simpl; [reflexivity|].
  destruct (body i s) as [s'|e]; simpl; [apply IH | reflexivity].
Qed.

Lemma for_each_ext_in {I T : Type} (l : list I) (f g : I -> T -> result T) (s : T) :
  (forall i s', In i l -> f i s' = g i s') ->
  Py.for_each l f s = Py.for_each l g s.
Proof.
  revert s. induction l as [|i l IH]; intros s Hfg; simpl; [reflexivity|].
  rewrite Hfg by (left; reflexivity).
  destruct (g i s) as [s'|e]; simpl; [|reflexivity].
  apply IH. intros j s'' Hj. apply Hfg. right. exact Hj.
Qed.

(** A loop over [range(0, len(l))] that only reads [l[i]] is a loop over [l]. *)
Lemma for_each_index {A T : Type} (d : A) (l : list A)
      (f : A -> T -> result T) (s : T) :
  Py.for_each (Py.range_list 0 (Np.shape0 l) 1) (fun i s' => f (Np.get d l i) s') s
  = Py.for_each l f s.
Proof.
  revert s. induction l as [|x l IH] using rev_ind; intros s.
  - reflexivity.
  - rewrite range_list_unit. unfold Np.shape0.
    replace (Z.to_nat (Z.of_nat (length (l ++ [x])) - 0)) with (S (length l))
      by (rewrite length_app; simpl; lia).
    rewrite seq_S, map_app, !for_each_app. simpl map.
    rewrite <- IH, range_list_unit. unfold Np.shape0.
    replace (Z.to_nat (Z.of_nat (length l) - 0)) with (length l) by lia.
    erewrite for_each_ext_in with (g := fun i s' => f (Np.get d l i) s').
    + destruct (Py.for_each _ _ s) as [s'|e]; simpl; [|reflexivity].
      unfold Np.get. simpl (0 + _). rewrite Nat2Z.id, nth_middle. reflexivity.
    + intros i s' Hi. apply in_map_iff in Hi. destruct Hi as (t & <- & Ht).
      apply in_seq in Ht. unfold Np.get.
      rewrite app_nth1 by lia. reflexivity.
Qed.

(** ** Foreground ratio estimator *)

Lemma count_row (class_tag : Z) (row : list Q) (c : Z) :
  Py.for_each row
    (fun v c' => b <- eq_tag v class_tag ;; Ok (if b then c' + 1 else c')) c
  = Ok (c + count_tagged class_tag row).
Proof.
  unfold count_tagged, tagged. revert c.
  induction row as [|v row IH]; intros c; simpl.
  - f_equal. lia.
  - unfold eq_tag, PyEqTag_scalar. simpl.
    destruct (Qeq_bool v (inject_Z class_tag)); rewrite IH; f_equal; simpl length; lia.
Qed.

Lemma count_rows (class_tag : Z) (mask : list (list Q)) (c : Z) :
  Py.for_each mask
    (fun row c' =>
       Py.for_each row
         (fun v c'' => b <- eq_tag v class_tag ;; Ok (if b then c'' + 1 else c'')) c') c
  = Ok (c + count_tagged class_tag (concat mask)).
Proof.
  revert c. induction mask as [|row mask IH]; intros c; cbn [Py.for_each concat].
  - unfold count_tagged. simpl. f_equal. lia.
  - rewrite count_row. cbn [bind]. rewrite IH. f_equal.
    unfold count_tagged, tagged. rewrite filter_app, length_app. lia.
Qed.

Lemma concat_rect_length {A : Type} (m : list (list A)) (w : Z) :
  Forall (fun row => Np.shape0 row = w) m ->
  Z.of_nat (length (concat m)) = Np.shape0 m * w.
Proof.
  unfold Np.shape0. induction 1 as [|row m Hrow _ IH]; cbn [concat length].
  - reflexivity.
  - rewrite length_app. cbv beta in Hrow. lia.
Qed.

Lemma count_tagged_bounds (class_tag : Z) (l : list Q) :
  0 <= count_tagged class_tag l <= Z.of_nat (length l).
Proof.
  unfold count_tagged, tagged. pose proof (filter_length_le
    (fun v => Qeq_bool v (inject_Z class_tag)) l). lia.
Qed.

(** The loops of [__foreground_percentage] count the tagged pixels. *)
Lemma foreground_count (mask : list (list Q)) (class_tag h w : Z) :
  0 < h -> Np.shape0 mask = h ->
  Forall (fun row => Np.shape0 row = w) mask ->
  __foreground_percentage 0%Q mask class_tag
  = if h * w =? 0 then Raise ZeroDivisionError
    else Ok (inject_Z (count_tagged class_tag (concat mask) * 100)
             / inject_Z (h * w))%Q.
Proof.
  intros Hh Hlen Hrect.
  assert (Hw : Np.shape1 mask = w).
  { destruct mask as [|row mask]; [unfold Np.shape0 in Hlen; simpl in Hlen; lia|].
    inversion Hrect; subst. reflexivity. }
  unfold __foreground_percentage, Py.for_range. rewrite !range_unit. cbn [bind].
  rewrite (for_each_index [] mask
             (fun row c =>
                Py.for_each (Py.range_list 0 (Np.shape1 mask) 1) (fun j c' =>
                  b <- eq_tag (Np.get 0%Q row j) class_tag ;;
                  Ok (if b then c' + 1 else c')) c)).
  rewrite for_each_ext_in with
    (g := fun row c' =>
            Py.for_each row
              (fun v c'' => b <- eq_tag v class_tag ;; Ok (if b then c'' + 1 else c''))
              c').
  - rewrite count_rows. cbn [bind]. rewrite Hw, Hlen. reflexivity.
  - intros row c' Hin.
    rewrite Forall_forall in Hrect. rewrite Hw, <- (Hrect row Hin).
    apply (for_each_index 0%Q row
             (fun v c'' => b <- eq_tag v class_tag ;; Ok (if b then c'' + 1 else c''))).
Qed.

Lemma ratio_bounds (c n : Z) :
  0 <= c <= n -> 0 < n ->
  (0 <= inject_Z (c * 100) / inject_Z n <= 100)%Q.
Proof.
  intros Hc Hn. destruct n as [|p|p]; try lia.
  unfold Qle, Qdiv, Qmult, Qinv, inject_Z. simpl. nia.
Qed.

(** C7. On a 2D mask with at least one pixel, [__foreground_percentage]
    returns 100 times the number of pixels equal to the class value divided by
    the number of pixels; the value lies between 0 and 100 and is 0 when no
    pixel carries the class value; on the 4x4 mask with a 2x2 block of ones
    and class tag 1 it is 25. The function is pure: it reads its arguments and
    returns a number. *)
Theorem foreground_percentage_ratio (mask : list (list Q)) (class_tag h w : Z)
        (Hh : 0 < h) (Hw : 0 < w)
        (Hrows : Np.shape0 mask = h)
        (Hrect : Forall (fun row => Np.shape0 row = w) mask) :
  let c := count_tagged class_tag (concat mask) in
  (exists p : Q,
      __foreground_percentage 0%Q mask class_tag = Ok p
      /\ (p == inject_Z (100 * c) / inject_Z (h * w))%Q
      /\ (0 <= p <= 100)%Q
      /\ (c = 0 -> (p == 0)%Q))
  /\ (exists q : Q,
         __foreground_percentage 0%Q mask_4x4 1 = Ok q /\ (q == 25)%Q).
Proof.
  intros c. split.
  - rewrite (foreground_count mask class_tag h w Hh Hrows Hrect).
    assert (Hn : 0 < h * w) by nia.
    destruct (h * w =? 0) eqn:H0; [apply Z.eqb_eq in H0; lia|].
    fold c. exists (inject_Z (c * 100) / inject_Z (h * w))%Q.
    split; [reflexivity|]. split; [rewrite (Z.mul_comm c 100); reflexivity|].
    split.
    + apply ratio_bounds; [|exact Hn].
      pose proof (count_tagged_bounds class_tag (concat mask)) as Hb.
      rewrite (concat_rect_length mask w Hrect), Hrows in Hb. exact Hb.
    + intros ->. destruct (h * w) as [|p|p]; try lia. reflexivity.
  - eexists. split; [vm_compute; reflexivity | reflexivity].
Qed.

Lemma foreground_percentage_ratio_witness :
  let c := count_tagged 1 (concat mask_4x4) in
  (exists p : Q,
      __foreground_percentage 0%Q mask_4x4 1 = Ok p
      /\ (p == inject_Z (100 * c) / inject_Z (4 * 4))%Q
      /\ (0 <= p <= 100)%Q
      /\ (c = 0 -> (p == 0)%Q))
  /\ (exists q : Q,
         __foreground_percentage 0%Q mask_4x4 1 = Ok q /\ (q == 25)%Q).
Proof.
  apply (foreground_percentage_ratio mask_4x4 1 4 4); [lia | lia | reflexivity |].
  repeat constructor.
Defined.

(** ** Random-crop augmentor *)

Example random_crop_val_origin :
  outcome (random_crop image_3x3 mask_3x3 (2, 2) true false false None (fun _ => 5))
  = Ok (Crops [[[1]; [2]]; [[4]; [5]]]%Q [[[1]; [0]]; [[0]; [0]]]%Q).
Proof. reflexivity. Qed.

Example random_crop_uniform_depends_on_state :
  outcome (random_crop image_3x3 mask_3x3 (2, 2) false false false None (fun _ => 5))
  = Ok (Crops [[[5]; [6]]; [[8]; [9]]]%Q [[[0]; [0]]; [[0]; [1]]]%Q).
Proof. reflexivity. Qed.

(** C10. [random_crop] accepts single-channel images only: when
    [img.shape[2]] is not 1 the assertion fails before any crop is computed,
    in validation, uniform and probability-map mode alike. *)
Theorem random_crop_rejects_multichannel
        (img mask : image Q) (random_crop_size : Z * Z)
        (val prob_map draw_prob_map_points : bool)
        (img_prob : option (list (list Q))) (g : Rand.rng)
        (Hchannel : Np.shape2 img <> 1) :
  random_crop img mask random_crop_size val prob_map draw_prob_map_points
              img_prob g
  = Raise AssertionError.
Proof.
  unfold random_crop. apply Z.eqb_neq in Hchannel. rewrite Hchannel. reflexivity.
Qed.

Lemma random_crop_rejects_multichannel_witness :
  random_crop image_rgb image_rgb (1, 1) false true true None (fun _ => 0)
  = Raise AssertionError.
Proof.
  apply (random_crop_rejects_multichannel image_rgb image_rgb (1, 1) false true
           true None (fun _ => 0)).
  vm_compute. discriminate.
Defined.

(** ** Transform pipeline: the flip step *)

(** The flip outcomes are mutually exclusive: one draw selects at most one
    branch, and without any enabled flag nothing is flipped. *)
Lemma flip_step_disabled (self : generator) (prob : Q) (s : tstate) :
  vflip self = false -> hflip self = false -> flip_step self prob s = s.
Proof. intros Hv Hh. unfold flip_step. rewrite Hv, Hh. reflexivity. Qed.

(** C8 (the code departs from the claim). With [vflip] disabled and [hflip]
    enabled, a flip draw of 0.6 takes the "both" branch, which is gated by
    [hflip] alone: the image and the mask are flipped vertically as well as
    horizontally and the vertical-flip counter is incremented. *)
Theorem apply_transform_vflip_despite_disabled
        (elastic_transform : image Q -> Q -> Q -> Q -> image Q)
        (ndimage_rotate : image Q -> Q -> Z -> image Q)
        (enhance_brightness : image Q -> Q -> image Q)
        (median_blur : image Q -> Z -> image Q)
        (str_int : Z -> string) (str_round2 : Q -> string) :
  vflip flips_horizontal_only = false
  /\ apply_transform elastic_transform ndimage_rotate enhance_brightness
                     median_blur str_int str_round2 flips_horizontal_only
                     [[[1]; [2]]; [[3]; [4]]]%Q [[[1]; [0]]; [[0]; [0]]]%Q
                     false draws_flip_06
     = Ok ([[[4]; [3]]; [[2]; [1]]]%Q, [[[0]; [0]]; [[0]; [1]]]%Q,
           "_hfvf"%string, [0; 1; 1; 0; 0; 0]).
Proof. split; reflexivity. Qed.

(** ** Grid cropper *)

Example crop_data_no_discard :
  crop_data data_2x2 (1, 1) (Some mask_2x2) (0, 0) 0
  = Ok ([[[[10]]]; [[[20]]]; [[[30]]]; [[[40]]]]%Q,
        Some [[[[1]]]; [[[0]]]; [[[0]]]; [[[0]]]]%Q, (2, 2)).
Proof. reflexivity. Qed.

Example crop_data_square_padding :
  option_map (fun r => fst (fst r))
    (match crop_data data_5x5 (2, 2) None (0, 0) 0 with
     | Ok r => Some r
     | Raise _ => None
     end)
  = Some [[[[0]; [1]]; [[10]; [11]]]; [[[2]; [3]]; [[12]; [13]]];
          [[[4]; [0]]; [[14]; [0]]]; [[[20]; [21]]; [[30]; [31]]];
          [[[22]; [23]]; [[32]; [33]]]; [[[24]; [0]]; [[34]; [0]]];
          [[[40]; [41]]; [[0]; [0]]]; [[[42]; [43]]; [[0]; [0]]];
          [[[44]; [0]]; [[0]; [0]]]]%Q.
Proof. reflexivity. Qed.

(** C3 (the code departs from the claim). One 2x2 image cut into 1x1 tiles
    with threshold 50: only the first tile (ratio 100) passes the filter, the
    other three have ratio 0. The selection loop keeps exactly the first tile,
    but the copy loop overwrites the last kept slot with every later tile, so
    the emitted array holds the fourth tile (value 40, mask 0), whose ratio
    does not exceed the threshold, and not the tile that passed (value 10). *)
Theorem crop_data_emits_discarded_tile :
  Grid.select 1 2 2 (1, 1) mask_2x2 50 = Ok ([0], 3)
  /\ crop_data data_2x2 (1, 1) (Some mask_2x2) (0, 0) 50
     = Ok ([[[[40]]]]%Q, Some [[[[0]]]]%Q, (2, 2)).
Proof. split; reflexivity. Qed.

(** When every tile is discarded the copy loop falls back to the
    no-discard branch and indexes the empty output. *)
Example crop_data_all_discarded :
  crop_data data_2x2 (1, 1) (Some mask_2x2) (0, 0) 100 = Raise IndexError.
Proof. reflexivity. Qed.

(** C6 (the code departs from the claim). A 5x5 image with tiles 5 wide and
    2 high, [crop_shape = (5, 2)]: the tile array is allocated with height
    [crop_shape[1] = 2] and width [crop_shape[0] = 5], but the number of rows
    is computed from [crop_shape[0]] and the number of columns from
    [crop_shape[1]], so the layout is [(1, 3)] instead of
    [(ceil(5/2), ceil(5/5)) = (3, 1)], the padded volume is 2 high and 15
    wide, and copying the 5-row image into it raises [ValueError]. *)
Theorem crop_data_non_square_layout :
  Grid.layout data_5x5 (5, 2) (0, 0) = Ok (1, 3)
  /\ crop_data data_5x5 (5, 2) None (0, 0) 0 = Raise ValueError.
Proof. split; reflexivity. Qed.

(** The count [int(a / t) + (a % t > 0)] is the ceiling of [a / t]. *)
Lemma ceil_div_bounds (a t : Z) :
  0 < t -> 0 <= a ->
  let q := Py.int_div a t + (if a mod t >? 0 then 1 else 0) in
  q * t >= a /\ q * t - t < a.
Proof.
  intros Ht Ha. unfold Py.int_div. rewrite Z.quot_div_nonneg by lia.
  pose proof (Z.div_mod a t ltac:(lia)) as E.
  pose proof (Z.mod_pos_bound a t Ht) as B.
  destruct (a mod t >? 0) eqn:G.
  - apply Z.gtb_lt in G. cbv zeta. nia.
  - rewrite Z.gtb_ltb in G. apply Z.ltb_ge in G. cbv zeta. nia.
Qed.

(** For square tiles the layout is the ceiling of the quotient on both axes:
    the padded extent covers the image and no full tile is wasted. *)
Lemma grid_layout_square (data : volume Q) (t : Z) :
  0 < t ->
  exists rows cols,
    Grid.layout data (t, t) (0, 0) = Ok (rows, cols)
    /\ rows * t >= Np.shape1 data /\ rows * t - t < Np.shape1 data
    /\ cols * t >= Np.shape2 data /\ cols * t - t < Np.shape2 data.
Proof.
  intros Ht. unfold Grid.layout. cbn [fst snd andb Z.eqb].
  assert (Ht0 : (t =? 0) = false) by (apply Z.eqb_neq; lia).
  rewrite Ht0. cbn [bind].
  do 2 eexists. split; [reflexivity|].
  pose proof (ceil_div_bounds (Np.shape1 data) t Ht
                ltac:(unfold Np.shape1, Np.shape0; lia)) as [A1 A2].
  pose proof (ceil_div_bounds (Np.shape2 data) t Ht
                ltac:(unfold Np.shape2, Np.shape1, Np.shape0; lia)) as [B1 B2].
  repeat split; assumption.
Qed.

(** ** Overlap tiler: concrete runs *)

(** The scenario of the specification: [window_size = 4], [subdivision = 4]
    on a 6x6 image gives four 4x4 tiles spanning [0:4] and [2:6] on each axis,
    the rows outermost. *)
Example crop_with_overlap_6x6 :
  min_overlap_layout 4 = (2, 2)
  /\ axis_overlap 6 4 2 = (2, 0, 2)
  /\ option_map fst
       (match crop_data_with_overlap volume_6x6 volume_6x6 4 4 with
        | Ok r => Some r
        | Raise _ => None
        end)
     = Some [Np.slice2 0 4 0 4 (tabulate 6 6 (fun y x => 10 * y + x));
             Np.slice2 0 4 2 6 (tabulate 6 6 (fun y x => 10 * y + x));
             Np.slice2 2 6 0 4 (tabulate 6 6 (fun y x => 10 * y + x));
             Np.slice2 2 6 2 6 (tabulate 6 6 (fun y x => 10 * y + x))].
Proof. repeat split; reflexivity. Qed.

(** C5 (the code departs from the claim). One 4x4 image, [window_size = 4],
    [subdivision = 2]: every stated precondition holds (the subdivision is
    even, the window fits both axes, [4 * rows >= 4] and [4 * columns >= 4]),
    yet the two columns overlap entirely, the column step is 0 and
    [range(0, 0, 0)] raises [ValueError]: no tile is emitted. *)
Theorem crop_data_with_overlap_zero_step :
  2 mod 2 = 0
  /\ 4 <= Np.shape1 volume_4x4 /\ 4 <= Np.shape2 volume_4x4
  /\ min_overlap_layout 2 = (1, 2)
  /\ 4 * 1 >= Np.shape1 volume_4x4 /\ 4 * 2 >= Np.shape2 volume_4x4
  /\ axis_overlap (Np.shape2 volume_4x4) 4 2 = (4, 0, 0)
  /\ crop_data_with_overlap volume_4x4 volume_4x4 4 2 = Raise ValueError.
Proof. repeat split; try reflexivity; vm_compute; congruence. Qed.

(** ** Arrays: shapes and lookups *)

Lemma clamp_bounds (n i : Z) : 0 <= n -> 0 <= Py.clamp n i <= n.
Proof. intros Hn. unfold Py.clamp. destruct (i <? 0) eqn:E; lia. Qed.

Lemma shape0_nonneg {A : Type} (a : list A) : 0 <= Np.shape0 a.
Proof. unfold Np.shape0. lia. Qed.

Lemma get_in {A : Type} (d : A) (a : list A) (i : Z) :
  0 <= i < Np.shape0 a -> In (Np.get d a i) a.
Proof. unfold Np.get, Np.shape0. intros Hi. apply nth_In. lia. Qed.

Lemma imap_from_length {A B : Type} (f : Z -> A -> B) (i : Z) (l : list A) :
  length (Np.imap_from f i l) = length l.
Proof. revert i. induction l as [|x l IH]; intros i; simpl; [|rewrite IH]; reflexivity. Qed.

Lemma imap_from_nth {A B : Type} (f : Z -> A -> B) (i : Z) (l : list A)
      (n : nat) (d : A) (d' : B) :
  (n < length l)%nat ->
  nth n (Np.imap_from f i l) d' = f (i + Z.of_nat n) (nth n l d).
Proof.
  revert i n. induction l as [|x l IH]; intros i n Hn; simpl in Hn; [lia|].
  destruct n as [|n]; simpl.
  - f_equal. lia.
  - rewrite IH by lia. f_equal. lia.
Qed.

Lemma imap_from_Forall {A B : Type} (P : A -> Prop) (Q : B -> Prop)
      (f : Z -> A -> B) (i : Z) (l : list A) :
  (forall j x, P x -> Q (f j x)) -> Forall P l -> Forall Q (Np.imap_from f i l).
Proof.
  intros Hf Hl. revert i. induction Hl as [|x l Hx _ IH]; intros i; simpl;
    constructor; auto.
Qed.

Lemma update_slice_shape0 {A : Type} (lo hi : Z) (f : Z -> A -> A) (a : list A) :
  Np.shape0 (Np.update_slice lo hi f a) = Np.shape0 a.
Proof. unfold Np.update_slice, Np.shape0. now rewrite imap_from_length. Qed.

Lemma update_slice_get {A : Type} (d : A) (lo hi : Z) (f : Z -> A -> A)
      (a : list A) (p : Z) :
  0 <= p < Np.shape0 a ->
  Np.get d (Np.update_slice lo hi f a) p
  = if Np.in_slice (Np.shape0 a) lo hi p
    then f (p - Py.clamp (Np.shape0 a) lo) (Np.get d a p)
    else Np.get d a p.
Proof.
  intros Hp. unfold Np.get, Np.update_slice.
  rewrite (imap_from_nth _ 0 a (Z.to_nat p) d d) by (unfold Np.shape0 in Hp; lia).
  replace (0 + Z.of_nat (Z.to_nat p)) with p by lia. reflexivity.
Qed.

Lemma update_slice_Forall {A : Type} (P : A -> Prop) (lo hi : Z)
      (f : Z -> A -> A) (a : list A) :
  (forall j x, P x -> P (f j x)) -> Forall P a ->
  Forall P (Np.update_slice lo hi f a).
Proof.
  intros Hf Ha. unfold Np.update_slice.
  apply (imap_from_Forall P P); [|exact Ha].
  intros j x Hx. destruct (Np.in_slice _ lo hi j); auto.
Qed.

Lemma set_nth_length {A : Type} (i : nat) (v : A) (a : list A) :
  length (Np.set_nth i v a) = length a.
Proof.
  revert i. induction a as [|x a IH]; intros [|i]; simpl; try reflexivity.
  now rewrite IH.
Qed.

Lemma set_nth_same {A : Type} (d : A) (i : nat) (v : A) (a : list A) :
  (i < length a)%nat -> nth i (Np.set_nth i v a) d = v.
Proof.
  revert i. induction a as [|x a IH]; intros [|i] Hi; simpl in *; try lia.
  - reflexivity.
  - apply IH. lia.
Qed.

Lemma set_nth_other {A : Type} (d : A) (i j : nat) (v : A) (a : list A) :
  i <> j -> nth j (Np.set_nth i v a) d = nth j a d.
Proof.
  revert i j. induction a as [|x a IH]; intros [|i] [|j] Hij; simpl; try reflexivity.
  - lia.
  - apply IH. lia.
Qed.

Lemma set_nth_twice {A : Type} (i : nat) (v v' : A) (a : list A) :
  Np.set_nth i v' (Np.set_nth i v a) = Np.set_nth i v' a.
Proof.
  revert i. induction a as [|x a IH]; intros [|i]; simpl; try reflexivity.
  now rewrite IH.
Qed.

Lemma set_nth_Forall {A : Type} (P : A -> Prop) (i : nat) (v : A) (a : list A) :
  P v -> Forall P a -> Forall P (Np.set_nth i v a).
Proof.
  intros Hv Ha. revert i. induction Ha as [|x a Hx Ha IH]; intros [|i]; simpl;
    constructor; auto.
Qed.

Lemma zeros_get {A : Type} (d x : A) (n i : Z) :
  0 <= i < n -> Np.get d (Np.zeros n x) i = x.
Proof.
  intros Hi. unfold Np.get, Np.zeros. apply nth_repeat_lt. lia.
Qed.

Lemma zeros_shape0 {A : Type} (x : A) (n : Z) :
  0 <= n -> Np.shape0 (Np.zeros n x) = n.
Proof. intros Hn. unfold Np.shape0, Np.zeros. rewrite repeat_length. lia. Qed.

Lemma zeros_Forall {A : Type} (P : A -> Prop) (x : A) (n : Z) :
  P x -> Forall P (Np.zeros n x).
Proof.
  intros Hx. unfold Np.zeros. apply Forall_forall. intros y Hy.
  apply repeat_spec in Hy. now subst.
Qed.

Lemma slice_shape0 {A : Type} (lo hi : Z) (l : list A) :
  Np.shape0 (Py.slice lo hi l) = Np.slice_len (Np.shape0 l) lo hi.
Proof.
  unfold Py.slice, Np.slice_len, Np.shape0.
  pose proof (clamp_bounds (Z.of_nat (length l)) lo ltac:(lia)).
  pose proof (clamp_bounds (Z.of_nat (length l)) hi ltac:(lia)).
  rewrite length_firstn, length_skipn. lia.
Qed.

Lemma slice_get {A : Type} (d : A) (lo hi : Z) (l : list A) (t : Z) :
  0 <= t < Np.slice_len (Np.shape0 l) lo hi ->
  Np.get d (Py.slice lo hi l) t = Np.get d l (Py.clamp (Np.shape0 l) lo + t).
Proof.
  unfold Py.slice, Np.slice_len, Np.get, Np.shape0. intros Ht.
  pose proof (clamp_bounds (Z.of_nat (length l)) lo ltac:(lia)).
  rewrite nth_firstn.
  destruct (Nat.ltb_spec (Z.to_nat t)
              (Z.to_nat (Py.clamp (Z.of_nat (length l)) hi
                         - Py.clamp (Z.of_nat (length l)) lo))) as [_|Hge]; [|lia].
  rewrite nth_skipn. f_equal. lia.
Qed.

Lemma slice_Forall {A : Type} (P : A -> Prop) (lo hi : Z) (l : list A) :
  Forall P l -> Forall P (Py.slice lo hi l).
Proof.
  intros Hl. unfold Py.slice.
  set (a := Z.to_nat (Py.clamp (Z.of_nat (length l)) lo)).
  set (b := Z.to_nat (Py.clamp (Z.of_nat (length l)) hi
                      - Py.clamp (Z.of_nat (length l)) lo)).
  rewrite <- (firstn_skipn a l) in Hl. apply Forall_app in Hl.
  destruct Hl as [_ Hl].
  rewrite <- (firstn_skipn b (skipn a l)) in Hl. apply Forall_app in Hl.
  exact (proj1 Hl).
Qed.

Lemma zip_with_length {A B C : Type} (f : A -> B -> C) (l : list A) (l' : list B) :
  length l = length l' -> length (Arr.zip_with f l l') = length l.
Proof.
  revert l'. induction l as [|x l IH]; intros [|y l'] H; simpl in *; try lia.
  rewrite IH; lia.
Qed.

Lemma zip_with_nth {A B C : Type} (f : A -> B -> C) (l : list A) (l' : list B)
      (n : nat) (da : A) (db : B) (dc : C) :
  length l = length l' -> (n < length l)%nat ->
  nth n (Arr.zip_with f l l') dc = f (nth n l da) (nth n l' db).
Proof.
  revert l' n. induction l as [|x l IH]; intros [|y l'] n H Hn; simpl in *; try lia.
  destruct n as [|n]; [reflexivity|]. apply IH; lia.
Qed.

Lemma map_result_id {A : Type} (f : A -> result A) (l : list A) :
  Forall (fun x => f x = Ok x) l -> Np.map_result f l = Ok l.
Proof.
  induction 1 as [|x l Hx _ IH]; simpl; [reflexivity|].
  rewrite Hx. simpl. rewrite IH. reflexivity.
Qed.

Lemma bcast_id {A : Type} (n : Z) (v : list A) :
  Np.shape0 v = n -> Np.bcast n v = Ok v.
Proof. intros H. unfold Np.bcast. rewrite H, Z.eqb_refl. reflexivity. Qed.

Lemma bcast3_id {A : Type} (h w c : Z) (v : image A) :
  rect3 h w c v -> Np.bcast3 h w c v = Ok v.
Proof.
  intros [Hh Hrows]. unfold Np.bcast3. rewrite (bcast_id h v Hh). simpl.
  apply map_result_id. eapply Forall_impl; [|exact Hrows].
  intros row [Hw Hpx]. cbv beta. rewrite (bcast_id w row Hw). simpl.
  apply map_result_id. eapply Forall_impl; [|exact Hpx].
  intros px Hc. now apply bcast_id.
Qed.

(** ** The tiles along one axis *)

Lemma in_range_list_pos (stop step i : Z) :
  0 < step ->
  In i (Py.range_list 0 stop step) <-> exists t, 0 <= t /\ i = t * step /\ i < stop.
Proof.
  intros Hstep. unfold Py.range_list, Py.range_len.
  assert (E : (0 <? step) = true) by (apply Z.ltb_lt; lia). rewrite E.
  rewrite in_map_iff. split.
  - intros (t & <- & Ht). apply in_seq in Ht. exists (Z.of_nat t).
    split; [lia|]. split; [lia|].
    destruct (0 <? stop) eqn:Hs; [|simpl in Ht; lia].
    apply Z.ltb_lt in Hs.
    pose proof (Z.div_mod (stop - 0 - 1) step ltac:(lia)) as Hdm.
    pose proof (Z.mod_pos_bound (stop - 0 - 1) step Hstep) as Hm.
    assert (Z.of_nat t <= (stop - 0 - 1) / step) by lia. nia.
  - intros (t & Ht0 & -> & Hlt). exists (Z.to_nat t). split; [lia|].
    apply in_seq. split; [lia|].
    destruct (0 <? stop) eqn:Hs; [|apply Z.ltb_ge in Hs; nia].
    pose proof (Z.div_mod (stop - 0 - 1) step ltac:(lia)) as Hdm.
    pose proof (Z.mod_pos_bound (stop - 0 - 1) step Hstep) as Hm.
    assert (t <= (stop - 0 - 1) / step) by nia.
    assert (0 <= (stop - 0 - 1) / step) by nia. lia.
Qed.

(** Overlap, remainder and step on an axis with several tiles. *)
Lemma axis_overlap_multi (dim window_size k : Z) :
  2 <= k -> 1 <= window_size -> window_size < dim <= window_size * k ->
  exists ov r step,
    axis_overlap dim window_size k = (ov, r, step)
    /\ 0 <= ov /\ 0 <= r < k - 1 /\ 1 <= step /\ step = window_size - ov
    /\ dim = window_size + (k - 1) * step - r.
Proof.
  intros Hk Hw Hd. unfold axis_overlap, Py.int_div.
  assert (E : (k =? 1) = false) by (apply Z.eqb_neq; lia). rewrite E. simpl negb.
  cbv iota.
  replace (Z.abs (dim - window_size * k)) with (window_size * k - dim) by lia.
  rewrite Z.quot_div_nonneg by lia.
  set (e := window_size * k - dim).
  pose proof (Z.div_mod e (k - 1) ltac:(lia)) as Hdm.
  pose proof (Z.mod_pos_bound e (k - 1) ltac:(lia)) as Hm.
  assert (He : 0 <= e < (k - 1) * window_size) by (unfold e; nia).
  assert (Hov : 0 <= e / (k - 1) < window_size).
  { split; [apply Z.div_pos; lia | apply Z.div_lt_upper_bound; lia]. }
  do 3 eexists. split; [reflexivity|].
  repeat split; try lia; unfold e in *; nia.
Qed.

Lemma axis_overlap_single (dim window_size : Z) :
  axis_overlap dim window_size 1 = (0, 0, dim).
Proof. reflexivity. Qed.

(** Every position of an axis with several tiles lies in the window of some
    crop, whatever the remainder. *)
Lemma axis_cover_multi (dim ws k ov r step p : Z) :
  2 <= k -> 0 <= ov -> 0 <= r < k - 1 -> 1 <= step -> step = ws - ov ->
  dim = ws + (k - 1) * step - r ->
  0 <= p < dim ->
  exists i,
    In i (Py.range_list 0 (dim - ov) step)
    /\ Np.in_slice dim (i - last_offset i ws dim r) (i + ws) p = true.
Proof.
  intros Hk Hov Hr Hstep Hws Hdim Hp.
  set (S := dim - ov).
  assert (HS : S = k * step - r) by (unfold S; nia).
  assert (HSpos : 2 <= S) by nia.
  set (q := (S - 1) / step).
  pose proof (Z.div_mod (S - 1) step ltac:(lia)) as Hdm.
  pose proof (Z.mod_pos_bound (S - 1) step ltac:(lia)) as Hm.
  fold q in Hdm.
  assert (Hq1 : q * step <= S - 1) by nia.
  assert (Hq2 : S <= (q + 1) * step) by nia.
  assert (Hq : 1 <= q) by nia.
  destruct (Z_lt_ge_dec p (q * step + ov)) as [Hlow|Hhigh].
  - (* a crop before the last one *)
    set (t := Z.min (p / step) (q - 1)).
    pose proof (Z.div_mod p step ltac:(lia)) as Hpdm.
    pose proof (Z.mod_pos_bound p step ltac:(lia)) as Hpm.
    assert (Hp0 : 0 <= p / step) by (apply Z.div_pos; lia).
    assert (Ht : 0 <= t <= q - 1) by (unfold t; lia).
    exists (t * step). split.
    + apply in_range_list_pos; [lia|]. exists t. fold S. repeat split; try lia. nia.
    + assert (Hend : t * step + ws < dim) by nia.
      unfold last_offset. apply Z.ltb_lt in Hend. rewrite Hend.
      apply Z.ltb_lt in Hend.
      unfold Np.in_slice, Py.clamp.
      assert (E1 : (t * step - 0 <? 0) = false) by (apply Z.ltb_ge; nia).
      assert (E2 : (t * step + ws <? 0) = false) by (apply Z.ltb_ge; nia).
      rewrite E1, E2.
      assert (Hin : t * step <= p < t * step + ws).
      { unfold t. destruct (Z.min_spec (p / step) (q - 1)) as [[Hc ->]|[Hc ->]].
        - split; nia.
        - assert ((q - 1) * step <= p / step * step) by nia. split; nia. }
      apply andb_true_iff. split; [apply Z.leb_le | apply Z.ltb_lt]; lia.
  - (* the last crop *)
    exists (q * step). split.
    + apply in_range_list_pos; [lia|]. exists q. fold S. repeat split; lia.
    + assert (Hend : dim <= q * step + ws) by nia.
      unfold last_offset. apply Z.ltb_ge in Hend. rewrite Hend.
      apply Z.ltb_ge in Hend.
      unfold Np.in_slice, Py.clamp.
      assert (E2 : (q * step + ws <? 0) = false) by (apply Z.ltb_ge; nia).
      rewrite E2. apply andb_true_iff. split.
      * apply Z.leb_le. destruct (q * step - r <? 0) eqn:E1.
        -- apply Z.ltb_lt in E1.
           assert (Hone : step = 1) by nia.
           subst step. nia.
        -- apply Z.ltb_ge in E1. lia.
      * apply Z.ltb_lt. lia.
Qed.

(** ** Loops that cannot fail, nested loops *)

Lemma for_each_pure {I T : Type} (l : list I) (f : I -> T -> T) (s : T) :
  Py.for_each l (fun i s' => Ok (f i s')) s = Ok (fold_left (fun s' i => f i s') l s).
Proof. revert s. induction l as [|i l IH]; intros s; simpl; [reflexivity | apply IH]. Qed.

Lemma for_each_map {I J T : Type} (g : I -> J) (l : list I)
      (body : J -> T -> result T) (s : T) :
  Py.for_each (map g l) body s = Py.for_each l (fun i s' => body (g i) s') s.
Proof.
  revert s. induction l as [|i l IH]; intros s; simpl; [reflexivity|].
  destruct (body (g i) s); simpl; [apply IH | reflexivity].
Qed.

Lemma for_each_nested {I J T : Type} (l : list I) (l' : list J)
      (body : I -> J -> T -> result T) (s : T) :
  Py.for_each l (fun i s' => Py.for_each l' (fun j s'' => body i j s'') s') s
  = Py.for_each (list_prod l l') (fun ij s' => body (fst ij) (snd ij) s') s.
Proof.
  revert s. induction l as [|i l IH]; intros s; simpl; [reflexivity|].
  rewrite for_each_app, for_each_map. simpl.
  destruct (Py.for_each l' _ s); simpl; [apply IH | reflexivity].
Qed.

Lemma for_range_steps {T : Type} (start stop step : Z)
      (body : Z -> T -> result T) (s : T) :
  step <> 0 ->
  Py.for_range start stop step body s
  = Py.for_each (Py.range_list start stop step) body s.
Proof.
  intros Hstep. unfold Py.for_range, Py.range.
  apply Z.eqb_neq in Hstep. rewrite Hstep. reflexivity.
Qed.

(** ** The overlap-count matrix *)

Lemma cover_count_nonneg (h w : Z) (wins : list (Z * Z * Z * Z)) (y x : Z) :
  0 <= cover_count h w wins y x.
Proof.
  induction wins as [|win wins IH]; simpl; [lia|].
  destruct (covers h w win y x); lia.
Qed.

Lemma cover_count_in (h w : Z) (wins : list (Z * Z * Z * Z)) (win : Z * Z * Z * Z)
      (y x : Z) :
  In win wins -> covers h w win y x = true -> 1 <= cover_count h w wins y x.
Proof.
  induction wins as [|win' wins IH]; simpl; [tauto|].
  intros [->|Hin] Hc.
  - rewrite Hc. pose proof (cover_count_nonneg h w wins y x). lia.
  - specialize (IH Hin Hc). destruct (covers h w win' y x); lia.
Qed.

Lemma rect3_row {A : Type} (h w c : Z) (a : image A) (y : Z) :
  rect3 h w c a -> 0 <= y < h ->
  Np.shape0 (Np.get [] a y) = w
  /\ Forall (fun px => Np.shape0 px = c) (Np.get [] a y).
Proof.
  intros [Hh Hrows] Hy. rewrite Forall_forall in Hrows.
  apply Hrows. apply get_in. lia.
Qed.

Lemma rect3_px {A : Type} (h w c : Z) (a : image A) (y x : Z) :
  rect3 h w c a -> 0 <= y < h -> 0 <= x < w ->
  Np.shape0 (Np.get [] (Np.get [] a y) x) = c.
Proof.
  intros Ha Hy Hx. destruct (rect3_row h w c a y Ha Hy) as [Hw Hpx].
  rewrite Forall_forall in Hpx. apply Hpx. apply get_in. lia.
Qed.

Lemma get_map {A B : Type} (d : A) (d' : B) (f : A -> B) (l : list A) (i : Z) :
  0 <= i < Np.shape0 l -> Np.get d' (map f l) i = f (Np.get d l i).
Proof.
  unfold Np.get, Np.shape0. intros Hi.
  rewrite (nth_indep _ d' (f d)) by (rewrite length_map; lia).
  apply map_nth.
Qed.

Lemma incr_window_rect3 (h w c lo0 hi0 lo1 hi1 : Z) (m : image Z) :
  rect3 h w c m -> rect3 h w c (Arr.incr_window lo0 hi0 lo1 hi1 m).
Proof.
  intros [Hh Hrows]. unfold Arr.incr_window. split.
  - now rewrite update_slice_shape0.
  - apply update_slice_Forall; [|exact Hrows].
    intros _ row [Hw Hpx]. split.
    + now rewrite update_slice_shape0.
    + apply update_slice_Forall; [|exact Hpx].
      intros _ px Hc. unfold Np.shape0 in *. now rewrite length_map.
Qed.

Lemma incr_window_px3 (h w c lo0 hi0 lo1 hi1 : Z) (m : image Z) (y x ch : Z) :
  rect3 h w c m -> 0 <= y < h -> 0 <= x < w -> 0 <= ch < c ->
  px3 0 (Arr.incr_window lo0 hi0 lo1 hi1 m) y x ch
  = px3 0 m y x ch + (if covers h w (lo0, hi0, lo1, hi1) y x then 1 else 0).
Proof.
  intros Hm Hy Hx Hch.
  destruct (rect3_row h w c m y Hm Hy) as [Hw _].
  pose proof (rect3_px h w c m y x Hm Hy Hx) as Hc.
  unfold px3, Arr.incr_window, covers.
  rewrite update_slice_get by (rewrite (proj1 Hm); lia).
  rewrite (proj1 Hm).
  destruct (Np.in_slice h lo0 hi0 y); simpl andb; cbv iota; [|lia].
  rewrite update_slice_get by lia. rewrite Hw.
  destruct (Np.in_slice w lo1 hi1 x); [|lia].
  rewrite (get_map 0 0) by lia. lia.
Qed.

(** After the counting loop every pixel holds its initial value plus the
    number of windows that contain it. *)
Lemma incr_windows_px3 (h w c : Z) (wins : list (Z * Z * Z * Z)) (m : image Z) :
  rect3 h w c m ->
  rect3 h w c (fold_left (fun m' win => incr_win win m') wins m)
  /\ forall y x ch, 0 <= y < h -> 0 <= x < w -> 0 <= ch < c ->
       px3 0 (fold_left (fun m' win => incr_win win m') wins m) y x ch
       = px3 0 m y x ch + cover_count h w wins y x.
Proof.
  revert m. induction wins as [|[[[lo0 hi0] lo1] hi1] wins IH]; intros m Hm; simpl.
  - split; [exact Hm|]. intros. lia.
  - destruct (IH (Arr.incr_window lo0 hi0 lo1 hi1 m)
                 (incr_window_rect3 h w c lo0 hi0 lo1 hi1 m Hm)) as [Hr Hpx].
    split; [exact Hr|]. intros y x ch Hy Hx Hch.
    rewrite Hpx by assumption.
    rewrite (incr_window_px3 h w c) by assumption.
    change (covers h w (lo0, hi0, lo1, hi1) y x)
      with (Np.in_slice h lo0 hi0 y && Np.in_slice w lo1 hi1 x). lia.
Qed.

Lemma zeros3_rect3 {A : Type} (h w c : Z) (x : A) :
  0 <= h -> 0 <= w -> 0 <= c ->
  Arr.zeros3 h w c x = Ok (Np.zeros h (Np.zeros w (Np.zeros c x)))
  /\ rect3 h w c (Np.zeros h (Np.zeros w (Np.zeros c x))).
Proof.
  intros Hh Hw Hc. split.
  - unfold Arr.zeros3.
    assert (E : ((h <? 0) || (w <? 0) || (c <? 0)) = false).
    { rewrite !orb_false_iff. repeat split; apply Z.ltb_ge; lia. }
    now rewrite E.
  - split; [now apply zeros_shape0|].
    apply zeros_Forall. split; [now apply zeros_shape0|].
    apply zeros_Forall. now apply zeros_shape0.
Qed.

Lemma zeros3_px3 {A : Type} (d x0 : A) (h w c y x ch : Z) :
  0 <= y < h -> 0 <= x < w -> 0 <= ch < c ->
  px3 d (Np.zeros h (Np.zeros w (Np.zeros c x0))) y x ch = x0.
Proof.
  intros Hy Hx Hch. unfold px3. now rewrite !zeros_get.
Qed.

Lemma axis_ok_step (dim window_size k : Z) :
  axis_ok dim window_size k ->
  1 <= axis_step dim window_size k.
Proof.
  unfold axis_step. intros (Hw & Hd & [->|[Hk Hlt]]).
  - rewrite axis_overlap_single. simpl. lia.
  - destruct (axis_overlap_multi dim window_size k Hk Hw ltac:(lia))
      as (ov & r & step & E & _ & _ & Hs & _).
    rewrite E. exact Hs.
Qed.

Lemma axis_ok_cover (dim window_size k p : Z) :
  axis_ok dim window_size k -> 0 <= p < dim ->
  exists i,
    In i (axis_steps dim window_size k)
    /\ Np.in_slice dim (fst (axis_window dim window_size k i))
                   (snd (axis_window dim window_size k i)) p = true.
Proof.
  intros (Hw & Hd & [->|[Hk Hlt]]) Hp.
  - exists 0. unfold axis_steps, axis_window, axis_ov, axis_rem, axis_step.
    rewrite axis_overlap_single. cbn [fst snd]. split.
    + apply in_range_list_pos; [lia|]. exists 0. lia.
    + assert (dim = window_size) by lia. subst dim.
      cbn [fst snd]. unfold last_offset, Np.in_slice, Py.clamp.
      replace (0 + window_size) with window_size by lia.
      rewrite Z.ltb_irrefl. change (0 - 0 <? 0) with false. cbv iota.
      destruct (window_size <? 0) eqn:E0; [apply Z.ltb_lt in E0; lia|].
      apply andb_true_iff. split; [apply Z.leb_le | apply Z.ltb_lt]; lia.
  - destruct (axis_overlap_multi dim window_size k Hk Hw ltac:(lia))
      as (ov & r & step & E & Hov & Hr & Hs & Hss & Hdim).
    destruct (axis_cover_multi dim window_size k ov r step p Hk Hov Hr Hs Hss Hdim Hp)
      as (i & Hin & Hcov).
    exists i. unfold axis_steps, axis_window, axis_ov, axis_rem, axis_step.
    rewrite E. split; assumption.
Qed.

Lemma axis_ok_of_precondition (dim window_size k : Z) :
  1 <= window_size -> window_size <= dim -> dim <= window_size * k ->
  (k <> 1 -> window_size < dim) ->
  axis_ok dim window_size k.
Proof.
  intros Hw Hfit Hcov Hstrict. unfold axis_ok.
  assert (1 <= k) by nia.
  repeat split; lia.
Qed.

Lemma fold_left_over_map {A B T : Type} (f : T -> B -> T) (g : A -> B)
      (l : list A) (s : T) :
  fold_left f (map g l) s = fold_left (fun s' x => f s' (g x)) l s.
Proof. revert s. induction l as [|x l IH]; intros s; simpl; [reflexivity | apply IH]. Qed.

(** The counting loop of the merger runs and adds one per window. *)
Lemma overlap_matrix_of_windows (os0 os1 channels window_size subdivision : Z) :
  let rows := fst (min_overlap_layout subdivision) in
  let columns := snd (min_overlap_layout subdivision) in
  axis_ok os1 window_size rows -> axis_ok os0 window_size columns ->
  0 <= channels ->
  overlap_matrix_of (os0, os1) channels window_size subdivision
  = Ok (fold_left (fun m win => incr_win win m)
                  (crop_windows os1 os0 window_size rows columns)
                  (Np.zeros os1 (Np.zeros os0 (Np.zeros channels 0)))).
Proof.
  intros rows columns Hy Hx Hc.
  pose proof (axis_ok_step _ _ _ Hy) as Sy.
  pose proof (axis_ok_step _ _ _ Hx) as Sx.
  unfold overlap_matrix_of, crop_windows, crop_window, position_window,
    axis_steps, axis_ov, axis_rem, axis_step in *.
  destruct (zeros3_rect3 os1 os0 channels 0) as [-> _];
    [destruct Hy; lia | destruct Hx; lia | lia |].
  cbn [bind]. subst rows columns.
  destruct (min_overlap_layout subdivision) as [rows columns]. cbn [fst snd] in *.
  destruct (axis_overlap os1 window_size rows) as [[y_ov r_y] step_y].
  destruct (axis_overlap os0 window_size columns) as [[x_ov r_x] step_x].
  cbn [fst snd] in *.
  rewrite for_range_steps by lia.
  erewrite for_each_ext_in.
  2:{ intros i s' _. rewrite for_range_steps by lia. reflexivity. }
  rewrite (for_each_nested _ _
             (fun i j m =>
                Ok (Arr.incr_window (i - last_offset i window_size os1 r_y)
                                    (i + window_size)
                                    (j - last_offset j window_size os0 r_x)
                                    (j + window_size) m))).
  rewrite for_each_pure, fold_left_over_map. reflexivity.
Qed.

Lemma crop_windows_cover (h w window_size rows columns y x : Z) :
  axis_ok h window_size rows -> axis_ok w window_size columns ->
  0 <= y < h -> 0 <= x < w ->
  1 <= cover_count h w (crop_windows h w window_size rows columns) y x.
Proof.
  intros Hy Hx Hyr Hxr.
  destruct (axis_ok_cover h window_size rows y Hy Hyr) as (i & Hi & Hci).
  destruct (axis_ok_cover w window_size columns x Hx Hxr) as (j & Hj & Hcj).
  apply (cover_count_in h w _ (crop_window h w window_size rows columns (i, j))).
  - unfold crop_windows. apply in_map. now apply in_prod.
  - unfold axis_window in Hci, Hcj. cbn [fst snd] in Hci, Hcj.
    unfold covers, crop_window, position_window. cbn [fst snd].
    now rewrite Hci, Hcj.
Qed.

(** C2 (as amended). For every original shape, window size and subdivision
    that satisfy the preconditions of the tiler, with the coverage
    precondition [window_size * rows >= H], [window_size * columns >= W]
    holding for [subdivision = 1] as well, and with the window strictly
    shorter than every axis that carries more than one tile, the merger
    computes its overlap-count matrix and every entry is at least 1: the
    final division never divides by zero. *)
Theorem overlap_matrix_covers
        (width height channels window_size subdivision : Z)
        (Hparity : subdivision mod 2 = 0 \/ subdivision = 1)
        (Hwindow : 1 <= window_size) (Hchannels : 0 <= channels)
        (Hfit_h : window_size <= height) (Hfit_w : window_size <= width)
        (Hrows : window_size * fst (min_overlap_layout subdivision) >= height)
        (Hcols : window_size * snd (min_overlap_layout subdivision) >= width)
        (Hstep_h : fst (min_overlap_layout subdivision) <> 1 -> window_size < height)
        (Hstep_w : snd (min_overlap_layout subdivision) <> 1 -> window_size < width) :
  exists overlap_matrix,
    overlap_matrix_of (width, height) channels window_size subdivision
    = Ok overlap_matrix
    /\ rect3 height width channels overlap_matrix
    /\ forall y x c,
        0 <= y < height -> 0 <= x < width -> 0 <= c < channels ->
        1 <= px3 0 overlap_matrix y x c.
Proof.
  assert (Hy : axis_ok height window_size (fst (min_overlap_layout subdivision)))
    by (apply axis_ok_of_precondition; lia).
  assert (Hx : axis_ok width window_size (snd (min_overlap_layout subdivision)))
    by (apply axis_ok_of_precondition; lia).
  rewrite (overlap_matrix_of_windows width height channels window_size subdivision
             Hy Hx Hchannels).
  destruct (zeros3_rect3 height width channels 0) as [_ Hz]; try lia.
  destruct (incr_windows_px3 height width channels
              (crop_windows height width window_size
                 (fst (min_overlap_layout subdivision))
                 (snd (min_overlap_layout subdivision)))
              _ Hz) as [Hrect Hpx].
  eexists. split; [reflexivity|]. split; [exact Hrect|].
  intros y x c Hyr Hxr Hcr. rewrite Hpx by assumption.
  rewrite zeros3_px3 by assumption.
  pose proof (crop_windows_cover height width window_size _ _ y x Hy Hx Hyr Hxr).
  lia.
Qed.

Lemma overlap_matrix_covers_witness :
  exists overlap_matrix,
    overlap_matrix_of (6, 6) 1 4 4 = Ok overlap_matrix
    /\ rect3 6 6 1 overlap_matrix
    /\ forall y x c,
        0 <= y < 6 -> 0 <= x < 6 -> 0 <= c < 1 ->
        1 <= px3 0 overlap_matrix y x c.
Proof.
  apply (overlap_matrix_covers 6 6 1 4 4);
    try (vm_compute; congruence); try (left; reflexivity);
    intros _; reflexivity.
Defined.

(** With [subdivision = 1], a 4x4 shape and a 2x2 window every stated
    precondition holds (the coverage assertions are skipped), the single
    window covers the top-left corner only, and the pixel (3,3) has count 0:
    the merged pixel there is the result of a division by zero. *)
Lemma overlap_matrix_uncovered :
  (1 mod 2 = 0 \/ 1 = 1) /\ 2 <= 4
  /\ (exists overlap_matrix,
         overlap_matrix_of (4, 4) 1 2 1 = Ok overlap_matrix
         /\ px3 0 overlap_matrix 3 3 0 = 0)
  /\ (exists tiles masks merged,
         crop_data_with_overlap volume_4x4 volume_4x4 2 1 = Ok (tiles, masks)
         /\ (forall accepts out_dir ov_map,
               (ov_map = true -> accepts out_dir = true) ->
               exists files,
                 merge_data_with_overlap accepts tiles (4, 4) 2 1
                                         out_dir ov_map 0
                 = Ok (merged, files))
         /\ px3 (Fin 0) (Np.get [] merged 0) 3 3 0 = NonFinite).
Proof.
  split; [right; reflexivity|]. split; [lia|]. split.
  - eexists. split; [vm_compute; reflexivity | reflexivity].
  - do 3 eexists. split; [vm_compute; reflexivity|].
    split;
      [intros accepts out_dir [|] Hok; eexists; vm_compute;
       [rewrite (Hok eq_refl)|]; reflexivity
      |reflexivity].
Qed.

Lemma axis_good_length (dim window_size k : Z) :
  axis_good dim window_size k ->
  Z.of_nat (length (axis_steps dim window_size k)) = k.
Proof.
  intros [(Hw & Hd & [->|[Hk Hlt]]) Hrem];
    unfold axis_steps, axis_ov, axis_rem, axis_step in *;
    unfold Py.range_list; rewrite length_map, length_seq; unfold Py.range_len.
  - rewrite axis_overlap_single. cbn [fst snd].
    assert (E1 : (0 <? dim) = true) by (apply Z.ltb_lt; lia).
    replace (dim - 0) with dim by lia.
    rewrite E1. replace (dim - 0 - 1) with (dim - 1) by lia.
    rewrite Z.div_small by lia. reflexivity.
  - destruct (axis_overlap_multi dim window_size k Hk Hw ltac:(lia))
      as (ov & r & step & E & Hov & Hr & Hs & Hss & Hdim).
    rewrite E in *. cbn [fst snd] in *. specialize (Hrem ltac:(lia)).
    assert (E1 : (0 <? step) = true) by (apply Z.ltb_lt; lia).
    assert (E2 : (0 <? dim - ov) = true) by (apply Z.ltb_lt; nia).
    rewrite E1, E2.
    assert (Hq : (dim - ov - 0 - 1) / step = k - 1).
    { symmetry. apply Z.div_unique with (r := step - 1 - r); [lia | nia]. }
    rewrite Hq. lia.
Qed.

Lemma axis_good_fits (dim window_size k i : Z) :
  axis_good dim window_size k -> In i (axis_steps dim window_size k) ->
  let lo := fst (axis_window dim window_size k i) in
  let hi := snd (axis_window dim window_size k i) in
  0 <= lo /\ lo + window_size <= dim
  /\ Py.clamp dim lo = lo /\ Py.clamp dim hi = lo + window_size.
Proof.
  intros [(Hw & Hd & [->|[Hk Hlt]]) Hrem];
    unfold axis_steps, axis_window, axis_ov, axis_rem, axis_step in *.
  - rewrite axis_overlap_single. cbn [fst snd]. intros Hin.
    apply in_range_list_pos in Hin; [|lia]. destruct Hin as (t & Ht & -> & Hlt).
    assert (t = 0) by nia. subst t. assert (dim = window_size) by lia. subst dim.
    unfold last_offset, Py.clamp. simpl (0 * window_size).
    replace (0 + window_size) with window_size by lia. rewrite Z.ltb_irrefl.
    change (0 - 0 <? 0) with false. cbv iota.
    destruct (window_size <? 0) eqn:E0; [apply Z.ltb_lt in E0; lia|]. lia.
  - destruct (axis_overlap_multi dim window_size k Hk Hw ltac:(lia))
      as (ov & r & step & E & Hov & Hr & Hs & Hss & Hdim).
    rewrite E in *. cbn [fst snd] in *. specialize (Hrem ltac:(lia)).
    intros Hin. apply in_range_list_pos in Hin; [|lia].
    destruct Hin as (t & Ht & -> & Hlt').
    assert (Ht' : t <= k - 1) by nia.
    unfold last_offset, Py.clamp.
    destruct (t * step + window_size <? dim) eqn:Eend.
    + apply Z.ltb_lt in Eend.
      assert (E1 : (t * step - 0 <? 0) = false) by (apply Z.ltb_ge; nia).
      assert (E2 : (t * step + window_size <? 0) = false) by (apply Z.ltb_ge; nia).
      rewrite E1, E2. nia.
    + apply Z.ltb_ge in Eend.
      assert (t = k - 1) by nia. subst t.
      assert (E1 : ((k - 1) * step - r <? 0) = false) by (apply Z.ltb_ge; nia).
      assert (E2 : ((k - 1) * step + window_size <? 0) = false) by (apply Z.ltb_ge; nia).
      rewrite E1, E2. nia.
Qed.

Lemma axis_good_slice_len (dim window_size k i : Z) :
  axis_good dim window_size k -> In i (axis_steps dim window_size k) ->
  Np.slice_len dim (fst (axis_window dim window_size k i))
               (snd (axis_window dim window_size k i)) = window_size.
Proof.
  intros Hg Hin. destruct (axis_good_fits dim window_size k i Hg Hin)
    as (H0 & H1 & H2 & H3).
  unfold Np.slice_len. rewrite H2, H3. destruct Hg as [(Hw & _) _]. lia.
Qed.

(** ** Crops of an image *)

Lemma Forall_map_iff {A B : Type} (P : B -> Prop) (f : A -> B) (l : list A) :
  Forall (fun x => P (f x)) l -> Forall P (map f l).
Proof. induction 1; simpl; constructor; auto. Qed.

Lemma shape0_map {A B : Type} (f : A -> B) (l : list A) :
  Np.shape0 (map f l) = Np.shape0 l.
Proof. unfold Np.shape0. now rewrite length_map. Qed.

Lemma slice2_rect3 {A : Type} (h w c lo0 hi0 lo1 hi1 : Z) (img : image A) :
  rect3 h w c img ->
  rect3 (Np.slice_len h lo0 hi0) (Np.slice_len w lo1 hi1) c
        (Np.slice2 lo0 hi0 lo1 hi1 img).
Proof.
  intros [Hh Hrows]. unfold Np.slice2. split.
  - rewrite shape0_map, slice_shape0. f_equal. exact Hh.
  - apply Forall_map_iff. apply slice_Forall.
    eapply Forall_impl; [|exact Hrows]. intros row [Hw Hpx]. cbv beta. split.
    + now rewrite slice_shape0, Hw.
    + now apply slice_Forall.
Qed.

Lemma slice_len_clamp (n lo hi t : Z) :
  0 <= n -> 0 <= t < Np.slice_len n lo hi ->
  0 <= Py.clamp n lo + t < n /\ Np.in_slice n lo hi (Py.clamp n lo + t) = true.
Proof.
  intros Hn Ht. unfold Np.slice_len in Ht. unfold Np.in_slice.
  pose proof (clamp_bounds n lo Hn). pose proof (clamp_bounds n hi Hn).
  split; [lia|]. apply andb_true_iff. split; [apply Z.leb_le | apply Z.ltb_lt]; lia.
Qed.

Lemma slice2_px3 {A : Type} (d : A) (h w c lo0 hi0 lo1 hi1 : Z) (img : image A)
      (t u ch : Z) :
  rect3 h w c img ->
  0 <= t < Np.slice_len h lo0 hi0 -> 0 <= u < Np.slice_len w lo1 hi1 ->
  px3 d (Np.slice2 lo0 hi0 lo1 hi1 img) t u ch
  = px3 d img (Py.clamp h lo0 + t) (Py.clamp w lo1 + u) ch.
Proof.
  intros Himg Ht Hu. pose proof Himg as [Hh _]. subst h.
  pose proof (shape0_nonneg img) as Hh0.
  destruct (slice_len_clamp _ lo0 hi0 t Hh0 Ht) as [Hy _].
  destruct (rect3_row _ w c img _ Himg Hy) as [Hw _]. subst w.
  unfold px3, Np.slice2.
  rewrite (get_map [] []) by (rewrite slice_shape0; exact Ht).
  rewrite (slice_get [] lo0 hi0 img t Ht).
  rewrite (slice_get [] lo1 hi1 _ u Hu). reflexivity.
Qed.

(** ** The crop of the validation mode *)

(** C9. In validation mode [random_crop] takes no draw: on a single-channel
    image it returns the crops at origin (0,0) and leaves the generator as it
    found it, so two calls on the same inputs give the same result whatever
    the random state. The crops are the top-left windows: on an image of
    [h x w] pixels and a crop size [(dy, dx)] that is not negative they have
    [min dy h] rows and [min dx w] columns, and the crop pixel [(a, b)] is
    the pixel [(a, b)] of the image, and of the mask. *)
Theorem random_crop_val_deterministic
        (img mask : image Q) (dy dx : Z) (prob_map : bool)
        (img_prob : option (list (list Q))) (g g' : Rand.rng)
        (Hchannel : Np.shape2 img = 1) :
  random_crop img mask (dy, dx) true prob_map false img_prob g
  = Ok (Crops (Np.slice2 0 (0 + dy) 0 (0 + dx) img)
              (Np.slice2 0 (0 + dy) 0 (0 + dx) mask), g)
  /\ (forall draw_prob_map_points : bool,
        outcome (random_crop img mask (dy, dx) true prob_map
                             draw_prob_map_points img_prob g)
        = outcome (random_crop img mask (dy, dx) true prob_map
                               draw_prob_map_points img_prob g'))
  /\ forall h w c, rect3 h w 1 img -> rect3 h w c mask -> 0 <= dy -> 0 <= dx ->
       exists img_crop mask_crop,
         outcome (random_crop img mask (dy, dx) true prob_map false img_prob g)
         = Ok (Crops img_crop mask_crop)
         /\ rect3 (Z.min dy h) (Z.min dx w) 1 img_crop
         /\ rect3 (Z.min dy h) (Z.min dx w) c mask_crop
         /\ forall a b ch, 0 <= a < Z.min dy h -> 0 <= b < Z.min dx w ->
              px3 0%Q img_crop a b ch = px3 0%Q img a b ch
              /\ px3 0%Q mask_crop a b ch = px3 0%Q mask a b ch.
Proof.
  assert (Hrun : random_crop img mask (dy, dx) true prob_map false img_prob g
                 = Ok (Crops (Np.slice2 0 (0 + dy) 0 (0 + dx) img)
                             (Np.slice2 0 (0 + dy) 0 (0 + dx) mask), g)).
  { unfold random_crop. rewrite Hchannel. reflexivity. }
  split; [exact Hrun|]. split.
  { unfold random_crop. rewrite Hchannel. simpl. intros [|]; reflexivity. }
  intros h w c Himg Hmask Hdy Hdx. rewrite Hrun. cbn [outcome].
  assert (Hh : 0 <= h) by (rewrite <- (proj1 Himg); apply shape0_nonneg).
  assert (Hw : 0 <= w).
  { destruct (Z_lt_le_dec h 1) as [Hlt|Hge].
    - exfalso. destruct Himg as [H0 _]. unfold Np.shape2, Np.shape1 in Hchannel.
      destruct img as [|row img]; [discriminate|].
      unfold Np.shape0 in H0. simpl in H0. lia.
    - destruct (rect3_row h w 1 img 0 Himg ltac:(lia)) as [<- _].
      apply shape0_nonneg. }
  assert (Ly : Np.slice_len h 0 (0 + dy) = Z.min dy h)
    by (unfold Np.slice_len, Py.clamp; change (0 <? 0) with false; cbv iota;
        destruct (0 + dy <? 0) eqn:E; [apply Z.ltb_lt in E; lia | lia]).
  assert (Lx : Np.slice_len w 0 (0 + dx) = Z.min dx w)
    by (unfold Np.slice_len, Py.clamp; change (0 <? 0) with false; cbv iota;
        destruct (0 + dx <? 0) eqn:E; [apply Z.ltb_lt in E; lia | lia]).
  assert (C0 : forall n, 0 <= n -> Py.clamp n 0 = 0)
    by (intros n Hn; unfold Py.clamp; change (0 <? 0) with false; cbv iota; lia).
  pose proof (slice2_rect3 h w 1 0 (0 + dy) 0 (0 + dx) img Himg) as Ri.
  pose proof (slice2_rect3 h w c 0 (0 + dy) 0 (0 + dx) mask Hmask) as Rm.
  rewrite Ly, Lx in Ri, Rm.
  do 2 eexists. split; [reflexivity|]. split; [exact Ri|]. split; [exact Rm|].
  intros a b ch Ha Hb.
  rewrite (slice2_px3 0%Q h w 1) by (rewrite ?Ly, ?Lx; assumption).
  rewrite (slice2_px3 0%Q h w c) by (rewrite ?Ly, ?Lx; assumption).
  rewrite !C0 by assumption. split; reflexivity.
Qed.

Lemma random_crop_val_deterministic_witness :
  random_crop image_3x3 mask_3x3 (2, 2) true false false None (fun _ => 5)
  = Ok (Crops (Np.slice2 0 (0 + 2) 0 (0 + 2) image_3x3)
              (Np.slice2 0 (0 + 2) 0 (0 + 2) mask_3x3), fun _ => 5)
  /\ (forall draw_prob_map_points : bool,
        outcome (random_crop image_3x3 mask_3x3 (2, 2) true false
                             draw_prob_map_points None (fun _ => 5))
        = outcome (random_crop image_3x3 mask_3x3 (2, 2) true false
                               draw_prob_map_points None (fun n => Z.of_nat n)))
  /\ forall h w c, rect3 h w 1 image_3x3 -> rect3 h w c mask_3x3 ->
       0 <= 2 -> 0 <= 2 ->
       exists img_crop mask_crop,
         outcome (random_crop image_3x3 mask_3x3 (2, 2) true false false None
                              (fun _ => 5))
         = Ok (Crops img_crop mask_crop)
         /\ rect3 (Z.min 2 h) (Z.min 2 w) 1 img_crop
         /\ rect3 (Z.min 2 h) (Z.min 2 w) c mask_crop
         /\ forall a b ch, 0 <= a < Z.min 2 h -> 0 <= b < Z.min 2 w ->
              px3 0%Q img_crop a b ch = px3 0%Q image_3x3 a b ch
              /\ px3 0%Q mask_crop a b ch = px3 0%Q mask_3x3 a b ch.
Proof.
  apply (random_crop_val_deterministic image_3x3 mask_3x3 2 2 false None
           (fun _ => 5) (fun n => Z.of_nat n)).
  reflexivity.
Defined.

(** ** The tiler fills its output in loop order *)

Lemma set_nth_app {A : Type} (done : list A) (z t : A) (rest : list A) :
  Np.set_nth (length done) t (done ++ z :: rest) = done ++ t :: rest.
Proof. induction done as [|x done IH]; simpl; [reflexivity | now rewrite IH]. Qed.

Lemma set_tile_append (h w c : Z) (done : volume Q) (z tile : image Q)
      (rest : volume Q) :
  rect3 h w c tile ->
  Arr.set_tile h w c (done ++ z :: rest) (Z.of_nat (length done)) tile
  = Ok (done ++ tile :: rest).
Proof.
  intros Ht. unfold Arr.set_tile, Np.norm_index, Np.shape0.
  assert (E : ((0 <=? Z.of_nat (length done))
               && (Z.of_nat (length done) <? Z.of_nat (length (done ++ z :: rest))))
              = true).
  { apply andb_true_iff. split; [apply Z.leb_le | apply Z.ltb_lt];
      rewrite ?length_app; simpl; lia. }
  rewrite E. cbn [bind]. rewrite (bcast3_id h w c tile Ht). cbn [bind].
  rewrite Nat2Z.id, set_nth_app. reflexivity.
Qed.

Lemma item_in_range {A : Type} (d : A) (a : list A) (k : Z) :
  0 <= k < Np.shape0 a -> Arr.item d a k = Ok (Np.get d a k).
Proof.
  intros Hk. unfold Arr.item, Np.norm_index.
  assert (E : ((0 <=? k) && (k <? Np.shape0 a)) = true).
  { apply andb_true_iff. split; [apply Z.leb_le | apply Z.ltb_lt]; lia. }
  rewrite E. reflexivity.
Qed.

Lemma crop_one_fill (data data_mask : volume Q) (ws r_y r_x k : Z)
      (ijs : list (Z * Z)) (done mdone rest mrest : volume Q) :
  let win := position_window ws (Np.shape1 data) (Np.shape2 data) r_y r_x in
  0 <= k < Np.shape0 data_mask ->
  Forall (fun ij =>
            rect3 ws ws (Np.shape3 data) (window_tile (win ij) (Np.get [] data k))
            /\ rect3 ws ws (Np.shape3 data)
                     (window_tile (win ij) (Np.get [] data_mask k))) ijs ->
  length mdone = length done ->
  (length ijs <= length rest)%nat -> (length ijs <= length mrest)%nat ->
  Py.for_each ijs
    (fun ij st => crop_one data data_mask ws r_y r_x k (fst ij) (snd ij) st)
    (done ++ rest, mdone ++ mrest, Z.of_nat (length done))
  = Ok (done ++ map (fun ij => window_tile (win ij) (Np.get [] data k)) ijs
             ++ skipn (length ijs) rest,
        mdone ++ map (fun ij => window_tile (win ij) (Np.get [] data_mask k)) ijs
              ++ skipn (length ijs) mrest,
        Z.of_nat (length done + length ijs)).
Proof.
  intros win Hk Htiles. revert done mdone rest mrest.
  induction Htiles as [|ij ijs [Hd Hm] _ IH]; intros done mdone rest mrest Hlen Hr Hmr.
  - simpl. rewrite Nat.add_0_r. reflexivity.
  - destruct rest as [|z rest]; [simpl in Hr; lia|].
    destruct mrest as [|mz mrest]; [simpl in Hmr; lia|].
    cbn [Py.for_each]. unfold crop_one at 1.
    fold (position_window ws (Np.shape1 data) (Np.shape2 data) r_y r_x ij).
    change (Np.slice2 _ _ _ _ (Np.get [] data k))
      with (window_tile (win ij) (Np.get [] data k)).
    rewrite (set_tile_append _ _ _ done z _ rest Hd). cbn [bind].
    rewrite item_in_range by exact Hk. cbn [bind].
    change (Np.slice2 _ _ _ _ (Np.get [] data_mask k))
      with (window_tile (win ij) (Np.get [] data_mask k)).
    rewrite <- Hlen.
    rewrite (set_tile_append _ _ _ mdone mz _ mrest Hm). cbn [bind].
    replace (Z.of_nat (length mdone) + 1)
      with (Z.of_nat (length (done ++ [window_tile (win ij) (Np.get [] data k)])))
      by (rewrite length_app, Hlen; simpl; lia).
    replace (done ++ window_tile (win ij) (Np.get [] data k) :: rest)
      with ((done ++ [window_tile (win ij) (Np.get [] data k)]) ++ rest)
      by (rewrite <- app_assoc; reflexivity).
    replace (mdone ++ window_tile (win ij) (Np.get [] data_mask k) :: mrest)
      with ((mdone ++ [window_tile (win ij) (Np.get [] data_mask k)]) ++ mrest)
      by (rewrite <- app_assoc; reflexivity).
    rewrite IH.
    + rewrite <- !app_assoc. cbn [map app skipn length].
      rewrite length_app. cbn [length].
      apply f_equal. apply f_equal2; [reflexivity | lia].
    + rewrite !length_app. simpl. lia.
    + simpl in Hr. lia.
    + simpl in Hmr. lia.
Qed.

Lemma crop_images_fill (data data_mask : volume Q) (ws r_y r_x : Z)
      (ijs : list (Z * Z)) (ks : list Z) :
  let win := position_window ws (Np.shape1 data) (Np.shape2 data) r_y r_x in
  Forall (fun k =>
            0 <= k < Np.shape0 data_mask
            /\ Forall (fun ij =>
                 rect3 ws ws (Np.shape3 data)
                       (window_tile (win ij) (Np.get [] data k))
                 /\ rect3 ws ws (Np.shape3 data)
                          (window_tile (win ij) (Np.get [] data_mask k))) ijs) ks ->
  forall done mdone rest mrest : volume Q,
    length mdone = length done ->
    (length ks * length ijs <= length rest)%nat ->
    (length ks * length ijs <= length mrest)%nat ->
    Py.for_each ks
      (fun k st =>
         Py.for_each ijs
           (fun ij st' => crop_one data data_mask ws r_y r_x k (fst ij) (snd ij) st')
           st)
      (done ++ rest, mdone ++ mrest, Z.of_nat (length done))
    = Ok (done
            ++ flat_map (fun k => map (fun ij => window_tile (win ij) (Np.get [] data k))
                                      ijs) ks
            ++ skipn (length ks * length ijs) rest,
          mdone
            ++ flat_map (fun k => map (fun ij => window_tile (win ij)
                                                   (Np.get [] data_mask k)) ijs) ks
            ++ skipn (length ks * length ijs) mrest,
          Z.of_nat (length done + length ks * length ijs)).
Proof.
  intros win Hks.
  induction Hks as [|k ks [Hk Htiles] _ IH]; intros done mdone rest mrest Hlen Hr Hmr.
  - simpl. rewrite Nat.add_0_r. reflexivity.
  - cbn [Py.for_each length] in *.
    rewrite (crop_one_fill data data_mask ws r_y r_x k ijs done mdone rest mrest
               Hk Htiles Hlen) by lia.
    cbn [bind]. fold win.
    set (td := map (fun ij => window_tile (win ij) (Np.get [] data k)) ijs).
    set (tm := map (fun ij => window_tile (win ij) (Np.get [] data_mask k)) ijs).
    assert (Ltd : length td = length ijs) by (unfold td; apply length_map).
    assert (Ltm : length tm = length ijs) by (unfold tm; apply length_map).
    rewrite (app_assoc done td), (app_assoc mdone tm).
    replace (Z.of_nat (length done + length ijs))
      with (Z.of_nat (length (done ++ td))) by (rewrite length_app; lia).
    rewrite IH.
    + cbn [flat_map]. fold td tm. rewrite !skipn_skipn, <- !app_assoc.
      apply f_equal. rewrite length_app.
      replace (length ks * length ijs + length ijs)%nat
        with (length ijs + length ks * length ijs)%nat by lia.
      apply f_equal2; [reflexivity | lia].
    + rewrite !length_app. lia.
    + rewrite length_skipn. lia.
    + rewrite length_skipn. lia.
Qed.

Lemma map_get_range {A : Type} (d : A) (l : list A) :
  map (Np.get d l) (Py.range_list 0 (Np.shape0 l) 1) = l.
Proof.
  rewrite range_list_unit. unfold Np.shape0, Np.get.
  replace (Z.to_nat (Z.of_nat (length l) - 0)) with (length l) by lia.
  rewrite map_map. apply nth_ext with (d := d) (d' := d).
  - now rewrite length_map, length_seq.
  - intros n Hn. rewrite length_map, length_seq in Hn.
    rewrite (nth_indep _ d (nth (Z.to_nat (0 + Z.of_nat 0)) l d))
      by (rewrite length_map, length_seq; exact Hn).
    rewrite (map_nth (fun t => nth (Z.to_nat (0 + Z.of_nat t)) l d) (seq 0 (length l)) 0%nat n).
    rewrite seq_nth by exact Hn. simpl (0 + _)%nat. f_equal. lia.
Qed.

Lemma flat_map_map {A B C : Type} (g : A -> B) (f : B -> list C) (l : list A) :
  flat_map f (map g l) = flat_map (fun x => f (g x)) l.
Proof. induction l as [|x l IH]; simpl; [reflexivity | now rewrite IH]. Qed.

Lemma flat_map_get_range {A B : Type} (d : A) (l : list A) (f : A -> list B) :
  flat_map (fun k => f (Np.get d l k)) (Py.range_list 0 (Np.shape0 l) 1)
  = flat_map f l.
Proof. now rewrite <- flat_map_map, map_get_range. Qed.

Lemma flat_map_length_uniform {A B : Type} (f : A -> list B) (l : list A) (n : nat) :
  (forall x, In x l -> length (f x) = n) ->
  length (flat_map f l) = (length l * n)%nat.
Proof.
  induction l as [|x l IH]; intros Hf; simpl; [reflexivity|].
  rewrite length_app, Hf by (left; reflexivity).
  rewrite IH by (intros y Hy; apply Hf; right; exact Hy). reflexivity.
Qed.

(** The shape of a non-empty well-formed volume, as the code reads it. *)
Lemma rect3_shapes {A : Type} (h w c : Z) (a : image A) :
  rect3 h w c a -> 1 <= h -> 1 <= w ->
  Np.shape0 a = h /\ Np.shape1 a = w /\ Np.shape2 a = c.
Proof.
  intros [Hh Hrows] H1 W1. split; [exact Hh|].
  destruct a as [|row a]; [unfold Np.shape0 in Hh; simpl in Hh; lia|].
  inversion Hrows as [|? ? Hrow _]; subst. destruct Hrow as [Hw Hpx].
  split; [exact Hw|].
  destruct row as [|px row]; [unfold Np.shape0 in Hw; simpl in Hw; lia|].
  inversion Hpx; subst. reflexivity.
Qed.

Lemma rect4_shapes {A : Type} (n h w c : Z) (v : volume A) :
  rect4 n h w c v -> 1 <= n -> 1 <= h -> 1 <= w ->
  Np.shape0 v = n /\ Np.shape1 v = h /\ Np.shape2 v = w /\ Np.shape3 v = c.
Proof.
  intros [Hn Himgs] N1 H1 W1. split; [exact Hn|].
  destruct v as [|img v]; [unfold Np.shape0 in Hn; simpl in Hn; lia|].
  inversion Himgs as [|? ? Himg _]; subst.
  exact (rect3_shapes h w c img Himg H1 W1).
Qed.

Lemma rect4_get {A : Type} (n h w c : Z) (v : volume A) (k : Z) :
  rect4 n h w c v -> 0 <= k < n -> rect3 h w c (Np.get [] v k).
Proof.
  intros [Hn Himgs] Hk. rewrite Forall_forall in Himgs.
  apply Himgs, get_in. lia.
Qed.

Lemma tile_rect3 (h w c ws rows columns : Z) (img : image Q) (ij : Z * Z) :
  axis_good h ws rows -> axis_good w ws columns -> rect3 h w c img ->
  In ij (list_prod (axis_steps h ws rows) (axis_steps w ws columns)) ->
  rect3 ws ws c (window_tile (crop_window h w ws rows columns ij) img).
Proof.
  intros Gy Gx Himg Hin. destruct ij as [i j]. apply in_prod_iff in Hin.
  destruct Hin as [Hi Hj].
  pose proof (axis_good_slice_len h ws rows i Gy Hi) as Ly.
  pose proof (axis_good_slice_len w ws columns j Gx Hj) as Lx.
  unfold axis_window in Ly, Lx. cbn [fst snd] in Ly, Lx.
  unfold crop_window, position_window, window_tile. cbn [fst snd].
  pose proof (slice2_rect3 h w c
                (i - last_offset i ws h (axis_rem h ws rows)) (i + ws)
                (j - last_offset j ws w (axis_rem w ws columns)) (j + ws)
                img Himg) as R.
  rewrite Ly, Lx in R. exact R.
Qed.

(** The layout multiplies back to the subdivision. *)
Lemma layout_product (subdivision : Z) :
  subdivision = 1 \/ (2 <= subdivision < 2 ^ 53) ->
  fst (min_overlap_layout subdivision) * snd (min_overlap_layout subdivision)
  = subdivision.
Proof.
  intros [->|Hs]; [reflexivity|].
  assert (Hmax : subdivision <= Py.sys_maxsize).
  { unfold Py.sys_maxsize. change (2 ^ 53) with 9007199254740992 in Hs.
    change (2 ^ 63) with 9223372036854775808. lia. }
  destruct (min_overlap_layout_inv subdivision ltac:(lia) Hmax) as [min_d Hinv].
  unfold layout_inv in Hinv. destruct Hinv as (Hr & Hdiv & Hc & _).
  rewrite Hc. symmetry. apply Z_div_exact_full_2; [lia | exact Hdiv].
Qed.

Lemma axis_overlap_eta (dim window_size k : Z) :
  axis_overlap dim window_size k
  = (axis_ov dim window_size k, axis_rem dim window_size k,
     axis_step dim window_size k).
Proof.
  unfold axis_ov, axis_rem, axis_step.
  destruct (axis_overlap dim window_size k) as [[ov r] step]. reflexivity.
Qed.

Lemma zeros4_ok {A : Type} (n h w c : Z) (x : A) :
  0 <= n -> 0 <= h -> 0 <= w -> 0 <= c ->
  Arr.zeros4 n h w c x = Ok (Np.zeros n (Np.zeros h (Np.zeros w (Np.zeros c x)))).
Proof.
  intros Hn Hh Hw Hc. unfold Arr.zeros4.
  assert (E : (n <? 0) = false) by (apply Z.ltb_ge; lia). rewrite E.
  destruct (zeros3_rect3 h w c x Hh Hw Hc) as [-> _]. reflexivity.
Qed.

(** ** The tiler on a good layout *)

Section RoundTrip.

Variables (n h w c window_size subdivision : Z).
Variables (data data_mask : volume Q).

Let rows := fst (min_overlap_layout subdivision).
Let columns := snd (min_overlap_layout subdivision).
Let wins := crop_windows h w window_size rows columns.

Hypothesis Hn : 1 <= n.
Hypothesis Hc : 0 <= c.
Hypothesis Hsub : subdivision = 1
                  \/ (subdivision mod 2 = 0 /\ 2 <= subdivision < 2 ^ 53).
Hypothesis Hdata : rect4 n h w c data.
Hypothesis Hmask : rect4 n h w c data_mask.
Hypothesis Gy : axis_good h window_size rows.
Hypothesis Gx : axis_good w window_size columns.

Lemma good_dims : 1 <= window_size /\ window_size <= h /\ window_size <= w
                  /\ h <= window_size * rows /\ w <= window_size * columns.
Proof.
  destruct Gy as [(A1 & A2 & _) _]. destruct Gx as [(B1 & B2 & _) _]. lia.
Qed.

Lemma data_shapes :
  Np.shape0 data = n /\ Np.shape1 data = h /\ Np.shape2 data = w
  /\ Np.shape3 data = c.
Proof. pose proof good_dims. apply rect4_shapes; [exact Hdata | lia..]. Qed.

Lemma wins_length : Z.of_nat (length wins) = subdivision.
Proof.
  unfold wins, crop_windows. rewrite length_map, length_prod, Nat2Z.inj_mul.
  rewrite (axis_good_length _ _ _ Gy), (axis_good_length _ _ _ Gx).
  apply layout_product. destruct Hsub as [->|[_ Hs]]; [left; reflexivity | right; exact Hs].
Qed.

Lemma subdivision_pos : 1 <= subdivision.
Proof. destruct Hsub as [->|[_ Hs]]; lia. Qed.

(** On a good layout the tiler returns the crops of the data and of the mask
    in loop order: image by image, row step by row step, column step by
    column step. *)
Lemma crop_data_with_overlap_tiles :
  crop_data_with_overlap data data_mask window_size subdivision
  = Ok (tiles_of wins data, tiles_of wins data_mask).
Proof.
  pose proof good_dims as (W1 & Wh & Ww & Ch & Cw).
  destruct data_shapes as (S0 & S1 & S2 & S3).
  pose proof subdivision_pos as Hpos.
  pose proof wins_length as Hwl.
  unfold crop_data_with_overlap. rewrite S0, S1, S2, S3.
  assert (E1 : ((subdivision mod 2 =? 0) || (subdivision =? 1)) = true).
  { destruct Hsub as [->|[He _]]; [reflexivity|]. rewrite He. reflexivity. }
  assert (E2 : (window_size <=? h) = true) by (apply Z.leb_le; lia).
  assert (E3 : (window_size <=? w) = true) by (apply Z.leb_le; lia).
  rewrite E1, E2, E3. cbn [assert bind].
  rewrite (zeros4_ok (n * subdivision) window_size window_size c 0%Q)
    by nia.
  cbn [bind].
  rewrite (surjective_pairing (min_overlap_layout subdivision)).
  fold rows columns.
  assert (E4 : (window_size * rows >=? h) = true) by (apply Z.geb_le; lia).
  assert (E5 : (window_size * columns >=? w) = true) by (apply Z.geb_le; lia).
  rewrite E4, E5. cbn [assert bind].
  assert (E6 : (if negb (subdivision =? 1) then Ok tt else Ok tt) = Ok tt)
    by (destruct (negb (subdivision =? 1)); reflexivity).
  rewrite E6. cbn [bind].
  rewrite (axis_overlap_eta h window_size rows),
          (axis_overlap_eta w window_size columns).
  pose proof (axis_ok_step _ _ _ (proj1 Gy)) as Sy.
  pose proof (axis_ok_step _ _ _ (proj1 Gx)) as Sx.
  rewrite for_range_steps by lia.
  rewrite for_each_ext_in with
    (g := fun k st =>
            Py.for_each (list_prod (axis_steps h window_size rows)
                                   (axis_steps w window_size columns))
              (fun ij st' =>
                 crop_one data data_mask window_size
                          (axis_rem h window_size rows)
                          (axis_rem w window_size columns) k (fst ij) (snd ij) st')
              st).
  2:{ intros k st _. rewrite for_range_steps by lia.
      erewrite for_each_ext_in.
      2:{ intros i st' _. rewrite for_range_steps by lia. reflexivity. }
      apply (for_each_nested _ _
               (fun i j st' =>
                  crop_one data data_mask window_size
                           (axis_rem h window_size rows)
                           (axis_rem w window_size columns) k i j st')). }
  set (z := Np.zeros window_size (Np.zeros window_size (Np.zeros c 0%Q))).
  change (Np.zeros (n * subdivision) z, Np.zeros (n * subdivision) z, 0)
    with (@nil (image Q) ++ Np.zeros (n * subdivision) z,
          @nil (image Q) ++ Np.zeros (n * subdivision) z,
          Z.of_nat (length (@nil (image Q)))).
  set (ijs := list_prod (axis_steps h window_size rows)
                        (axis_steps w window_size columns)).
  assert (Lijs : Z.of_nat (length ijs) = subdivision).
  { rewrite <- Hwl. unfold wins, crop_windows. now rewrite length_map. }
  assert (Lks : length (Py.range_list 0 n 1) = Z.to_nat n).
  { rewrite range_list_unit, length_map, length_seq. f_equal. lia. }
  rewrite crop_images_fill.
  - cbn [bind app]. unfold Np.zeros at 1 2.
    rewrite !skipn_all2 by (rewrite repeat_length, Lks; nia).
    rewrite !app_nil_r. rewrite S1, S2.
    unfold tiles_of, wins, crop_windows, crop_window. fold ijs.
    apply f_equal. apply f_equal2.
    + rewrite <- S0, <- (flat_map_get_range [] data). apply flat_map_ext.
      intros k. now rewrite map_map.
    + rewrite <- (proj1 Hmask), <- (flat_map_get_range [] data_mask).
      apply flat_map_ext. intros k. now rewrite map_map.
  - rewrite S1, S2, S3. apply Forall_forall. intros k Hk.
    apply in_range_list_unit in Hk. split; [rewrite (proj1 Hmask); lia|].
    apply Forall_forall. intros ij Hij. split.
    + apply (tile_rect3 h w c window_size rows columns _ ij Gy Gx);
        [apply (rect4_get n h w c data k Hdata); lia | exact Hij].
    + apply (tile_rect3 h w c window_size rows columns _ ij Gy Gx);
        [apply (rect4_get n h w c data_mask k Hmask); lia | exact Hij].
  - reflexivity.
  - unfold Np.zeros. rewrite repeat_length, Lks. nia.
  - unfold Np.zeros. rewrite repeat_length, Lks. nia.
Qed.

End RoundTrip.

(** ** Accumulating crops into an image *)

Lemma add_window_ok (h w c lo0 hi0 lo1 hi1 : Z) (tile : image Q) (m : image f32) :
  rect3 (Np.slice_len h lo0 hi0) (Np.slice_len w lo1 hi1) c tile ->
  Arr.add_window h w c lo0 hi0 lo1 hi1 tile m
  = Ok (add_tile (lo0, hi0, lo1, hi1) tile m).
Proof.
  intros Ht. unfold Arr.add_window. rewrite (bcast3_id _ _ _ tile Ht). reflexivity.
Qed.

Lemma imap_from_Forall_index {A B : Type} (P : A -> Prop) (Q : B -> Prop)
      (f : Z -> A -> B) (i : Z) (l : list A) :
  (forall j x, i <= j < i + Z.of_nat (length l) -> P x -> Q (f j x)) ->
  Forall P l -> Forall Q (Np.imap_from f i l).
Proof.
  intros Hf Hl. revert i Hf. induction Hl as [|x l Hx Hl IH]; intros i Hf; simpl.
  - constructor.
  - constructor.
    + apply Hf; [simpl; lia | exact Hx].
    + apply IH. intros j y Hj Hy. apply Hf; [simpl length; lia | exact Hy].
Qed.

Lemma update_slice_Forall_in {A : Type} (P : A -> Prop) (lo hi : Z)
      (f : Z -> A -> A) (a : list A) :
  (forall p x, 0 <= p < Np.shape0 a -> Np.in_slice (Np.shape0 a) lo hi p = true ->
               P x -> P (f (p - Py.clamp (Np.shape0 a) lo) x)) ->
  Forall P a -> Forall P (Np.update_slice lo hi f a).
Proof.
  intros Hf Ha. unfold Np.update_slice.
  apply (imap_from_Forall_index P P); [|exact Ha].
  intros j x Hj Hx. destruct (Np.in_slice (Np.shape0 a) lo hi j) eqn:E; [|exact Hx].
  apply Hf; [unfold Np.shape0; lia | exact E | exact Hx].
Qed.

Lemma in_slice_offset (n lo hi p : Z) :
  Np.in_slice n lo hi p = true ->
  0 <= p - Py.clamp n lo < Np.slice_len n lo hi.
Proof.
  unfold Np.in_slice, Np.slice_len. intros H. apply andb_true_iff in H.
  destruct H as [H1 H2]. apply Z.leb_le in H1. apply Z.ltb_lt in H2. lia.
Qed.

Lemma get_zip_with {A B C : Type} (da : A) (db : B) (dc : C) (f : A -> B -> C)
      (l : list A) (l' : list B) (i : Z) :
  Np.shape0 l = Np.shape0 l' -> 0 <= i < Np.shape0 l ->
  Np.get dc (Arr.zip_with f l l') i = f (Np.get da l i) (Np.get db l' i).
Proof.
  unfold Np.shape0, Np.get. intros Hl Hi. apply zip_with_nth; lia.
Qed.

Lemma shape0_zip_with {A B C : Type} (f : A -> B -> C) (l : list A) (l' : list B) :
  Np.shape0 l = Np.shape0 l' -> Np.shape0 (Arr.zip_with f l l') = Np.shape0 l.
Proof. unfold Np.shape0. intros H. rewrite zip_with_length; lia. Qed.

(** ** Rounding *)

Lemma round_compat (x y : Q) : (x == y)%Q -> F32.round x = F32.round y.
Proof. intros E. unfold F32.round. now rewrite (Qred_complete x y E). Qed.

(** Integers up to [2^24] in absolute value are float32 values. *)
Lemma Qred_inject_Z (m : Z) : Qred (inject_Z m) = inject_Z m.
Proof.
  unfold Qred, inject_Z.
  pose proof (Z.ggcd_gcd m 1) as Hg.
  pose proof (Z.ggcd_correct_divisors m 1) as Hd.
  destruct (Z.ggcd m 1) as [g [n' d']]. cbn [fst snd] in *.
  rewrite Z.gcd_1_r in Hg. subst g. destruct Hd as [Hn Hd].
  replace n' with m by lia. replace d' with 1 by lia. reflexivity.
Qed.

Lemma floor_log2_inject_Z (m : Z) :
  m <> 0 -> F32.floor_log2 (inject_Z m) = Z.log2 (Z.abs m).
Proof.
  intros Hm. unfold F32.floor_log2. cbn [Qnum Qden inject_Z].
  change (Z.log2 1) with 0. rewrite Z.sub_0_r.
  assert (H0 : 0 <= Z.log2 (Z.abs m)) by apply Z.log2_nonneg.
  unfold F32.pow2. destruct (0 <=? Z.log2 (Z.abs m)) eqn:E; [|apply Z.leb_gt in E; lia].
  assert (Hle : Qle_bool (inject_Z (2 ^ Z.log2 (Z.abs m))) (Qabs (inject_Z m)) = true).
  { apply Qle_bool_iff. unfold Qle. cbn [Qnum Qden inject_Z Qabs]. rewrite !Z.mul_1_r.
    apply Z.log2_spec. lia. }
  now rewrite Hle.
Qed.

Lemma round_even_integer (n : Z) : F32.round_even (n # 1) = n.
Proof.
  unfold F32.round_even. cbn [Qnum Qden].
  rewrite Z.div_1_r, Z.mod_1_r. reflexivity.
Qed.

Lemma is_f32_integer (m : Z) : Z.abs m <= 2 ^ 24 -> is_f32 (inject_Z m).
Proof.
  intros Hm. unfold is_f32, F32.round. rewrite Qred_inject_Z. cbv zeta.
  destruct (Z.eq_dec m 0) as [->|Hnz].
  { exists 0%Q. split; reflexivity. }
  assert (E0 : Qeq_bool (inject_Z m) 0 = false).
  { destruct (Qeq_bool (inject_Z m) 0) eqn:E; [|reflexivity].
    apply Qeq_bool_eq in E. unfold Qeq in E. simpl in E. lia. }
  rewrite E0, (floor_log2_inject_Z m Hnz).
  set (L := Z.log2 (Z.abs m)).
  assert (HL : 0 <= L) by apply Z.log2_nonneg.
  assert (Hspec : 2 ^ L <= Z.abs m < 2 ^ (L + 1)).
  { replace (L + 1) with (Z.succ L) by lia. apply Z.log2_spec. lia. }
  assert (HL24 : L <= 24).
  { destruct (Z.le_gt_cases L 24) as [H|H]; [exact H|].
    assert (2 ^ 25 <= 2 ^ L) by (apply Z.pow_le_mono_r; lia).
    change (2 ^ 24) with 16777216 in Hm. change (2 ^ 25) with 33554432 in H0. lia. }
  rewrite Z.max_r by lia.
  (* the rounded value *)
  assert (Hr : exists n d,
             F32.round_even (inject_Z m / F32.pow2 (L - 23)) = n
             /\ F32.pow2 (L - 23) = d
             /\ (inject_Z n * d == inject_Z m)%Q).
  { unfold F32.pow2. destruct (0 <=? L - 23) eqn:E.
    - apply Z.leb_le in E. assert (EL : L = 23 \/ L = 24) by lia.
      destruct EL as [EL|EL]; rewrite EL in *.
      + exists m, 1%Q. change (inject_Z (2 ^ (23 - 23))) with 1%Q.
        split; [|split; [reflexivity | ring]].
        unfold Qdiv, Qmult, Qinv, inject_Z. cbn [Qnum Qden].
        rewrite Z.mul_1_r. apply round_even_integer.
      + assert (Em : m = 16777216 \/ m = -16777216).
        { change (2 ^ 24) with 16777216 in *. lia. }
        destruct Em as [->| ->].
        * exists 8388608, 2%Q. split; [reflexivity | split; reflexivity].
        * exists (-8388608), 2%Q. split; [reflexivity | split; reflexivity].
    - apply Z.leb_gt in E.
      assert (Hp : 0 < 2 ^ (- (L - 23))) by (apply Z.pow_pos_nonneg; lia).
      destruct (2 ^ (- (L - 23))) as [|p|p] eqn:Ep; try lia.
      exists (m * Zpos p), (1 # p)%Q.
      split; [apply round_even_integer|]. split; [reflexivity|].
      unfold Qeq, Qmult, inject_Z. cbn [Qnum Qden]. lia. }
  destruct Hr as (n & d & Hdiv & Hd & Hnd).
  rewrite Hdiv, Hd.
  assert (Hov : Qle_bool (F32.pow2 128) (Qabs (inject_Z n * d)) = false).
  { destruct (Qle_bool (F32.pow2 128) (Qabs (inject_Z n * d))) eqn:E; [|reflexivity].
    apply Qle_bool_iff in E. rewrite Hnd in E.
    unfold Qle, F32.pow2 in E. cbn [Qnum Qden inject_Z Qabs] in E.
    change (0 <=? 128) with true in E. cbv iota in E. cbn [Qnum Qden inject_Z] in E.
    rewrite !Z.mul_1_r in E.
    assert (2 ^ 24 < 2 ^ 128) by reflexivity. lia. }
  rewrite Hov. exists (Qred (inject_Z n * d)). split; [reflexivity|].
  rewrite Qred_correct. exact Hnd.
Qed.

Lemma sums_exact_integer (count m : Z) :
  count * Z.abs m <= 2 ^ 24 -> sums_exact count (inject_Z m).
Proof.
  intros Hb j Hj.
  destruct (is_f32_integer (j * m)) as (r & Er & Hr).
  { rewrite Z.abs_mul. assert (Z.abs j = j) by lia. nia. }
  exists r. split.
  - rewrite <- Er. apply round_compat. now rewrite inject_Z_mult.
  - rewrite Hr. now rewrite inject_Z_mult.
Qed.

Lemma cover_count_le_length (h w : Z) (wins : list (Z * Z * Z * Z)) (y x : Z) :
  cover_count h w wins y x <= Z.of_nat (length wins).
Proof.
  induction wins as [|win wins IH]; simpl; [lia|].
  destruct (covers h w win y x); lia.
Qed.

Section AddTile.

Variables (h w c : Z) (V : image Q).
Hypothesis HV : rect3 h w c V.

Lemma tile_px (lo0 hi0 lo1 hi1 y x : Z) :
  0 <= y < h -> 0 <= x < w ->
  Np.in_slice h lo0 hi0 y = true -> Np.in_slice w lo1 hi1 x = true ->
  Np.get [] (Np.get [] (Np.slice2 lo0 hi0 lo1 hi1 V) (y - Py.clamp h lo0))
         (x - Py.clamp w lo1)
  = Np.get [] (Np.get [] V y) x.
Proof.
  intros Hy Hx Iy Ix.
  pose proof (in_slice_offset h lo0 hi0 y Iy) as Oy.
  pose proof (in_slice_offset w lo1 hi1 x Ix) as Ox.
  pose proof HV as [Hh _]. subst h.
  destruct (rect3_row _ w c V y HV Hy) as [Hw _]. subst w.
  unfold Np.slice2.
  rewrite (get_map [] []) by (rewrite slice_shape0; exact Oy).
  rewrite (slice_get [] lo0 hi0 V _ Oy).
  replace (Py.clamp (Np.shape0 V) lo0 + (y - Py.clamp (Np.shape0 V) lo0)) with y by lia.
  rewrite (slice_get [] lo1 hi1 _ _ Ox). f_equal. lia.
Qed.

Lemma add_tile_rect3 (win : Z * Z * Z * Z) (m : image f32) :
  rect3 h w c m -> rect3 h w c (add_tile win (window_tile win V) m).
Proof.
  destruct win as [[[lo0 hi0] lo1] hi1]. intros Hm. pose proof Hm as [Hh Hrows].
  unfold add_tile, window_tile. split; [now rewrite update_slice_shape0|].
  apply update_slice_Forall_in; [|exact Hrows].
  intros y row Hy Iy [Hw Hpx]. rewrite Hh in Hy, Iy. split.
  - now rewrite update_slice_shape0.
  - apply update_slice_Forall_in; [|exact Hpx].
    intros x px Hx Ix Hc'. rewrite Hw in Hx, Ix.
    rewrite Hh, Hw, (tile_px lo0 hi0 lo1 hi1 y x Hy Hx Iy Ix).
    rewrite shape0_zip_with; [exact Hc'|].
    rewrite Hc'. symmetry. apply (rect3_px h w c V y x HV Hy Hx).
Qed.

Lemma add_tile_px3 (win : Z * Z * Z * Z) (m : image f32) (y x ch : Z) :
  rect3 h w c m -> 0 <= y < h -> 0 <= x < w -> 0 <= ch < c ->
  px3 NonFinite (add_tile win (window_tile win V) m) y x ch
  = if covers h w win y x
    then f32_add (px3 NonFinite m y x ch) (Fin (px3 0%Q V y x ch))
    else px3 NonFinite m y x ch.
Proof.
  destruct win as [[[lo0 hi0] lo1] hi1]. intros Hm Hy Hx Hch.
  destruct (rect3_row h w c m y Hm Hy) as [Hw _].
  pose proof (rect3_px h w c m y x Hm Hy Hx) as Hcm.
  pose proof (rect3_px h w c V y x HV Hy Hx) as HcV.
  unfold px3, add_tile, window_tile, covers.
  rewrite update_slice_get by (rewrite (proj1 Hm); lia).
  rewrite (proj1 Hm).
  destruct (Np.in_slice h lo0 hi0 y) eqn:Iy; simpl andb; cbv iota; [|reflexivity].
  rewrite update_slice_get by lia. rewrite Hw.
  destruct (Np.in_slice w lo1 hi1 x) eqn:Ix; [|reflexivity].
  rewrite (tile_px lo0 hi0 lo1 hi1 y x Hy Hx Iy Ix).
  rewrite (get_zip_with NonFinite 0%Q NonFinite) by lia. reflexivity.
Qed.

Lemma accumulated_ext (done done' : Z -> Z -> Z) (m : image f32) :
  (forall y x, done y x = done' y x) ->
  accumulated_to h w c V done m -> accumulated_to h w c V done' m.
Proof.
  intros Hd [Hr Hpx]. split; [exact Hr|]. intros y x ch Hy Hx Hch.
  rewrite <- Hd. now apply Hpx.
Qed.

(** Adding a crop of [V] adds one copy of the sample at the pixels that the
    crop covers. *)
Lemma add_tile_accumulated (win : Z * Z * Z * Z) (m : image f32)
      (done : Z -> Z -> Z) :
  (forall y x, 0 <= done y x) ->
  accumulated_to h w c V done m ->
  accumulated_to h w c V
                 (fun y x => done y x + (if covers h w win y x then 1 else 0))
                 (add_tile win (window_tile win V) m).
Proof.
  intros Hle [Hr Hpx]. split; [now apply add_tile_rect3|].
  intros y x ch Hy Hx Hch. rewrite add_tile_px3 by assumption.
  rewrite (Hpx y x ch Hy Hx Hch). specialize (Hle y x).
  destruct (covers h w win y x).
  - replace (Z.to_nat (done y x + 1)) with (S (Z.to_nat (done y x))) by lia.
    reflexivity.
  - now rewrite Z.add_0_r.
Qed.

(** After the crops of an image are accumulated, a pixel holds the float32
    sum of as many copies of the source sample as crops cover it. *)
Lemma add_tiles_accumulated (wins : list (Z * Z * Z * Z)) :
  forall (m : image f32) (done : Z -> Z -> Z),
    (forall y x, 0 <= done y x) ->
    accumulated_to h w c V done m ->
    accumulated_to h w c V
      (fun y x => done y x + cover_count h w wins y x)
      (fold_left (fun m' win => add_tile win (window_tile win V) m') wins m).
Proof.
  induction wins as [|win wins IH]; intros m done Hle Hm; simpl fold_left.
  - eapply accumulated_ext; [|exact Hm]. intros. simpl. lia.
  - eapply accumulated_ext;
      [|apply (IH _ (fun y x => done y x + (if covers h w win y x then 1 else 0)))].
    + intros y x. cbn [cover_count fold_right].
      fold (cover_count h w wins y x). lia.
    + intros y x. specialize (Hle y x). destruct (covers h w win y x); lia.
    + now apply add_tile_accumulated.
Qed.

End AddTile.

(** ** The rounding error *)

Lemma pow2_power (e : Z) : (F32.pow2 e == 2 ^ e)%Q.
Proof.
  unfold F32.pow2. destruct (0 <=? e) eqn:E.
  - apply Z.leb_le in E. now rewrite Zpower_Qpower.
  - apply Z.leb_gt in E. rewrite Zpower_Qpower by lia.
    change (inject_Z 2) with 2%Q.
    rewrite Qpower_opp. unfold Qdiv. rewrite Qinv_involutive. ring.
Qed.

Lemma pow2_pos (e : Z) : (0 < F32.pow2 e)%Q.
Proof.
  rewrite pow2_power. apply Qpower_0_lt. reflexivity.
Qed.

Lemma pow2_add (a b : Z) : (F32.pow2 (a + b) == F32.pow2 a * F32.pow2 b)%Q.
Proof.
  rewrite !pow2_power. apply Qpower_plus. intros H. discriminate.
Qed.

(** The nearest integer is within one half. *)
Lemma round_even_close (t : Q) :
  (Qabs (inject_Z (F32.round_even t) - t) <= 1 # 2)%Q.
Proof.
  destruct t as [n d]. unfold F32.round_even. cbn [Qnum Qden].
  pose proof (Z.div_mod n (Zpos d) ltac:(lia)) as Hdm.
  pose proof (Z.mod_pos_bound n (Zpos d) ltac:(lia)) as Hb.
  set (f := n / Zpos d) in *. set (r := n mod Zpos d) in *.
  clearbody f r.
  apply Qabs_Qle_condition.
  assert (Hcases : forall g : Z, (g = f /\ 2 * r <= Zpos d) \/ (g = f + 1 /\ Zpos d <= 2 * r) ->
            (- (1 # 2) <= inject_Z g - (n # d) <= 1 # 2)%Q).
  { intros g Hg. unfold Qle, Qminus, Qplus, Qopp, inject_Z. cbn [Qnum Qden].
    rewrite ?Pos.mul_1_l, ?Pos2Z.inj_mul. subst n. destruct Hg as [[-> H]|[-> H]]; split; lia. }
  destruct (Z.compare_spec (2 * r) (Zpos d)) as [C|C|C].
  - destruct (Z.even f); apply Hcases; [left | right]; lia.
  - apply Hcases. left. lia.
  - apply Hcases. right. lia.
Qed.

(** Below the number: [2 ^ floor_log2 q <= |q|]. *)
Lemma floor_log2_below (q : Q) :
  ~ (q == 0)%Q -> (F32.pow2 (F32.floor_log2 q) <= Qabs q)%Q.
Proof.
  intros Hq. unfold F32.floor_log2.
  set (k := Z.log2 (Z.abs (Qnum q)) - Z.log2 (Zpos (Qden q))).
  destruct (Qle_bool (F32.pow2 k) (Qabs q)) eqn:E; [now apply Qle_bool_iff|].
  destruct q as [n d]. cbn [Qnum Qden] in *.
  assert (Hn : n <> 0).
  { intros ->. apply Hq. reflexivity. }
  pose proof (Z.log2_spec (Z.abs n) ltac:(lia)) as [Ha _].
  pose proof (Z.log2_spec (Zpos d) ltac:(lia)) as [_ Hb].
  pose proof (Z.log2_nonneg (Z.abs n)) as Ha0.
  pose proof (Z.log2_nonneg (Zpos d)) as Hb0.
  set (a := Z.log2 (Z.abs n)) in *. set (b := Z.log2 (Zpos d)) in *.
  replace (k - 1) with (a + - (Z.succ b)) by (unfold k; lia).
  rewrite pow2_add, !pow2_power, Qpower_opp.
  assert (Ea : (2 ^ a == inject_Z (2 ^ a))%Q)
    by (symmetry; apply (Zpower_Qpower 2 a); lia).
  assert (Eb : (2 ^ Z.succ b == inject_Z (2 ^ Z.succ b))%Q)
    by (symmetry; apply (Zpower_Qpower 2 (Z.succ b)); lia).
  rewrite Ea, Eb.
  assert (Hp : 0 < 2 ^ Z.succ b) by (apply Z.pow_pos_nonneg; lia).
  destruct (2 ^ Z.succ b) as [|p|p] eqn:Ep; try lia.
  unfold Qle, Qmult, Qinv, Qabs, inject_Z. cbn [Qnum Qden].
  rewrite ?Pos.mul_1_l, ?Z.mul_1_r. nia.
Qed.

Lemma Qabs_diff_bound (a b : Q) : (Qabs a <= Qabs (a - b) + Qabs b)%Q.
Proof.
  assert (E : (a == (a - b) + b)%Q) by ring.
  rewrite E at 1. apply Qabs_triangle.
Qed.

(** Rounding moves a number by at most [2^-24] of its size, or by [2^-150]
    below the normal range. *)
Lemma round_close (q : Q) :
  (Qabs q <= inject_Z (2 ^ 127))%Q ->
  exists r, F32.round q = Fin r /\ (Qabs (r - q) <= F32.eps * Qabs q + F32.tiny)%Q.
Proof.
  intros Hq. unfold F32.round. cbv zeta.
  pose proof (Qred_correct q) as Eq. set (q' := Qred q) in *. clearbody q'.
  assert (Hq' : (Qabs q' <= inject_Z (2 ^ 127))%Q) by (now rewrite Eq).
  assert (H0 : (0 <= Qabs q')%Q) by apply Qabs_nonneg.
  destruct (Qeq_bool q' 0) eqn:E0.
  { apply Qeq_bool_eq in E0. exists 0%Q. split; [reflexivity|].
    rewrite <- Eq, E0. intros H. vm_compute in H. discriminate. }
  assert (Hnz : ~ (q' == 0)%Q).
  { intros H. apply Qeq_bool_iff in H. congruence. }
  pose proof (floor_log2_below q' Hnz) as Hk.
  set (k := F32.floor_log2 q') in *. clearbody k.
  set (e := Z.max (-149) (k - 23)).
  pose proof (pow2_pos e) as He.
  set (x := (q' / F32.pow2 e)%Q).
  set (r0 := (inject_Z (F32.round_even x) * F32.pow2 e)%Q).
  assert (Hx : (x * F32.pow2 e == q')%Q).
  { unfold x. field. intros H. rewrite H in He. now apply Qlt_irrefl in He. }
  assert (F1 : (Qabs (r0 - q') <= F32.pow2 e * (1 # 2))%Q).
  { assert (E : (r0 - q' == (inject_Z (F32.round_even x) - x) * F32.pow2 e)%Q).
    { unfold r0. rewrite <- Hx at 1. ring. }
    rewrite E, Qabs_Qmult, (Qabs_pos (F32.pow2 e)) by (now apply Qlt_le_weak).
    rewrite (Qmult_comm (F32.pow2 e)).
    apply Qmult_le_compat_r; [apply round_even_close | now apply Qlt_le_weak]. }
  assert (F2 : (F32.pow2 e * (1 # 2) <= F32.eps * Qabs q' + F32.tiny)%Q).
  { unfold e. destruct (Z.max_spec (-149) (k - 23)) as [[_ ->]|[_ ->]].
    - replace (k - 23) with (k + -23) by lia. rewrite pow2_add.
      assert (E : (F32.pow2 k * F32.pow2 (-23) * (1 # 2) == F32.eps * F32.pow2 k)%Q).
      { change (F32.pow2 (-23)) with (1 / inject_Z 8388608)%Q. unfold F32.eps.
        change (inject_Z 8388608) with (8388608 # 1)%Q. field. }
      rewrite E.
      assert (Ht : (0 <= F32.tiny)%Q) by (intros H; discriminate).
      assert (Hm : (F32.eps * F32.pow2 k <= F32.eps * Qabs q')%Q).
      { rewrite !(Qmult_comm F32.eps). apply Qmult_le_compat_r; [exact Hk|].
        intros H; discriminate. }
      lra.
    - assert (E : (F32.pow2 (-149) * (1 # 2) == F32.tiny)%Q) by reflexivity.
      rewrite E.
      assert (Hm : (0 <= F32.eps * Qabs q')%Q).
      { apply Qmult_le_0_compat; [intros H; discriminate | exact H0]. }
      lra. }
  assert (F3 : Qle_bool (F32.pow2 128) (Qabs r0) = false).
  { destruct (Qle_bool (F32.pow2 128) (Qabs r0)) eqn:E; [|reflexivity].
    apply Qle_bool_iff in E.
    pose proof (Qabs_diff_bound r0 q') as T.
    assert (Hbig : (inject_Z (2 ^ 127) + F32.eps * inject_Z (2 ^ 127) + F32.tiny
                    < F32.pow2 128)%Q) by reflexivity.
    unfold F32.eps in *. lra. }
  fold e. fold x. fold r0. rewrite F3.
  exists (Qred r0). split; [reflexivity|].
  rewrite Qred_correct, <- Eq. lra.
Qed.

(** The float32 average of [count] copies of a sample stays close to the
    sample. *)
Section MeanError.

Variables (v : Q) (count : Z).
Hypothesis Hcount : 1 <= count <= 2 ^ 23.
Hypothesis Hsize : (inject_Z count * Qabs v <= inject_Z (2 ^ 125))%Q.

Let A : Q := (inject_Z count * Qabs v)%Q.
Let B : Q := (2 * F32.eps * A + 2 * F32.tiny)%Q.

Lemma count_bounds : (1 <= inject_Z count <= 8388608)%Q.
Proof.
  change (2 ^ 23) with 8388608 in Hcount.
  split; unfold Qle, inject_Z; cbn [Qnum Qden]; lia.
Qed.

Lemma size_bounds : (0 <= Qabs v <= A)%Q /\ (0 <= A)%Q /\ (0 <= B)%Q.
Proof.
  pose proof count_bounds as [C1 C2]. pose proof (Qabs_nonneg v) as Hv.
  assert (HA : (Qabs v <= A)%Q).
  { unfold A. rewrite <- (Qmult_1_l (Qabs v)) at 1.
    apply Qmult_le_compat_r; assumption. }
  assert (Ht : (0 <= F32.tiny)%Q) by (intros H; discriminate).
  unfold B, F32.eps. repeat split; lra.
Qed.

Lemma accumulate_close (j : nat) :
  Z.of_nat j <= count ->
  exists s, accumulate_copies j v = Fin s
            /\ (Qabs (s - inject_Z (Z.of_nat j) * v)
                <= inject_Z (Z.of_nat j) * B)%Q.
Proof.
  pose proof count_bounds as [C1 C2].
  pose proof size_bounds as ([Hv HvA] & HA & HB).
  induction j as [|j IH]; intros Hj.
  - exists 0%Q. split; [reflexivity|]. change (inject_Z (Z.of_nat 0)) with 0%Q.
    assert (E : (0 - 0 * v == 0)%Q) by ring. rewrite E, Qmult_0_l.
    intros H; discriminate.
  - destruct IH as (s & Es & Hs); [lia|].
    set (J := inject_Z (Z.of_nat j)) in *.
    assert (HJ : (0 <= J)%Q /\ (J + 1 <= inject_Z count)%Q).
    { unfold J, Qle, Qplus, inject_Z; cbn [Qnum Qden]. lia. }
    assert (EJ : (inject_Z (Z.of_nat (S j)) == J + 1)%Q).
    { unfold J. rewrite Nat2Z.inj_succ. unfold Z.succ.
      now rewrite inject_Z_plus. }
    clearbody J. destruct HJ as [HJ0 HJ1].
    assert (P1 : (J * B <= 8388608 * B)%Q).
    { apply Qmult_le_compat_r; [lra | exact HB]. }
    assert (P2 : ((J + 1) * Qabs v <= A)%Q).
    { unfold A. apply Qmult_le_compat_r; assumption. }
    assert (T1 : (Qabs (s + v) <= Qabs (s - J * v) + (J + 1) * Qabs v)%Q).
    { assert (E : (s + v == (s - J * v) + (J + 1) * v)%Q) by ring.
      rewrite E at 1. eapply Qle_trans; [apply Qabs_triangle|].
      rewrite (Qabs_Qmult (J + 1) v), (Qabs_pos (J + 1)) by lra. lra. }
    assert (Hbig : (inject_Z (2 ^ 125) + inject_Z (2 ^ 125) + 16777216 * F32.tiny
                    <= inject_Z (2 ^ 127))%Q) by (intros H; discriminate).
    assert (EB : (8388608 * B == A + 16777216 * F32.tiny)%Q).
    { unfold B, F32.eps. field. }
    fold A in Hsize.
    destruct (round_close (s + v)) as (r & Er & Hr); [lra|].
    exists r. split.
    + change (accumulate_copies (S j) v)
        with (f32_add (accumulate_copies j v) (Fin v)).
      rewrite Es. exact Er.
    + rewrite EJ.
      assert (T2 : (Qabs (r - (J + 1) * v)
                    <= Qabs (r - (s + v)) + Qabs (s - J * v))%Q).
      { assert (E : (r - (J + 1) * v == (r - (s + v)) + (s - J * v))%Q) by ring.
        rewrite E. apply Qabs_triangle. }
      assert (R : (F32.eps * Qabs (s + v) + F32.tiny <= B)%Q).
      { assert (R1 : (F32.eps * Qabs (s + v) <= F32.eps * (2 * A + 16777216 * F32.tiny))%Q).
        { rewrite !(Qmult_comm F32.eps). apply Qmult_le_compat_r; [lra|].
          intros H; discriminate. }
        unfold B, F32.eps in *. lra. }
      lra.
Qed.

Lemma mean_close :
  exists m, mean_of_copies count v = Fin m
            /\ (Qabs (m - v) <= 4 * F32.eps * A + 4 * F32.tiny)%Q.
Proof.
  pose proof count_bounds as [C1 C2].
  pose proof size_bounds as ([Hv HvA] & HA & HB).
  destruct (accumulate_close (Z.to_nat count)) as (s & Es & Hs); [lia|].
  rewrite Z2Nat.id in Hs by lia.
  set (C := inject_Z count) in *.
  assert (Ht : (0 <= F32.tiny)%Q) by (intros H; discriminate).
  assert (HC : ~ (C == 0)%Q) by (intros H; rewrite H in C1; lra).
  assert (X1 : (Qabs (s / C - v) <= B)%Q).
  { assert (E : (s / C - v == (s - C * v) * / C)%Q) by (field; exact HC).
    assert (HiC : (0 <= / C)%Q) by (apply Qinv_le_0_compat; lra).
    rewrite E, Qabs_Qmult, (Qabs_pos (/ C)) by exact HiC.
    assert (E' : (B == C * B * / C)%Q) by (field; exact HC).
    rewrite E'. apply Qmult_le_compat_r; assumption. }
  pose proof (Qabs_diff_bound (s / C) v) as X2.
  assert (Hbig : (inject_Z (2 ^ 125) + inject_Z (2 ^ 125) + inject_Z (2 ^ 125)
                  + 2 * F32.tiny <= inject_Z (2 ^ 127))%Q) by (intros H; discriminate).
  fold A in Hsize.
  assert (HBA : (B <= 2 * A + 2 * F32.tiny)%Q) by (unfold B, F32.eps; lra).
  destruct (round_close (s / C)) as (m & Em & Hm); [lra|].
  exists m. split.
  - unfold mean_of_copies. rewrite Es. unfold true_divide.
    destruct (count =? 0) eqn:E0; [apply Z.eqb_eq in E0; lia | exact Em].
  - assert (T : (Qabs (m - v) <= Qabs (m - s / C) + Qabs (s / C - v))%Q).
    { assert (E : (m - v == (m - s / C) + (s / C - v))%Q) by ring.
      rewrite E. apply Qabs_triangle. }
    assert (R1 : (F32.eps * Qabs (s / C) <= F32.eps * (A + B))%Q).
    { rewrite !(Qmult_comm F32.eps). apply Qmult_le_compat_r; [lra|].
      intros H; discriminate. }
    unfold B, F32.eps in *. lra.
Qed.

End MeanError.

Lemma mean_of_copies_close (count : Z) (v : Q) :
  1 <= count <= 2 ^ 23 ->
  (inject_Z count * Qabs v <= inject_Z (2 ^ 125))%Q ->
  exists m, mean_of_copies count v = Fin m
            /\ (Qabs (m - v) <= rounding_bound count v)%Q.
Proof.
  intros Hcount Hsize.
  destruct (mean_close v count Hcount Hsize) as (m & Em & Hm).
  exists m. split; [exact Em|].
  assert (E : (rounding_bound count v
               == 4 * F32.eps * (inject_Z count * Qabs v) + 4 * F32.tiny)%Q).
  { unfold rounding_bound, F32.eps.
    assert (Et : (Qmake 1 (2 ^ 148) == 4 * F32.tiny)%Q) by reflexivity.
    rewrite Et. ring. }
  now rewrite E.
Qed.

(** ** Normalizing by the overlap count *)

Lemma Forall_zip_with {A B C : Type} (P : A -> Prop) (Q : B -> Prop)
      (R : C -> Prop) (f : A -> B -> C) (l : list A) (l' : list B) :
  (forall x y, P x -> Q y -> R (f x y)) ->
  Forall P l -> Forall Q l' -> Forall R (Arr.zip_with f l l').
Proof.
  intros Hf Hl. revert l'. induction Hl as [|x l Hx Hl IH]; intros l' Hl'; simpl.
  - constructor.
  - destruct Hl' as [|y l' Hy Hl']; constructor; auto.
Qed.

Lemma divide_image_rect3 (h w c : Z) (m : image f32) (counts : image Z) :
  rect3 h w c m -> rect3 h w c counts ->
  rect3 h w c (Arr.divide_image m counts).
Proof.
  intros [Hh Hrows] [Hh' Hrows']. unfold Arr.divide_image. split.
  - rewrite shape0_zip_with; lia.
  - eapply Forall_zip_with; [|exact Hrows|exact Hrows'].
    intros row row' [Hw Hpx] [Hw' Hpx']. cbv beta. split.
    + rewrite shape0_zip_with; lia.
    + eapply Forall_zip_with; [|exact Hpx|exact Hpx'].
      intros px px' Hc1 Hc2. cbv beta in *. rewrite shape0_zip_with; lia.
Qed.

Lemma divide_image_px3 (h w c : Z) (m : image f32) (counts : image Z)
      (y x ch : Z) :
  rect3 h w c m -> rect3 h w c counts ->
  0 <= y < h -> 0 <= x < w -> 0 <= ch < c ->
  px3 NonFinite (Arr.divide_image m counts) y x ch
  = true_divide (px3 NonFinite m y x ch) (px3 0 counts y x ch).
Proof.
  intros Hm Hc Hy Hx Hch.
  destruct (rect3_row h w c m y Hm Hy) as [Hw _].
  destruct (rect3_row h w c counts y Hc Hy) as [Hw' _].
  pose proof (rect3_px h w c m y x Hm Hy Hx) as Hp.
  pose proof (rect3_px h w c counts y x Hc Hy Hx) as Hp'.
  unfold px3, Arr.divide_image.
  rewrite (get_zip_with [] [] []) by (rewrite (proj1 Hm), ?(proj1 Hc); lia).
  rewrite (get_zip_with [] [] []) by lia.
  rewrite (get_zip_with NonFinite 0 NonFinite) by lia. reflexivity.
Qed.

(** Dividing by the overlap count leaves the float32 average. *)
Lemma divide_image_mean (h w c : Z) (V : image Q) (m : image f32)
      (counts : image Z) (total : Z -> Z -> Z) :
  accumulated_to h w c V total m -> rect3 h w c counts ->
  (forall y x ch, 0 <= y < h -> 0 <= x < w -> 0 <= ch < c ->
                  px3 0 counts y x ch = total y x) ->
  forall y x ch, 0 <= y < h -> 0 <= x < w -> 0 <= ch < c ->
    px3 NonFinite (Arr.divide_image m counts) y x ch
    = mean_of_copies (total y x) (px3 0%Q V y x ch).
Proof.
  intros [Hr Hpx] Hc Hcnt y x ch Hy Hx Hch.
  rewrite (divide_image_px3 h w c) by assumption.
  rewrite (Hpx y x ch Hy Hx Hch), (Hcnt y x ch Hy Hx Hch). reflexivity.
Qed.

(** Where the sums are exact the accumulator holds the multiple of the
    sample, and the average is the sample. *)
Lemma accumulate_copies_exact (v : Q) (k : nat) :
  sums_exact (Z.of_nat k) v ->
  exists q, accumulate_copies k v = Fin q /\ (q == inject_Z (Z.of_nat k) * v)%Q.
Proof.
  induction k as [|k IH]; intros Hex.
  - exists 0%Q. split; [reflexivity|]. change (inject_Z (Z.of_nat 0)) with 0%Q. ring.
  - destruct IH as (q & E & Hq).
    { intros j Hj. apply Hex. lia. }
    destruct (Hex (Z.of_nat (S k)) ltac:(lia)) as (r & Er & Hr).
    exists r. split; [|exact Hr].
    change (accumulate_copies (S k) v)
      with (f32_add (accumulate_copies k v) (Fin v)).
    rewrite E. cbn [f32_add].
    rewrite <- Er. apply round_compat. rewrite Hq, Nat2Z.inj_succ.
    unfold Z.succ. rewrite inject_Z_plus. change (inject_Z 1) with 1%Q. ring.
Qed.

Lemma mean_of_copies_exact (count : Z) (v : Q) :
  1 <= count -> sums_exact count v ->
  exists q, mean_of_copies count v = Fin q /\ (q == v)%Q.
Proof.
  intros H1 Hex. unfold mean_of_copies.
  destruct (accumulate_copies_exact v (Z.to_nat count)) as (q & E & Hq).
  { now rewrite Z2Nat.id by lia. }
  rewrite Z2Nat.id in Hq by lia. rewrite E. unfold true_divide.
  destruct (count =? 0) eqn:E0; [apply Z.eqb_eq in E0; lia|].
  destruct (Hex 1 ltac:(lia)) as (r & Er & Hr).
  exists r. split.
  - rewrite <- Er. apply round_compat. rewrite Hq.
    change (inject_Z 1) with 1%Q. field.
    intros Heq. unfold Qeq in Heq. simpl in Heq. lia.
  - rewrite Hr. change (inject_Z 1) with 1%Q. ring.
Qed.

Lemma sums_exact_compat (k : Z) (v v' : Q) :
  (v == v')%Q -> sums_exact k v -> sums_exact k v'.
Proof.
  intros E Hex j Hj. destruct (Hex j Hj) as (r & Er & Hr). exists r. split.
  - rewrite <- Er. apply round_compat. now rewrite E.
  - now rewrite Hr, E.
Qed.

Lemma sums_exact_single (v : Q) : is_f32 v -> sums_exact 1 v.
Proof.
  intros (r & Er & Hr) j Hj. assert (j = 1) by lia. subst j.
  exists r. split.
  - rewrite <- Er. apply round_compat. change (inject_Z 1) with 1%Q. ring.
  - rewrite Hr. change (inject_Z 1) with 1%Q. ring.
Qed.

(** ** The merging loops *)

Lemma skipn_cons_nth {A : Type} (d : A) (n : nat) (l : list A) (x : A)
      (rest : list A) :
  skipn n l = x :: rest ->
  (n < length l)%nat /\ nth n l d = x /\ skipn (S n) l = rest.
Proof.
  intros H. assert (Hn : (n < length l)%nat).
  { destruct (Nat.lt_ge_cases n (length l)) as [Hlt|Hge]; [exact Hlt|].
    rewrite skipn_all2 in H by exact Hge. discriminate. }
  split; [exact Hn|]. split.
  - replace n with (n + 0)%nat at 1 by lia. rewrite <- nth_skipn, H. reflexivity.
  - change (S n) with (1 + n)%nat. rewrite <- skipn_skipn, H. reflexivity.
Qed.

Lemma get_set_nth_same {A : Type} (d v : A) (a : list A) (k : Z) :
  0 <= k < Np.shape0 a -> Np.get d (Np.set_nth (Z.to_nat k) v a) k = v.
Proof.
  unfold Np.get, Np.shape0. intros Hk. apply set_nth_same. lia.
Qed.

Section MergeLoops.

Variables (T : volume Q) (os0 os1 window_size r_y r_x : Z).
Variable counts : image Z.

Let win := position_window window_size os1 os0 r_y r_x.
Let zero := Np.zeros os1 (Np.zeros os0 (Np.zeros (Np.shape3 T) (Fin 0%Q))).

Lemma merge_tiles_fold (k : Z) (V : image Q) (merged : volume f32) :
  rect3 os1 os0 (Np.shape3 T) V ->
  0 <= k < Np.shape0 merged ->
  forall (ijs : list (Z * Z)) (m : image f32) (cn : nat),
    firstn (length ijs) (skipn cn T)
    = map (fun ij => window_tile (win ij) V) ijs ->
    Py.for_each ijs
      (fun ij st => merge_one T os0 os1 window_size r_y r_x k (fst ij) (snd ij) st)
      (Np.set_nth (Z.to_nat k) m merged, Z.of_nat cn)
    = Ok (Np.set_nth (Z.to_nat k) (accumulated os0 os1 window_size r_y r_x ijs V m) merged,
          Z.of_nat (cn + length ijs)).
Proof.
  intros HV Hk ijs. induction ijs as [|ij ijs IH]; intros m cn Hfirst.
  - simpl. rewrite Nat.add_0_r. reflexivity.
  - cbn [length firstn map] in Hfirst.
    destruct (skipn cn T) as [|t0 rest] eqn:Esk; [discriminate|].
    injection Hfirst as Et Hrest. subst t0.
    destruct (skipn_cons_nth [] cn T _ rest Esk) as (Hcn & Enth & Esk').
    cbn [Py.for_each]. unfold merge_one at 1.
    rewrite item_in_range by (unfold Np.shape0; lia).
    cbn [bind]. unfold Np.get at 1. rewrite Nat2Z.id, Enth.
    rewrite get_set_nth_same by exact Hk.
    destruct ij as [i j]. cbn [fst snd].
    rewrite add_window_ok.
    2:{ unfold win, position_window, window_tile. cbn [fst snd].
        now apply slice2_rect3. }
    cbn [bind]. rewrite set_nth_twice.
    replace (Z.of_nat cn + 1) with (Z.of_nat (S cn)) by lia.
    rewrite IH
      by exact (eq_trans (f_equal (firstn (length ijs)) Esk') Hrest).
    unfold accumulated. cbn [fold_left length].
    apply f_equal. apply f_equal2; [reflexivity | lia].
Qed.

Lemma merge_images (ijs : list (Z * Z)) (vs pre : volume Q) (mdone : volume f32) :
  length mdone = length pre ->
  Forall (rect3 os1 os0 (Np.shape3 T)) vs ->
  T = tiles_of (map win ijs) (pre ++ vs) ->
  Py.for_each (map (fun t => Z.of_nat (length pre) + Z.of_nat t)
                   (seq 0 (length vs)))
              (merge_image T os0 os1 window_size r_y r_x counts ijs)
              (mdone ++ repeat zero (length vs),
               Z.of_nat (length pre * length ijs))
  = Ok (mdone ++ map (merged_image T os0 os1 window_size r_y r_x counts ijs) vs,
        Z.of_nat ((length pre + length vs) * length ijs)).
Proof.
  intros Hlen Hvs. revert pre mdone Hlen.
  induction Hvs as [|V vs HV Hvs IH]; intros pre mdone Hlen HT.
  - simpl. rewrite Nat.add_0_r. reflexivity.
  - cbn [length seq map Py.for_each repeat].
    replace (Z.of_nat (length pre) + Z.of_nat 0) with (Z.of_nat (length mdone)) by lia.
    unfold merge_image at 1.
    replace (mdone ++ zero :: repeat zero (length vs))
      with (Np.set_nth (Z.to_nat (Z.of_nat (length mdone))) zero
                       (mdone ++ zero :: repeat zero (length vs)))
      by (rewrite Nat2Z.id; apply set_nth_app).
    rewrite (merge_tiles_fold (Z.of_nat (length mdone)) V _ HV).
    + cbn [bind]. unfold normalize. rewrite Nat2Z.id, set_nth_app.
      unfold Np.get. rewrite Nat2Z.id, nth_middle, set_nth_app.
      change (Arr.divide_image
                (accumulated os0 os1 window_size r_y r_x ijs V zero) counts)
        with (merged_image T os0 os1 window_size r_y r_x counts ijs V).
      rewrite <- seq_shift, map_map.
      replace (mdone ++ merged_image T os0 os1 window_size r_y r_x counts ijs V :: repeat zero (length vs))
        with ((mdone ++ [merged_image T os0 os1 window_size r_y r_x counts ijs V]) ++ repeat zero (length vs))
        by (rewrite <- app_assoc; reflexivity).
      replace (Z.of_nat (length pre * length ijs + length ijs))
        with (Z.of_nat (length (pre ++ [V]) * length ijs))
        by (rewrite length_app; simpl; lia).
      erewrite map_ext.
      * rewrite (IH (pre ++ [V]) (mdone ++ [merged_image T os0 os1 window_size r_y r_x counts ijs V])).
        -- rewrite <- app_assoc. cbn [app map]. apply f_equal.
           apply f_equal2; [reflexivity|]. rewrite length_app. simpl. lia.
        -- rewrite !length_app, Hlen. reflexivity.
        -- rewrite <- app_assoc. exact HT.
      * intros t. cbv beta. rewrite length_app. simpl. lia.
    + unfold Np.shape0. rewrite length_app. simpl. lia.
    + rewrite HT. unfold tiles_of. rewrite flat_map_app. cbn [flat_map].
      rewrite skipn_app.
      rewrite skipn_all2.
      2:{ rewrite (flat_map_length_uniform _ pre (length ijs)); [lia|].
          intros. now rewrite !length_map. }
      rewrite (flat_map_length_uniform _ pre (length ijs))
        by (intros; now rewrite !length_map).
      rewrite Nat.sub_diag. cbn [skipn app].
      rewrite firstn_app, map_map.
      rewrite firstn_all2 by (rewrite length_map; lia).
      rewrite length_map, Nat.sub_diag. cbn [firstn]. apply app_nil_r.
Qed.

End MergeLoops.

(** ** Merging the crops of a volume *)

Lemma tiles_of_rect4 (n h w c ws rows columns : Z) (data : volume Q) :
  rect4 n h w c data -> axis_good h ws rows -> axis_good w ws columns ->
  rect4 (n * (rows * columns)) ws ws c
        (tiles_of (crop_windows h w ws rows columns) data).
Proof.
  intros [Hn Himgs] Gy Gx. unfold tiles_of, crop_windows. split.
  - unfold Np.shape0 in *.
    rewrite (flat_map_length_uniform _ data
               (length (list_prod (axis_steps h ws rows) (axis_steps w ws columns))))
      by (intros; now rewrite !length_map).
    rewrite Nat2Z.inj_mul, length_prod, Nat2Z.inj_mul, Hn.
    now rewrite (axis_good_length _ _ _ Gy), (axis_good_length _ _ _ Gx).
  - apply Forall_forall. intros t Ht. apply in_flat_map in Ht.
    destruct Ht as (img & Himg & Ht). apply in_map_iff in Ht.
    destruct Ht as (win & <- & Hwin). apply in_map_iff in Hwin.
    destruct Hwin as (ij & <- & Hij).
    rewrite Forall_forall in Himgs.
    now apply (tile_rect3 h w c ws rows columns img ij Gy Gx (Himgs img Himg)).
Qed.

Lemma zero_accumulated (h w c : Z) (V : image Q) :
  0 <= h -> 0 <= w -> 0 <= c ->
  accumulated_to h w c V (fun _ _ => 0)
                 (Np.zeros h (Np.zeros w (Np.zeros c (Fin 0%Q)))).
Proof.
  intros Hh Hw Hc. split; [apply (zeros3_rect3 h w c (Fin 0%Q)); assumption|].
  intros y x ch Hy Hx Hch. now apply zeros3_px3.
Qed.

(** ** The map of the overlaps *)

Lemma norm_index_in_range (n i : Z) : 0 <= i < n -> Np.norm_index n i = Ok i.
Proof.
  intros Hi. unfold Np.norm_index.
  replace ((0 <=? i) && (i <? n)) with true; [reflexivity|].
  symmetry. apply andb_true_iff. split; [apply Z.leb_le | apply Z.ltb_lt]; lia.
Qed.

Lemma for_each_invariant {I S : Type} (P : S -> Prop) (l : list I)
      (body : I -> S -> result S) :
  (forall i s, In i l -> P s -> exists s', body i s = Ok s' /\ P s') ->
  forall s, P s -> exists s', Py.for_each l body s = Ok s' /\ P s'.
Proof.
  induction l as [|i l IH]; intros Hb s Hs; simpl.
  - exists s. split; [reflexivity | exact Hs].
  - destruct (Hb i s (or_introl eq_refl) Hs) as (s1 & E & H1).
    rewrite E. cbn [bind]. apply IH; [|exact H1].
    intros i' s' Hin. apply Hb. now right.
Qed.

Lemma set_column_rect3 {A : Type} (h w c lo hi col : Z) (v : A) (a : image A) :
  rect3 h w c a -> 0 <= col < w ->
  exists a', Arr.set_column w lo hi col v a = Ok a' /\ rect3 h w c a'.
Proof.
  intros [Hh Hrows] Hcol. unfold Arr.set_column.
  rewrite norm_index_in_range by exact Hcol. cbn [bind].
  eexists. split; [reflexivity|]. split; [now rewrite update_slice_shape0|].
  apply update_slice_Forall; [|exact Hrows].
  intros _ row [Hw Hpx]. split; [now rewrite update_slice_shape0|].
  apply update_slice_Forall; [|exact Hpx].
  intros _ px Hc. now rewrite shape0_map.
Qed.

Lemma set_row_rect3 {A : Type} (h w c row lo hi : Z) (v : A) (a : image A) :
  rect3 h w c a -> 0 <= row < h ->
  exists a', Arr.set_row h row lo hi v a = Ok a' /\ rect3 h w c a'.
Proof.
  intros [Hh Hrows] Hrow. unfold Arr.set_row.
  rewrite norm_index_in_range by exact Hrow. cbn [bind].
  eexists. split; [reflexivity|]. split; [now rewrite update_slice_shape0|].
  apply update_slice_Forall; [|exact Hrows].
  intros _ r [Hw Hpx]. split; [now rewrite update_slice_shape0|].
  apply update_slice_Forall; [|exact Hpx].
  intros _ px Hc. now rewrite shape0_map.
Qed.

(** On a good layout every border that the map marks lies inside the
    image. *)
Lemma mark_border_rect3 (h w c window_size rows columns i j : Z) (m : image Z) :
  axis_good h window_size rows -> axis_good w window_size columns ->
  In i (axis_steps h window_size rows) ->
  In j (axis_steps w window_size columns) ->
  rect3 h w c m ->
  exists m',
    mark_border w h window_size (axis_rem h window_size rows)
                (axis_rem w window_size columns) i j m = Ok m'
    /\ rect3 h w c m'.
Proof.
  intros Gy Gx Hi Hj Hm.
  pose proof (axis_good_fits h window_size rows i Gy Hi) as Fy.
  pose proof (axis_good_fits w window_size columns j Gx Hj) as Fx.
  unfold axis_window in Fy, Fx. cbn [fst snd] in Fy, Fx.
  destruct Fy as (Y0 & Y1 & _). destruct Fx as (X0 & X1 & _).
  destruct Gy as [(W1 & _) _]. unfold mark_border.
  destruct (set_column_rect3 h w c
              (i - last_offset i window_size h (axis_rem h window_size rows))
              (i + window_size - 1)
              (j - last_offset j window_size w (axis_rem w window_size columns))
              (-4) m Hm ltac:(lia)) as (m1 & E1 & H1).
  rewrite E1. cbn [bind].
  destruct (set_column_rect3 h w c
              (i - last_offset i window_size h (axis_rem h window_size rows))
              (i + window_size - 1)
              (j + window_size - 1
               - last_offset j window_size w (axis_rem w window_size columns))
              (-4) m1 H1 ltac:(lia)) as (m2 & E2 & H2).
  rewrite E2. cbn [bind].
  destruct (set_row_rect3 h w c
              (i - last_offset i window_size h (axis_rem h window_size rows))
              (j - last_offset j window_size w (axis_rem w window_size columns))
              (j + window_size - 1) (-4) m2 H2 ltac:(lia)) as (m3 & E3 & H3).
  rewrite E3. cbn [bind].
  apply set_row_rect3; [exact H3 | lia].
Qed.

Lemma overlap_codes_rect3 (h w c : Z) (m : image Z) :
  rect3 h w c m -> rect3 h w c (overlap_codes m).
Proof.
  intros [Hh Hrows]. unfold overlap_codes. split; [now rewrite shape0_map|].
  apply Forall_map_iff. eapply Forall_impl; [|exact Hrows].
  intros row [Hw Hpx]. split; [now rewrite shape0_map|].
  apply Forall_map_iff. eapply Forall_impl; [|exact Hpx].
  intros px Hc. now rewrite shape0_map.
Qed.

(** With one channel the picture of the map is built whatever the map and
    the merged volume hold. *)
Lemma overlap_picture_runs (h w : Z) (codes : image Z) (merged : volume f32)
      (k : Z) :
  rect3 h w 1 codes -> 0 <= k < Np.shape0 merged ->
  exists im, overlap_picture w h 1 codes merged k = Ok im.
Proof.
  intros Hcodes Hk. unfold overlap_picture.
  rewrite item_in_range by exact Hk. cbn [bind].
  change (Np.norm_index 1 0) with (Ok 0). cbn [bind].
  rewrite for_range_steps by lia.
  match goal with
  | |- exists im, Py.for_each ?l ?body ?s0 = Ok im =>
      assert (Hall : forall i st, In i l -> True ->
                                  exists st', body i st = Ok st' /\ True);
        [|destruct (for_each_invariant (fun _ => True) l body Hall s0 I)
            as (im & E & _); exists im; exact E]
  end.
  intros im_i im Hi _. apply in_range_list_unit in Hi.
  rewrite for_range_steps by lia.
  match goal with
  | |- exists s', Py.for_each ?l ?body ?s = Ok s' /\ True =>
      apply (for_each_invariant (fun _ => True) l body); [|exact I]
  end.
  intros im_j im' Hj _. apply in_range_list_unit in Hj.
  pose proof (rect3_px h w 1 codes im_j im_i Hcodes Hj Hi) as Hpx.
  destruct (Np.get [] (Np.get [] codes im_j) im_i) as [|code [|code' px]].
  - eexists. split; [reflexivity | exact I].
  - eexists. split; [reflexivity | exact I].
  - unfold Np.shape0 in Hpx. simpl in Hpx. lia.
Qed.

(** On a good layout the merger rebuilds every image from its crops: each
    pixel holds the float32 average of as many copies of the source sample
    as crops cover it. *)
Lemma merge_of_tiles (n h w c window_size subdivision : Z) (data : volume Q)
      (accepts : string -> bool) (out_dir : string) (ov_map : bool)
      (ov_data_img : Z) :
  let rows := fst (min_overlap_layout subdivision) in
  let columns := snd (min_overlap_layout subdivision) in
  1 <= n -> 0 <= c ->
  subdivision = 1 \/ (subdivision mod 2 = 0 /\ 2 <= subdivision < 2 ^ 53) ->
  rect4 n h w c data ->
  axis_good h window_size rows -> axis_good w window_size columns ->
  (ov_map = true ->
   c = 1 /\ 0 <= ov_data_img < n /\ accepts out_dir = true) ->
  exists merged files counts,
    merge_data_with_overlap accepts
      (tiles_of (crop_windows h w window_size rows columns) data)
      (w, h) window_size subdivision out_dir ov_map ov_data_img
    = Ok (merged, files)
    /\ (if ov_map
        then exists im,
            files = [{| file_directory := out_dir;
                        file_name := "merged_ov_map.png";
                        file_pixels := im |}]
        else files = [])
    /\ overlap_matrix_of (w, h) c window_size subdivision = Ok counts
    /\ Np.shape0 merged = n
    /\ forall k y x ch,
        0 <= k < n -> 0 <= y < h -> 0 <= x < w -> 0 <= ch < c ->
        1 <= px3 0 counts y x ch <= subdivision
        /\ px3 NonFinite (Np.get [] merged k) y x ch
           = mean_of_copies (px3 0 counts y x ch)
                            (px3 0%Q (Np.get [] data k) y x ch).
Proof.
  intros rows columns Hn Hc Hsub Hdata Gy Gx Hmap.
  set (wins := crop_windows h w window_size rows columns).
  set (T := tiles_of wins data).
  set (ijs := list_prod (axis_steps h window_size rows)
                        (axis_steps w window_size columns)).
  pose proof Gy as [Oy Ry]. pose proof Gx as [Ox Rx].
  pose proof Oy as (W1 & Dh & _). pose proof Ox as (_ & Dw & _).
  assert (Hprod : rows * columns = subdivision).
  { apply layout_product. destruct Hsub as [->|[_ Hs]]; [left; reflexivity | now right]. }
  assert (Hpos : 1 <= subdivision) by (destruct Hsub as [->|[_ Hs]]; lia).
  pose proof (tiles_of_rect4 n h w c window_size rows columns data Hdata Gy Gx) as HT.
  fold wins T in HT. rewrite Hprod in HT.
  destruct (rect4_shapes _ _ _ _ T HT ltac:(nia) W1 W1) as (T0 & _ & _ & T3).
  assert (Lijs : Z.of_nat (length ijs) = subdivision).
  { unfold ijs. rewrite length_prod, Nat2Z.inj_mul.
    now rewrite (axis_good_length _ _ _ Gy), (axis_good_length _ _ _ Gx). }
  assert (Lwins : Z.of_nat (length wins) = subdivision).
  { unfold wins, crop_windows. rewrite length_map. exact Lijs. }
  assert (Ldata : length data = Z.to_nat n).
  { destruct Hdata as [H0 _]. unfold Np.shape0 in H0. lia. }
  pose proof (axis_ok_step _ _ _ Oy) as Sy.
  pose proof (axis_ok_step _ _ _ Ox) as Sx.
  (* the overlap counts *)
  pose proof (overlap_matrix_of_windows w h c window_size subdivision Oy Ox Hc) as Hov.
  fold rows columns wins in Hov.
  set (counts := fold_left (fun m win => incr_win win m) wins
                           (Np.zeros h (Np.zeros w (Np.zeros c 0)))) in Hov.
  destruct (incr_windows_px3 h w c wins _
              (proj2 (zeros3_rect3 h w c 0 ltac:(lia) ltac:(lia) Hc)))
    as [Hcr Hcpx].
  fold counts in Hcr, Hcpx.
  assert (Hcnt : forall y x ch, 0 <= y < h -> 0 <= x < w -> 0 <= ch < c ->
                   px3 0 counts y x ch = 0 + cover_count h w wins y x).
  { intros y x ch Hy Hx Hch. rewrite Hcpx by assumption.
    now rewrite zeros3_px3 by assumption. }
  (* the merged images *)
  set (M := map (merged_image T w h window_size (axis_rem h window_size rows)
                              (axis_rem w window_size columns) counts ijs) data).
  assert (HM0 : Np.shape0 M = n).
  { unfold M, Np.shape0. rewrite length_map. lia. }
  assert (HMpx : forall k y x ch,
             0 <= k < n -> 0 <= y < h -> 0 <= x < w -> 0 <= ch < c ->
             1 <= px3 0 counts y x ch <= subdivision
             /\ px3 NonFinite (Np.get [] M k) y x ch
                = mean_of_copies (px3 0 counts y x ch)
                                 (px3 0%Q (Np.get [] data k) y x ch)).
  { intros k y x ch Hk Hy Hx Hch. rewrite (Hcnt y x ch Hy Hx Hch). split.
    - pose proof (crop_windows_cover h w window_size rows columns y x Oy Ox Hy Hx).
      pose proof (cover_count_le_length h w wins y x). fold wins in H. lia.
    - unfold M.
      match goal with
      | |- context [Np.get ?d (map ?f ?l) ?i] =>
          replace (Np.get d (map f l) i) with (f (Np.get [] l i))
            by (symmetry; apply get_map; destruct Hdata as [H0 _]; lia)
      end.
      pose proof (rect4_get n h w c data k Hdata Hk) as HV.
      unfold merged_image, accumulated.
      rewrite <- (fold_left_over_map
                    (fun m' win => add_tile win (window_tile win (Np.get [] data k)) m')
                    (position_window window_size h w (axis_rem h window_size rows)
                                     (axis_rem w window_size columns)) ijs).
      change (map _ ijs) with wins. rewrite T3.
      pose proof (add_tiles_accumulated h w c _ HV wins _ (fun _ _ => 0)
                    (fun _ _ => Z.le_refl 0)
                    (zero_accumulated h w c _ ltac:(lia) ltac:(lia) Hc)) as Hacc.
      exact (divide_image_mean h w c _ _ counts _ Hacc Hcr Hcnt y x ch Hy Hx Hch). }
  (* the run of the merger *)
  unfold merge_data_with_overlap.
  assert (E0 : (subdivision =? 0) = false) by (apply Z.eqb_neq; lia).
  rewrite E0. cbn [bind]. rewrite T0.
  unfold Py.int_div. rewrite Z.quot_mul by lia.
  rewrite (zeros4_ok n h w (Np.shape3 T) (Fin 0%Q)) by lia.
  cbn [bind].
  assert (Hov' : overlap_matrix_of (w, h) (Np.shape3 T) window_size subdivision
                 = Ok counts) by (rewrite T3; exact Hov).
  rewrite Hov'. cbn [bind].
  rewrite (surjective_pairing (min_overlap_layout subdivision)).
  fold rows columns.
  rewrite (axis_overlap_eta h window_size rows),
          (axis_overlap_eta w window_size columns).
  cbv beta iota zeta.
  (* the borders marked in the map *)
  match goal with
  | |- context [if ov_map then ?e else Ok counts] =>
      assert (Hb : exists ovm, (if ov_map then e else Ok counts) = Ok ovm
                               /\ rect3 h w c ovm)
  end.
  { destruct ov_map; [|exists counts; split; [reflexivity | exact Hcr]].
    rewrite for_range_steps by lia.
    erewrite for_each_ext_in;
      [|intros i st _; rewrite for_range_steps by lia; reflexivity].
    rewrite (for_each_nested _ _
               (fun i j m =>
                  mark_border w h window_size (axis_rem h window_size rows)
                              (axis_rem w window_size columns) i j m)).
    apply (for_each_invariant (rect3 h w c)); [|exact Hcr].
    intros [i j] m Hin Hm. apply in_prod_iff in Hin. cbn [fst snd].
    apply mark_border_rect3; tauto. }
  destruct Hb as (ovm & Eb & Hovm). rewrite Eb. cbn [bind].
  (* the merging loops *)
  rewrite for_range_steps by lia.
  rewrite for_each_ext_in with
    (g := merge_image T w h window_size (axis_rem h window_size rows)
                      (axis_rem w window_size columns) counts ijs).
  2:{ intros k st _. unfold merge_image. rewrite for_range_steps by lia.
      erewrite for_each_ext_in.
      2:{ intros i st' _. rewrite for_range_steps by lia. reflexivity. }
      rewrite (for_each_nested _ _
                 (fun i j st' =>
                    merge_one T w h window_size (axis_rem h window_size rows)
                              (axis_rem w window_size columns) k i j st')).
      reflexivity. }
  rewrite range_list_unit.
  replace (Z.to_nat (n - 0)) with (length data) by lia.
  unfold Np.zeros at 1. rewrite <- Ldata.
  pose proof (merge_images T w h window_size (axis_rem h window_size rows)
                (axis_rem w window_size columns) counts ijs data [] []
                eq_refl) as Hrun.
  cbn [length app Nat.mul Z.of_nat] in Hrun. fold M in Hrun.
  match goal with
  | |- context [bind (Py.for_each ?l ?b ?s) _] =>
      replace (Py.for_each l b s)
        with (Ok (M, Z.of_nat ((0 + length data) * length ijs)))
  end.
  2:{ symmetry. apply Hrun; [rewrite T3; exact (proj2 Hdata) | reflexivity]. }
  cbn [bind app].
  (* the saved map *)
  destruct ov_map.
  - destruct (Hmap eq_refl) as (Hc1 & Hidx & Hacc).
    assert (Him : exists im,
               overlap_picture w h (Np.shape3 T) (overlap_codes ovm) M
                               ov_data_img = Ok im).
    { rewrite T3, Hc1. rewrite Hc1 in Hovm.
      apply (overlap_picture_runs h w);
        [now apply overlap_codes_rect3 | rewrite HM0; exact Hidx]. }
    destruct Him as (im & Eim). rewrite Eim. cbn [bind].
    unfold save_image. rewrite Hacc. cbn [bind].
    exists M. eexists. exists counts.
    split; [reflexivity|]. split; [exists im; reflexivity|].
    split; [exact Hov|]. split; [exact HM0 | exact HMpx].
  - exists M, [], counts.
    split; [reflexivity|]. split; [reflexivity|].
    split; [exact Hov|]. split; [exact HM0 | exact HMpx].
Qed.

(** C1 (as amended). For every volume of at least one image, with a mask of
    the same shape, and every layout on which the tiler works (its
    preconditions hold, with [window_size = H = W] when [subdivision = 1],
    on every axis with more than one tile the remainder is smaller than the
    step, and an image has at most [2^23] crops), cropping and merging
    succeed, without the map of the overlaps or, on single-channel data,
    with [ov_data_img] an image of the volume and [out_dir] a directory that
    takes the file, with it (the map is then saved as [merged_ov_map.png]).
    Every pixel is covered by between 1 and [subdivision] crops. For a
    sample that is a float32 value (the tiler stores its crops in float32
    arrays) the merged pixel is the float32 average of as many copies of the
    sample as crops cover the pixel: the copies are added one at a time,
    each sum rounded to float32, and the total divided in float32. Wherever
    the multiples [v, 2v, ..., count * v] of the sample are float32 values,
    with count 1 wherever the sample is one, the merged pixel equals the
    original; so it does wherever the sample is an integer [m] with
    [count * |m| <= 2^24]. Everywhere else it is close to the original: for
    a float32 sample with [count * |v| <= 2^125] the two differ by at most
    [count * |v| * 2^-22 + 2^-148]. *)
Theorem merge_crop_round_trip
        (n h w c window_size subdivision : Z) (data data_mask : volume Q)
        (accepts : string -> bool) (out_dir : string) (ov_map : bool)
        (ov_data_img : Z)
        (Hn : 1 <= n) (Hc : 0 <= c)
        (Hsub : subdivision = 1
                \/ (subdivision mod 2 = 0 /\ 2 <= subdivision <= 2 ^ 23))
        (Hdata : rect4 n h w c data) (Hmask : rect4 n h w c data_mask)
        (Gy : axis_good h window_size (fst (min_overlap_layout subdivision)))
        (Gx : axis_good w window_size (snd (min_overlap_layout subdivision)))
        (Hmap : ov_map = true ->
                c = 1 /\ 0 <= ov_data_img < n /\ accepts out_dir = true) :
  exists tiles masks merged files counts,
    crop_data_with_overlap data data_mask window_size subdivision
    = Ok (tiles, masks)
    /\ merge_data_with_overlap accepts tiles (w, h) window_size subdivision
                               out_dir ov_map ov_data_img
       = Ok (merged, files)
    /\ (if ov_map
        then exists im,
            files = [{| file_directory := out_dir;
                        file_name := "merged_ov_map.png";
                        file_pixels := im |}]
        else files = [])
    /\ overlap_matrix_of (w, h) c window_size subdivision = Ok counts
    /\ Np.shape0 merged = n
    /\ forall k y x ch,
        0 <= k < n -> 0 <= y < h -> 0 <= x < w -> 0 <= ch < c ->
        let count := px3 0 counts y x ch in
        let v := px3 0%Q (Np.get [] data k) y x ch in
        1 <= count <= subdivision
        /\ (is_f32 v ->
            px3 NonFinite (Np.get [] merged k) y x ch = mean_of_copies count v)
        /\ (sums_exact count v ->
            exists q, px3 NonFinite (Np.get [] merged k) y x ch = Fin q
                      /\ (q == v)%Q)
        /\ (count = 1 -> is_f32 v ->
            exists q, px3 NonFinite (Np.get [] merged k) y x ch = Fin q
                      /\ (q == v)%Q)
        /\ (forall m : Z,
              (v == inject_Z m)%Q -> count * Z.abs m <= 2 ^ 24 ->
              exists q, px3 NonFinite (Np.get [] merged k) y x ch = Fin q
                        /\ (q == v)%Q)
        /\ (is_f32 v ->
            (inject_Z count * Qabs v <= inject_Z (2 ^ 125))%Q ->
            exists q, px3 NonFinite (Np.get [] merged k) y x ch = Fin q
                      /\ (Qabs (q - v) <= rounding_bound count v)%Q).
Proof.
  assert (Hsub' : subdivision = 1
                  \/ (subdivision mod 2 = 0 /\ 2 <= subdivision < 2 ^ 53)).
  { destruct Hsub as [->|[Hm [H2 Hs]]]; [now left | right].
    change (2 ^ 23) with 8388608 in Hs.
    change (2 ^ 53) with 9007199254740992. lia. }
  destruct (merge_of_tiles n h w c window_size subdivision data accepts
              out_dir ov_map ov_data_img Hn Hc Hsub' Hdata Gy Gx Hmap)
    as (merged & files & counts & Hmerge & Hfiles & Hcounts & Hshape & Hpx).
  exists (tiles_of (crop_windows h w window_size
                                 (fst (min_overlap_layout subdivision))
                                 (snd (min_overlap_layout subdivision))) data).
  eexists. exists merged, files, counts. split.
  - apply (crop_data_with_overlap_tiles n h w c window_size subdivision
             data data_mask); assumption.
  - split; [exact Hmerge|]. split; [exact Hfiles|]. split; [exact Hcounts|].
    split; [exact Hshape|].
    intros k y x ch Hk Hy Hx Hch. cbv zeta.
    destruct (Hpx k y x ch Hk Hy Hx Hch) as [Hcount Hmean].
    split; [exact Hcount|]. split; [intros _; exact Hmean|].
    split; [|split; [|split]].
    + intros Hex. rewrite Hmean. apply mean_of_copies_exact; [lia | exact Hex].
    + intros E1 Hv. rewrite Hmean, E1.
      apply mean_of_copies_exact; [lia | now apply sums_exact_single].
    + intros m Em Hm. rewrite Hmean. apply mean_of_copies_exact; [lia|].
      apply (sums_exact_compat _ (inject_Z m)); [now symmetry|].
      now apply sums_exact_integer.
    + intros _ Hsize. rewrite Hmean. apply mean_of_copies_close; [|exact Hsize].
      destruct Hsub as [->|[_ [_ Hs]]]; [|lia].
      split; [lia|]. change (2 ^ 23) with 8388608. lia.
Qed.

Lemma merge_crop_round_trip_witness :
  exists tiles masks merged files counts,
    crop_data_with_overlap volume_6x6 volume_6x6 4 4 = Ok (tiles, masks)
    /\ merge_data_with_overlap (fun _ => true) tiles (6, 6) 4 4 "out" true 0
       = Ok (merged, files)
    /\ (exists im,
           files = [{| file_directory := "out";
                       file_name := "merged_ov_map.png";
                       file_pixels := im |}])
    /\ overlap_matrix_of (6, 6) 1 4 4 = Ok counts
    /\ Np.shape0 merged = 1
    /\ forall k y x ch,
        0 <= k < 1 -> 0 <= y < 6 -> 0 <= x < 6 -> 0 <= ch < 1 ->
        let count := px3 0 counts y x ch in
        let v := px3 0%Q (Np.get [] volume_6x6 k) y x ch in
        1 <= count <= 4
        /\ (is_f32 v ->
            px3 NonFinite (Np.get [] merged k) y x ch = mean_of_copies count v)
        /\ (sums_exact count v ->
            exists q, px3 NonFinite (Np.get [] merged k) y x ch = Fin q
                      /\ (q == v)%Q)
        /\ (count = 1 -> is_f32 v ->
            exists q, px3 NonFinite (Np.get [] merged k) y x ch = Fin q
                      /\ (q == v)%Q)
        /\ (forall m : Z,
              (v == inject_Z m)%Q -> count * Z.abs m <= 2 ^ 24 ->
              exists q, px3 NonFinite (Np.get [] merged k) y x ch = Fin q
                        /\ (q == v)%Q)
        /\ (is_f32 v ->
            (inject_Z count * Qabs v <= inject_Z (2 ^ 125))%Q ->
            exists q, px3 NonFinite (Np.get [] merged k) y x ch = Fin q
                      /\ (Qabs (q - v) <= rounding_bound count v)%Q).
Proof.
  apply (merge_crop_round_trip 1 6 6 1 4 4 volume_6x6 volume_6x6
                               (fun _ => true) "out" true 0).
  - lia.
  - lia.
  - right. split; [reflexivity | split; [lia | vm_compute; congruence]].
  - split; [reflexivity|]. repeat constructor.
  - split; [reflexivity|]. repeat constructor.
  - split; [|intros _; reflexivity].
    split; [lia|]. split; [split; vm_compute; congruence|].
    right. split; [vm_compute; congruence | lia].
  - split; [|intros _; reflexivity].
    split; [lia|]. split; [split; vm_compute; congruence|].
    right. split; [vm_compute; congruence | lia].
  - intros _. split; [reflexivity | split; [lia | reflexivity]].
Defined.

(** With [subdivision = 1] on a 2x2 image and [window_size = 1] (both
    dimensions are multiples of the window) the tiler keeps the top-left
    pixel only, and the merger divides the three other pixels, which no tile
    covers, by a zero count: the merged volume is not the original, with the
    map of the overlaps or without it. *)
Lemma round_trip_fails_single_tile :
  Np.shape1 data_2x2 mod 1 = 0 /\ Np.shape2 data_2x2 mod 1 = 0
  /\ exists tiles masks merged,
      crop_data_with_overlap data_2x2 data_2x2 1 1 = Ok (tiles, masks)
      /\ (forall accepts out_dir ov_map,
            (ov_map = true -> accepts out_dir = true) ->
            exists files,
              merge_data_with_overlap accepts tiles (2, 2) 1 1
                                      out_dir ov_map 0
              = Ok (merged, files))
      /\ px3 0%Q (Np.get [] data_2x2 0) 1 1 0 = 40%Q
      /\ px3 (Fin 0) (Np.get [] merged 0) 1 1 0 = NonFinite.
Proof.
  split; [reflexivity|]. split; [reflexivity|].
  do 3 eexists. split; [vm_compute; reflexivity|].
  split;
    [intros accepts out_dir [|] Hok; eexists; vm_compute;
     [rewrite (Hok eq_refl)|]; reflexivity
    |split; reflexivity].
Qed.

(** Rounding to float32 on known values: 0.1, 1/3 and 173/255 go to their
    binary32 neighbours; [2^24 + 1] lies halfway and goes to the even
    [2^24], [2^24 + 3] goes up; the largest finite value stays and the next
    halfway point overflows; below the normal range the step is [2^-149]. *)
Example float32_rounding :
  F32.round (1 # 10) = Fin (13421773 # 134217728)
  /\ F32.round (1 # 3) = Fin (11184811 # 33554432)
  /\ F32.round (173 # 255) = Fin sample_173
  /\ F32.round 16777217 = Fin 16777216
  /\ F32.round 16777219 = Fin 16777220
  /\ F32.round (inject_Z (2 ^ 128 - 2 ^ 104)) = Fin (inject_Z (2 ^ 128 - 2 ^ 104))
  /\ F32.round (inject_Z (2 ^ 128 - 2 ^ 103)) = NonFinite
  /\ F32.round (Qmake 1 (2 ^ 150)) = Fin 0
  /\ F32.round (Qmake 3 (2 ^ 150)) = Fin (Qmake 1 (2 ^ 148)).
Proof. repeat split; vm_compute; reflexivity. Qed.

(** Rounding shows at a pixel under three crops. On a 6x7 image with
    [window_size = 4] and [subdivision = 6], a layout on which the tiler
    works, the pixel (0,3) lies under three crops: the float32 sum of three
    copies of the float32 sample nearest to 173/255 is rounded, and the
    merged pixel is one unit in the last place below the sample. The pixel
    (0,2), under two crops, comes back. *)
Example round_trip_rounds_under_three_crops :
  is_f32 sample_173
  /\ rect4 1 6 7 1 volume_6x7
  /\ axis_good 6 4 (fst (min_overlap_layout 6))
  /\ axis_good 7 4 (snd (min_overlap_layout 6))
  /\ exists tiles masks merged counts,
      crop_data_with_overlap volume_6x7 volume_6x7 4 6 = Ok (tiles, masks)
      /\ merge_data_with_overlap (fun _ => true) tiles (7, 6) 4 6
                                 "out" false 0
         = Ok (merged, [])
      /\ overlap_matrix_of (7, 6) 1 4 6 = Ok counts
      /\ px3 0 counts 0 2 0 = 2
      /\ px3 NonFinite (Np.get [] merged 0) 0 2 0 = Fin sample_173
      /\ px3 0 counts 0 3 0 = 3
      /\ px3 NonFinite (Np.get [] merged 0) 0 3 0 = Fin (11382189 # 16777216)
      /\ ~ (11382189 # 16777216 == sample_173)%Q.
Proof.
  split; [exists sample_173; split; [vm_compute; reflexivity | reflexivity]|].
  split; [split; [reflexivity | repeat constructor]|].
  split.
  { split; [|intros _; vm_compute; reflexivity].
    split; [lia|]. split; [split; vm_compute; congruence|].
    right. split; [vm_compute; congruence | lia]. }
  split.
  { split; [|intros _; vm_compute; reflexivity].
    split; [lia|]. split; [split; vm_compute; congruence|].
    right. split; [vm_compute; congruence | lia]. }
  do 4 eexists. split; [vm_compute; reflexivity|].
  split; [vm_compute; reflexivity|]. split; [vm_compute; reflexivity|].
  split; [reflexivity|]. split; [reflexivity|]. split; [reflexivity|].
  split; [reflexivity|]. intros H. vm_compute in H. discriminate.
Qed.

(** The map of the overlaps needs single-channel data, an image of the
    volume and a directory that takes the file: the same crops merge without
    the map, and with it the merger raises [ValueError] on two channels (the
    truth value of a comparison of two samples), [IndexError] on none
    (channel 0 is read), [IndexError] when [ov_data_img] is not an image of
    the merged volume, and [OSError] when the file is refused. *)
Example overlap_map_needs_one_channel :
  (exists tiles masks merged,
      crop_data_with_overlap volume_two_channels volume_two_channels 4 1
      = Ok (tiles, masks)
      /\ merge_data_with_overlap (fun _ => true) tiles (4, 4) 4 1 "out" false 0
         = Ok (merged, [])
      /\ merge_data_with_overlap (fun _ => true) tiles (4, 4) 4 1 "out" true 0
         = Raise ValueError)
  /\ (exists tiles masks merged,
         crop_data_with_overlap volume_no_channel volume_no_channel 4 1
         = Ok (tiles, masks)
         /\ merge_data_with_overlap (fun _ => true) tiles (4, 4) 4 1
                                    "out" false 0
            = Ok (merged, [])
         /\ merge_data_with_overlap (fun _ => true) tiles (4, 4) 4 1
                                    "out" true 0
            = Raise IndexError)
  /\ (exists tiles masks merged,
         crop_data_with_overlap volume_4x4 volume_4x4 4 1 = Ok (tiles, masks)
         /\ merge_data_with_overlap (fun _ => true) tiles (4, 4) 4 1
                                    "out" false 1
            = Ok (merged, [])
         /\ merge_data_with_overlap (fun _ => true) tiles (4, 4) 4 1
                                    "out" true 1
            = Raise IndexError
         /\ merge_data_with_overlap (fun _ => false) tiles (4, 4) 4 1
                                    "out" true 0
            = Raise OSError).
Proof.
  split; [|split]; do 3 eexists;
    (split; [vm_compute; reflexivity|]);
    (split; [vm_compute; reflexivity|]);
    try (split; [vm_compute; reflexivity|]); vm_compute; reflexivity.
Qed.

(* ================================================================== *)
(** * Part III: further properties of the code *)
(* ================================================================== *)

Lemma rect3_shape1 {A : Type} (h w c : Z) (im : image A) :
  rect3 h w c im -> 1 <= h -> Np.shape1 im = w.
Proof.
  intros [Hh Hrows] H1. unfold Np.shape1.
  destruct im as [|row im]; [unfold Np.shape0 in Hh; simpl in Hh; lia|].
  simpl. inversion Hrows as [|? ? [Hw _] _]. exact Hw.
Qed.

Lemma map_const_get {A B : Type} (d : B) (v : B) (l : list A) (i : Z) :
  0 <= i < Np.shape0 l -> Np.get d (map (fun _ => v) l) i = v.
Proof.
  intros Hi. unfold Np.get, Np.shape0 in *.
  destruct l as [|a l]; [simpl in Hi; lia|].
  rewrite (nth_indep _ d v) by (rewrite length_map; lia).
  exact (map_nth (fun _ : A => v) (a :: l) a (Z.to_nat i)).
Qed.

Lemma slice_len_inside (n lo len : Z) :
  0 <= lo -> 0 <= len -> lo + len <= n -> Np.slice_len n lo (lo + len) = len.
Proof. intros. unfold Np.slice_len, Py.clamp.
  destruct (lo <? 0) eqn:E1; [apply Z.ltb_lt in E1; lia|].
  destruct (lo + len <? 0) eqn:E2; [apply Z.ltb_lt in E2; lia|]. lia.
Qed.

Lemma clamp_inside (n lo : Z) : 0 <= lo <= n -> Py.clamp n lo = lo.
Proof. intros. unfold Py.clamp. destruct (lo <? 0) eqn:E; [apply Z.ltb_lt in E; lia | lia]. Qed.

(** The crop of an image at a window that lies inside it. *)
Lemma crop_inside {A : Type} (d : A) (h w c y x dy dx : Z) (img : image A) :
  rect3 h w c img ->
  0 <= y -> 0 <= dy -> y + dy <= h -> 0 <= x -> 0 <= dx -> x + dx <= w ->
  rect3 dy dx c (Np.slice2 y (y + dy) x (x + dx) img)
  /\ forall a b ch, 0 <= a < dy -> 0 <= b < dx ->
       px3 d (Np.slice2 y (y + dy) x (x + dx) img) a b ch
       = px3 d img (y + a) (x + b) ch.
Proof.
  intros Himg Hy Hdy Hyh Hx Hdx Hxw.
  pose proof (slice2_rect3 h w c y (y + dy) x (x + dx) img Himg) as Hr.
  rewrite (slice_len_inside h y dy), (slice_len_inside w x dx) in Hr by lia.
  split; [exact Hr|]. intros a b ch Ha Hb.
  rewrite (slice2_px3 d h w c) by
    (try exact Himg; rewrite slice_len_inside; lia).
  rewrite !clamp_inside by lia. reflexivity.
Qed.

(** ** The grid drawn before elastic transformations *)

Lemma range_list_multiple (stop step x : Z) :
  0 < step ->
  existsb (Z.eqb x) (Py.range_list 0 stop step)
  = (0 <=? x) && (x <? stop) && (x mod step =? 0).
Proof.
  intros Hstep. apply eq_true_iff_eq.
  rewrite existsb_exists, !andb_true_iff, Z.leb_le, Z.ltb_lt, Z.eqb_eq. split.
  - intros (i & Hi & E). apply Z.eqb_eq in E. subst i.
    apply in_range_list_pos in Hi; [|exact Hstep].
    destruct Hi as (t & Ht & -> & Hlt). repeat split; try nia.
    apply Z_mod_mult.
  - intros [[H0 Hlt] Hm]. exists x. split; [|apply Z.eqb_refl].
    apply in_range_list_pos; [exact Hstep|].
    exists (x / step). split; [apply Z.div_pos; lia|]. split; [|exact Hlt].
    pose proof (Z.div_mod x step ltac:(lia)). lia.
Qed.

Lemma imap_from_get {A B : Type} (d : A) (d' : B) (f : Z -> A -> B) (l : list A)
      (p : Z) :
  0 <= p < Np.shape0 l ->
  Np.get d' (Np.imap_from f 0 l) p = f p (Np.get d l p).
Proof.
  intros Hp. unfold Np.get.
  rewrite (imap_from_nth f 0 l (Z.to_nat p) d d') by (unfold Np.shape0 in Hp; lia).
  f_equal. lia.
Qed.

(** [__draw_grid] with a positive grid width: the image keeps its shape, the
    pixels of every [grid_width]-th row and column take the grid value (1 on
    a mask, 255 on an image) in all channels, and every other pixel is left
    as it was. *)
Theorem draw_grid_pixels (im : image Q) (h w c grid_width : Z) (m : bool)
        (Him : rect3 h w c im) (Hwidth : 0 < grid_width) :
  exists im',
    Img.draw_grid im grid_width m = Ok im'
    /\ rect3 h w c im'
    /\ forall y x ch,
        0 <= y < h -> 0 <= x < w -> 0 <= ch < c ->
        px3 0%Q im' y x ch
        = if (y mod grid_width =? 0) || (x mod grid_width =? 0)
          then (if m then 1%Q else 255%Q)
          else px3 0%Q im y x ch.
Proof.
  unfold Img.draw_grid, Py.range.
  assert (E : (grid_width =? 0) = false) by (apply Z.eqb_neq; lia).
  rewrite E. cbn [bind]. eexists. split; [reflexivity|].
  set (v := hd 0%Q (if m then [1%Q] else [255%Q])).
  assert (Ev : v = if m then 1%Q else 255%Q) by (unfold v; destruct m; reflexivity).
  rewrite <- Ev. clearbody v. clear Ev.
  pose proof Him as [Hh Hrows].
  set (paint_cols :=
         Np.imap_from
           (fun (x : Z) (px : list Q) =>
              if existsb (Z.eqb x) (Py.range_list 0 (Np.shape1 im) grid_width)
              then map (fun _ => v) px else px) 0).
  set (paint_rows :=
         fun (y : Z) (row : list (list Q)) =>
           if existsb (Z.eqb y) (Py.range_list 0 (Np.shape0 im) grid_width)
           then map (map (fun _ => v)) row else row).
  assert (Hmid : rect3 h w c (map paint_cols im)).
  { split; [rewrite shape0_map; exact Hh|].
    apply Forall_map_iff. eapply Forall_impl; [|exact Hrows].
    intros row [Hw Hpx]. cbv beta. unfold paint_cols. split.
    - unfold Np.shape0. rewrite imap_from_length. exact Hw.
    - apply (imap_from_Forall (fun px => Np.shape0 px = c)
                              (fun px => Np.shape0 px = c)); [|exact Hpx].
      intros j px Hc. destruct (existsb _ _); [|exact Hc].
      rewrite shape0_map. exact Hc. }
  split.
  - destruct Hmid as [Hh' Hrows']. split.
    + unfold Np.shape0. rewrite imap_from_length. exact Hh'.
    + apply (imap_from_Forall
               (fun row => Np.shape0 row = w
                           /\ Forall (fun px => Np.shape0 px = c) row)
               (fun row => Np.shape0 row = w
                           /\ Forall (fun px => Np.shape0 px = c) row));
        [|exact Hrows'].
      intros j row [Hw Hpx]. unfold paint_rows.
      destruct (existsb _ _); [|split; assumption]. split.
      * rewrite shape0_map. exact Hw.
      * apply Forall_map_iff. eapply Forall_impl; [|exact Hpx].
        intros px Hc. cbv beta. rewrite shape0_map. exact Hc.
  - intros y x ch Hy Hx Hch.
    assert (Hw1 : Np.shape1 im = w).
    { unfold Np.shape1. destruct im as [|row im]; [unfold Np.shape0 in Hh; simpl in Hh; lia|].
      simpl. inversion Hrows as [|? ? [Hw _] _]. exact Hw. }
    destruct (rect3_row h w c im y Him Hy) as [Hrw Hrpx].
    pose proof (rect3_px h w c im y x Him Hy Hx) as Hpc.
    unfold px3.
    rewrite (imap_from_get [] [] paint_rows)
      by (rewrite shape0_map; lia).
    rewrite (get_map [] [] paint_cols) by lia.
    assert (Ey : existsb (Z.eqb y) (Py.range_list 0 (Np.shape0 im) grid_width)
                 = (y mod grid_width =? 0)).
    { rewrite (range_list_multiple _ _ y Hwidth), Hh.
      replace ((0 <=? y) && (y <? h)) with true; [reflexivity|].
      symmetry; apply andb_true_iff; split; [apply Z.leb_le | apply Z.ltb_lt]; lia. }
    assert (Ex : existsb (Z.eqb x) (Py.range_list 0 (Np.shape1 im) grid_width)
                 = (x mod grid_width =? 0)).
    { rewrite (range_list_multiple _ _ x Hwidth), Hw1.
      replace ((0 <=? x) && (x <? w)) with true; [reflexivity|].
      symmetry; apply andb_true_iff; split; [apply Z.leb_le | apply Z.ltb_lt]; lia. }
    assert (Hcol : Np.get [] (paint_cols (Np.get [] im y)) x
                   = if x mod grid_width =? 0
                     then map (fun _ => v) (Np.get [] (Np.get [] im y) x)
                     else Np.get [] (Np.get [] im y) x).
    { unfold paint_cols. rewrite (imap_from_get [] []) by lia. rewrite Ex. reflexivity. }
    unfold paint_rows. rewrite Ey.
    destruct (y mod grid_width =? 0); cbn [orb].
    + rewrite (get_map [] [])
        by (unfold paint_cols, Np.shape0; rewrite imap_from_length;
            unfold Np.shape0 in Hrw; lia).
      rewrite Hcol. destruct (x mod grid_width =? 0).
      * rewrite map_const_get by (rewrite shape0_map; lia). reflexivity.
      * rewrite map_const_get; [reflexivity | lia].
    + rewrite Hcol. destruct (x mod grid_width =? 0); [|reflexivity].
      rewrite map_const_get; [reflexivity | lia].
Qed.

Section Pipeline.

Variable elastic_transform : image Q -> Q -> Q -> Q -> image Q.
Variable ndimage_rotate : image Q -> Q -> Z -> image Q.
Variable enhance_brightness : image Q -> Q -> image Q.
Variable median_blur : image Q -> Z -> image Q.
Variable str_int : Z -> string.
Variable str_round2 : Q -> string.

Variables (im mask : image Q) (t_counter0 : list Z).

Let Inv := pipeline_inv im mask t_counter0.

Lemma inv_fire (s s' : tstate) (ch : ascii) (rest : string) :
  Inv s -> ch <> "n"%char ->
  transformed s' = true ->
  transform_string s' = (transform_string s ++ String "_"%char (String ch rest))%string ->
  Inv s'.
Proof.
  intros [(_ & Hs & _) | (_ & c' & r' & Hs & Hc')] Hch Ht Hstr; right;
    (split; [exact Ht|]); rewrite Hstr, Hs.
  - exists ch, rest. split; [reflexivity | exact Hch].
  - exists c', (r' ++ String "_"%char (String ch rest))%string.
    split; [reflexivity | exact Hc'].
Qed.

Lemma inv_elastic (self : generator) (grid : bool) (prob : Q) (s s' : tstate) :
  Inv s -> elastic_step elastic_transform self grid prob s = Ok s' -> Inv s'.
Proof.
  intros HI. unfold elastic_step.
  destruct (elastic self && negb (Qle_bool (e_prob self) prob)).
  - destruct (if grid then _ else _) as [[im1 mk1]|e]; cbn [bind]; [|discriminate].
    destruct ((Np.shape0 im1 =? Np.shape0 mk1) && (Np.shape1 im1 =? Np.shape1 mk1));
      cbn [bind]; [|discriminate].
    intros H. injection H as <-. right. split; [reflexivity|].
    exists "e"%char, ""%string. split; [reflexivity | discriminate].
  - intros H. injection H as <-. exact HI.
Qed.

Lemma inv_flip (self : generator) (prob : Q) (s : tstate) :
  Inv s -> Inv (flip_step self prob s).
Proof.
  intros HI. unfold flip_step.
  destruct (vflip self && Qin 0 prob 0.25);
    [apply (inv_fire s _ "v"%char "f"%string HI); [discriminate | reflexivity | reflexivity]|].
  destruct (hflip self && Qin 0.25 prob 0.5);
    [apply (inv_fire s _ "h"%char "f"%string HI); [discriminate | reflexivity | reflexivity]|].
  destruct (hflip self && Qin 0.5 prob 0.75);
    [apply (inv_fire s _ "h"%char "fvf"%string HI); [discriminate | reflexivity | reflexivity]|].
  exact HI.
Qed.

Lemma inv_free_rotation (self : generator) (theta : Q) (s : tstate) :
  Inv s -> Inv (free_rotation_step ndimage_rotate str_int self theta s).
Proof.
  intros HI. unfold free_rotation_step.
  destruct (negb (Qeq_bool (rotation_range self) 0)); [|exact HI].
  apply (inv_fire s _ "r"%char ("Range" ++ str_int (Img.trunc theta))%string HI);
    [discriminate | reflexivity | reflexivity].
Qed.

Lemma inv_rot90 (self : generator) (prob : Q) (s : tstate) :
  Inv s -> Inv (rot90_step self prob s).
Proof.
  intros HI. unfold rot90_step.
  destruct (squared self).
  - destruct (rotation90 self && Qin 0 prob 0.25);
      [apply (inv_fire s _ "r"%char "90"%string HI); [discriminate | reflexivity | reflexivity]|].
    destruct (rotation90 self && Qin 0.25 prob 0.5);
      [apply (inv_fire s _ "r"%char "180"%string HI); [discriminate | reflexivity | reflexivity]|].
    destruct (rotation90 self && Qin 0.5 prob 0.75);
      [apply (inv_fire s _ "r"%char "270"%string HI); [discriminate | reflexivity | reflexivity]|].
    exact HI.
  - destruct (rotation90 self && Qin 0 prob 0.5);
      [apply (inv_fire s _ "r"%char "180"%string HI); [discriminate | reflexivity | reflexivity]|].
    exact HI.
Qed.

Lemma inv_brightness (self : generator) (b : Q) (s : tstate) :
  Inv s -> Inv (brightness_step enhance_brightness str_round2 self b s).
Proof.
  intros HI. unfold brightness_step.
  destruct (negb _); [|exact HI].
  apply (inv_fire s _ "b"%char (str_round2 b) HI);
    [discriminate | reflexivity | reflexivity].
Qed.

Lemma inv_median (self : generator) (mf : Z) (s s' : tstate) :
  Inv s -> median_step median_blur str_int self mf s = Ok s' -> Inv s'.
Proof.
  intros HI. unfold median_step.
  destruct (negb _).
  - destruct (fst (median_filter_size self) <? snd (median_filter_size self));
      cbn [bind]; [|discriminate].
    intros H. injection H as <-.
    eapply (inv_fire s _ "m"%char _ HI);
      [discriminate | reflexivity | reflexivity].
  - intros H. injection H as <-. exact HI.
Qed.

End Pipeline.

(** A call of [apply_transform] that reports ['_none'] has changed nothing:
    the image and the mask come back as they went in and no counter moved.
    Every transformation that is applied leaves its own tag in the
    description. *)
Theorem apply_transform_none_is_identity
        (elastic_transform : image Q -> Q -> Q -> Q -> image Q)
        (ndimage_rotate : image Q -> Q -> Z -> image Q)
        (enhance_brightness : image Q -> Q -> image Q)
        (median_blur : image Q -> Z -> image Q)
        (str_int : Z -> string) (str_round2 : Q -> string)
        (self : generator) (im mask : image Q) (grid : bool) (d : draws)
        (im' mask' : image Q) (t_counter' : list Z)
        (Hrun : apply_transform elastic_transform ndimage_rotate enhance_brightness
                                median_blur str_int str_round2 self im mask grid d
                = Ok (im', mask', "_none"%string, t_counter')) :
  im' = im /\ mask' = mask /\ t_counter' = t_counter self.
Proof.
  unfold apply_transform in Hrun.
  set (s0 := {| trans_image := im; trans_mask := mask; transform_string := "";
                transformed := false; counters := t_counter self |}) in Hrun.
  assert (H0 : pipeline_inv im mask (t_counter self) s0)
    by (left; repeat split; reflexivity).
  destruct (elastic_step elastic_transform self grid (u_elastic d) s0) as [s1|e] eqn:E1;
    cbn [bind] in Hrun; [|discriminate].
  pose proof (inv_elastic elastic_transform im mask (t_counter self) self grid _ s0 s1 H0 E1) as H1.
  pose proof (inv_flip im mask (t_counter self) self (u_flip d) s1 H1) as H2.
  pose proof (inv_free_rotation ndimage_rotate str_int im mask (t_counter self) self
                (u_theta d) _ H2) as H3.
  pose proof (inv_rot90 im mask (t_counter self) self (u_rot90 d) _ H3) as H4.
  pose proof (inv_brightness enhance_brightness str_round2 im mask (t_counter self) self
                (u_brightness d) _ H4) as H5.
  destruct (median_step median_blur str_int self (u_mf_size d) _) as [s6|e] eqn:E6;
    cbn [bind] in Hrun; [|discriminate].
  pose proof (inv_median median_blur str_int im mask (t_counter self) self _ _ s6 H5 E6) as H6.
  injection Hrun as Him Hmask Hstr Hcnt.
  destruct H6 as [(Ht & _ & Hi & Hm & Hc) | (Ht & ch & rest & Hs & Hch)].
  - subst. repeat split; assumption.
  - rewrite Ht, Hs in Hstr. injection Hstr as Hch' _.
    exfalso. apply Hch. exact Hch'.
Qed.

(** ** Shapes under flips and quarter turns *)

Lemma shape0_rev {A : Type} (l : list A) : Np.shape0 (rev l) = Np.shape0 l.
Proof. unfold Np.shape0. now rewrite length_rev. Qed.

Lemma flip0_rect3 {A : Type} (h w c : Z) (im : image A) :
  rect3 h w c im -> rect3 h w c (Img.flip0 im).
Proof.
  intros [Hh Hrows]. unfold Img.flip0. split.
  - now rewrite shape0_rev.
  - apply Forall_rev. exact Hrows.
Qed.

Lemma flip1_rect3 {A : Type} (h w c : Z) (im : image A) :
  rect3 h w c im -> rect3 h w c (Img.flip1 im).
Proof.
  intros [Hh Hrows]. unfold Img.flip1. split.
  - now rewrite shape0_map.
  - apply Forall_map_iff. eapply Forall_impl; [|exact Hrows].
    intros row [Hw Hpx]. cbv beta. split.
    + now rewrite shape0_rev.
    + apply Forall_rev. exact Hpx.
Qed.

Lemma rot90_rect3 {A : Type} (h w c : Z) (im : image A) :
  rect3 h w c im -> 1 <= h -> 1 <= w -> rect3 w h c (Img.rot90 [] im).
Proof.
  intros Him H1 W1. pose proof Him as [Hh Hrows].
  unfold Img.rot90, Img.transpose.
  rewrite (rect3_shape1 h w c im Him H1). split.
  - rewrite shape0_rev, shape0_map. unfold Np.shape0.
    rewrite range_list_unit, length_map, length_seq. lia.
  - apply Forall_rev. apply Forall_map_iff. apply Forall_forall.
    intros j Hj. apply in_range_list_unit in Hj. unfold Img.column. split.
    + rewrite shape0_map. exact Hh.
    + apply Forall_map_iff. eapply Forall_impl; [|exact Hrows].
      intros row [Hw Hpx]. cbv beta. rewrite Forall_forall in Hpx.
      apply Hpx. apply get_in. lia.
Qed.

Lemma rot90_k_rect3 {A : Type} (h w c : Z) (k : nat) (im : image A) :
  rect3 h w c im -> 1 <= h -> 1 <= w -> (h = w \/ Nat.even k = true) ->
  rect3 h w c (Img.rot90_k [] k im).
Proof.
  intros Him H1 W1 Hk. unfold Img.rot90_k. destruct Hk as [-> | Hk].
  - induction k as [|k IH]; simpl; [exact Him|].
    apply rot90_rect3; assumption.
  - revert Hk. induction k as [k IH] using (well_founded_induction lt_wf).
    destruct k as [|[|k]]; intros Hk.
    + exact Him.
    + discriminate.
    + simpl. apply rot90_rect3; [|assumption|assumption].
      apply rot90_rect3; [|assumption|assumption].
      apply IH; [lia | exact Hk].
Qed.

Lemma shape1_nonneg {A : Type} (a : list (list A)) : 0 <= Np.shape1 a.
Proof. unfold Np.shape1. apply shape0_nonneg. Qed.

Lemma draw_grid_rect3 (im : image Q) (h w c grid_width : Z) (m : bool) :
  rect3 h w c im -> grid_width <> 0 ->
  exists im', Img.draw_grid im grid_width m = Ok im' /\ rect3 h w c im'.
Proof.
  intros [Hh Hrows] Hg. unfold Img.draw_grid, Py.range.
  apply Z.eqb_neq in Hg. rewrite Hg. cbn [bind]. eexists. split; [reflexivity|].
  split.
  - unfold Np.shape0. rewrite imap_from_length, length_map. exact Hh.
  - apply (imap_from_Forall
             (fun row => Np.shape0 row = w
                         /\ Forall (fun px => Np.shape0 px = c) row)
             (fun row => Np.shape0 row = w
                         /\ Forall (fun px => Np.shape0 px = c) row)).
    + intros j row [Hw Hpx]. destruct (existsb _ _); [|split; assumption]. split.
      * rewrite shape0_map. exact Hw.
      * apply Forall_map_iff. eapply Forall_impl; [|exact Hpx].
        intros px Hc. cbv beta. rewrite shape0_map. exact Hc.
    + apply Forall_map_iff. eapply Forall_impl; [|exact Hrows].
      intros row [Hw Hpx]. cbv beta. split.
      * unfold Np.shape0. rewrite imap_from_length. exact Hw.
      * apply (imap_from_Forall (fun px => Np.shape0 px = c)
                                (fun px => Np.shape0 px = c)); [|exact Hpx].
        intros j px Hc. destruct (existsb _ _); [|exact Hc].
        rewrite shape0_map. exact Hc.
Qed.

Lemma zip_with_Forall2 {A B C : Type} (P : A -> Prop) (Q : B -> Prop) (R : C -> Prop)
      (f : A -> B -> C) (l : list A) (l' : list B) :
  (forall x y, P x -> Q y -> R (f x y)) ->
  Forall P l -> Forall Q l' -> Forall R (Arr.zip_with f l l').
Proof.
  intros Hf Hl. revert l'. induction Hl as [|x l Hx _ IH]; intros l' Hl'.
  - constructor.
  - destruct Hl' as [|y l' Hy Hl']; simpl; constructor; auto.
Qed.

Lemma concat_channels_rect3 (h w c c' : Z) (im mk : image Q) :
  rect3 h w c im -> rect3 h w c' mk ->
  rect3 h w (c + c') (Arr.zip_with (Arr.zip_with (@app Q)) im mk).
Proof.
  intros [Hh Hrows] [Hh' Hrows']. split.
  - unfold Np.shape0 in *. rewrite zip_with_length; lia.
  - refine (zip_with_Forall2 _ _ _ _ _ _ _ Hrows Hrows').
    intros row row' [Hw Hpx] [Hw' Hpx']. split.
    + unfold Np.shape0 in *. rewrite zip_with_length; lia.
    + apply (zip_with_Forall2 (fun px => Np.shape0 px = c)
                              (fun px => Np.shape0 px = c')); [|exact Hpx|exact Hpx'].
      intros px px' Hc Hc'. unfold Np.shape0 in *. rewrite length_app. lia.
Qed.

Lemma take_channel_rect3 (h w c k : Z) (im : image Q) :
  rect3 h w c im -> rect3 h w 1 (map (map (fun px => [Np.get 0%Q px k])) im).
Proof.
  intros [Hh Hrows]. split.
  - rewrite shape0_map. exact Hh.
  - apply Forall_map_iff. eapply Forall_impl; [|exact Hrows].
    intros row [Hw Hpx]. cbv beta. split.
    + rewrite shape0_map. exact Hw.
    + apply Forall_map_iff. eapply Forall_impl; [|exact Hpx].
      intros px _. reflexivity.
Qed.

Section KeepsShape.

Variable elastic_transform : image Q -> Q -> Q -> Q -> image Q.
Variable ndimage_rotate : image Q -> Q -> Z -> image Q.
Variable enhance_brightness : image Q -> Q -> image Q.
Variable median_blur : image Q -> Z -> image Q.
Variable str_int : Z -> string.
Variable str_round2 : Q -> string.

Variables h w : Z.
Hypothesis Hh : 1 <= h.
Hypothesis Hw : 1 <= w.

Hypothesis elastic_shape : forall im alpha sigma alpha_affine,
    rect3 h w 2 im -> rect3 h w 2 (elastic_transform im alpha sigma alpha_affine).
Hypothesis rotate_shape : forall im theta order,
    rect3 h w 1 im -> rect3 h w 1 (ndimage_rotate im theta order).
Hypothesis brightness_shape : forall im b,
    rect3 h w 1 im -> rect3 h w 1 (enhance_brightness im b).
Hypothesis median_shape : forall im size,
    rect3 h w 1 im -> rect3 h w 1 (median_blur im size).

Let shaped (s : tstate) : Prop :=
  rect3 h w 1 (trans_image s) /\ rect3 h w 1 (trans_mask s).

Lemma elastic_step_shape (self : generator) (grid : bool) (prob : Q) (s : tstate) :
  shaped s ->
  exists s', elastic_step elastic_transform self grid prob s = Ok s' /\ shaped s'.
Proof.
  intros [Hi Hm]. unfold elastic_step.
  destruct (elastic self && negb (Qle_bool (e_prob self) prob));
    [|exists s; split; [reflexivity | split; assumption]].
  assert (Hgrid : exists im mk,
             (if grid
              then im <- Img.draw_grid (trans_image s) 50 false ;;
                   mk <- Img.draw_grid (trans_mask s) 50 true ;; Ok (im, mk)
              else Ok (trans_image s, trans_mask s)) = Ok (im, mk)
             /\ rect3 h w 1 im /\ rect3 h w 1 mk).
  { destruct grid.
    - destruct (draw_grid_rect3 _ h w 1 50 false Hi ltac:(lia)) as (im & -> & Him).
      destruct (draw_grid_rect3 _ h w 1 50 true Hm ltac:(lia)) as (mk & -> & Hmk).
      exists im, mk. cbn [bind]. auto.
    - exists (trans_image s), (trans_mask s). auto. }
  destruct Hgrid as (im & mk & -> & Him & Hmk). cbn [bind].
  rewrite (proj1 Him), (proj1 Hmk), (rect3_shape1 h w 1 im Him Hh),
    (rect3_shape1 h w 1 mk Hmk Hh), !Z.eqb_refl.
  cbn [andb bind].
  eexists. split; [reflexivity|].
  pose proof (concat_channels_rect3 h w 1 1 im mk Him Hmk) as Hc.
  change (1 + 1) with 2 in Hc.
  split; cbn [trans_image trans_mask]; apply (take_channel_rect3 h w 2);
    apply elastic_shape; exact Hc.
Qed.

Lemma flip_step_shape (self : generator) (prob : Q) (s : tstate) :
  shaped s -> shaped (flip_step self prob s).
Proof.
  intros [Hi Hm]. unfold flip_step.
  repeat match goal with
         | |- context [if ?b then _ else _] => destruct b
         end;
    split; cbn [trans_image trans_mask];
    repeat first [apply flip1_rect3 | apply flip0_rect3]; assumption.
Qed.

Lemma free_rotation_step_shape (self : generator) (theta : Q) (s : tstate) :
  shaped s -> shaped (free_rotation_step ndimage_rotate str_int self theta s).
Proof.
  intros [Hi Hm]. unfold free_rotation_step.
  destruct (negb _); split; cbn [trans_image trans_mask];
    try apply rotate_shape; assumption.
Qed.

Lemma rot90_step_shape (self : generator) (prob : Q) (s : tstate) :
  (squared self = true -> h = w) ->
  shaped s -> shaped (rot90_step self prob s).
Proof.
  intros Hsq [Hi Hm]. unfold rot90_step.
  destruct (squared self).
  - specialize (Hsq eq_refl).
    repeat match goal with
           | |- context [if ?b then _ else _] => destruct b
           end;
      split; cbn [trans_image trans_mask];
      try (apply rot90_k_rect3; [assumption | assumption | assumption | left; exact Hsq]);
      assumption.
  - destruct (rotation90 self && Qin 0 prob 0.5);
      split; cbn [trans_image trans_mask];
      try (apply rot90_k_rect3; [assumption | assumption | assumption | right; reflexivity]);
      assumption.
Qed.

Lemma brightness_step_shape (self : generator) (b : Q) (s : tstate) :
  shaped s -> shaped (brightness_step enhance_brightness str_round2 self b s).
Proof.
  intros [Hi Hm]. unfold brightness_step.
  destruct (negb _); split; cbn [trans_image trans_mask];
    try apply brightness_shape; assumption.
Qed.

Lemma median_step_shape (self : generator) (mf : Z) (s s' : tstate) :
  shaped s -> median_step median_blur str_int self mf s = Ok s' -> shaped s'.
Proof.
  intros [Hi Hm]. unfold median_step.
  destruct (negb _).
  - destruct (_ <? _); cbn [bind]; [|discriminate].
    intros H. injection H as <-.
    split; cbn [trans_image trans_mask]; try apply median_shape; assumption.
  - intros H. injection H as <-. split; assumption.
Qed.

End KeepsShape.

Lemma median_step_runs (median_blur : image Q -> Z -> image Q) (str_int : Z -> string)
      (self : generator) (mf : Z) (s : tstate) :
  if negb ((fst (median_filter_size self) =? 0) && (snd (median_filter_size self) =? 0))
     && negb (fst (median_filter_size self) <? snd (median_filter_size self))
  then median_step median_blur str_int self mf s = Raise ValueError
  else exists s', median_step median_blur str_int self mf s = Ok s'.
Proof.
  unfold median_step.
  destruct (negb _); cbn [andb]; [|eexists; reflexivity].
  destruct (_ <? _); cbn [negb bind]; [eexists|]; reflexivity.
Qed.

(** [apply_transform] on a single-channel image and mask of the same shape
    returns an image and a mask of that shape, when the image-processing
    routines it calls keep the shape of what they are given, quarter turns
    are only allowed on square images (the [squared] flag, as the
    constructor sets it) and the median filter range is not empty. *)
Theorem apply_transform_keeps_shape
        (elastic_transform : image Q -> Q -> Q -> Q -> image Q)
        (ndimage_rotate : image Q -> Q -> Z -> image Q)
        (enhance_brightness : image Q -> Q -> image Q)
        (median_blur : image Q -> Z -> image Q)
        (str_int : Z -> string) (str_round2 : Q -> string)
        (h w : Z) (self : generator) (im mask : image Q) (grid : bool) (d : draws)
        (Hh : 1 <= h) (Hw : 1 <= w)
        (elastic_shape : forall a alpha sigma alpha_affine,
            rect3 h w 2 a -> rect3 h w 2 (elastic_transform a alpha sigma alpha_affine))
        (rotate_shape : forall a theta order,
            rect3 h w 1 a -> rect3 h w 1 (ndimage_rotate a theta order))
        (brightness_shape : forall a b,
            rect3 h w 1 a -> rect3 h w 1 (enhance_brightness a b))
        (median_shape : forall a size,
            rect3 h w 1 a -> rect3 h w 1 (median_blur a size))
        (Him : rect3 h w 1 im) (Hmask : rect3 h w 1 mask)
        (Hsquared : squared self = true -> h = w)
        (Hmedian : median_filter_size self = (0, 0)
                   \/ fst (median_filter_size self) < snd (median_filter_size self)) :
  exists im' mask' description t_counter',
    apply_transform elastic_transform ndimage_rotate enhance_brightness
                    median_blur str_int str_round2 self im mask grid d
    = Ok (im', mask', description, t_counter')
    /\ rect3 h w 1 im' /\ rect3 h w 1 mask'.
Proof.
  unfold apply_transform.
  set (s0 := {| trans_image := im; trans_mask := mask; transform_string := "";
                transformed := false; counters := t_counter self |}).
  assert (H0 : rect3 h w 1 (trans_image s0) /\ rect3 h w 1 (trans_mask s0))
    by (split; assumption).
  destruct (elastic_step_shape elastic_transform h w Hh elastic_shape self grid
              (u_elastic d) s0 H0) as (s1 & -> & H1).
  cbn [bind].
  pose proof (flip_step_shape h w self (u_flip d) s1 H1) as H2.
  pose proof (free_rotation_step_shape ndimage_rotate str_int h w rotate_shape self
                (u_theta d) _ H2) as H3.
  pose proof (rot90_step_shape h w Hh Hw self (u_rot90 d) _ Hsquared H3) as H4.
  pose proof (brightness_step_shape enhance_brightness str_round2 h w brightness_shape
                self (u_brightness d) _ H4) as H5.
  match goal with
  | |- context [median_step _ _ _ _ ?s] => set (s5 := s) in *
  end.
  pose proof (median_step_runs median_blur str_int self (u_mf_size d) s5) as Hrun.
  assert (Hgo : negb ((fst (median_filter_size self) =? 0)
                      && (snd (median_filter_size self) =? 0))
                && negb (fst (median_filter_size self) <? snd (median_filter_size self))
                = false).
  { destruct Hmedian as [-> | Hlt]; [reflexivity|].
    apply Z.ltb_lt in Hlt. rewrite Hlt. apply andb_false_r. }
  rewrite Hgo in Hrun. destruct Hrun as (s6 & E6).
  pose proof (median_step_shape median_blur str_int h w median_shape self _ s5 s6 H5 E6)
    as [Hi6 Hm6].
  rewrite E6. cbn [bind]. do 4 eexists. split; [reflexivity|]. split; assumption.
Qed.

(** A median filter that is switched on with an empty size range, such as
    the fixed size [[3, 3]], makes [apply_transform] fail: with the elastic
    transformation, the free rotation and the brightness change off (so that
    no external routine is called before), every call reaches
    [np.random.randint(low, high)] with [low >= high] and raises
    [ValueError], whatever the image, the mask and the draws. *)
Theorem apply_transform_empty_median_range_raises
        (elastic_transform : image Q -> Q -> Q -> Q -> image Q)
        (ndimage_rotate : image Q -> Q -> Z -> image Q)
        (enhance_brightness : image Q -> Q -> image Q)
        (median_blur : image Q -> Z -> image Q)
        (str_int : Z -> string) (str_round2 : Q -> string)
        (self : generator) (im mask : image Q) (grid : bool) (d : draws)
        (Helastic : elastic self = false)
        (Hrotation : (rotation_range self == 0)%Q)
        (Hbrightness : (fst (brightness_range self) == 1)%Q
                       /\ (snd (brightness_range self) == 1)%Q)
        (Hon : median_filter_size self <> (0, 0))
        (Hempty : snd (median_filter_size self) <= fst (median_filter_size self)) :
  apply_transform elastic_transform ndimage_rotate enhance_brightness
                  median_blur str_int str_round2 self im mask grid d
  = Raise ValueError.
Proof.
  unfold apply_transform, elastic_step. rewrite Helastic. cbn [andb bind].
  unfold free_rotation_step.
  rewrite (proj2 (Qeq_bool_iff _ _) Hrotation). cbn [negb].
  unfold brightness_step.
  rewrite (proj2 (Qeq_bool_iff _ _) (proj1 Hbrightness)),
    (proj2 (Qeq_bool_iff _ _) (proj2 Hbrightness)).
  cbn [andb negb].
  unfold median_step.
  assert (E0 : (fst (median_filter_size self) =? 0)
               && (snd (median_filter_size self) =? 0) = false).
  { destruct (median_filter_size self) as [lo hi]. cbn [fst snd] in *.
    apply andb_false_iff.
    destruct (Z.eqb_spec lo 0) as [-> | Hlo]; [|left; reflexivity].
    destruct (Z.eqb_spec hi 0) as [-> | Hhi]; [|right; reflexivity].
    exfalso. apply Hon. reflexivity. }
  rewrite E0. cbn [negb].
  replace (fst (median_filter_size self) <? snd (median_filter_size self))
    with false by (symmetry; apply Z.ltb_ge; exact Hempty).
  reflexivity.
Qed.

(** ** Random crops *)

Lemma randint_range (low high : Z) (g : Rand.rng) :
  low < high ->
  exists v, Rand.randint low high g = Ok (v, Rand.advance g) /\ low <= v < high.
Proof.
  intros Hlt. unfold Rand.randint.
  assert (E : (low <? high) = true) by (apply Z.ltb_lt; lia). rewrite E.
  eexists. split; [reflexivity|].
  pose proof (Z.mod_pos_bound (g O) (high - low) ltac:(lia)). lia.
Qed.

(** In uniform mode ([val] and [prob_map] off) a crop that fits the image is
    taken at an origin drawn inside the image: the image crop and the mask
    crop have the requested size and show the same window of the image and
    of the mask. *)
Theorem random_crop_uniform_window
        (img mask : image Q) (h w c dy dx : Z)
        (img_prob : option (list (list Q))) (g : Rand.rng)
        (Himg : rect3 h w 1 img) (Hmask : rect3 h w c mask)
        (Hdy : 1 <= dy <= h) (Hdx : 1 <= dx <= w) :
  exists y x img_crop mask_crop g',
    random_crop img mask (dy, dx) false false false img_prob g
    = Ok (Crops img_crop mask_crop, g')
    /\ 0 <= y <= h - dy /\ 0 <= x <= w - dx
    /\ rect3 dy dx 1 img_crop /\ rect3 dy dx c mask_crop
    /\ forall a b ch, 0 <= a < dy -> 0 <= b < dx ->
         px3 0%Q img_crop a b ch = px3 0%Q img (y + a) (x + b) ch
         /\ px3 0%Q mask_crop a b ch = px3 0%Q mask (y + a) (x + b) ch.
Proof.
  unfold random_crop.
  assert (H2 : Np.shape2 img = 1).
  { unfold Np.shape2. pose proof (rect3_shape1 h w 1 img Himg ltac:(lia)) as Hs1.
    destruct Himg as [Hh Hrows]. destruct img as [|row img];
      [unfold Np.shape0 in Hh; simpl in Hh; lia|].
    simpl in *. inversion Hrows as [|? ? [Hw Hpx] _]. subst.
    unfold Np.shape1. destruct row as [|px row];
      [unfold Np.shape0 in Hw; simpl in Hw; lia|].
    simpl. inversion Hpx. assumption. }
  rewrite H2. cbn [Z.eqb Pos.eqb assert bind].
  destruct Himg as [Hh Hrows]. pose proof (conj Hh Hrows : rect3 h w 1 img) as Himg.
  rewrite (rect3_shape1 h w 1 img Himg ltac:(lia)), Hh.
  destruct (randint_range 0 (w - dx + 1) g ltac:(lia)) as (x & -> & Hx).
  cbn [bind].
  destruct (randint_range 0 (h - dy + 1) (Rand.advance g) ltac:(lia)) as (y & -> & Hy).
  cbn [bind].
  exists y, x. do 3 eexists. split; [reflexivity|].
  split; [lia|]. split; [lia|].
  destruct (crop_inside 0%Q h w 1 y x dy dx img Himg) as [Hri Hpi]; try lia.
  destruct (crop_inside 0%Q h w c y x dy dx mask Hmask) as [Hrm Hpm]; try lia.
  split; [exact Hri|]. split; [exact Hrm|].
  intros a b ch Ha Hb. split; [apply Hpi | apply Hpm]; assumption.
Qed.

(** ** Crops around a point drawn from a probability map *)

Lemma filter_combine_in (l : list Z) (p : list Q) (f : Z * Q -> bool) (i : Z) :
  In i (map fst (filter f (combine l p))) ->
  exists k, (k < length l)%nat /\ (k < length p)%nat
            /\ nth k l 0 = i /\ f (i, nth k p 0%Q) = true.
Proof.
  rewrite in_map_iff. intros ([i' q] & <- & Hin).
  apply filter_In in Hin. destruct Hin as [Hin Hf].
  apply (In_nth _ _ (0, 0%Q)) in Hin. destruct Hin as (k & Hk & Hnth).
  rewrite length_combine in Hk.
  exists k. split; [lia|]. split; [lia|].
  assert (E : nth k (combine l p) (0, 0%Q) = (nth k l 0, nth k p 0%Q)).
  { clear -Hk. revert l p Hk. induction k as [|k IH]; intros [|a l] [|b p] Hk;
      simpl in *; try lia; [reflexivity|]. apply IH. lia. }
  rewrite E in Hnth. injection Hnth as H1 H2. cbn [fst]. split; [exact H1|].
  rewrite H2. exact Hf.
Qed.

Lemma support_in (p : list Q) (i : Z) :
  In i (Rand.support p) -> 0 <= i < Np.shape0 p /\ (0 < Np.get 0%Q p i)%Q.
Proof.
  unfold Rand.support. intros Hin. apply filter_combine_in in Hin.
  destruct Hin as (k & Hk & Hkp & Hi & Hf).
  rewrite range_list_unit in Hi, Hk. rewrite length_map, length_seq in Hk.
  rewrite (nth_indep _ 0 ((fun t => 0 + Z.of_nat t) 0%nat)) in Hi
    by (rewrite length_map, length_seq; exact Hk).
  rewrite (map_nth (fun t => 0 + Z.of_nat t)), seq_nth in Hi by exact Hk.
  subst i. unfold Np.shape0, Np.get. split; [lia|].
  cbn [snd] in Hf. apply negb_true_iff in Hf.
  replace (Z.to_nat (0 + Z.of_nat (0 + k))) with k by lia.
  destruct (Qlt_le_dec 0 (nth k p 0%Q)) as [Hlt | Hle]; [exact Hlt|].
  apply Qle_bool_iff in Hle. congruence.
Qed.

Lemma Qsum_nonpositive (l : list Z) (p : list Q) :
  length l = length p ->
  filter (fun ip : Z * Q => negb (Qle_bool (snd ip) 0)) (combine l p) = [] ->
  (Rand.Qsum p <= 0)%Q.
Proof.
  revert l. induction p as [|q p IH]; intros [|a l] Hlen Hf; simpl in *;
    try discriminate; try apply Qle_refl.
  destruct (Qle_bool q 0) eqn:Eq; cbn [negb] in Hf; [|discriminate].
  apply Qle_bool_iff in Eq.
  specialize (IH l ltac:(lia) Hf).
  apply (Qplus_le_compat _ _ _ _ Eq) in IH.
  rewrite Qplus_0_l in IH. exact IH.
Qed.

Lemma choice_in_support (choices : Z) (p : list Q) (g : Rand.rng) :
  Np.shape0 p = choices -> forallb (Qle_bool 0) p = true -> (Rand.Qsum p == 1)%Q ->
  exists index, Rand.choice choices p g = Ok (index, Rand.advance g)
                /\ 0 <= index < choices /\ (0 < Np.get 0%Q p index)%Q.
Proof.
  intros Hlen Hnn Hsum. unfold Rand.choice.
  apply Z.eqb_eq in Hlen. rewrite Hlen, Hnn.
  apply Qeq_bool_iff in Hsum. rewrite Hsum. cbn [negb orb].
  eexists. split; [reflexivity|].
  apply Z.eqb_eq in Hlen. rewrite <- Hlen.
  apply support_in. apply get_in.
  assert (Hne : 0 < Np.shape0 (Rand.support p)).
  { pose proof (shape0_nonneg (Rand.support p)) as H0.
    destruct (Z.eq_dec (Np.shape0 (Rand.support p)) 0) as [E|]; [|lia].
    exfalso. unfold Rand.support, Np.shape0 in E.
    rewrite length_map in E.
    assert (Hnil : filter (fun ip : Z * Q => negb (Qle_bool (snd ip) 0))
                     (combine (Py.range_list 0 (Z.of_nat (length p)) 1) p) = []).
    { apply length_zero_iff_nil. unfold Np.shape0 in E. lia. }
    apply Qsum_nonpositive in Hnil.
    - apply Qeq_bool_iff in Hsum. rewrite Hsum in Hnil. revert Hnil.
      unfold Qle. simpl. lia.
    - rewrite range_list_unit, length_map, length_seq. lia. }
  apply Z.mod_pos_bound. exact Hne.
Qed.

Lemma concat_rect_get {A : Type} (d : A) (m : list (list A)) (w y x : Z) :
  Forall (fun row => Np.shape0 row = w) m ->
  0 <= y < Np.shape0 m -> 0 <= x < w ->
  Np.get d (concat m) (y * w + x) = Np.get d (Np.get [] m y) x.
Proof.
  intros Hm. revert y. induction Hm as [|row m Hrow _ IH]; intros y Hy Hx.
  - unfold Np.shape0 in Hy. simpl in Hy. lia.
  - cbv beta in Hrow. cbn [concat]. unfold Np.get in *.
    destruct (Z.eq_dec y 0) as [-> | Hy0].
    + simpl (Z.to_nat 0). cbn [nth]. rewrite app_nth1
        by (unfold Np.shape0 in Hrow; lia).
      f_equal.
    + rewrite app_nth2 by (unfold Np.shape0 in Hrow; nia).
      replace (Z.to_nat y) with (S (Z.to_nat (y - 1))) by lia. cbn [nth].
      rewrite <- IH; [|unfold Np.shape0 in *; simpl in Hy; lia | exact Hx].
      f_equal. unfold Np.shape0 in Hrow. nia.
Qed.

Lemma origin_from_point_bounds (p dim size : Z) :
  1 <= size <= dim -> 0 <= p < dim ->
  let o := origin_from_point p dim size in
  0 <= o <= p /\ p < o + size /\ o + size <= dim + size mod 2.
Proof.
  intros Hs Hp. unfold origin_from_point, Py.int_div.
  rewrite Z.quot_div_nonneg by lia.
  pose proof (Z.div_mod size 2 ltac:(lia)) as Hdm.
  pose proof (Z.mod_pos_bound size 2 ltac:(lia)) as Hm.
  destruct (p <? size / 2) eqn:E1; [apply Z.ltb_lt in E1; cbv zeta; lia|].
  apply Z.ltb_ge in E1.
  destruct (p >? dim - size / 2) eqn:E2.
  - apply Z.gtb_lt in E2. cbv zeta. lia.
  - rewrite Z.gtb_ltb in E2. apply Z.ltb_ge in E2. cbv zeta. lia.
Qed.



(** ** Loops that can return *)

Lemma for_each_flow_app {I T R : Type} (l l' : list I)
      (body : I -> T -> result (flow T R)) (s : T) :
  for_each_flow (l ++ l') body s
  = (f <- for_each_flow l body s ;;
     match f with
     | Next s' => for_each_flow l' body s'
     | Return r => Ok (Return r)
     end).
Proof.
  revert s. induction l as [|i l IH]; intros s; simpl; [reflexivity|].
  destruct (body i s) as [[s'|r]|e]; simpl; [apply IH | reflexivity | reflexivity].
Qed.

Lemma for_each_flow_map {I J T R : Type} (g : I -> J) (l : list I)
      (body : J -> T -> result (flow T R)) (s : T) :
  for_each_flow (map g l) body s = for_each_flow l (fun i s' => body (g i) s') s.
Proof.
  revert s. induction l as [|i l IH]; intros s; simpl; [reflexivity|].
  destruct (body (g i) s) as [[s'|r]|e]; simpl; [apply IH | reflexivity | reflexivity].
Qed.

Lemma for_each_flow_nested {I J T R : Type} (l : list I) (l' : list J)
      (body : I -> J -> T -> result (flow T R)) (s : T) :
  for_each_flow l (fun i s' => for_each_flow l' (fun j s'' => body i j s'') s') s
  = for_each_flow (list_prod l l') (fun ij s' => body (fst ij) (snd ij) s') s.
Proof.
  revert s. induction l as [|i l IH]; intros s; simpl; [reflexivity|].
  rewrite for_each_flow_app, for_each_flow_map. simpl.
  destruct (for_each_flow l' _ s) as [[s'|r]|e]; simpl;
    [apply IH | reflexivity | reflexivity].
Qed.

Lemma for_each_flow_ext {I T R : Type} (l : list I)
      (f g : I -> T -> result (flow T R)) (s : T) :
  (forall i s', f i s' = g i s') -> for_each_flow l f s = for_each_flow l g s.
Proof.
  intros E. revert s. induction l as [|i l IH]; intros s; simpl; [reflexivity|].
  rewrite E. destruct (g i s) as [[s'|r]|e]; simpl; [apply IH | reflexivity | reflexivity].
Qed.

Lemma for_range_flow_unit {T R : Type} (stop : Z)
      (body : Z -> T -> result (flow T R)) (s : T) :
  for_range_flow 0 stop 1 body s = for_each_flow (Py.range_list 0 stop 1) body s.
Proof. reflexivity. Qed.

(** ** Positions in a product of ranges *)

Lemma list_prod_nth {A B : Type} (l : list A) (l' : list B) (d : A) (d' : B) (p : nat) :
  (p < length l * length l')%nat ->
  nth p (list_prod l l') (d, d')
  = (nth (p / length l') l d, nth (p mod length l') l' d').
Proof.
  revert p. induction l as [|x l IH]; intros p Hp; simpl in Hp; [lia|].
  assert (Hl' : (0 < length l')%nat) by (destruct l'; simpl in *; lia).
  cbn [list_prod]. destruct (Nat.lt_ge_cases p (length l')) as [Hlt | Hge].
  - rewrite app_nth1 by (rewrite length_map; exact Hlt).
    rewrite Nat.div_small, Nat.mod_small by exact Hlt.
    rewrite (nth_indep _ (d, d') (x, d')) by (rewrite length_map; exact Hlt).
    apply (map_nth (pair x)).
  - rewrite app_nth2 by (rewrite length_map; exact Hge).
    rewrite length_map, IH by lia.
    replace p with ((p - length l') + 1 * length l')%nat at 3 4 by lia.
    rewrite Nat.div_add, Nat.Div0.mod_add by lia.
    replace ((p - length l') / length l' + 1)%nat
      with (S ((p - length l') / length l')) by lia.
    reflexivity.
Qed.

Lemma range_list_length (n : Z) : length (Py.range_list 0 n 1) = Z.to_nat n.
Proof. rewrite range_list_unit, length_map, length_seq. f_equal. lia. Qed.

Lemma range_list_nth (n : Z) (p : nat) :
  (p < Z.to_nat n)%nat -> nth p (Py.range_list 0 n 1) 0 = Z.of_nat p.
Proof.
  intros Hp. rewrite range_list_unit.
  rewrite (nth_indep _ 0 ((fun t => 0 + Z.of_nat t) 0%nat))
    by (rewrite length_map, length_seq; lia).
  rewrite (map_nth (fun t => 0 + Z.of_nat t)), seq_nth by lia. lia.
Qed.

(** The cells of the grid merger in loop order: cell number [p] is
    [(p / (a*b), (p mod (a*b)) / a, p mod a)]. *)
Lemma cell_nth (num a b : Z) (p : nat) :
  0 <= num -> 0 <= a -> 0 <= b -> Z.of_nat p < num * (b * a) ->
  let cell := nth p (list_prod (Py.range_list 0 num 1)
                               (list_prod (Py.range_list 0 b 1) (Py.range_list 0 a 1)))
                  (0, (0, 0)) in
  0 <= fst cell < num /\ 0 <= fst (snd cell) < b /\ 0 <= snd (snd cell) < a
  /\ fst cell * (a * b) + fst (snd cell) * a + snd (snd cell) = Z.of_nat p.
Proof.
  intros Hnum Ha Hb Hp.
  assert (Hab : 0 < b * a) by nia. assert (Ha' : 0 < a) by nia.
  assert (Hb' : 0 < b) by nia.
  set (L := list_prod (Py.range_list 0 b 1) (Py.range_list 0 a 1)).
  assert (HL : length L = Z.to_nat (b * a)).
  { unfold L. rewrite length_prod, !range_list_length. lia. }
  cbv zeta. rewrite list_prod_nth by (rewrite range_list_length, HL; nia).
  rewrite HL. cbn [fst snd].
  set (q := (p / Z.to_nat (b * a))%nat). set (r := (p mod Z.to_nat (b * a))%nat).
  pose proof (Nat.div_mod_eq p (Z.to_nat (b * a))) as Hdm. fold q r in Hdm.
  pose proof (Nat.mod_upper_bound p (Z.to_nat (b * a)) ltac:(lia)) as Hr. fold r in Hr.
  assert (Hq : (q < Z.to_nat num)%nat) by nia.
  rewrite range_list_nth by exact Hq.
  unfold L. rewrite list_prod_nth by (rewrite !range_list_length; nia).
  rewrite !range_list_length. cbn [fst snd].
  set (i := (r / Z.to_nat a)%nat). set (j := (r mod Z.to_nat a)%nat).
  pose proof (Nat.div_mod_eq r (Z.to_nat a)) as Hdm'. fold i j in Hdm'.
  pose proof (Nat.mod_upper_bound r (Z.to_nat a) ltac:(lia)) as Hj. fold j in Hj.
  assert (Hi : (i < Z.to_nat b)%nat) by nia.
  rewrite !range_list_nth by assumption.
  repeat split; lia.
Qed.

Lemma radix_eq (n q r q' r' : Z) :
  0 <= r < n -> 0 <= r' < n -> q * n + r = q' * n + r' -> q = q' /\ r = r'.
Proof.
  intros Hr Hr' E.
  assert (q = q').
  { destruct (Z.lt_trichotomy q q') as [H|[H|H]]; [nia | exact H | nia]. }
  subst. lia.
Qed.

(** A cell number determines its cell. *)
Lemma cell_number_eq (a b k i j k' i' j' : Z) :
  0 <= i < b -> 0 <= j < a -> 0 <= i' < b -> 0 <= j' < a ->
  k * (a * b) + i * a + j = k' * (a * b) + i' * a + j' ->
  k = k' /\ i = i' /\ j = j'.
Proof.
  intros Hi Hj Hi' Hj' E.
  destruct (radix_eq (a * b) k (i * a + j) k' (i' * a + j')) as [Hk Hu]; [nia | nia | lia|].
  destruct (radix_eq a i j i' j' Hj Hj' Hu) as [Hi2 Hj2]. auto.
Qed.

(** ** Writing a crop into a cell *)

Lemma shows_ext (h w c : Z) (img : image Q) (F G : Z -> Z -> Z -> Q) :
  (forall y x ch, 0 <= y < h -> 0 <= x < w -> 0 <= ch < c -> F y x ch = G y x ch) ->
  shows h w c img F -> shows h w c img G.
Proof.
  intros E [Hr Hpx]. split; [exact Hr|]. intros y x ch Hy Hx Hch.
  rewrite Hpx by assumption. now apply E.
Qed.

Lemma set_window_shows (h w c lo0 hi0 lo1 hi1 : Z) (tile img : image Q)
      (F : Z -> Z -> Z -> Q) :
  shows h w c img F ->
  rect3 (Np.slice_len h lo0 hi0) (Np.slice_len w lo1 hi1) c tile ->
  exists img',
    Mix.set_window h w c lo0 hi0 lo1 hi1 tile img = Ok img'
    /\ shows h w c img'
         (fun y x ch =>
            if Np.in_slice h lo0 hi0 y && Np.in_slice w lo1 hi1 x
            then px3 0%Q tile (y - Py.clamp h lo0) (x - Py.clamp w lo1) ch
            else F y x ch).
Proof.
  intros [Hr Hpx] Ht. unfold Mix.set_window. rewrite (bcast3_id _ _ _ tile Ht).
  cbn [bind]. eexists. split; [reflexivity|]. pose proof Hr as [Hh Hrows]. split.
  - split; [now rewrite update_slice_shape0|].
    apply update_slice_Forall_in; [|exact Hrows].
    intros y row Hy Iy [Hw Hc]. rewrite Hh in Hy, Iy. split.
    + now rewrite update_slice_shape0.
    + apply update_slice_Forall_in; [|exact Hc].
      intros x px Hx Ix _. rewrite Hw in Hx, Ix. rewrite Hh, Hw.
      apply (rect3_px (Np.slice_len h lo0 hi0) (Np.slice_len w lo1 hi1) c tile);
        [exact Ht | |];
        apply in_slice_offset; assumption.
  - intros y x ch Hy Hx Hch.
    destruct (rect3_row h w c img y Hr Hy) as [Hw _].
    unfold px3 at 1.
    rewrite update_slice_get by (rewrite Hh; lia). rewrite Hh.
    destruct (Np.in_slice h lo0 hi0 y) eqn:Iy; cbn [andb]; [|apply Hpx; assumption].
    rewrite update_slice_get by lia. rewrite Hw.
    destruct (Np.in_slice w lo1 hi1 x) eqn:Ix; [reflexivity | apply Hpx; assumption].
Qed.

Lemma in_slice_inside (n lo hi p : Z) :
  0 <= lo <= n -> 0 <= hi <= n ->
  Np.in_slice n lo hi p = (lo <=? p) && (p <? hi).
Proof.
  intros Hlo Hhi. unfold Np.in_slice. now rewrite !clamp_inside.
Qed.

Lemma in_slice_single (n i p : Z) :
  0 <= i < n -> Np.in_slice n i (i + 1) p = (p =? i).
Proof.
  intros Hi. rewrite in_slice_inside by lia.
  destruct (p =? i) eqn:E.
  - apply Z.eqb_eq in E. subst. apply andb_true_iff.
    split; [apply Z.leb_le | apply Z.ltb_lt]; lia.
  - apply Z.eqb_neq in E. apply andb_false_iff.
    destruct (Z.lt_ge_cases p i); [left; apply Z.leb_gt | right; apply Z.ltb_ge]; lia.
Qed.

Lemma paint_px_shape (c : Z) (v : Q) (px : list Q) :
  Np.shape0 px = c -> Np.shape0 (map (fun _ => v) px) = c.
Proof. intros H. now rewrite shape0_map. Qed.

Lemma paint_column_shows (h w c lo hi col : Z) (v : Q) (img : image Q)
      (F : Z -> Z -> Z -> Q) :
  shows h w c img F -> 0 <= col < w ->
  exists img',
    Mix.paint_column w lo hi col v img = Ok img'
    /\ shows h w c img'
         (fun y x ch =>
            if Np.in_slice h lo hi y && (x =? col) then v else F y x ch).
Proof.
  intros [Hr Hpx] Hcol. unfold Mix.paint_column.
  rewrite (norm_index_in_range w col Hcol). cbn [bind].
  eexists. split; [reflexivity|]. pose proof Hr as [Hh Hrows]. split.
  - split; [now rewrite update_slice_shape0|].
    apply update_slice_Forall; [|exact Hrows].
    intros _ row [Hw Hc]. split.
    + now rewrite update_slice_shape0.
    + apply update_slice_Forall; [|exact Hc].
      intros _ px. apply paint_px_shape.
  - intros y x ch Hy Hx Hch.
    destruct (rect3_row h w c img y Hr Hy) as [Hw _].
    pose proof (rect3_px h w c img y x Hr Hy Hx) as Hc.
    unfold px3 at 1.
    rewrite update_slice_get by (rewrite Hh; lia). rewrite Hh.
    destruct (Np.in_slice h lo hi y) eqn:Iy; cbn [andb]; [|apply Hpx; assumption].
    rewrite update_slice_get by lia. rewrite Hw, (in_slice_single w col x Hcol).
    destruct (x =? col); [|apply Hpx; assumption].
    apply map_const_get. lia.
Qed.

Lemma paint_row_shows (h w c row lo hi : Z) (v : Q) (img : image Q)
      (F : Z -> Z -> Z -> Q) :
  shows h w c img F -> 0 <= row < h ->
  exists img',
    Mix.paint_row h row lo hi v img = Ok img'
    /\ shows h w c img'
         (fun y x ch =>
            if (y =? row) && Np.in_slice w lo hi x then v else F y x ch).
Proof.
  intros [Hr Hpx] Hrow. unfold Mix.paint_row.
  rewrite (norm_index_in_range h row Hrow). cbn [bind].
  eexists. split; [reflexivity|]. pose proof Hr as [Hh Hrows]. split.
  - split; [now rewrite update_slice_shape0|].
    apply update_slice_Forall; [|exact Hrows].
    intros _ r [Hw Hc]. split.
    + now rewrite update_slice_shape0.
    + apply update_slice_Forall; [|exact Hc].
      intros _ px. apply paint_px_shape.
  - intros y x ch Hy Hx Hch.
    destruct (rect3_row h w c img y Hr Hy) as [Hw _].
    pose proof (rect3_px h w c img y x Hr Hy Hx) as Hc.
    unfold px3 at 1.
    rewrite update_slice_get by (rewrite Hh; lia).
    rewrite Hh, (in_slice_single h row y Hrow).
    destruct (y =? row); cbn [andb]; [|apply Hpx; assumption].
    rewrite update_slice_get by lia. rewrite Hw.
    destruct (Np.in_slice w lo hi x); [|apply Hpx; assumption].
    apply map_const_get. lia.
Qed.

(** Position [p] lies in cell [i] of an axis cut into cells of length [t]. *)
Lemma in_cell (t i p : Z) :
  1 <= t -> 0 <= p ->
  ((i * t <=? p) && (p <? (i + 1) * t)) = (p / t =? i).
Proof.
  intros Ht Hp. destruct (p / t =? i) eqn:E.
  - apply Z.eqb_eq in E. subst i.
    pose proof (Z.div_mod p t ltac:(lia)). pose proof (Z.mod_pos_bound p t ltac:(lia)).
    apply andb_true_iff. split; [apply Z.leb_le | apply Z.ltb_lt]; nia.
  - apply Z.eqb_neq in E. apply andb_false_iff.
    destruct (Z.lt_ge_cases p (i * t)) as [H|H]; [left; apply Z.leb_gt; lia|].
    right. apply Z.ltb_ge. destruct (Z.lt_ge_cases p ((i + 1) * t)) as [H'|H']; [|lia].
    exfalso. apply E. symmetry. apply (Z.div_unique p t i (p - i * t)); lia.
Qed.

Lemma cell_offset (t i p : Z) : 1 <= t -> p / t = i -> p - i * t = p mod t.
Proof.
  intros Ht E. pose proof (Z.div_mod p t ltac:(lia)). subst i. lia.
Qed.

Lemma place_shows (t c a b i j : Z) (v : option Q) (tile img : image Q)
      (F : Z -> Z -> Z -> Q) :
  1 <= t -> 0 <= i < b -> 0 <= j < a ->
  shows (b * t) (a * t) c img F -> rect3 t t c tile ->
  exists img',
    Mix.place (b * t) (a * t) c t t v i j tile img = Ok img'
    /\ shows (b * t) (a * t) c img'
         (fun y x ch =>
            if (y / t =? i) && (x / t =? j)
            then cell_value t v tile (y mod t) (x mod t) ch
            else F y x ch).
Proof.
  intros Ht Hi Hj Himg Htile. unfold Mix.place.
  assert (B0 : 0 <= i * t /\ (i + 1) * t <= b * t) by nia.
  assert (B1 : 0 <= j * t /\ (j + 1) * t <= a * t) by nia.
  assert (L0 : Np.slice_len (b * t) (i * t) ((i + 1) * t) = t).
  { replace ((i + 1) * t) with (i * t + t) by lia. apply slice_len_inside; lia. }
  assert (L1 : Np.slice_len (a * t) (j * t) ((j + 1) * t) = t).
  { replace ((j + 1) * t) with (j * t + t) by lia. apply slice_len_inside; lia. }
  destruct (set_window_shows (b * t) (a * t) c (i * t) ((i + 1) * t)
              (j * t) ((j + 1) * t) tile img F Himg) as (img1 & -> & H1).
  { rewrite L0, L1. exact Htile. }
  cbn [bind].
  assert (H1' : shows (b * t) (a * t) c img1
                  (fun y x ch =>
                     if (y / t =? i) && (x / t =? j)
                     then px3 0%Q tile (y mod t) (x mod t) ch
                     else F y x ch)).
  { eapply shows_ext; [|exact H1]. intros y x ch Hy Hx Hch. cbv beta.
    rewrite !in_slice_inside, !clamp_inside by lia.
    rewrite (in_cell t i y), (in_cell t j x) by lia.
    destruct (y / t =? i) eqn:Ey; cbn [andb]; [|reflexivity].
    destruct (x / t =? j) eqn:Ex; [|reflexivity].
    apply Z.eqb_eq in Ey, Ex.
    rewrite (cell_offset t i y), (cell_offset t j x) by assumption. reflexivity. }
  clear H1. destruct v as [g|]; [|exists img1; split; [reflexivity | exact H1']].
  destruct (paint_column_shows (b * t) (a * t) c (i * t) ((i + 1) * t - 1) (j * t)
              g img1 _ H1' ltac:(nia)) as (img2 & -> & H2).
  cbn [bind].
  destruct (paint_column_shows (b * t) (a * t) c (i * t) ((i + 1) * t - 1)
              ((j + 1) * t - 1) g img2 _ H2 ltac:(nia)) as (img3 & -> & H3).
  cbn [bind].
  destruct (paint_row_shows (b * t) (a * t) c (i * t) (j * t) ((j + 1) * t - 1)
              g img3 _ H3 ltac:(nia)) as (img4 & -> & H4).
  cbn [bind].
  destruct (paint_row_shows (b * t) (a * t) c ((i + 1) * t - 1) (j * t)
              ((j + 1) * t - 1) g img4 _ H4 ltac:(nia)) as (img5 & -> & H5).
  exists img5. split; [reflexivity|].
  eapply shows_ext; [|exact H5]. intros y x ch Hy Hx Hch. cbv beta.
  rewrite !in_slice_inside by lia.
  pose proof (Z.div_mod y t ltac:(lia)) as Dy.
  pose proof (Z.mod_pos_bound y t ltac:(lia)) as My.
  pose proof (Z.div_mod x t ltac:(lia)) as Dx.
  pose proof (Z.mod_pos_bound x t ltac:(lia)) as Mx.
  unfold cell_value, on_grid.
  destruct (y / t =? i) eqn:Ey; destruct (x / t =? j) eqn:Ex; cbn [andb];
    [apply Z.eqb_eq in Ey; apply Z.eqb_eq in Ex
    |apply Z.eqb_eq in Ey; apply Z.eqb_neq in Ex
    |apply Z.eqb_neq in Ey
    |apply Z.eqb_neq in Ey].
  - (* inside the cell *)
    subst i j.
    replace (y =? (y / t + 1) * t - 1) with (y mod t =? t - 1)
      by (apply eq_true_iff_eq; rewrite !Z.eqb_eq; lia).
    replace (y =? y / t * t) with (y mod t =? 0)
      by (apply eq_true_iff_eq; rewrite !Z.eqb_eq; lia).
    replace (x =? (x / t + 1) * t - 1) with (x mod t =? t - 1)
      by (apply eq_true_iff_eq; rewrite !Z.eqb_eq; lia).
    replace (x =? x / t * t) with (x mod t =? 0)
      by (apply eq_true_iff_eq; rewrite !Z.eqb_eq; lia).
    replace ((x / t * t <=? x) && (x <? (x / t + 1) * t - 1)) with (x mod t <? t - 1)
      by (apply eq_true_iff_eq; rewrite andb_true_iff, Z.leb_le, !Z.ltb_lt; lia).
    replace ((y / t * t <=? y) && (y <? (y / t + 1) * t - 1)) with (y mod t <? t - 1)
      by (apply eq_true_iff_eq; rewrite andb_true_iff, Z.leb_le, !Z.ltb_lt; lia).
    destruct (y mod t =? t - 1), (y mod t =? 0), (x mod t =? t - 1), (x mod t =? 0),
      (x mod t <? t - 1), (y mod t <? t - 1); reflexivity.
  - (* same band of rows, another column of cells *)
    subst i.
    assert (Hout : x < j * t \/ (j + 1) * t <= x).
    { destruct (Z.lt_ge_cases x (j * t)); [left; lia|].
      destruct (Z.lt_ge_cases x ((j + 1) * t)); [|right; lia].
      exfalso. apply Ex. symmetry. apply (Z.div_unique x t j (x - j * t)); lia. }
    replace ((j * t <=? x) && (x <? (j + 1) * t - 1)) with false
      by (symmetry; apply andb_false_iff;
          destruct Hout; [left; apply Z.leb_gt | right; apply Z.ltb_ge]; lia).
    replace (x =? (j + 1) * t - 1) with false by (symmetry; apply Z.eqb_neq; lia).
    replace (x =? j * t) with false by (symmetry; apply Z.eqb_neq; lia).
    rewrite !andb_false_r. reflexivity.
  - assert (Hout : y < i * t \/ (i + 1) * t <= y).
    { destruct (Z.lt_ge_cases y (i * t)); [left; lia|].
      destruct (Z.lt_ge_cases y ((i + 1) * t)); [|right; lia].
      exfalso. apply Ey. symmetry. apply (Z.div_unique y t i (y - i * t)); lia. }
    replace ((i * t <=? y) && (y <? (i + 1) * t - 1)) with false
      by (symmetry; apply andb_false_iff;
          destruct Hout; [left; apply Z.leb_gt | right; apply Z.ltb_ge]; lia).
    replace (y =? (i + 1) * t - 1) with false by (symmetry; apply Z.eqb_neq; lia).
    replace (y =? i * t) with false by (symmetry; apply Z.eqb_neq; lia).
    reflexivity.
  - assert (Hout : y < i * t \/ (i + 1) * t <= y).
    { destruct (Z.lt_ge_cases y (i * t)); [left; lia|].
      destruct (Z.lt_ge_cases y ((i + 1) * t)); [|right; lia].
      exfalso. apply Ey. symmetry. apply (Z.div_unique y t i (y - i * t)); lia. }
    replace ((i * t <=? y) && (y <? (i + 1) * t - 1)) with false
      by (symmetry; apply andb_false_iff;
          destruct Hout; [left; apply Z.leb_gt | right; apply Z.ltb_ge]; lia).
    replace (y =? (i + 1) * t - 1) with false by (symmetry; apply Z.eqb_neq; lia).
    replace (y =? i * t) with false by (symmetry; apply Z.eqb_neq; lia).
    reflexivity.
Qed.

(** ** The grid merger, crop by crop *)

Lemma get_set_nth_other {A : Type} (d v : A) (a : list A) (k k' : Z) :
  0 <= k -> 0 <= k' -> k <> k' ->
  Np.get d (Np.set_nth (Z.to_nat k) v a) k' = Np.get d a k'.
Proof.
  unfold Np.get. intros Hk Hk' Hne. apply set_nth_other. lia.
Qed.

Lemma set_nth_rect4 {A : Type} (n h w c : Z) (k : nat) (img : image A)
      (v : volume A) :
  rect4 n h w c v -> rect3 h w c img -> rect4 n h w c (Np.set_nth k img v).
Proof.
  intros [Hn Himgs] Himg. split.
  - unfold Np.shape0. rewrite set_nth_length. exact Hn.
  - apply set_nth_Forall; assumption.
Qed.

Section GridMerger.

Variables (data : volume Q) (m t c num a b : Z) (v : option Q).

Hypothesis Hm : 1 <= m.
Hypothesis Ht : 1 <= t.
Hypothesis Hc : 0 <= c.
Hypothesis Hdata : rect4 m t t c data.
Hypothesis Hnum : 0 <= num.
Hypothesis Ha : 0 <= a.
Hypothesis Hb : 0 <= b.

Let cells : list (Z * (Z * Z)) :=
  list_prod (Py.range_list 0 num 1)
            (list_prod (Py.range_list 0 b 1) (Py.range_list 0 a 1)).

Let body (cell : Z * (Z * Z)) (st : volume Q * Z) :=
  merge_cell data (b * t) (a * t) t t v (fst cell) (fst (snd cell)) (snd (snd cell)) st.

Lemma cells_length : Z.of_nat (length cells) = num * (b * a).
Proof. unfold cells. rewrite !length_prod, !range_list_length. nia. Qed.

Lemma merge_cell_step (p : nat) (mixed : volume Q) :
  Z.of_nat p < m -> Z.of_nat p < num * (b * a) ->
  merged_so_far data t c num a b v (Z.of_nat p) mixed ->
  exists mixed',
    body (nth p cells (0, (0, 0))) (mixed, Z.of_nat p)
    = Ok (Next (mixed', Z.of_nat p + 1))
    /\ merged_so_far data t c num a b v (Z.of_nat p + 1) mixed'.
Proof.
  intros Hpm Hp [Hr Hpx].
  pose proof (cell_nth num a b p Hnum Ha Hb Hp) as Hcell. cbv zeta in Hcell.
  fold cells in Hcell.
  destruct (nth p cells (0, (0, 0))) as [k [i j]] eqn:Ecell.
  cbn [fst snd] in Hcell. destruct Hcell as (Hk & Hi & Hj & Hno).
  unfold body, merge_cell. cbn [fst snd].
  destruct (rect4_shapes m t t c data Hdata Hm Ht Ht) as (S0 & S1 & S2 & S3).
  pose proof (proj1 Hr) as Hr0.
  unfold volume, image in *. rewrite S0, S3.
  assert (E : (Z.of_nat p =? m) = false) by (apply Z.eqb_neq; lia). rewrite E.
  rewrite item_in_range by (rewrite S0; lia). cbn [bind].
  assert (Himg : shows (b * t) (a * t) c (Np.get [] mixed k)
                   (fun y x ch =>
                      if cell_number a b t k y x <? Z.of_nat p
                      then cell_value t v (Np.get [] data (cell_number a b t k y x))
                                      (y mod t) (x mod t) ch
                      else 0%Q)).
  { split; [apply (rect4_get num _ _ _ mixed k Hr Hk)|].
    intros y x ch Hy Hx Hch. apply Hpx; assumption. }
  destruct (place_shows t c a b i j v (Np.get [] data (Z.of_nat p)) _ _ Ht Hi Hj Himg)
    as (img' & -> & [Hr' Hpx']).
  { apply (rect4_get m t t c data); [exact Hdata | lia]. }
  cbn [bind]. eexists. split; [reflexivity|]. split.
  - apply set_nth_rect4; assumption.
  - intros k' y x ch Hk' Hy Hx Hch.
    assert (Hyt : 0 <= y / t < b)
      by (split; [apply Z.div_pos | apply Z.div_lt_upper_bound]; lia).
    assert (Hxt : 0 <= x / t < a)
      by (split; [apply Z.div_pos | apply Z.div_lt_upper_bound]; lia).
    destruct (Z.eq_dec k k') as [<- | Hne].
    + rewrite get_set_nth_same by (rewrite Hr0; lia).
      rewrite Hpx' by assumption.
      destruct ((y / t =? i) && (x / t =? j)) eqn:Ecell'.
      * apply andb_true_iff in Ecell'. destruct Ecell' as [Ey Ex].
        apply Z.eqb_eq in Ey, Ex.
        assert (En : cell_number a b t k y x = Z.of_nat p)
          by (unfold cell_number; rewrite Ey, Ex; exact Hno).
        rewrite En.
        replace (Z.of_nat p <? Z.of_nat p + 1) with true
          by (symmetry; apply Z.ltb_lt; lia).
        reflexivity.
      * assert (Hn : cell_number a b t k y x <> Z.of_nat p).
        { unfold cell_number. rewrite <- Hno. intros Eq.
          destruct (cell_number_eq a b k (y / t) (x / t) k i j Hyt Hxt Hi Hj Eq)
            as (_ & Ey & Ex).
          rewrite Ey, Ex, !Z.eqb_refl in Ecell'. discriminate. }
        replace (cell_number a b t k y x <? Z.of_nat p + 1)
          with (cell_number a b t k y x <? Z.of_nat p)
          by (apply eq_true_iff_eq; rewrite !Z.ltb_lt; lia).
        reflexivity.
    + rewrite get_set_nth_other by lia.
      rewrite Hpx by assumption.
      assert (Hn : cell_number a b t k' y x <> Z.of_nat p).
      { unfold cell_number. rewrite <- Hno. intros Eq.
        destruct (cell_number_eq a b k' (y / t) (x / t) k i j Hyt Hxt Hi Hj Eq)
          as (Ek & _). congruence. }
      replace (cell_number a b t k' y x <? Z.of_nat p + 1)
        with (cell_number a b t k' y x <? Z.of_nat p)
        by (apply eq_true_iff_eq; rewrite !Z.ltb_lt; lia).
      reflexivity.
Qed.

Lemma merge_cells_from (q p : nat) (mixed : volume Q) :
  (p + q = length cells)%nat -> Z.of_nat p <= m ->
  merged_so_far data t c num a b v (Z.of_nat p) mixed ->
  exists r mixed',
    for_each_flow (skipn p cells) body (mixed, Z.of_nat p) = Ok r
    /\ mixed' = match r with Next (x, _) => x | Return x => x end
    /\ merged_so_far data t c num a b v (Z.min m (num * (b * a))) mixed'.
Proof.
  revert p mixed. induction q as [|q IH]; intros p mixed Hpq Hpm Hinv.
  - rewrite skipn_all2 by lia. cbn [for_each_flow]. do 2 eexists.
    split; [reflexivity|]. split; [reflexivity|].
    pose proof cells_length as HL.
    replace (Z.min m (num * (b * a))) with (Z.of_nat p) by lia. exact Hinv.
  - pose proof cells_length as HL.
    assert (Hskip : skipn p cells = nth p cells (0, (0, 0)) :: skipn (S p) cells).
    { clear -Hpq. revert p Hpq. generalize cells. intros l.
      induction l as [|x l IHl]; intros p Hp; simpl in Hp; [lia|].
      destruct p as [|p]; [reflexivity|]. simpl. apply IHl. lia. }
    rewrite Hskip. cbn [for_each_flow].
    destruct (Z.eq_dec (Z.of_nat p) m) as [Epm | Hlt].
    + (* the crops are used up *)
      unfold body at 1, merge_cell.
      rewrite (proj1 (rect4_shapes m t t c data Hdata Hm Ht Ht)).
      rewrite (proj2 (Z.eqb_eq _ _) Epm). cbn [bind]. do 2 eexists.
      split; [reflexivity|]. split; [reflexivity|].
      replace (Z.min m (num * (b * a))) with (Z.of_nat p) by lia. exact Hinv.
    + destruct (merge_cell_step p mixed ltac:(lia) ltac:(lia) Hinv)
        as (mixed1 & -> & Hinv1).
      cbn [bind].
      replace (Z.of_nat p + 1) with (Z.of_nat (S p)) in * by lia.
      apply IH; [lia | lia | exact Hinv1].
Qed.

Lemma merge_cells_all :
  exists mixed,
    (r <- for_range_flow 0 num 1 (fun img_num st =>
            for_range_flow 0 b 1 (fun i st =>
              for_range_flow 0 a 1 (fun j st =>
                merge_cell data (b * t) (a * t) t t v img_num i j st) st) st)
            (Np.zeros num (Np.zeros (b * t) (Np.zeros (a * t) (Np.zeros c 0%Q))), 0) ;;
     match r with
     | Next (mixed_data, _) => Ok mixed_data
     | Return mixed_data => Ok mixed_data
     end) = Ok mixed
    /\ merged_so_far data t c num a b v (Z.min m (num * (b * a))) mixed.
Proof.
  rewrite for_range_flow_unit.
  rewrite (for_each_flow_ext _ _
             (fun img_num st =>
                for_each_flow (list_prod (Py.range_list 0 b 1) (Py.range_list 0 a 1))
                  (fun ij st' =>
                     merge_cell data (b * t) (a * t) t t v img_num (fst ij) (snd ij) st')
                  st)).
  2:{ intros img_num st. rewrite for_range_flow_unit.
      rewrite (for_each_flow_ext _ _
                 (fun i st' =>
                    for_each_flow (Py.range_list 0 a 1)
                      (fun j st'' =>
                         merge_cell data (b * t) (a * t) t t v img_num i j st'') st'))
        by (intros; apply for_range_flow_unit).
      apply (for_each_flow_nested _ _
               (fun i j st' => merge_cell data (b * t) (a * t) t t v img_num i j st')). }
  rewrite (for_each_flow_nested _ _
             (fun img_num ij st' =>
                merge_cell data (b * t) (a * t) t t v img_num (fst ij) (snd ij) st')).
  fold cells.
  set (zero := Np.zeros num (Np.zeros (b * t) (Np.zeros (a * t) (Np.zeros c 0%Q)))).
  assert (H0 : merged_so_far data t c num a b v (Z.of_nat 0) zero).
  { split.
    - split; [apply zeros_shape0; lia|]. apply zeros_Forall.
      apply zeros3_rect3; nia.
    - intros k y x ch Hk Hy Hx Hch. unfold zero.
      rewrite zeros_get by lia. rewrite zeros3_px3 by assumption.
      assert (0 <= cell_number a b t k y x).
      { unfold cell_number.
        assert (0 <= y / t) by (apply Z.div_pos; lia).
        assert (0 <= x / t) by (apply Z.div_pos; lia). nia. }
      replace (cell_number a b t k y x <? Z.of_nat 0) with false
        by (symmetry; apply Z.ltb_ge; lia).
      reflexivity. }
  destruct (merge_cells_from (length cells) 0 zero eq_refl ltac:(lia) H0)
    as (r & mixed' & Hrun & -> & Hinv).
  cbn [skipn] in Hrun. change (Z.of_nat 0) with 0 in Hrun.
  change (fun ij st' => merge_cell data (b * t) (a * t) t t v (fst ij) (fst (snd ij))
                                   (snd (snd ij)) st') with body.
  unfold volume, image in *. rewrite Hrun. cbn [bind]. eexists. split; [|exact Hinv].
  destruct r as [[x ?]|x]; reflexivity.
Qed.

End GridMerger.

(** ** The value of the grid lines *)

Lemma Qmax_above (x y : Q) :
  negb (Qle_bool (if Qle_bool x y then y else x) 1)
  = negb (Qle_bool x 1) || negb (Qle_bool y 1).
Proof.
  destruct (Qle_bool x y) eqn:Exy.
  - destruct (Qle_bool x 1) eqn:Ex; cbn [negb orb]; [reflexivity|].
    destruct (Qle_bool y 1) eqn:Ey; [|reflexivity].
    apply Qle_bool_iff in Exy, Ey.
    assert (Hx : Qle_bool x 1 = true)
      by (apply Qle_bool_iff; eapply Qle_trans; eassumption).
    congruence.
  - destruct (Qle_bool x 1) eqn:Ex; cbn [negb orb]; [|reflexivity].
    destruct (Qle_bool y 1) eqn:Ey; [reflexivity|].
    apply Qle_bool_iff in Ex.
    assert (Hxy : Qle_bool x y = true).
    { apply Qle_bool_iff. destruct (Qlt_le_dec 1 y) as [Hlt|Hle].
      - apply Qlt_le_weak. eapply Qle_lt_trans; eassumption.
      - apply Qle_bool_iff in Hle. congruence. }
    congruence.
Qed.

Lemma amax_above (entries : list Q) (mx : Q) :
  Mix.amax entries = Ok mx ->
  negb (Qle_bool mx 1) = existsb (fun q => negb (Qle_bool q 1)) entries.
Proof.
  destruct entries as [|x rest]; [discriminate|]. cbn [Mix.amax existsb].
  intros H. injection H as <-. revert x.
  induction rest as [|y rest IH]; intros x; cbn [fold_left existsb].
  - now rewrite orb_false_r.
  - rewrite IH, Qmax_above, orb_assoc. reflexivity.
Qed.

Lemma ravel_nonempty (data : volume Q) (m t c : Z) :
  rect4 m t t c data -> 1 <= m -> 1 <= t -> 1 <= c -> Mix.ravel data <> [].
Proof.
  intros [Hm Himgs] M1 T1 C1. unfold Mix.ravel.
  destruct data as [|img data]; [unfold Np.shape0 in Hm; simpl in Hm; lia|].
  apply Forall_inv in Himgs. destruct Himgs as [Hh Hrows].
  destruct img as [|row img]; [unfold Np.shape0 in Hh; simpl in Hh; lia|].
  apply Forall_inv in Hrows. destruct Hrows as [Hw Hpx].
  destruct row as [|px row]; [unfold Np.shape0 in Hw; simpl in Hw; lia|].
  apply Forall_inv in Hpx.
  destruct px as [|q px]; [unfold Np.shape0 in Hpx; simpl in Hpx; lia|].
  simpl. discriminate.
Qed.

Lemma grid_value_ok (data : volume Q) (m t c : Z) (grid : bool) :
  rect4 m t t c data -> 1 <= m -> 1 <= t -> 1 <= c ->
  Mix.grid_value data grid = Ok (if grid then Some (grid_colour data) else None).
Proof.
  intros Hdata M1 T1 C1. unfold Mix.grid_value, grid_colour.
  destruct grid; [|reflexivity].
  pose proof (ravel_nonempty data m t c Hdata M1 T1 C1) as Hne.
  destruct (Mix.amax (Mix.ravel data)) as [mx|e] eqn:E.
  - cbn [bind]. rewrite (amax_above _ _ E). reflexivity.
  - destruct (Mix.ravel data); [congruence | discriminate].
Qed.

Lemma cell_number_bounds (a b t num k y x : Z) :
  1 <= t -> 0 <= k < num -> 0 <= y < b * t -> 0 <= x < a * t ->
  0 <= cell_number a b t k y x < num * (b * a).
Proof.
  intros Ht Hk Hy Hx. unfold cell_number.
  assert (0 <= y / t < b) by (split; [apply Z.div_pos | apply Z.div_lt_upper_bound]; lia).
  assert (0 <= x / t < a) by (split; [apply Z.div_pos | apply Z.div_lt_upper_bound]; lia).
  assert (0 <= k * (a * b)) by (apply Z.mul_nonneg_nonneg; nia).
  assert (k * (a * b) <= (num - 1) * (a * b)) by (apply Z.mul_le_mono_nonneg_r; nia).
  assert (0 <= y / t * a) by (apply Z.mul_nonneg_nonneg; lia).
  assert (y / t * a <= (b - 1) * a) by (apply Z.mul_le_mono_nonneg_r; lia).
  lia.
Qed.

Lemma merge_data_without_overlap_run (data : volume Q) (m t c num a b : Z)
      (grid : bool) :
  1 <= m -> 1 <= t -> 1 <= c -> rect4 m t t c data ->
  0 <= num -> 0 <= a -> 0 <= b ->
  exists mixed,
    merge_data_without_overlap data num (a, b) grid = Ok mixed
    /\ merged_so_far data t c num a b
         (if grid then Some (grid_colour data) else None)
         (Z.min m (num * (b * a))) mixed.
Proof.
  intros Hm Ht Hc Hdata Hnum Ha Hb. unfold merge_data_without_overlap.
  rewrite (grid_value_ok data m t c grid Hdata Hm Ht Hc). cbn [bind fst snd].
  destruct (rect4_shapes m t t c data Hdata Hm Ht Ht) as (S0 & S1 & S2 & S3).
  unfold volume, image in *. rewrite S1, S2, S3.
  rewrite zeros4_ok by nia. cbn [bind].
  apply (merge_cells_all data m t c num a b _ Hm Ht ltac:(lia) Hdata Hnum Ha Hb).
Qed.

(** [merge_data_without_overlap] on [m] square crops of side [t], asked for
    [num] images of [b] rows of [a] cells: it returns [num] images of
    [b*t x a*t] pixels. Crop number [p] goes to image [p / (a*b)], row of
    cells [(p mod (a*b)) / a], cell [p mod a]; a pixel of a cell that got a
    crop holds the sample of the crop at the same offset, or the grid value
    on the painted border of the cell (with [grid], and never at the
    bottom-right corner of a cell); the cells beyond the last crop stay
    zero. *)
Theorem merge_data_without_overlap_pixels
        (data : volume Q) (m t c num a b : Z) (grid : bool)
        (Hm : 1 <= m) (Ht : 1 <= t) (Hc : 1 <= c)
        (Hdata : rect4 m t t c data)
        (Hnum : 0 <= num) (Ha : 0 <= a) (Hb : 0 <= b) :
  exists mixed,
    merge_data_without_overlap data num (a, b) grid = Ok mixed
    /\ rect4 num (b * t) (a * t) c mixed
    /\ forall k y x ch,
        0 <= k < num -> 0 <= y < b * t -> 0 <= x < a * t -> 0 <= ch < c ->
        let p := k * (a * b) + y / t * a + x / t in
        px3 0%Q (Np.get [] mixed k) y x ch
        = if p <? m
          then if grid && on_grid t (y mod t) (x mod t)
               then grid_colour data
               else px3 0%Q (Np.get [] data p) (y mod t) (x mod t) ch
          else 0%Q.
Proof.
  destruct (merge_data_without_overlap_run data m t c num a b grid
              Hm Ht Hc Hdata Hnum Ha Hb) as (mixed & Hrun & Hr & Hpx).
  exists mixed. split; [exact Hrun|]. split; [exact Hr|].
  intros k y x ch Hk Hy Hx Hch. cbv zeta.
  rewrite Hpx by assumption.
  pose proof (cell_number_bounds a b t num k y x Ht Hk Hy Hx) as Hb'.
  unfold cell_number in *.
  replace (k * (a * b) + y / t * a + x / t <? Z.min m (num * (b * a)))
    with (k * (a * b) + y / t * a + x / t <? m)
    by (apply eq_true_iff_eq; rewrite !Z.ltb_lt; lia).
  destruct (_ <? m); [|reflexivity].
  unfold cell_value. destruct grid; cbn [andb]; reflexivity.
Qed.

(** ** The zero-padded copy made by the grid cropper *)

Lemma bcast4_id {A : Type} (n h w c : Z) (v : volume A) :
  rect4 n h w c v -> Arr.bcast4 n h w c v = Ok v.
Proof.
  intros [Hn Himgs]. unfold Arr.bcast4. rewrite (bcast_id n v Hn). cbn [bind].
  apply map_result_id. eapply Forall_impl; [|exact Himgs].
  intros img Himg. now apply bcast3_id.
Qed.

Lemma slice_len_prefix (n len : Z) : 0 <= len <= n -> Np.slice_len n 0 len = len.
Proof.
  intros H. replace len with (0 + len) at 1 by lia. apply slice_len_inside; lia.
Qed.

Lemma in_slice_prefix (n len p : Z) :
  0 <= len <= n -> 0 <= p -> Np.in_slice n 0 len p = (p <? len).
Proof.
  intros H Hp. rewrite in_slice_inside by lia.
  replace (0 <=? p) with true by (symmetry; apply Z.leb_le; exact Hp). reflexivity.
Qed.

Lemma paste_zeros (n h w c h' w' : Z) (data : volume Q) :
  rect4 n h w c data -> 0 <= c -> h <= h' -> w <= w' -> 0 <= h -> 0 <= w ->
  exists r,
    Grid.paste n h' w' c n h w c data
      (Np.zeros n (Np.zeros h' (Np.zeros w' (Np.zeros c 0%Q)))) = Ok r
    /\ rect4 n h' w' c r
    /\ forall k y x ch,
        0 <= k < n -> 0 <= y < h' -> 0 <= x < w' -> 0 <= ch < c ->
        px3 0%Q (Np.get [] r k) y x ch = padded data h w k y x ch.
Proof.
  intros Hdata Hc Hh Hw Hh0 Hw0. pose proof Hdata as [Hn _].
  assert (Hn0 : 0 <= n) by (rewrite <- Hn; apply shape0_nonneg).
  unfold Grid.paste.
  rewrite !slice_len_prefix by lia. rewrite (bcast4_id n h w c data Hdata).
  cbn [bind]. eexists. split; [reflexivity|].
  set (zero := Np.zeros n (Np.zeros h' (Np.zeros w' (Np.zeros c 0%Q)))).
  assert (Hz : rect4 n h' w' c zero).
  { split; [apply zeros_shape0; lia|]. apply zeros_Forall.
    apply zeros3_rect3; lia. }
  split.
  - destruct Hz as [Hzn Hzi]. split; [now rewrite update_slice_shape0|].
    apply update_slice_Forall; [|exact Hzi].
    intros k img [Hih Hirows]. split; [now rewrite update_slice_shape0|].
    apply update_slice_Forall; [|exact Hirows].
    intros y row [Hrw Hrpx]. split; [now rewrite update_slice_shape0|].
    apply update_slice_Forall; [|exact Hrpx].
    intros x px Hpc. now rewrite update_slice_shape0.
  - intros k y x ch Hk Hy Hx Hch.
    pose proof (rect4_get n h' w' c zero k Hz Hk) as Hzk.
    destruct (rect3_row h' w' c _ y Hzk Hy) as [Hzw _].
    pose proof (rect3_px h' w' c _ y x Hzk Hy Hx) as Hzc.
    pose proof (proj1 Hz) as Hz0. pose proof (proj1 Hzk) as Hzk0.
    unfold px3 at 1. unfold volume, image in *.
    rewrite update_slice_get by (rewrite Hz0; lia).
    rewrite Hz0, in_slice_prefix by lia.
    replace (k <? n) with true by (symmetry; apply Z.ltb_lt; lia).
    rewrite update_slice_get by (rewrite Hzk0; lia).
    rewrite Hzk0, in_slice_prefix by lia.
    unfold padded.
    destruct (y <? h) eqn:Ey; cbn [andb].
    + rewrite update_slice_get by lia. rewrite Hzw, in_slice_prefix by lia.
      destruct (x <? w) eqn:Ex.
      * rewrite update_slice_get by lia. rewrite Hzc, in_slice_prefix by lia.
        replace (ch <? c) with true by (symmetry; apply Z.ltb_lt; lia).
        rewrite !clamp_inside by lia. rewrite !Z.sub_0_r. reflexivity.
      * unfold zero. rewrite zeros_get by lia. apply zeros3_px3; assumption.
    + unfold zero. rewrite zeros_get by lia. apply zeros3_px3; assumption.
Qed.

Lemma cells_along_bounds (dim t : Z) :
  1 <= t -> 0 <= dim ->
  0 <= cells_along dim t /\ dim <= cells_along dim t * t
  /\ cells_along dim t * t - t < dim.
Proof.
  intros Ht Hd. pose proof (ceil_div_bounds dim t ltac:(lia) Hd) as H.
  cbv zeta in H. fold (cells_along dim t) in H.
  split; [|lia]. unfold cells_along, Py.int_div.
  rewrite Z.quot_div_nonneg by lia.
  assert (0 <= dim / t) by (apply Z.div_pos; lia).
  destruct (dim mod t >? 0); lia.
Qed.

Lemma resize_square (n h w c t : Z) (data : volume Q) :
  rect4 n h w c data -> 1 <= n -> 1 <= h -> 1 <= w -> 0 <= c -> 1 <= t ->
  exists r,
    Grid.resize (cells_along h t) (cells_along w t) (t, t) data = Ok r
    /\ rect4 n (cells_along h t * t) (cells_along w t * t) c r
    /\ forall k y x ch,
        0 <= k < n -> 0 <= y < cells_along h t * t ->
        0 <= x < cells_along w t * t -> 0 <= ch < c ->
        px3 0%Q (Np.get [] r k) y x ch = padded data h w k y x ch.
Proof.
  intros Hdata Hn Hh Hw Hc Ht.
  destruct (rect4_shapes n h w c data Hdata Hn Hh Hw) as (S0 & S1 & S2 & S3).
  pose proof (cells_along_bounds h t Ht ltac:(lia)) as (Bh0 & Bh1 & _).
  pose proof (cells_along_bounds w t Ht ltac:(lia)) as (Bw0 & Bw1 & _).
  unfold Grid.resize. unfold volume, image in *. rewrite S0, S1, S2, S3.
  rewrite zeros4_ok by nia. cbn [bind].
  apply paste_zeros; try assumption; lia.
Qed.

Lemma layout_square (n h w c t : Z) (data : volume Q) :
  rect4 n h w c data -> 1 <= n -> 1 <= h -> 1 <= w -> 1 <= t ->
  Grid.layout data (t, t) (0, 0) = Ok (cells_along h t, cells_along w t).
Proof.
  intros Hdata Hn Hh Hw Ht.
  destruct (rect4_shapes n h w c data Hdata Hn Hh Hw) as (S0 & S1 & S2 & S3).
  unfold Grid.layout. cbn [fst snd Z.eqb andb].
  assert (E : (t =? 0) = false) by (apply Z.eqb_neq; lia).
  unfold volume, image in *. rewrite E, S1, S2. reflexivity.
Qed.

Lemma grid_fill (r : volume Q) (t c : Z) (cells : list (Z * (Z * Z)))
      (cm : option (volume Q)) (l_i : Z) :
  Forall (fun cell => rect3 t t c (grid_tile r t cell)) cells ->
  forall done rest : volume Q,
    (length cells <= length rest)%nat ->
    Py.for_each cells (fill_cell r t c) (done ++ rest, cm, Z.of_nat (length done), l_i)
    = Ok (done ++ map (grid_tile r t) cells ++ skipn (length cells) rest, cm,
          Z.of_nat (length done + length cells), l_i).
Proof.
  induction 1 as [|cell cells Hcell _ IH]; intros done rest Hlen.
  - simpl. rewrite Nat.add_0_r. reflexivity.
  - destruct rest as [|z rest]; [simpl in Hlen; lia|].
    cbn [Py.for_each]. unfold fill_cell at 1.
    rewrite (set_tile_append t t c done z _ rest Hcell). cbn [bind].
    replace (Z.of_nat (length done) + 1)
      with (Z.of_nat (length (done ++ [grid_tile r t cell])))
      by (rewrite length_app; simpl; lia).
    replace (done ++ grid_tile r t cell :: rest)
      with ((done ++ [grid_tile r t cell]) ++ rest)
      by (rewrite <- app_assoc; reflexivity).
    rewrite IH by (simpl in Hlen; lia).
    rewrite <- !app_assoc. cbn [map app skipn length].
    rewrite length_app. cbn [length].
    do 3 f_equal. lia.
Qed.

Lemma grid_tile_rect3 (n c t rows columns : Z) (r : volume Q) (cell : Z * (Z * Z)) :
  rect4 n (rows * t) (columns * t) c r -> 1 <= t ->
  0 <= fst cell < n -> 0 <= fst (snd cell) < rows -> 0 <= snd (snd cell) < columns ->
  rect3 t t c (grid_tile r t cell)
  /\ forall u s ch, 0 <= u < t -> 0 <= s < t ->
       px3 0%Q (grid_tile r t cell) u s ch
       = px3 0%Q (Np.get [] r (fst cell)) (fst (snd cell) * t + u)
                 (snd (snd cell) * t + s) ch.
Proof.
  intros Hr Ht Hk Hi Hj. destruct cell as [k [i j]]. cbn [fst snd] in *.
  unfold grid_tile, Grid.window. cbn [fst snd].
  replace ((i + 1) * t) with (i * t + t) by lia.
  replace ((j + 1) * t) with (j * t + t) by lia.
  apply (crop_inside 0%Q (rows * t) (columns * t) c (i * t) (j * t) t t);
    [apply (rect4_get n _ _ _ r k Hr Hk) | nia..].
Qed.

Lemma in_grid_cells (n rows columns : Z) (cell : Z * (Z * Z)) :
  In cell (grid_cells n rows columns) ->
  0 <= fst cell < n /\ 0 <= fst (snd cell) < rows /\ 0 <= snd (snd cell) < columns.
Proof.
  destruct cell as [k [i j]]. unfold grid_cells. rewrite !in_prod_iff.
  rewrite !in_range_list_unit. cbn [fst snd]. tauto.
Qed.

Lemma crop_data_square_run (n h w c t : Z) (data : volume Q) (d : Q) :
  rect4 n h w c data -> 1 <= n -> 1 <= h -> 1 <= w -> 0 <= c -> 1 <= t ->
  exists r,
    rect4 n (cells_along h t * t) (cells_along w t * t) c r
    /\ (forall k y x ch,
          0 <= k < n -> 0 <= y < cells_along h t * t ->
          0 <= x < cells_along w t * t -> 0 <= ch < c ->
          px3 0%Q (Np.get [] r k) y x ch = padded data h w k y x ch)
    /\ crop_data data (t, t) None (0, 0) d
       = Ok (map (grid_tile r t) (grid_cells n (cells_along h t) (cells_along w t)),
             None, (cells_along h t, cells_along w t)).
Proof.
  intros Hdata Hn Hh Hw Hc Ht.
  destruct (rect4_shapes n h w c data Hdata Hn Hh Hw) as (S0 & S1 & S2 & S3).
  pose proof (cells_along_bounds h t Ht ltac:(lia)) as (Bh0 & Bh1 & _).
  pose proof (cells_along_bounds w t Ht ltac:(lia)) as (Bw0 & Bw1 & _).
  unfold crop_data.
  rewrite (layout_square n h w c t data Hdata Hn Hh Hw Ht). cbn [bind].
  destruct (resize_square n h w c t data Hdata Hn Hh Hw Hc Ht) as (r & -> & Hr & Hpx).
  cbn [bind]. exists r. split; [exact Hr|]. split; [exact Hpx|].
  unfold volume, image in *. rewrite S0, S3.
  set (rows := cells_along h t) in *. set (columns := cells_along w t) in *.
  rewrite zeros4_ok by nia. cbn [bind].
  rewrite for_range_steps by lia.
  rewrite for_each_ext_in with
    (g := fun img_num st =>
            Py.for_each (list_prod (Py.range_list 0 rows 1) (Py.range_list 0 columns 1))
              (fun ij st' => fill_cell r t c (img_num, (fst ij, snd ij)) st') st).
  2:{ intros img_num st _. rewrite for_range_steps by lia.
      erewrite for_each_ext_in.
      2:{ intros i st' _. rewrite for_range_steps by lia. reflexivity. }
      rewrite (for_each_nested _ _
                 (fun i j (st' : list (list (list (list Q)))
                                 * option (list (list (list (list Q)))) * Z * Z) =>
                    let '(cropped_data0, cropped_data_mask, cont, l_i) := st' in
                    cropped_data1 <-
                      Arr.set_tile t t c cropped_data0 cont
                        (Grid.window (t, t) (Np.get [] r img_num) i j) ;;
                    Ok (cropped_data1, cropped_data_mask, cont + 1, l_i))).
      apply for_each_ext_in. intros ij [[[cd cm] cont] li] _. reflexivity. }
  rewrite (for_each_nested _ _
             (fun img_num ij st' => fill_cell r t c (img_num, (fst ij, snd ij)) st')).
  rewrite for_each_ext_in with (g := fill_cell r t c).
  2:{ intros [k [i j]] st _. reflexivity. }
  fold (grid_cells n rows columns).
  set (z := Np.zeros t (Np.zeros t (Np.zeros c 0%Q))).
  assert (Lcells : length (grid_cells n rows columns) = Z.to_nat (n * rows * columns)).
  { unfold grid_cells. rewrite !length_prod, !range_list_length. nia. }
  replace (n * rows * columns - 0) with (n * rows * columns) by lia.
  pose proof (grid_fill r t c (grid_cells n rows columns) None 0) as Hfill.
  specialize (Hfill ltac:(
    apply Forall_forall; intros cell Hin; apply in_grid_cells in Hin;
    destruct Hin as (Hk & Hi & Hj);
    apply (grid_tile_rect3 n c t rows columns r cell Hr Ht Hk Hi Hj))).
  specialize (Hfill [] (Np.zeros (n * rows * columns) z)).
  cbn [app length Nat.add] in Hfill. change (Z.of_nat 0) with 0 in Hfill.
  unfold volume, image in *.
  rewrite Hfill by (unfold Np.zeros; rewrite repeat_length, Lcells; lia).
  cbn [bind]. unfold Np.zeros at 1.
  rewrite skipn_all2 by (rewrite repeat_length, Lcells; lia).
  rewrite app_nil_r. reflexivity.
Qed.

Lemma grid_cells_length (n rows columns : Z) :
  0 <= n -> 0 <= rows -> 0 <= columns ->
  Z.of_nat (length (grid_cells n rows columns)) = n * (rows * columns).
Proof.
  intros. unfold grid_cells. rewrite !length_prod, !range_list_length. nia.
Qed.

(** The crop at position [k*(rows*columns) + i*columns + j] of the output is
    the crop of cell [(i, j)] of image [k]. *)
Lemma grid_tiles_get (n rows columns t : Z) (r : volume Q) (k i j : Z) :
  0 <= k < n -> 0 <= i < rows -> 0 <= j < columns ->
  Np.get [] (map (grid_tile r t) (grid_cells n rows columns))
         (k * (columns * rows) + i * columns + j)
  = grid_tile r t (k, (i, j)).
Proof.
  intros Hk Hi Hj.
  set (p := k * (columns * rows) + i * columns + j).
  assert (Hp : 0 <= p < n * (rows * columns)).
  { unfold p.
    assert (0 <= k * (columns * rows)) by (apply Z.mul_nonneg_nonneg; nia).
    assert (k * (columns * rows) <= (n - 1) * (columns * rows))
      by (apply Z.mul_le_mono_nonneg_r; nia).
    assert (0 <= i * columns) by (apply Z.mul_nonneg_nonneg; lia).
    assert (i * columns <= (rows - 1) * columns)
      by (apply Z.mul_le_mono_nonneg_r; lia).
    lia. }
  pose proof (cell_nth n columns rows (Z.to_nat p) ltac:(lia) ltac:(lia) ltac:(lia)
                ltac:(lia)) as Hcell.
  cbv zeta in Hcell. fold (grid_cells n rows columns) in Hcell.
  pose proof (grid_cells_length n rows columns ltac:(lia) ltac:(lia) ltac:(lia)) as HL.
  unfold Np.get.
  rewrite (nth_indep _ _ (grid_tile r t (0, (0, 0)))) by (rewrite length_map; lia).
  rewrite (map_nth (grid_tile r t)).
  destruct (nth (Z.to_nat p) (grid_cells n rows columns) (0, (0, 0)))
    as [k' [i' j']].
  cbn [fst snd] in Hcell. destruct Hcell as (Hk' & Hi' & Hj' & Hno).
  rewrite Z2Nat.id in Hno by lia. unfold p in Hno.
  destruct (cell_number_eq columns rows k' i' j' k i j Hi' Hj' Hi Hj Hno)
    as (-> & -> & ->).
  reflexivity.
Qed.

(** [crop_data] with square crops of side [t], no mask and no forced
    layout, on [n] images of [h x w] pixels: the layout is
    [(ceil(h/t), ceil(w/t))], the output holds [n * rows * columns] crops of
    [t x t] pixels in the order image, row of cells, cell, and crop [(i, j)]
    of image [k] shows the window at [(i*t, j*t)] of the image, with zeros
    beyond the right and bottom edges of the image. *)
Theorem crop_data_square_tiles
        (data : volume Q) (n h w c t : Z) (d_percentage : Q)
        (Hdata : rect4 n h w c data)
        (Hn : 1 <= n) (Hh : 1 <= h) (Hw : 1 <= w) (Hc : 0 <= c) (Ht : 1 <= t) :
  exists tiles rows columns,
    crop_data data (t, t) None (0, 0) d_percentage
    = Ok (tiles, None, (rows, columns))
    /\ h <= rows * t < h + t /\ w <= columns * t < w + t
    /\ rect4 (n * rows * columns) t t c tiles
    /\ forall k i j u s ch,
        0 <= k < n -> 0 <= i < rows -> 0 <= j < columns ->
        0 <= u < t -> 0 <= s < t -> 0 <= ch < c ->
        px3 0%Q (Np.get [] tiles (k * (rows * columns) + i * columns + j)) u s ch
        = if (i * t + u <? h) && (j * t + s <? w)
          then px3 0%Q (Np.get [] data k) (i * t + u) (j * t + s) ch
          else 0%Q.
Proof.
  destruct (crop_data_square_run n h w c t data d_percentage Hdata Hn Hh Hw Hc Ht)
    as (r & Hr & Hpx & Hrun).
  pose proof (cells_along_bounds h t Ht ltac:(lia)) as (Bh0 & Bh1 & Bh2).
  pose proof (cells_along_bounds w t Ht ltac:(lia)) as (Bw0 & Bw1 & Bw2).
  set (rows := cells_along h t) in *. set (columns := cells_along w t) in *.
  exists (map (grid_tile r t) (grid_cells n rows columns)), rows, columns.
  split; [exact Hrun|]. split; [lia|]. split; [lia|]. split.
  - split.
    + rewrite shape0_map. unfold Np.shape0.
      rewrite grid_cells_length by lia. lia.
    + apply Forall_map_iff. apply Forall_forall. intros cell Hin.
      apply in_grid_cells in Hin. destruct Hin as (Hk & Hi & Hj).
      apply (grid_tile_rect3 n c t rows columns r cell Hr Ht Hk Hi Hj).
  - intros k i j u s ch Hk Hi Hj Hu Hs Hch.
    replace (k * (rows * columns)) with (k * (columns * rows)) by lia.
    rewrite (grid_tiles_get n rows columns t r k i j Hk Hi Hj).
    destruct (grid_tile_rect3 n c t rows columns r (k, (i, j)) Hr Ht Hk Hi Hj)
      as [_ Hpt].
    rewrite Hpt by assumption. cbn [fst snd].
    rewrite Hpx by (try assumption; nia). reflexivity.
Qed.

(** Merging undoes cropping: the crops that [crop_data] makes of [n] images
    with square crops of side [t], merged by [merge_data_without_overlap]
    without grid into [n] images of [rows] rows of [columns] cells (the
    layout of [crop_data] with its two entries exchanged, as the merger
    takes the number of cells per row first), give back every image,
    padded with zeros to a multiple of [t] on each axis. *)
Theorem merge_without_overlap_inverts_crop_data
        (data : volume Q) (n h w c t : Z) (d_percentage : Q)
        (Hdata : rect4 n h w c data)
        (Hn : 1 <= n) (Hh : 1 <= h) (Hw : 1 <= w) (Hc : 1 <= c) (Ht : 1 <= t) :
  exists tiles rows columns merged,
    crop_data data (t, t) None (0, 0) d_percentage
    = Ok (tiles, None, (rows, columns))
    /\ merge_data_without_overlap tiles n (columns, rows) false = Ok merged
    /\ rect4 n (rows * t) (columns * t) c merged
    /\ h <= rows * t /\ w <= columns * t
    /\ forall k y x ch,
        0 <= k < n -> 0 <= y < rows * t -> 0 <= x < columns * t -> 0 <= ch < c ->
        px3 0%Q (Np.get [] merged k) y x ch
        = if (y <? h) && (x <? w) then px3 0%Q (Np.get [] data k) y x ch else 0%Q.
Proof.
  destruct (crop_data_square_run n h w c t data d_percentage Hdata Hn Hh Hw
              ltac:(lia) Ht) as (r & Hr & Hpx & Hrun).
  pose proof (cells_along_bounds h t Ht ltac:(lia)) as (Bh0 & Bh1 & Bh2).
  pose proof (cells_along_bounds w t Ht ltac:(lia)) as (Bw0 & Bw1 & Bw2).
  set (rows := cells_along h t) in *. set (columns := cells_along w t) in *.
  set (tiles := map (grid_tile r t) (grid_cells n rows columns)) in *.
  assert (Hrows : 1 <= rows) by nia. assert (Hcols : 1 <= columns) by nia.
  assert (Htiles : rect4 (n * (rows * columns)) t t c tiles).
  { split.
    - unfold tiles. rewrite shape0_map. unfold Np.shape0.
      now rewrite grid_cells_length by lia.
    - apply Forall_map_iff. apply Forall_forall. intros cell Hin.
      apply in_grid_cells in Hin. destruct Hin as (Hk & Hi & Hj).
      apply (grid_tile_rect3 n c t rows columns r cell Hr Ht Hk Hi Hj). }
  destruct (merge_data_without_overlap_run tiles (n * (rows * columns)) t c n
              columns rows false ltac:(nia) Ht Hc Htiles ltac:(lia) ltac:(lia)
              ltac:(lia)) as (merged & Hmerge & Hmr & Hmpx).
  exists tiles, rows, columns, merged.
  split; [exact Hrun|]. split; [exact Hmerge|]. split; [exact Hmr|].
  split; [lia|]. split; [lia|].
  intros k y x ch Hk Hy Hx Hch.
  rewrite Hmpx by assumption.
  pose proof (cell_number_bounds columns rows t n k y x Ht Hk Hy Hx) as Hb.
  replace (cell_number columns rows t k y x
           <? Z.min (n * (rows * columns)) (n * (rows * columns)))
    with true by (symmetry; apply Z.ltb_lt; lia).
  unfold cell_value, cell_number.
  assert (Hyt : 0 <= y / t < rows)
    by (split; [apply Z.div_pos | apply Z.div_lt_upper_bound]; lia).
  assert (Hxt : 0 <= x / t < columns)
    by (split; [apply Z.div_pos | apply Z.div_lt_upper_bound]; lia).
  unfold tiles. rewrite (grid_tiles_get n rows columns t r k (y / t) (x / t) Hk Hyt Hxt).
  pose proof (Z.div_mod y t ltac:(lia)) as Dy.
  pose proof (Z.mod_pos_bound y t ltac:(lia)) as My.
  pose proof (Z.div_mod x t ltac:(lia)) as Dx.
  pose proof (Z.mod_pos_bound x t ltac:(lia)) as Mx.
  destruct (grid_tile_rect3 n c t rows columns r (k, (y / t, x / t)) Hr Ht Hk Hyt Hxt)
    as [_ Hpt].
  rewrite Hpt by assumption. cbn [fst snd].
  replace (y / t * t + y mod t) with y by lia.
  replace (x / t * t + x mod t) with x by lia.
  rewrite Hpx by assumption. reflexivity.
Qed.

Lemma draw_grid_pixels_witness :
  exists im',
    Img.draw_grid image_3x3 2 false = Ok im'
    /\ rect3 3 3 1 im'
    /\ forall y x ch,
        0 <= y < 3 -> 0 <= x < 3 -> 0 <= ch < 1 ->
        px3 0%Q im' y x ch
        = if (y mod 2 =? 0) || (x mod 2 =? 0)
          then (if false then 1%Q else 255%Q)
          else px3 0%Q image_3x3 y x ch.
Proof.
  apply (draw_grid_pixels image_3x3 3 3 1 2 false).
  - split; [reflexivity|]. repeat constructor.
  - lia.
Defined.

Lemma apply_transform_none_is_identity_witness :
  image_3x3 = image_3x3 /\ mask_3x3 = mask_3x3
  /\ [0; 0; 0; 0; 0; 0] = t_counter flips_horizontal_only.
Proof.
  apply (apply_transform_none_is_identity
           (fun im _ _ _ => im) (fun im _ _ => im) (fun im _ => im) (fun im _ => im)
           (fun _ => ""%string) (fun _ => ""%string)
           flips_horizontal_only image_3x3 mask_3x3 false draws_flip_09
           image_3x3 mask_3x3 [0; 0; 0; 0; 0; 0]).
  reflexivity.
Defined.

Lemma apply_transform_keeps_shape_witness :
  exists im' mask' description t_counter',
    apply_transform (fun im _ _ _ => im) (fun im _ _ => im) (fun im _ => im)
                    (fun im _ => im) (fun _ => ""%string) (fun _ => ""%string)
                    flips_horizontal_only image_3x3 mask_3x3 false draws_flip_06
    = Ok (im', mask', description, t_counter')
    /\ rect3 3 3 1 im' /\ rect3 3 3 1 mask'.
Proof.
  apply (apply_transform_keeps_shape
           (fun im _ _ _ => im) (fun im _ _ => im) (fun im _ => im) (fun im _ => im)
           (fun _ => ""%string) (fun _ => ""%string)
           3 3 flips_horizontal_only image_3x3 mask_3x3 false draws_flip_06).
  - lia.
  - lia.
  - intros a _ _ _ H. exact H.
  - intros a _ _ H. exact H.
  - intros a _ H. exact H.
  - intros a _ H. exact H.
  - split; [reflexivity|]. repeat constructor.
  - split; [reflexivity|]. repeat constructor.
  - intros _. reflexivity.
  - left. reflexivity.
Defined.

Lemma apply_transform_empty_median_range_raises_witness :
  apply_transform (fun im _ _ _ => im) (fun im _ _ => im) (fun im _ => im)
                  (fun im _ => im) (fun _ => ""%string) (fun _ => ""%string)
                  median_fixed_size image_3x3 mask_3x3 false draws_flip_06
  = Raise ValueError.
Proof.
  apply (apply_transform_empty_median_range_raises
           (fun im _ _ _ => im) (fun im _ _ => im) (fun im _ => im) (fun im _ => im)
           (fun _ => ""%string) (fun _ => ""%string)
           median_fixed_size image_3x3 mask_3x3 false draws_flip_06).
  - reflexivity.
  - reflexivity.
  - split; reflexivity.
  - discriminate.
  - simpl. lia.
Defined.

Lemma random_crop_uniform_window_witness :
  exists y x img_crop mask_crop g',
    random_crop image_3x3 mask_3x3 (2, 2) false false false None (fun _ => 5)
    = Ok (Crops img_crop mask_crop, g')
    /\ 0 <= y <= 3 - 2 /\ 0 <= x <= 3 - 2
    /\ rect3 2 2 1 img_crop /\ rect3 2 2 1 mask_crop
    /\ forall a b ch, 0 <= a < 2 -> 0 <= b < 2 ->
         px3 0%Q img_crop a b ch = px3 0%Q image_3x3 (y + a) (x + b) ch
         /\ px3 0%Q mask_crop a b ch = px3 0%Q mask_3x3 (y + a) (x + b) ch.
Proof.
  apply (random_crop_uniform_window image_3x3 mask_3x3 3 3 1 2 2 None (fun _ => 5)).
  - split; [reflexivity|]. repeat constructor.
  - split; [reflexivity|]. repeat constructor.
  - lia.
  - lia.
Defined.


Lemma merge_data_without_overlap_pixels_witness :
  exists mixed,
    merge_data_without_overlap tiles_2x2 1 (2, 2) true = Ok mixed
    /\ rect4 1 (2 * 2) (2 * 2) 1 mixed
    /\ forall k y x ch,
        0 <= k < 1 -> 0 <= y < 2 * 2 -> 0 <= x < 2 * 2 -> 0 <= ch < 1 ->
        let p := k * (2 * 2) + y / 2 * 2 + x / 2 in
        px3 0%Q (Np.get [] mixed k) y x ch
        = if p <? 4
          then if true && on_grid 2 (y mod 2) (x mod 2)
               then grid_colour tiles_2x2
               else px3 0%Q (Np.get [] tiles_2x2 p) (y mod 2) (x mod 2) ch
          else 0%Q.
Proof.
  apply (merge_data_without_overlap_pixels tiles_2x2 4 2 1 1 2 2 true).
  - lia.
  - lia.
  - lia.
  - split; [reflexivity|]. repeat constructor.
  - lia.
  - lia.
  - lia.
Defined.

Lemma crop_data_square_tiles_witness :
  exists tiles rows columns,
    crop_data data_5x5 (2, 2) None (0, 0) 0
    = Ok (tiles, None, (rows, columns))
    /\ 5 <= rows * 2 < 5 + 2 /\ 5 <= columns * 2 < 5 + 2
    /\ rect4 (1 * rows * columns) 2 2 1 tiles
    /\ forall k i j u s ch,
        0 <= k < 1 -> 0 <= i < rows -> 0 <= j < columns ->
        0 <= u < 2 -> 0 <= s < 2 -> 0 <= ch < 1 ->
        px3 0%Q (Np.get [] tiles (k * (rows * columns) + i * columns + j)) u s ch
        = if (i * 2 + u <? 5) && (j * 2 + s <? 5)
          then px3 0%Q (Np.get [] data_5x5 k) (i * 2 + u) (j * 2 + s) ch
          else 0%Q.
Proof.
  apply (crop_data_square_tiles data_5x5 1 5 5 1 2 0).
  - split; [reflexivity|]. repeat constructor.
  - lia.
  - lia.
  - lia.
  - lia.
  - lia.
Defined.

Lemma merge_without_overlap_inverts_crop_data_witness :
  exists tiles rows columns merged,
    crop_data data_5x5 (2, 2) None (0, 0) 0
    = Ok (tiles, None, (rows, columns))
    /\ merge_data_without_overlap tiles 1 (columns, rows) false = Ok merged
    /\ rect4 1 (rows * 2) (columns * 2) 1 merged
    /\ 5 <= rows * 2 /\ 5 <= columns * 2
    /\ forall k y x ch,
        0 <= k < 1 -> 0 <= y < rows * 2 -> 0 <= x < columns * 2 -> 0 <= ch < 1 ->
        px3 0%Q (Np.get [] merged k) y x ch
        = if (y <? 5) && (x <? 5) then px3 0%Q (Np.get [] data_5x5 k) y x ch else 0%Q.
Proof.
  apply (merge_without_overlap_inverts_crop_data data_5x5 1 5 5 1 2 0).
  - split; [reflexivity|]. repeat constructor.
  - lia.
  - lia.
  - lia.
  - lia.
  - lia.
Defined.


(** ** The crop generator *)

Lemma skipn_nth_cons {A : Type} (d : A) (p : nat) (l : list A) :
  (p < length l)%nat -> skipn p l = nth p l d :: skipn (S p) l.
Proof.
  revert p. induction l as [|x l IH]; intros p Hp; simpl in Hp; [lia|].
  destruct p as [|p]; [reflexivity|]. simpl. apply IH. lia.
Qed.

Lemma rect3_shape2 {A : Type} (h w c : Z) (im : image A) :
  rect3 h w c im -> 1 <= h -> 1 <= w -> Np.shape2 im = c.
Proof. intros H Hh Hw. apply (rect3_shapes h w c im H Hh Hw). Qed.

Section CropGenerator.

Variables (batch_x batch_y : volume Q) (n h w crop_length : Z).
Variables (val prob_map : bool).
(** The number of draws that one crop takes. *)
Variable draws : nat.
(** What is known of the crops of image [i]. *)
Variable P : Z -> image Q -> image Q -> Prop.

Hypothesis Hx : rect4 n h w 1 batch_x.
Hypothesis Hy : rect4 n h w 1 batch_y.
Hypothesis Hlen : 1 <= crop_length.
Hypothesis Hcrop : forall i g,
    0 <= i < n ->
    exists crop_x crop_y g',
      random_crop (Np.get [] batch_x i) (Np.get [] batch_y i)
                  (crop_length, crop_length) val prob_map false None g
      = Ok (Crops crop_x crop_y, g')
      /\ g' = Nat.iter draws Rand.advance g
      /\ rect3 crop_length crop_length 1 crop_x
      /\ rect3 crop_length crop_length 1 crop_y
      /\ P i crop_x crop_y.

Let zero := Np.zeros crop_length (Np.zeros crop_length (Np.zeros 1 0%Q)).

Let body (i : Z) (st : volume Q * volume Q * Rand.rng) :=
  let '(batch_crops_x, batch_crops_y, g) := st in
  img <- Arr.item [] batch_x i ;;
  mask <- Arr.item [] batch_y i ;;
  '(crops, g) <- random_crop img mask (crop_length, crop_length) val prob_map
                             false None g ;;
  match crops with
  | Crops crop_x crop_y =>
      batch_crops_x <- Arr.set_tile crop_length crop_length 1
                                    batch_crops_x i crop_x ;;
      batch_crops_y <- Arr.set_tile crop_length crop_length 1
                                    batch_crops_y i crop_y ;;
      Ok (batch_crops_x, batch_crops_y, g)
  | CropsAndPoints _ _ _ _ _ _ => Raise ValueError
  end.

Let filled (p : nat) (crops_x crops_y : volume Q) : Prop :=
  length crops_x = p /\ length crops_y = p
  /\ Forall (rect3 crop_length crop_length 1) crops_x
  /\ Forall (rect3 crop_length crop_length 1) crops_y
  /\ forall i, 0 <= i < Z.of_nat p ->
               P i (Np.get [] crops_x i) (Np.get [] crops_y i).

Lemma crop_generator_from (q p : nat) (done_x done_y : volume Q) (g : Rand.rng) :
  (p + q = Z.to_nat n)%nat -> filled p done_x done_y ->
  exists crops_x crops_y g',
    Py.for_each (skipn p (Py.range_list 0 n 1)) body
      (done_x ++ repeat zero q, done_y ++ repeat zero q, g)
    = Ok (crops_x, crops_y, g')
    /\ g' = Nat.iter (q * draws) Rand.advance g
    /\ filled (Z.to_nat n) crops_x crops_y.
Proof.
  revert p done_x done_y g.
  induction q as [|q IH]; intros p done_x done_y g Hpq Hfill.
  - rewrite skipn_all2 by (rewrite range_list_length; lia).
    cbn [Py.for_each repeat]. rewrite !app_nil_r.
    exists done_x, done_y, g. split; [reflexivity|]. split; [reflexivity|].
    replace (Z.to_nat n) with p by lia. exact Hfill.
  - rewrite (skipn_nth_cons 0) by (rewrite range_list_length; lia).
    rewrite range_list_nth by lia. cbn [Py.for_each].
    destruct Hfill as (Lx & Ly & Rx & Ry & HP).
    pose proof (proj1 Hx) as Hx0. pose proof (proj1 Hy) as Hy0.
    destruct (Hcrop (Z.of_nat p) g ltac:(lia)) as (cx & cy & g' & Hrc & Hg & Hcx & Hcy & HPi).
    unfold body at 1. unfold volume, image in *.
    rewrite !item_in_range by (rewrite ?Hx0, ?Hy0; lia). cbn [bind].
    rewrite Hrc. cbn [bind repeat].
    pose proof (set_tile_append _ _ _ done_x zero cx (repeat zero q) Hcx) as Sx.
    pose proof (set_tile_append _ _ _ done_y zero cy (repeat zero q) Hcy) as Sy.
    unfold volume, image in *. rewrite Lx in Sx. rewrite Ly in Sy.
    rewrite Sx. cbn [bind]. rewrite Sy. cbn [bind].
    replace (done_x ++ cx :: repeat zero q) with ((done_x ++ [cx]) ++ repeat zero q)
      by (rewrite <- app_assoc; reflexivity).
    replace (done_y ++ cy :: repeat zero q) with ((done_y ++ [cy]) ++ repeat zero q)
      by (rewrite <- app_assoc; reflexivity).
    destruct (IH (S p) (done_x ++ [cx]) (done_y ++ [cy]) g' ltac:(lia))
      as (rx & ry & g'' & Hrun & Hg' & Hfin);
      [|exists rx, ry, g''; split; [exact Hrun|]; split; [|exact Hfin];
        rewrite Hg', Hg; cbn [Nat.mul]; rewrite (Nat.add_comm draws), Nat.iter_add;
        reflexivity].
    split; [rewrite length_app; simpl; lia|].
    split; [rewrite length_app; simpl; lia|].
    split; [apply Forall_app; split; [exact Rx | constructor; [exact Hcx | constructor]]|].
    split; [apply Forall_app; split; [exact Ry | constructor; [exact Hcy | constructor]]|].
    intros i Hi. unfold Np.get.
    destruct (Z.eq_dec i (Z.of_nat p)) as [-> | Hne].
    + rewrite Nat2Z.id.
      assert (Ex : nth p (done_x ++ [cx]) [] = cx)
        by (rewrite <- Lx; apply nth_middle).
      assert (Ey : nth p (done_y ++ [cy]) [] = cy)
        by (rewrite <- Ly; apply nth_middle).
      rewrite Ex, Ey. exact HPi.
    + rewrite !app_nth1 by lia. apply HP. lia.
Qed.

Lemma crop_generator_run (g : Rand.rng) :
  1 <= n ->
  exists crops_x crops_y g',
    crop_generator batch_x batch_y crop_length val prob_map g
    = Ok (crops_x, crops_y, g')
    /\ g' = Nat.iter (Z.to_nat n * draws) Rand.advance g
    /\ rect4 n crop_length crop_length 1 crops_x
    /\ rect4 n crop_length crop_length 1 crops_y
    /\ forall i, 0 <= i < n -> P i (Np.get [] crops_x i) (Np.get [] crops_y i).
Proof.
  intros Hn. unfold crop_generator.
  pose proof (proj1 Hx) as Hx0. pose proof (proj1 Hy) as Hy0.
  unfold volume, image in *. rewrite Hx0, Hy0.
  rewrite zeros4_ok by lia. cbn [bind].
  rewrite for_range_steps by lia.
  destruct (crop_generator_from (Z.to_nat n) 0 [] [] g eq_refl) as
    (cx & cy & g' & Hrun & Hg & Lx & Ly & Rx & Ry & HP).
  { split; [reflexivity|]. split; [reflexivity|].
    split; [constructor|]. split; [constructor|]. intros i Hi. simpl in Hi. lia. }
  exists cx, cy, g'. split; [exact Hrun|]. split; [exact Hg|].
  split; [split; [unfold Np.shape0, volume, image; rewrite Lx; lia | exact Rx]|].
  split; [split; [unfold Np.shape0, volume, image; rewrite Ly; lia | exact Ry]|].
  intros i Hi. apply HP. lia.
Qed.

End CropGenerator.

Lemma random_crop_val_run (img mask : image Q) (h w dy dx : Z) (prob_map : bool)
      (img_prob : option (list (list Q))) (g : Rand.rng) :
  rect3 h w 1 img -> 1 <= h -> 1 <= w ->
  random_crop img mask (dy, dx) true prob_map false img_prob g
  = Ok (Crops (Np.slice2 0 (0 + dy) 0 (0 + dx) img)
              (Np.slice2 0 (0 + dy) 0 (0 + dx) mask), g).
Proof.
  intros Himg Hh Hw. unfold random_crop.
  rewrite (rect3_shape2 h w 1 img Himg Hh Hw). reflexivity.
Qed.

Lemma random_crop_uniform_run (img mask : image Q) (h w dy dx : Z)
      (img_prob : option (list (list Q))) (g : Rand.rng) :
  rect3 h w 1 img -> 1 <= dy <= h -> 1 <= dx <= w ->
  exists y x,
    random_crop img mask (dy, dx) false false false img_prob g
    = Ok (Crops (Np.slice2 y (y + dy) x (x + dx) img)
                (Np.slice2 y (y + dy) x (x + dx) mask),
          Rand.advance (Rand.advance g))
    /\ 0 <= y <= h - dy /\ 0 <= x <= w - dx.
Proof.
  intros Himg Hdy Hdx. unfold random_crop.
  destruct (rect3_shapes h w 1 img Himg ltac:(lia) ltac:(lia)) as (S0 & S1 & S2).
  rewrite S0, S1, S2. cbn [Z.eqb Pos.eqb assert bind].
  destruct (randint_range 0 (w - dx + 1) g ltac:(lia)) as (x & -> & Hx).
  cbn [bind].
  destruct (randint_range 0 (h - dy + 1) (Rand.advance g) ltac:(lia)) as (y & -> & Hy).
  cbn [bind].
  exists y, x. split; [reflexivity|]. lia.
Qed.

(** In validation mode one step of [crop_generator] on a batch of [n]
    single-channel images and masks of [h x w] pixels, with a crop side that
    fits, yields for every image and mask its top-left [crop_length] square,
    and leaves the random generator as it found it. *)
Theorem crop_generator_val_top_left
        (batch_x batch_y : volume Q) (n h w crop_length : Z) (prob_map : bool)
        (g : Rand.rng)
        (Hx : rect4 n h w 1 batch_x) (Hy : rect4 n h w 1 batch_y)
        (Hn : 1 <= n) (Hh : 1 <= crop_length <= h) (Hw : crop_length <= w) :
  exists crops_x crops_y,
    crop_generator batch_x batch_y crop_length true prob_map g
    = Ok (crops_x, crops_y, g)
    /\ rect4 n crop_length crop_length 1 crops_x
    /\ rect4 n crop_length crop_length 1 crops_y
    /\ forall i a b ch,
        0 <= i < n -> 0 <= a < crop_length -> 0 <= b < crop_length ->
        px3 0%Q (Np.get [] crops_x i) a b ch = px3 0%Q (Np.get [] batch_x i) a b ch
        /\ px3 0%Q (Np.get [] crops_y i) a b ch
           = px3 0%Q (Np.get [] batch_y i) a b ch.
Proof.
  destruct (crop_generator_run batch_x batch_y n h w crop_length true prob_map 0
              (fun i cx cy =>
                 forall a b ch, 0 <= a < crop_length -> 0 <= b < crop_length ->
                   px3 0%Q cx a b ch = px3 0%Q (Np.get [] batch_x i) a b ch
                   /\ px3 0%Q cy a b ch = px3 0%Q (Np.get [] batch_y i) a b ch)
              Hx Hy ltac:(lia)) with (g := g)
    as (cx & cy & g' & Hrun & Hg & Hrx & Hry & HP); [|exact Hn|].
  - intros i g0 Hi.
    pose proof (rect4_get n h w 1 batch_x i Hx Hi) as Himg.
    pose proof (rect4_get n h w 1 batch_y i Hy Hi) as Hmask.
    rewrite (random_crop_val_run _ _ h w _ _ _ _ _ Himg ltac:(lia) ltac:(lia)).
    destruct (crop_inside 0%Q h w 1 0 0 crop_length crop_length _ Himg)
      as [Hri Hpi]; try lia.
    destruct (crop_inside 0%Q h w 1 0 0 crop_length crop_length _ Hmask)
      as [Hrm Hpm]; try lia.
    do 3 eexists. split; [reflexivity|]. split; [reflexivity|].
    split; [exact Hri|]. split; [exact Hrm|].
    intros a b ch Ha Hb. rewrite Hpi, Hpm by assumption. split; reflexivity.
  - rewrite Nat.mul_0_r in Hg. cbn [Nat.iter nat_rect] in Hg. subst g'.
    exists cx, cy. split; [exact Hrun|]. split; [exact Hrx|]. split; [exact Hry|].
    intros i a b ch Hi Ha Hb. apply HP; assumption.
Qed.

(** In uniform mode ([val] and [prob_map] off) one step of [crop_generator]
    on a batch of [n] single-channel images and masks of [h x w] pixels,
    with a crop side that fits, takes two draws per image and yields, for
    every image, a square window that lies inside the image, together with
    the same window of its mask. *)
Theorem crop_generator_uniform_aligned
        (batch_x batch_y : volume Q) (n h w crop_length : Z) (g : Rand.rng)
        (Hx : rect4 n h w 1 batch_x) (Hy : rect4 n h w 1 batch_y)
        (Hn : 1 <= n) (Hh : 1 <= crop_length <= h) (Hw : crop_length <= w) :
  exists crops_x crops_y,
    crop_generator batch_x batch_y crop_length false false g
    = Ok (crops_x, crops_y, Nat.iter (Z.to_nat n * 2) Rand.advance g)
    /\ rect4 n crop_length crop_length 1 crops_x
    /\ rect4 n crop_length crop_length 1 crops_y
    /\ forall i, 0 <= i < n ->
         exists y x,
           0 <= y <= h - crop_length /\ 0 <= x <= w - crop_length
           /\ forall a b ch, 0 <= a < crop_length -> 0 <= b < crop_length ->
                px3 0%Q (Np.get [] crops_x i) a b ch
                = px3 0%Q (Np.get [] batch_x i) (y + a) (x + b) ch
                /\ px3 0%Q (Np.get [] crops_y i) a b ch
                   = px3 0%Q (Np.get [] batch_y i) (y + a) (x + b) ch.
Proof.
  destruct (crop_generator_run batch_x batch_y n h w crop_length false false 2
              (fun i cx cy =>
                 exists y x,
                   0 <= y <= h - crop_length /\ 0 <= x <= w - crop_length
                   /\ forall a b ch, 0 <= a < crop_length -> 0 <= b < crop_length ->
                        px3 0%Q cx a b ch
                        = px3 0%Q (Np.get [] batch_x i) (y + a) (x + b) ch
                        /\ px3 0%Q cy a b ch
                           = px3 0%Q (Np.get [] batch_y i) (y + a) (x + b) ch)
              Hx Hy ltac:(lia)) with (g := g)
    as (cx & cy & g' & Hrun & Hg & Hrx & Hry & HP); [|exact Hn|].
  - intros i g0 Hi.
    pose proof (rect4_get n h w 1 batch_x i Hx Hi) as Himg.
    pose proof (rect4_get n h w 1 batch_y i Hy Hi) as Hmask.
    destruct (random_crop_uniform_run _ (Np.get [] batch_y i) h w crop_length
                crop_length None g0 Himg ltac:(lia) ltac:(lia))
      as (y & x & Hrc & Hyb & Hxb).
    destruct (crop_inside 0%Q h w 1 y x crop_length crop_length _ Himg)
      as [Hri Hpi]; try lia.
    destruct (crop_inside 0%Q h w 1 y x crop_length crop_length _ Hmask)
      as [Hrm Hpm]; try lia.
    do 3 eexists. split; [exact Hrc|]. split; [reflexivity|].
    split; [exact Hri|]. split; [exact Hrm|].
    exists y, x. split; [exact Hyb|]. split; [exact Hxb|].
    intros a b ch Ha Hb. split; [apply Hpi | apply Hpm]; assumption.
  - subst g'.
    exists cx, cy. split; [exact Hrun|]. split; [exact Hrx|]. split; [exact Hry|].
    exact HP.
Qed.

(** [crop_generator] never hands a probability map to [random_crop]: with
    [prob_map] on and [val] off, a step on a batch whose first image is
    single-channel fails with the attribute error of [None.ravel()]. *)
Theorem crop_generator_prob_map_fails
        (batch_x batch_y : volume Q) (crop_length : Z) (g : Rand.rng)
        (Hx : 1 <= Np.shape0 batch_x) (Hy : 1 <= Np.shape0 batch_y)
        (Hchannel : Np.shape3 batch_x = 1) (Hlen : 0 <= crop_length) :
  crop_generator batch_x batch_y crop_length false true g = Raise AttributeError.
Proof.
  unfold crop_generator.
  pose proof (shape0_nonneg batch_x) as Hx0. pose proof (shape0_nonneg batch_y) as Hy0.
  unfold volume, image in *.
  rewrite !zeros4_ok by lia. cbn [bind].
  rewrite for_range_steps by lia.
  rewrite range_list_unit.
  destruct (Z.to_nat (Np.shape0 batch_x - 0)) as [|k] eqn:Ek; [lia|].
  cbn [seq map Py.for_each].
  rewrite !item_in_range by lia. cbn [bind].
  unfold random_crop.
  replace (Np.shape2 (Np.get [] batch_x (0 + Z.of_nat 0))) with 1.
  - reflexivity.
  - rewrite <- Hchannel. unfold Np.shape3, Np.get. cbn [Z.of_nat Z.add Z.to_nat].
    destruct batch_x; reflexivity.
Qed.

(** ** Cropping images together with their masks *)

Lemma grid_fill_pair (r rm : volume Q) (t c c' : Z) (cells : list (Z * (Z * Z)))
      (l_i : Z) :
  Forall (fun cell => rect3 t t c (grid_tile r t cell)
                      /\ rect3 t t c' (grid_tile rm t cell)
                      /\ 0 <= fst cell < Np.shape0 rm) cells ->
  forall done rest mdone mrest : volume Q,
    (length cells <= length rest)%nat -> (length cells <= length mrest)%nat ->
    length mdone = length done ->
    Py.for_each cells (fill_cell_pair r rm t c c')
                (done ++ rest, Some (mdone ++ mrest), Z.of_nat (length done), l_i)
    = Ok (done ++ map (grid_tile r t) cells ++ skipn (length cells) rest,
          Some (mdone ++ map (grid_tile rm t) cells ++ skipn (length cells) mrest),
          Z.of_nat (length done + length cells), l_i).
Proof.
  induction 1 as [|cell cells (Hcell & Hmcell & Hk) _ IH];
    intros done rest mdone mrest Hlen Hmlen Hdone.
  - simpl. rewrite Nat.add_0_r. reflexivity.
  - destruct rest as [|z rest]; [simpl in Hlen; lia|].
    destruct mrest as [|mz mrest]; [simpl in Hmlen; lia|].
    cbn [Py.for_each]. unfold fill_cell_pair at 1.
    rewrite (set_tile_append t t c done z _ rest Hcell). cbn [bind].
    rewrite item_in_range by exact Hk. cbn [bind].
    fold (grid_tile rm t cell).
    rewrite <- Hdone.
    rewrite (set_tile_append t t c' mdone mz _ mrest Hmcell). cbn [bind].
    rewrite Hdone.
    replace (Z.of_nat (length done) + 1)
      with (Z.of_nat (length (done ++ [grid_tile r t cell])))
      by (rewrite length_app; simpl; lia).
    replace (done ++ grid_tile r t cell :: rest)
      with ((done ++ [grid_tile r t cell]) ++ rest)
      by (rewrite <- app_assoc; reflexivity).
    replace (mdone ++ grid_tile rm t cell :: mrest)
      with ((mdone ++ [grid_tile rm t cell]) ++ mrest)
      by (rewrite <- app_assoc; reflexivity).
    rewrite IH by (simpl in Hlen, Hmlen; rewrite ?length_app; simpl; lia).
    rewrite <- !app_assoc. cbn [map app skipn length].
    rewrite length_app. cbn [length].
    do 3 f_equal. lia.
Qed.

Lemma crop_data_pair_run (n h w c c' t : Z) (data mask : volume Q) (d : Q) :
  rect4 n h w c data -> rect4 n h w c' mask ->
  1 <= n -> 1 <= h -> 1 <= w -> 0 <= c -> 0 <= c' -> 1 <= t ->
  (d <= 0)%Q ->
  exists r rm,
    rect4 n (cells_along h t * t) (cells_along w t * t) c r
    /\ rect4 n (cells_along h t * t) (cells_along w t * t) c' rm
    /\ (forall k y x ch,
          0 <= k < n -> 0 <= y < cells_along h t * t ->
          0 <= x < cells_along w t * t ->
          (0 <= ch < c -> px3 0%Q (Np.get [] r k) y x ch = padded data h w k y x ch)
          /\ (0 <= ch < c' ->
              px3 0%Q (Np.get [] rm k) y x ch = padded mask h w k y x ch))
    /\ crop_data data (t, t) (Some mask) (0, 0) d
       = Ok (map (grid_tile r t) (grid_cells n (cells_along h t) (cells_along w t)),
             Some (map (grid_tile rm t)
                       (grid_cells n (cells_along h t) (cells_along w t))),
             (cells_along h t, cells_along w t)).
Proof.
  intros Hdata Hmask Hn Hh Hw Hc Hc' Ht Hd.
  destruct (rect4_shapes n h w c data Hdata Hn Hh Hw) as (S0 & S1 & S2 & S3).
  destruct (rect4_shapes n h w c' mask Hmask Hn Hh Hw) as (M0 & M1 & M2 & M3).
  pose proof (cells_along_bounds h t Ht ltac:(lia)) as (Bh0 & Bh1 & _).
  pose proof (cells_along_bounds w t Ht ltac:(lia)) as (Bw0 & Bw1 & _).
  apply Qle_bool_iff in Hd.
  unfold crop_data.
  rewrite (layout_square n h w c t data Hdata Hn Hh Hw Ht). cbn [bind].
  destruct (resize_square n h w c t data Hdata Hn Hh Hw Hc Ht) as (r & -> & Hr & Hpx).
  destruct (resize_square n h w c' t mask Hmask Hn Hh Hw Hc' Ht)
    as (rm & -> & Hrm & Hmpx).
  cbn [bind]. rewrite Hd. cbn [negb bind andb].
  exists r, rm. split; [exact Hr|]. split; [exact Hrm|].
  split; [intros k y x ch Hk Hy Hx; split; intros Hch;
          [apply Hpx | apply Hmpx]; assumption|].
  pose proof (proj1 Hrm) as Hrm0.
  unfold volume, image in *. rewrite S0, S3, M3.
  set (rows := cells_along h t) in *. set (columns := cells_along w t) in *.
  rewrite !zeros4_ok by nia. cbn [bind].
  rewrite for_range_steps by lia.
  rewrite for_each_ext_in with
    (g := fun img_num st =>
            Py.for_each (list_prod (Py.range_list 0 rows 1) (Py.range_list 0 columns 1))
              (fun ij st' => fill_cell_pair r rm t c c' (img_num, (fst ij, snd ij)) st')
              st).
  2:{ intros img_num st _. rewrite for_range_steps by lia.
      rewrite for_each_ext_in with
        (g := fun i st' =>
                Py.for_each (Py.range_list 0 columns 1)
                  (fun j st'' => fill_cell_pair r rm t c c' (img_num, (i, j)) st'') st').
      2:{ intros i st' _. rewrite for_range_steps by lia.
          apply for_each_ext_in. intros j [[[cd [cm|]] cont] li] _; reflexivity. }
      apply (for_each_nested _ _
               (fun i j st' => fill_cell_pair r rm t c c' (img_num, (i, j)) st')). }
  rewrite (for_each_nested _ _
             (fun img_num ij st' =>
                fill_cell_pair r rm t c c' (img_num, (fst ij, snd ij)) st')).
  rewrite for_each_ext_in with (g := fill_cell_pair r rm t c c').
  2:{ intros [k [i j]] st _. reflexivity. }
  fold (grid_cells n rows columns).
  assert (Lcells : length (grid_cells n rows columns) = Z.to_nat (n * rows * columns)).
  { unfold grid_cells. rewrite !length_prod, !range_list_length. nia. }
  replace (n * rows * columns - 0) with (n * rows * columns) by lia.
  pose proof (grid_fill_pair r rm t c c' (grid_cells n rows columns) 0) as Hfill.
  specialize (Hfill ltac:(
    apply Forall_forall; intros cell Hin; apply in_grid_cells in Hin;
    destruct Hin as (Hk & Hi & Hj);
    split; [apply (grid_tile_rect3 n c t rows columns r cell Hr Ht Hk Hi Hj)|];
    split; [apply (grid_tile_rect3 n c' t rows columns rm cell Hrm Ht Hk Hi Hj)|];
    unfold volume, image in *; rewrite Hrm0; exact Hk)).
  specialize (Hfill [] (Np.zeros (n * rows * columns)
                                 (Np.zeros t (Np.zeros t (Np.zeros c 0%Q))))
                    [] (Np.zeros (n * rows * columns)
                                 (Np.zeros t (Np.zeros t (Np.zeros c' 0%Q))))).
  cbn [app length Nat.add] in Hfill. change (Z.of_nat 0) with 0 in Hfill.
  unfold volume, image in *.
  rewrite Hfill by (try reflexivity; unfold Np.zeros; rewrite repeat_length, Lcells; lia).
  cbn [bind]. unfold Np.zeros at 1 5.
  rewrite !skipn_all2 by (rewrite repeat_length, Lcells; lia).
  rewrite !app_nil_r. reflexivity.
Qed.

(** [crop_data] with a mask and nothing to discard ([d_percentage] not
    positive), square crops of side [t] and no forced layout: the data crops
    and the mask crops come in the same number and order, and crop [(i, j)]
    of image [k] and crop [(i, j)] of mask [k] show the same window, at
    [(i*t, j*t)], of the zero-padded image and of the zero-padded mask. *)
Theorem crop_data_mask_crops_aligned
        (data mask : volume Q) (n h w c c' t : Z) (d_percentage : Q)
        (Hdata : rect4 n h w c data) (Hmask : rect4 n h w c' mask)
        (Hn : 1 <= n) (Hh : 1 <= h) (Hw : 1 <= w) (Hc : 0 <= c) (Hc' : 0 <= c')
        (Ht : 1 <= t) (Hd : (d_percentage <= 0)%Q) :
  exists tiles mask_tiles rows columns,
    crop_data data (t, t) (Some mask) (0, 0) d_percentage
    = Ok (tiles, Some mask_tiles, (rows, columns))
    /\ rect4 (n * rows * columns) t t c tiles
    /\ rect4 (n * rows * columns) t t c' mask_tiles
    /\ forall k i j u s ch,
        0 <= k < n -> 0 <= i < rows -> 0 <= j < columns ->
        0 <= u < t -> 0 <= s < t ->
        let p := k * (rows * columns) + i * columns + j in
        (0 <= ch < c ->
         px3 0%Q (Np.get [] tiles p) u s ch
         = padded data h w k (i * t + u) (j * t + s) ch)
        /\ (0 <= ch < c' ->
            px3 0%Q (Np.get [] mask_tiles p) u s ch
            = padded mask h w k (i * t + u) (j * t + s) ch).
Proof.
  destruct (crop_data_pair_run n h w c c' t data mask d_percentage Hdata Hmask
              Hn Hh Hw Hc Hc' Ht Hd) as (r & rm & Hr & Hrm & Hpx & Hrun).
  pose proof (cells_along_bounds h t Ht ltac:(lia)) as (Bh0 & Bh1 & Bh2).
  pose proof (cells_along_bounds w t Ht ltac:(lia)) as (Bw0 & Bw1 & Bw2).
  set (rows := cells_along h t) in *. set (columns := cells_along w t) in *.
  exists (map (grid_tile r t) (grid_cells n rows columns)),
         (map (grid_tile rm t) (grid_cells n rows columns)), rows, columns.
  split; [exact Hrun|].
  assert (Hrect : forall c0 r0, rect4 n (rows * t) (columns * t) c0 r0 ->
            rect4 (n * rows * columns) t t c0
                  (map (grid_tile r0 t) (grid_cells n rows columns))).
  { intros c0 r0 Hr0. split.
    - rewrite shape0_map. unfold Np.shape0.
      rewrite grid_cells_length by lia. lia.
    - apply Forall_map_iff. apply Forall_forall. intros cell Hin.
      apply in_grid_cells in Hin. destruct Hin as (Hk & Hi & Hj).
      apply (grid_tile_rect3 n c0 t rows columns r0 cell Hr0 Ht Hk Hi Hj). }
  split; [apply Hrect; exact Hr|]. split; [apply Hrect; exact Hrm|].
  intros k i j u s ch Hk Hi Hj Hu Hs. cbv zeta.
  replace (k * (rows * columns)) with (k * (columns * rows)) by lia.
  rewrite !(grid_tiles_get n rows columns t _ k i j Hk Hi Hj).
  destruct (grid_tile_rect3 n c t rows columns r (k, (i, j)) Hr Ht Hk Hi Hj)
    as [_ Hpt].
  destruct (grid_tile_rect3 n c' t rows columns rm (k, (i, j)) Hrm Ht Hk Hi Hj)
    as [_ Hmpt].
  rewrite Hpt, Hmpt by assumption. cbn [fst snd].
  apply Hpx; [assumption | nia | nia].
Qed.

Lemma batch_images_rect4 : rect4 2 3 3 1 batch_images.
Proof. split; [reflexivity|]. repeat constructor. Qed.

Lemma batch_masks_rect4 : rect4 2 3 3 1 batch_masks.
Proof. split; [reflexivity|]. repeat constructor. Qed.

Lemma crop_generator_val_top_left_witness :
  exists crops_x crops_y,
    crop_generator batch_images batch_masks 2 true false (fun _ => 5)
    = Ok (crops_x, crops_y, fun _ => 5)
    /\ rect4 2 2 2 1 crops_x
    /\ rect4 2 2 2 1 crops_y
    /\ forall i a b ch,
        0 <= i < 2 -> 0 <= a < 2 -> 0 <= b < 2 ->
        px3 0%Q (Np.get [] crops_x i) a b ch
        = px3 0%Q (Np.get [] batch_images i) a b ch
        /\ px3 0%Q (Np.get [] crops_y i) a b ch
           = px3 0%Q (Np.get [] batch_masks i) a b ch.
Proof.
  apply (crop_generator_val_top_left batch_images batch_masks 2 3 3 2 false
           (fun _ => 5) batch_images_rect4 batch_masks_rect4); lia.
Defined.

Lemma crop_generator_uniform_aligned_witness :
  exists crops_x crops_y,
    crop_generator batch_images batch_masks 2 false false (fun _ => 5)
    = Ok (crops_x, crops_y, Nat.iter (Z.to_nat 2 * 2) Rand.advance (fun _ => 5))
    /\ rect4 2 2 2 1 crops_x
    /\ rect4 2 2 2 1 crops_y
    /\ forall i, 0 <= i < 2 ->
         exists y x,
           0 <= y <= 3 - 2 /\ 0 <= x <= 3 - 2
           /\ forall a b ch, 0 <= a < 2 -> 0 <= b < 2 ->
                px3 0%Q (Np.get [] crops_x i) a b ch
                = px3 0%Q (Np.get [] batch_images i) (y + a) (x + b) ch
                /\ px3 0%Q (Np.get [] crops_y i) a b ch
                   = px3 0%Q (Np.get [] batch_masks i) (y + a) (x + b) ch.
Proof.
  apply (crop_generator_uniform_aligned batch_images batch_masks 2 3 3 2
           (fun _ => 5) batch_images_rect4 batch_masks_rect4); lia.
Defined.

Lemma crop_generator_prob_map_fails_witness :
  crop_generator batch_images batch_masks 2 false true (fun _ => 5)
  = Raise AttributeError.
Proof.
  apply (crop_generator_prob_map_fails batch_images batch_masks 2 (fun _ => 5)).
  - vm_compute. discriminate.
  - vm_compute. discriminate.
  - reflexivity.
  - lia.
Defined.

Lemma crop_data_mask_crops_aligned_witness :
  exists tiles mask_tiles rows columns,
    crop_data [image_3x3] (2, 2) (Some [mask_3x3]) (0, 0) 0
    = Ok (tiles, Some mask_tiles, (rows, columns))
    /\ rect4 (1 * rows * columns) 2 2 1 tiles
    /\ rect4 (1 * rows * columns) 2 2 1 mask_tiles
    /\ forall k i j u s ch,
        0 <= k < 1 -> 0 <= i < rows -> 0 <= j < columns ->
        0 <= u < 2 -> 0 <= s < 2 ->
        let p := k * (rows * columns) + i * columns + j in
        (0 <= ch < 1 ->
         px3 0%Q (Np.get [] tiles p) u s ch
         = padded [image_3x3] 3 3 k (i * 2 + u) (j * 2 + s) ch)
        /\ (0 <= ch < 1 ->
            px3 0%Q (Np.get [] mask_tiles p) u s ch
            = padded [mask_3x3] 3 3 k (i * 2 + u) (j * 2 + s) ch).
Proof.
  apply (crop_data_mask_crops_aligned [image_3x3] [mask_3x3] 1 3 3 1 1 2 0).
  - split; [reflexivity|]. repeat constructor.
  - split; [reflexivity|]. repeat constructor.
  - lia.
  - lia.
  - lia.
  - lia.
  - lia.
  - lia.
  - vm_compute. discriminate.
Defined.

(** ** The order of the samples in an epoch *)

Lemma swap_length (i j : nat) (x : list Z) : length (swap i j x) = length x.
Proof. unfold swap. now rewrite !set_nth_length. Qed.

Lemma swap_nth (i j k : nat) (x : list Z) :
  (i < length x)%nat -> (j < length x)%nat ->
  nth k (swap i j x) 0
  = nth (if Nat.eqb k i then j else if Nat.eqb k j then i else k) x 0.
Proof.
  intros Hi Hj. unfold swap.
  destruct (Nat.eqb_spec k i) as [-> | Hki].
  - apply set_nth_same. now rewrite set_nth_length.
  - rewrite set_nth_other by congruence.
    destruct (Nat.eqb_spec k j) as [-> | Hkj].
    + now apply set_nth_same.
    + apply set_nth_other. congruence.
Qed.

Lemma swap_arrangement (n : Z) (i j : nat) (x : list Z) :
  (i < length x)%nat -> (j < length x)%nat ->
  arrangement n x -> arrangement n (swap i j x).
Proof.
  intros Hi Hj [Hnd Hin].
  set (s := fun k => if Nat.eqb k i then j else if Nat.eqb k j then i else k).
  assert (Hs : forall k, (k < length x)%nat -> (s k < length x)%nat).
  { intros k Hk. unfold s.
    destruct (Nat.eqb_spec k i); [assumption|].
    destruct (Nat.eqb_spec k j); assumption. }
  assert (Hinv : forall k, s (s k) = k).
  { intros k. unfold s.
    destruct (Nat.eqb_spec k i) as [-> | Hki].
    - destruct (Nat.eqb_spec j i) as [-> | Hji]; [reflexivity|].
      now rewrite Nat.eqb_refl.
    - destruct (Nat.eqb_spec k j) as [-> | Hkj].
      + now rewrite Nat.eqb_refl.
      + destruct (Nat.eqb_spec k i); [congruence|].
        destruct (Nat.eqb_spec k j); congruence. }
  assert (Hnth : forall k, nth k (swap i j x) 0 = nth (s k) x 0)
    by (intros k; apply swap_nth; assumption).
  split.
  - apply (NoDup_nth _ 0). intros a b Ha Hb Heq.
    rewrite swap_length in Ha, Hb. rewrite !Hnth in Heq.
    apply (proj1 (NoDup_nth x 0) Hnd) in Heq; [|apply Hs; assumption..].
    rewrite <- (Hinv a), <- (Hinv b), Heq. reflexivity.
  - intros v. rewrite <- Hin. split; intros Hv.
    + apply (In_nth _ _ 0) in Hv. destruct Hv as (k & Hk & <-).
      rewrite swap_length in Hk. rewrite Hnth. apply nth_In, Hs, Hk.
    + apply (In_nth _ _ 0) in Hv. destruct Hv as (k & Hk & <-).
      rewrite <- (Hinv k), <- Hnth. apply nth_In.
      rewrite swap_length. apply Hs, Hk.
Qed.

Lemma shuffle_down_arrangement (n : Z) (i : nat) (x : list Z) (g : Rand.rng) :
  (i < length x)%nat -> arrangement n x ->
  arrangement n (fst (shuffle_down i x g)).
Proof.
  revert x g. induction i as [|i IH]; intros x g Hi Hx; [exact Hx|].
  cbn [shuffle_down]. apply IH; [rewrite swap_length; lia|].
  apply swap_arrangement; [exact Hi | | exact Hx].
  pose proof (Z.mod_pos_bound (g O) (Z.of_nat (S i) + 1) ltac:(lia)). lia.
Qed.

Lemma shuffle_arrangement (n : Z) (x : list Z) (g : Rand.rng) :
  arrangement n x -> arrangement n (fst (np_random_shuffle x g)).
Proof.
  intros Hx. unfold np_random_shuffle.
  destruct x as [|v x]; [exact Hx|].
  apply shuffle_down_arrangement; [simpl; lia | exact Hx].
Qed.

Lemma NoDup_map_injective {A B : Type} (f : A -> B) (l : list A) :
  (forall a b, f a = f b -> a = b) -> NoDup l -> NoDup (map f l).
Proof.
  intros Hf. induction 1 as [|a l Ha _ IH]; simpl; constructor; [|exact IH].
  rewrite in_map_iff. intros (b & Hb & Hin). apply Hf in Hb. now subst.
Qed.

Lemma arange_arrangement (n : Z) : arrangement n (Py.range_list 0 n 1).
Proof.
  split.
  - rewrite range_list_unit. apply NoDup_map_injective; [|apply seq_NoDup].
    intros a b Hab. lia.
  - intros j. apply in_range_list_unit.
Qed.

Lemma arrangement_length (n : Z) (l : list Z) :
  0 <= n -> arrangement n l -> Z.of_nat (length l) = n.
Proof.
  intros Hn [Hnd Hin].
  pose proof (arange_arrangement n) as [Hnd' Hin'].
  assert (Hle : (length l <= length (Py.range_list 0 n 1))%nat).
  { apply NoDup_incl_length; [exact Hnd|]. intros j Hj. apply Hin', Hin, Hj. }
  assert (Hge : (length (Py.range_list 0 n 1) <= length l)%nat).
  { apply NoDup_incl_length; [exact Hnd'|]. intros j Hj. apply Hin, Hin', Hj. }
  rewrite range_list_length in Hle, Hge. lia.
Qed.

Lemma on_epoch_end_run (self : ImageDataGenerator) (g : Rand.rng) :
  exists l g',
    on_epoch_end self g = (with_indexes self l, g')
    /\ arrangement (Np.shape0 (X self)) l
    /\ (shuffle self = false -> l = Py.range_list 0 (Np.shape0 (X self)) 1 /\ g' = g).
Proof.
  unfold on_epoch_end. destruct (shuffle self).
  - pose proof (shuffle_arrangement (Np.shape0 (X self)) _ g
                  (arange_arrangement (Np.shape0 (X self)))) as Harr.
    destruct (np_random_shuffle _ g) as [l g']. cbn [fst] in Harr.
    exists l, g'. split; [reflexivity|]. split; [exact Harr|]. discriminate.
  - exists (Py.range_list 0 (Np.shape0 (X self)) 1), g.
    split; [reflexivity|]. split; [apply arange_arrangement|]. now intros _.
Qed.

(** ** The rows of a batch *)

Lemma get_tabulate {B : Type} (d : B) (f : Z -> B) (n i : Z) :
  0 <= i < n -> Np.get d (map f (Py.range_list 0 n 1)) i = f i.
Proof.
  intros Hi. rewrite (get_map 0 d) by (unfold Np.shape0; rewrite range_list_length; lia).
  unfold Np.get. rewrite range_list_nth by lia. f_equal. lia.
Qed.

Lemma tabulate4_rect4 (n h w c : Z) (junk : Z -> Z -> Z -> Z -> Q) :
  0 <= n -> 0 <= h -> 0 <= w -> 0 <= c -> rect4 n h w c (tabulate4 n h w c junk).
Proof.
  intros Hn Hh Hw Hc. unfold tabulate4.
  assert (L : forall B (f : Z -> B) m, 0 <= m ->
                Np.shape0 (map f (Py.range_list 0 m 1)) = m).
  { intros B f m Hm. rewrite shape0_map. unfold Np.shape0.
    rewrite range_list_length. lia. }
  split; [apply L, Hn|].
  apply Forall_map_iff, Forall_forall. intros k _.
  split; [apply L, Hh|].
  apply Forall_map_iff, Forall_forall. intros y _.
  split; [apply L, Hw|].
  apply Forall_map_iff, Forall_forall. intros x _. apply L, Hc.
Qed.

Lemma tabulate4_px (n h w c : Z) (junk : Z -> Z -> Z -> Z -> Q) (k y x ch : Z) :
  0 <= k < n -> 0 <= y < h -> 0 <= x < w -> 0 <= ch < c ->
  px3 0%Q (Np.get [] (tabulate4 n h w c junk) k) y x ch = junk k y x ch.
Proof.
  intros Hk Hy Hx Hch. unfold tabulate4, px3.
  rewrite (get_tabulate [] _ n k Hk), (get_tabulate [] _ h y Hy),
    (get_tabulate [] _ w x Hx), (get_tabulate 0%Q _ c ch Hch).
  reflexivity.
Qed.

(** [l[index*size:(index+1)*size]] for a batch position that is not
    negative. *)
Lemma slice_batch (l : list Z) (index size : Z) :
  0 <= index -> 0 <= size ->
  let rows := Py.slice (index * size) ((index + 1) * size) l in
  Z.of_nat (length rows)
  = Z.max 0 (Z.min size (Z.of_nat (length l) - index * size))
  /\ forall i, 0 <= i < Z.of_nat (length rows) ->
               Np.get 0 rows i = Np.get 0 l (index * size + i).
Proof.
  intros Hindex Hsize rows. subst rows. unfold Py.slice, Py.clamp.
  assert (Hlo : 0 <= index * size) by (apply Z.mul_nonneg_nonneg; lia).
  assert (Hhi : (index + 1) * size = index * size + size) by lia.
  assert (E1 : (index * size <? 0) = false) by (apply Z.ltb_ge; lia).
  assert (E2 : ((index + 1) * size <? 0) = false) by (apply Z.ltb_ge; lia).
  rewrite E1, E2.
  set (L := Z.of_nat (length l)). set (lo := index * size) in *.
  assert (Hlen : length (firstn (Z.to_nat (Z.min ((index + 1) * size) L - Z.min lo L))
                                (skipn (Z.to_nat (Z.min lo L)) l))
                 = Z.to_nat (Z.min ((index + 1) * size) L - Z.min lo L)).
  { rewrite length_firstn, length_skipn. subst L. lia. }
  split; [rewrite Hlen; lia|].
  intros i Hi. rewrite Hlen in Hi. unfold Np.get.
  rewrite nth_firstn.
  replace (Z.to_nat i <? Z.to_nat (Z.min ((index + 1) * size) L - Z.min lo L))%nat
    with true by (symmetry; apply Nat.ltb_lt; lia).
  rewrite nth_skipn. f_equal. lia.
Qed.

Lemma in_firstn {A : Type} (k : nat) (l : list A) (x : A) :
  In x (firstn k l) -> In x l.
Proof.
  intros H. rewrite <- (firstn_skipn k l). apply in_or_app. now left.
Qed.

Lemma in_skipn {A : Type} (k : nat) (l : list A) (x : A) :
  In x (skipn k l) -> In x l.
Proof.
  intros H. rewrite <- (firstn_skipn k l). apply in_or_app. now right.
Qed.

Lemma lift_Ok {A : Type} (r : result A) (a : A) : r = Ok a -> lift r = Done a.
Proof. now intros ->. Qed.

Lemma with_counters_same (self : ImageDataGenerator) :
  with_aug self (with_counters (aug self) (t_counter (aug self))) = self.
Proof. destruct self as [? ? ? ? ? ? ? [] ? ? ? ? ? ?]. reflexivity. Qed.

(** Batches whose rows are a function of the sample alone: the rows copied
    from the data, and the rows cropped in validation mode. *)
Section Rows.

Variable elastic_transform : image Q -> Q -> Q -> Q -> image Q.
Variable ndimage_rotate : image Q -> Q -> Z -> image Q.
Variable enhance_brightness : image Q -> Q -> image Q.
Variable median_blur : image Q -> Z -> image Q.
Variable str_int : Z -> string.
Variable str_round2 : Q -> string.

Variables (self : ImageDataGenerator) (ds : Z -> draws) (n h w c : Z).
Variables (junk_x junk_y : Z -> Z -> Z -> Z -> Q).
(** The rows that sample [j] gives. *)
Variables row_x row_y : Z -> image Q.

Let row := getitem_row elastic_transform ndimage_rotate enhance_brightness
                       median_blur str_int str_round2 self ds.

Hypothesis Hdim : dim self = (h, w).
Hypothesis Hchannels : n_channels self = c.
Hypothesis Hh : 0 <= h.
Hypothesis Hw : 0 <= w.
Hypothesis Hc : 0 <= c.
Hypothesis Hindexes : Forall (fun j => 0 <= j < n) (indexes self).
Hypothesis Hsize : 0 <= batch_size self.
Hypothesis Hrow :
  forall (done_x done_y : volume Q) (zx zy : image Q) (rest_x rest_y : volume Q)
         (j : Z) (counters : list Z) (g : Rand.rng),
    0 <= j < n -> length done_y = length done_x ->
    row (Z.of_nat (length done_x), j)
        (done_x ++ zx :: rest_x, done_y ++ zy :: rest_y, counters, g)
    = Done (done_x ++ row_x j :: rest_x, done_y ++ row_y j :: rest_y, counters, g).

Lemma rows_from (m : nat) :
  forall (js : list Z) (done_x done_y rest_x rest_y : volume Q)
         (counters : list Z) (g : Rand.rng),
    Forall (fun j => 0 <= j < n) js ->
    length done_y = length done_x ->
    (m <= length rest_x)%nat -> (m <= length rest_y)%nat ->
    batch_for_each (combine (map Z.of_nat (seq (length done_x) m)) js) row
                   (done_x ++ rest_x, done_y ++ rest_y, counters, g)
    = Done (done_x ++ map row_x (firstn m js)
              ++ skipn (Nat.min m (length js)) rest_x,
            done_y ++ map row_y (firstn m js)
              ++ skipn (Nat.min m (length js)) rest_y,
            counters, g).
Proof.
  induction m as [|m IH]; intros js done_x done_y rest_x rest_y counters g
                                 Hjs Ly Hrx Hry.
  - reflexivity.
  - destruct js as [|j js]; [reflexivity|].
    apply Forall_cons_iff in Hjs. destruct Hjs as [Hj Hjs].
    destruct rest_x as [|zx rest_x]; [simpl in Hrx; lia|].
    destruct rest_y as [|zy rest_y]; [simpl in Hry; lia|].
    cbn [seq map combine batch_for_each firstn length Nat.min skipn].
    rewrite (Hrow done_x done_y zx zy rest_x rest_y j counters g Hj Ly).
    cbn [batch_bind].
    pose proof (IH js (done_x ++ [row_x j]) (done_y ++ [row_y j]) rest_x rest_y
                   counters g Hjs) as Hrest.
    rewrite <- !app_assoc in Hrest. cbn [app] in Hrest.
    replace (length (done_x ++ [row_x j])) with (S (length done_x)) in Hrest
      by (rewrite length_app; simpl; lia).
    unfold volume, image in *.
    rewrite Hrest; try (rewrite !length_app; simpl; lia);
      try (simpl in Hrx, Hry; lia).
    reflexivity.
Qed.

Lemma getitem_run (index : Z) (g : Rand.rng) :
  0 <= index ->
  let rows := Py.slice (index * batch_size self) ((index + 1) * batch_size self)
                       (indexes self) in
  __getitem__ elastic_transform ndimage_rotate enhance_brightness median_blur
              str_int str_round2 self index junk_x junk_y ds g
  = Done (map row_x rows
            ++ skipn (length rows) (tabulate4 (batch_size self) h w c junk_x),
          map row_y rows
            ++ skipn (length rows) (tabulate4 (batch_size self) h w c junk_y),
          self, g).
Proof.
  intros Hindex rows.
  destruct (slice_batch (indexes self) index (batch_size self) Hindex Hsize)
    as [Hlen Hget]. fold rows in Hlen, Hget.
  unfold __getitem__. rewrite Hdim, Hchannels. unfold np_empty.
  assert (E : (batch_size self <? 0) || (h <? 0) || (w <? 0) || (c <? 0) = false).
  { rewrite !orb_false_iff, !Z.ltb_ge. lia. }
  rewrite E. cbn [lift batch_bind]. fold rows.
  rewrite range_list_unit, Z.sub_0_r.
  rewrite (map_ext (fun t => 0 + Z.of_nat t) Z.of_nat) by (intros; lia).
  assert (Hrows : Forall (fun j => 0 <= j < n) rows).
  { unfold rows, Py.slice. apply Forall_forall. intros j Hj.
    apply in_firstn, in_skipn in Hj.
    rewrite Forall_forall in Hindexes. apply Hindexes, Hj. }
  pose proof (tabulate4_rect4 (batch_size self) h w c junk_x Hsize Hh Hw Hc) as [Tx _].
  pose proof (tabulate4_rect4 (batch_size self) h w c junk_y Hsize Hh Hw Hc) as [Ty _].
  unfold Np.shape0 in Tx, Ty.
  pose proof (rows_from (Z.to_nat (batch_size self)) rows [] []
                (tabulate4 (batch_size self) h w c junk_x)
                (tabulate4 (batch_size self) h w c junk_y)
                (t_counter (aug self)) g Hrows eq_refl
                ltac:(lia) ltac:(lia)) as Hrun.
  cbn [app length] in Hrun. fold row. unfold volume, image in *. rewrite Hrun.
  cbn [batch_bind]. rewrite with_counters_same.
  rewrite firstn_all2 by lia.
  replace (Nat.min (Z.to_nat (batch_size self)) (length rows)) with (length rows)
    by lia.
  reflexivity.
Qed.

(** What the closed form says of the rows. *)
Lemma getitem_rows (index : Z) (g : Rand.rng) :
  0 <= index ->
  (forall j, 0 <= j < n -> rect3 h w c (row_x j) /\ rect3 h w c (row_y j)) ->
  exists batch_x batch_y,
    __getitem__ elastic_transform ndimage_rotate enhance_brightness median_blur
                str_int str_round2 self index junk_x junk_y ds g
    = Done (batch_x, batch_y, self, g)
    /\ rect4 (batch_size self) h w c batch_x
    /\ rect4 (batch_size self) h w c batch_y
    /\ forall i, 0 <= i < batch_size self ->
         let p := index * batch_size self + i in
         if p <? Np.shape0 (indexes self)
         then Np.get [] batch_x i = row_x (Np.get 0 (indexes self) p)
              /\ Np.get [] batch_y i = row_y (Np.get 0 (indexes self) p)
         else forall y x ch, 0 <= y < h -> 0 <= x < w -> 0 <= ch < c ->
                px3 0%Q (Np.get [] batch_x i) y x ch = junk_x i y x ch
                /\ px3 0%Q (Np.get [] batch_y i) y x ch = junk_y i y x ch.
Proof.
  intros Hindex Hrect.
  pose proof (getitem_run index g Hindex) as Hrun. cbv zeta in Hrun.
  destruct (slice_batch (indexes self) index (batch_size self) Hindex Hsize)
    as [Hlen Hget].
  set (rows := Py.slice (index * batch_size self) ((index + 1) * batch_size self)
                        (indexes self)) in *.
  assert (Hrows : Forall (fun j => 0 <= j < n) rows).
  { unfold rows, Py.slice. apply Forall_forall. intros j Hj.
    apply in_firstn, in_skipn in Hj.
    rewrite Forall_forall in Hindexes. apply Hindexes, Hj. }
  pose proof (tabulate4_rect4 (batch_size self) h w c junk_x Hsize Hh Hw Hc)
    as [Tx Rx].
  pose proof (tabulate4_rect4 (batch_size self) h w c junk_y Hsize Hh Hw Hc)
    as [Ty Ry].
  unfold Np.shape0 in Tx, Ty.
  do 2 eexists. split; [exact Hrun|].
  assert (Hshape : forall (f : Z -> image Q) (T : volume Q),
             Z.of_nat (length T) = batch_size self -> Forall (rect3 h w c) T ->
             (forall j, 0 <= j < n -> rect3 h w c (f j)) ->
             rect4 (batch_size self) h w c (map f rows ++ skipn (length rows) T)).
  { intros f T HT HR Hf. split.
    - unfold Np.shape0. rewrite length_app, length_map, length_skipn. lia.
    - apply Forall_app. split.
      + apply Forall_map_iff. eapply Forall_impl; [|exact Hrows].
        intros j Hj. apply Hf, Hj.
      + apply Forall_forall. intros t Ht. apply in_skipn in Ht.
        rewrite Forall_forall in HR. apply HR, Ht. }
  split; [apply Hshape; [exact Tx | exact Rx | intros j Hj; apply Hrect, Hj]|].
  split; [apply Hshape; [exact Ty | exact Ry | intros j Hj; apply Hrect, Hj]|].
  intros i Hi. cbv zeta. unfold Np.shape0.
  assert (Hread : forall (f : Z -> image Q) (T : volume Q),
             Z.of_nat (length T) = batch_size self ->
             Np.get [] (map f rows ++ skipn (length rows) T) i
             = if index * batch_size self + i <? Z.of_nat (length (indexes self))
               then f (Np.get 0 (indexes self) (index * batch_size self + i))
               else Np.get [] T i).
  { intros f T HT. unfold Np.get at 1.
    destruct (index * batch_size self + i <? Z.of_nat (length (indexes self))) eqn:E.
    - apply Z.ltb_lt in E. rewrite app_nth1 by (rewrite length_map; lia).
      rewrite (nth_indep _ _ (f 0)) by (rewrite length_map; lia).
      rewrite (map_nth f). f_equal. apply Hget. lia.
    - apply Z.ltb_ge in E. rewrite app_nth2 by (rewrite length_map; lia).
      rewrite length_map, nth_skipn. unfold Np.get. f_equal. lia. }
  rewrite (Hread row_x _ Tx), (Hread row_y _ Ty).
  destruct (index * batch_size self + i <? Z.of_nat (length (indexes self))).
  - split; reflexivity.
  - intros y x ch Hy Hx Hch. split; apply tabulate4_px; assumption.
Qed.

End Rows.

Section Served.

Variable elastic_transform : image Q -> Q -> Q -> Q -> image Q.
Variable ndimage_rotate : image Q -> Q -> Z -> image Q.
Variable enhance_brightness : image Q -> Q -> image Q.
Variable median_blur : image Q -> Z -> image Q.
Variable str_int : Z -> string.
Variable str_round2 : Q -> string.

Variables (self : ImageDataGenerator) (ds : Z -> draws) (n h w c : Z).

Let row := getitem_row elastic_transform ndimage_rotate enhance_brightness
                       median_blur str_int str_round2 self ds.

Hypothesis Hda : da self = false.
Hypothesis Hdim : dim self = (h, w).
Hypothesis Hchannels : n_channels self = c.

(** A row copied from the data. *)
Lemma plain_row (done_x done_y : volume Q) (zx zy : image Q)
      (rest_x rest_y : volume Q) (j : Z) (counters : list Z) (g : Rand.rng) :
  random_crops_in_DA self = false ->
  rect4 n h w c (X self) -> rect4 n h w c (Y self) ->
  0 <= j < n -> length done_y = length done_x ->
  row (Z.of_nat (length done_x), j)
      (done_x ++ zx :: rest_x, done_y ++ zy :: rest_y, counters, g)
  = Done (done_x ++ Np.get [] (X self) j :: rest_x,
          done_y ++ Np.get [] (Y self) j :: rest_y, counters, g).
Proof.
  intros Hcrops HX HY Hj Ly.
  unfold row, getitem_row. rewrite Hda, Hcrops, Hdim, Hchannels. cbn [negb].
  assert (IX : Arr.item [] (X self) j = Ok (Np.get [] (X self) j))
    by (apply item_in_range; pose proof (proj1 HX) as H0;
        unfold volume, image in *; lia).
  assert (IY : Arr.item [] (Y self) j = Ok (Np.get [] (Y self) j))
    by (apply item_in_range; pose proof (proj1 HY) as H0;
        unfold volume, image in *; lia).
  rewrite (lift_Ok _ _ IX). cbn [batch_bind].
  rewrite (lift_Ok _ _ IY). cbn [batch_bind].
  pose proof (set_tile_append h w c done_x zx _ rest_x
                (rect4_get n h w c (X self) j HX Hj)) as Sx.
  pose proof (set_tile_append h w c done_y zy _ rest_y
                (rect4_get n h w c (Y self) j HY Hj)) as Sy.
  rewrite Ly in Sy.
  rewrite (lift_Ok _ _ Sx). cbn [batch_bind].
  rewrite (lift_Ok _ _ Sy). cbn [batch_bind].
  reflexivity.
Qed.

(** A row cropped in validation mode. *)
Lemma val_crop_row (H W : Z) (done_x done_y : volume Q) (zx zy : image Q)
      (rest_x rest_y : volume Q) (j : Z) (counters : list Z) (g : Rand.rng) :
  random_crops_in_DA self = true -> val self = true -> train_prob self = None ->
  h = crop_length self -> w = crop_length self -> c = 1 ->
  rect4 n H W 1 (X self) -> rect4 n H W 1 (Y self) ->
  1 <= crop_length self <= H -> crop_length self <= W ->
  0 <= j < n -> length done_y = length done_x ->
  row (Z.of_nat (length done_x), j)
      (done_x ++ zx :: rest_x, done_y ++ zy :: rest_y, counters, g)
  = Done (done_x ++ Np.slice2 0 (0 + crop_length self) 0 (0 + crop_length self)
                              (Np.get [] (X self) j) :: rest_x,
          done_y ++ Np.slice2 0 (0 + crop_length self) 0 (0 + crop_length self)
                              (Np.get [] (Y self) j) :: rest_y, counters, g).
Proof.
  intros Hcrops Hval Hprob Eh Ew Ec HX HY Hlen Hlen' Hj Ly.
  unfold row, getitem_row. rewrite Hda, Hcrops, Hdim, Hchannels, Hprob, Hval.
  cbn [negb].
  assert (IX : Arr.item [] (X self) j = Ok (Np.get [] (X self) j))
    by (apply item_in_range; pose proof (proj1 HX) as H0;
        unfold volume, image in *; lia).
  assert (IY : Arr.item [] (Y self) j = Ok (Np.get [] (Y self) j))
    by (apply item_in_range; pose proof (proj1 HY) as H0;
        unfold volume, image in *; lia).
  rewrite (lift_Ok _ _ IX). cbn [batch_bind].
  rewrite (lift_Ok _ _ IY). cbn [batch_bind].
  pose proof (rect4_get n H W 1 (X self) j HX Hj) as Himg.
  pose proof (rect4_get n H W 1 (Y self) j HY Hj) as Hmask.
  assert (S2 : Np.shape2 (Np.get [] (X self) j) = 1)
    by (apply (rect3_shapes H W 1 _ Himg); lia).
  unfold random_crop. rewrite S2. cbn [Z.eqb Pos.eqb assert bind lift batch_bind].
  destruct (crop_inside 0%Q H W 1 0 0 (crop_length self) (crop_length self) _ Himg)
    as [Hri _]; try lia.
  destruct (crop_inside 0%Q H W 1 0 0 (crop_length self) (crop_length self) _ Hmask)
    as [Hrm _]; try lia.
  rewrite <- Eh in Hri at 1. rewrite <- Ew in Hri at 1. rewrite <- Ec in Hri.
  rewrite <- Eh in Hrm at 1. rewrite <- Ew in Hrm at 1. rewrite <- Ec in Hrm.
  pose proof (set_tile_append h w c done_x zx _ rest_x Hri) as Sx.
  pose proof (set_tile_append h w c done_y zy _ rest_y Hrm) as Sy.
  rewrite Ly in Sy.
  rewrite (lift_Ok _ _ Sx). cbn [batch_bind].
  rewrite (lift_Ok _ _ Sy). cbn [batch_bind].
  reflexivity.
Qed.

End Served.

(** ** The generator object after [__init__] *)

Lemma init_fields (X0 Y0 : volume Q) (size : Z) (dim0 : Z * Z) (channels : Z)
      (shuffle0 da0 : bool) (e_prob0 : Q) (elastic0 vflip0 hflip0 rotation0 : bool)
      (range0 : Q) (brightness0 : Q * Q) (median0 : Z * Z) (crops0 : bool)
      (length0 : Z) (prob_map0 : bool) (train_prob0 : option (list (list (list Q))))
      (val0 : bool) (g : Rand.rng) :
  let self := fst (__init__ X0 Y0 size dim0 channels shuffle0 da0 e_prob0 elastic0
                            vflip0 hflip0 rotation0 range0 brightness0 median0
                            crops0 length0 prob_map0 train_prob0 val0 g) in
  X self = X0
  /\ Y self = map (map (map (map (fun v => v / 255)%Q))) Y0
  /\ batch_size self = size
  /\ dim self = (if crops0 then (length0, length0) else dim0)
  /\ n_channels self = channels
  /\ da self = da0
  /\ random_crops_in_DA self = crops0
  /\ crop_length self = length0
  /\ train_prob self = train_prob0
  /\ val self = val0
  /\ arrangement (Np.shape0 X0) (indexes self)
  /\ (shuffle0 = false -> indexes self = Py.range_list 0 (Np.shape0 X0) 1).
Proof.
  cbv zeta. unfold __init__.
  match goal with
  | |- context [on_epoch_end ?s g] =>
      destruct (on_epoch_end_run s g) as (l & g' & -> & Harr & Hid)
  end.
  cbn [X shuffle] in Harr, Hid.
  destruct crops0; cbn [fst with_dim with_indexes X Y batch_size dim n_channels da
                          random_crops_in_DA crop_length train_prob val indexes];
    (do 10 (split; [reflexivity|]); split; [exact Harr|];
     intros Hs; apply Hid, Hs).
Qed.

Lemma arrangement_in_range (n : Z) (l : list Z) :
  arrangement n l -> Forall (fun j => 0 <= j < n) l.
Proof. intros [_ Hin]. apply Forall_forall. intros j Hj. apply Hin, Hj. Qed.

Lemma arrangement_get (n : Z) (l : list Z) (p : Z) :
  0 <= n -> arrangement n l -> 0 <= p < n -> 0 <= Np.get 0 l p < n.
Proof.
  intros Hn Harr Hp. pose proof (arrangement_length n l Hn Harr) as HL.
  apply (proj2 Harr). apply get_in. unfold Np.shape0. lia.
Qed.

Lemma arrangement_get_inj (n : Z) (l : list Z) (p q : Z) :
  0 <= n -> arrangement n l -> 0 <= p < n -> 0 <= q < n ->
  Np.get 0 l p = Np.get 0 l q -> p = q.
Proof.
  intros Hn Harr Hp Hq E. pose proof (arrangement_length n l Hn Harr) as HL.
  unfold Np.get in E.
  apply (proj1 (NoDup_nth l 0) (proj1 Harr)) in E; lia.
Qed.

Lemma scaled_rect4 (n h w c : Z) (f : Q -> Q) (v : volume Q) :
  rect4 n h w c v -> rect4 n h w c (map (map (map (map f))) v).
Proof.
  intros [Hn Himgs]. split; [now rewrite shape0_map|].
  apply Forall_map_iff. eapply Forall_impl; [|exact Himgs].
  intros img [Hh Hrows]. split; [now rewrite shape0_map|].
  apply Forall_map_iff. eapply Forall_impl; [|exact Hrows].
  intros r [Hw Hpx]. split; [now rewrite shape0_map|].
  apply Forall_map_iff. eapply Forall_impl; [|exact Hpx].
  intros px Hc. now rewrite shape0_map.
Qed.

Lemma batch_position (n size index i : Z) :
  1 <= size -> 0 <= index < n / size -> 0 <= i < size ->
  0 <= index * size + i < n.
Proof.
  intros Hs Hindex Hi.
  pose proof (Z.mul_div_le n size ltac:(lia)) as H1.
  assert (index * size <= (n / size - 1) * size)
    by (apply Z.mul_le_mono_nonneg_r; lia).
  assert (0 <= index * size) by (apply Z.mul_nonneg_nonneg; lia).
  lia.
Qed.

(** ** Epochs and batches *)

(** [on_epoch_end] leaves in [indexes] every sample index of the data once:
    no index is repeated and none is missing, whatever the draws of the
    shuffle; without [shuffle] the indexes are in order and no draw is
    taken. *)
Theorem on_epoch_end_arranges_every_index
        (self : ImageDataGenerator) (g : Rand.rng) :
  let self' := fst (on_epoch_end self g) in
  NoDup (indexes self')
  /\ (forall j, In j (indexes self') <-> 0 <= j < Np.shape0 (X self))
  /\ Np.shape0 (indexes self') = Np.shape0 (X self)
  /\ (shuffle self = false ->
      indexes self' = Py.range_list 0 (Np.shape0 (X self)) 1
      /\ snd (on_epoch_end self g) = g).
Proof.
  cbv zeta. destruct (on_epoch_end_run self g) as (l & g' & -> & Harr & Hid).
  cbn [fst snd with_indexes indexes].
  split; [apply Harr|]. split; [apply Harr|].
  split; [apply arrangement_length; [apply shape0_nonneg | exact Harr]|].
  exact Hid.
Qed.

(** Without augmentation and without random crops, [__getitem__] returns a
    batch of [batch_size] rows: row [i] of batch [index] is the sample (and
    the mask) at position [index*batch_size + i] of [indexes], and the rows
    for which [indexes] has no position left are not written: they hold what
    [np.empty] found in memory. The generator object and the random state
    are left as they were. *)
Theorem getitem_plain_rows
        (elastic_transform : image Q -> Q -> Q -> Q -> image Q)
        (ndimage_rotate : image Q -> Q -> Z -> image Q)
        (enhance_brightness : image Q -> Q -> image Q)
        (median_blur : image Q -> Z -> image Q)
        (str_int : Z -> string) (str_round2 : Q -> string)
        (self : ImageDataGenerator) (index : Z)
        (junk_x junk_y : Z -> Z -> Z -> Z -> Q) (ds : Z -> draws) (g : Rand.rng)
        (n h w c : Z)
        (Hda : da self = false) (Hcrops : random_crops_in_DA self = false)
        (Hdim : dim self = (h, w)) (Hchannels : n_channels self = c)
        (HX : rect4 n h w c (X self)) (HY : rect4 n h w c (Y self))
        (Hh : 0 <= h) (Hw : 0 <= w) (Hc : 0 <= c)
        (Hindexes : Forall (fun j => 0 <= j < n) (indexes self))
        (Hsize : 0 <= batch_size self) (Hindex : 0 <= index) :
  exists batch_x batch_y,
    __getitem__ elastic_transform ndimage_rotate enhance_brightness median_blur
                str_int str_round2 self index junk_x junk_y ds g
    = Done (batch_x, batch_y, self, g)
    /\ rect4 (batch_size self) h w c batch_x
    /\ rect4 (batch_size self) h w c batch_y
    /\ forall i, 0 <= i < batch_size self ->
         let p := index * batch_size self + i in
         if p <? Np.shape0 (indexes self)
         then Np.get [] batch_x i = Np.get [] (X self) (Np.get 0 (indexes self) p)
              /\ Np.get [] batch_y i
                 = Np.get [] (Y self) (Np.get 0 (indexes self) p)
         else forall y x ch, 0 <= y < h -> 0 <= x < w -> 0 <= ch < c ->
                px3 0%Q (Np.get [] batch_x i) y x ch = junk_x i y x ch
                /\ px3 0%Q (Np.get [] batch_y i) y x ch = junk_y i y x ch.
Proof.
  apply (getitem_rows elastic_transform ndimage_rotate enhance_brightness
           median_blur str_int str_round2 self ds n h w c junk_x junk_y
           (Np.get [] (X self)) (Np.get [] (Y self)) Hdim Hchannels Hh Hw Hc
           Hindexes Hsize).
  - intros. apply (plain_row elastic_transform ndimage_rotate enhance_brightness
                     median_blur str_int str_round2 self ds n h w c Hda Hdim
                     Hchannels); assumption.
  - exact Hindex.
  - intros j Hj. split; [apply (rect4_get n h w c (X self) j HX Hj)
                        | apply (rect4_get n h w c (Y self) j HY Hj)].
Qed.

(** A generator built by [__init__] without augmentation and without random
    crops serves, in the [len(X) // batch_size] batches of an epoch, complete
    batches of samples taken at distinct positions of the data, each with
    its own mask divided by 255: no sample is served twice, and the
    [len(X) mod batch_size] samples at the end of the epoch order are not
    served. Without [shuffle] row [i] of batch [index] is sample
    [index*batch_size + i]. *)
Theorem epoch_batches_serve_distinct_samples
        (elastic_transform : image Q -> Q -> Q -> Q -> image Q)
        (ndimage_rotate : image Q -> Q -> Z -> image Q)
        (enhance_brightness : image Q -> Q -> image Q)
        (median_blur : image Q -> Z -> image Q)
        (str_int : Z -> string) (str_round2 : Q -> string)
        (X0 Y0 : volume Q) (size : Z) (n h w c : Z)
        (shuffle0 : bool) (e_prob0 : Q) (elastic0 vflip0 hflip0 rotation0 : bool)
        (range0 : Q) (brightness0 : Q * Q) (median0 : Z * Z)
        (length0 : Z) (prob_map0 : bool)
        (train_prob0 : option (list (list (list Q)))) (val0 : bool)
        (g0 : Rand.rng)
        (HX : rect4 n h w c X0) (HY : rect4 n h w c Y0)
        (Hh : 0 <= h) (Hw : 0 <= w) (Hc : 0 <= c) (Hsize : 1 <= size) :
  let self := fst (__init__ X0 Y0 size (h, w) c shuffle0 false e_prob0 elastic0
                            vflip0 hflip0 rotation0 range0 brightness0 median0
                            false length0 prob_map0 train_prob0 val0 g0) in
  let sample index i := Np.get 0 (indexes self) (index * size + i) in
  __len__ self = Ok (n / size)
  /\ (forall index i, 0 <= index < n / size -> 0 <= i < size ->
        0 <= sample index i < n)
  /\ (forall index i index' i',
        0 <= index < n / size -> 0 <= i < size ->
        0 <= index' < n / size -> 0 <= i' < size ->
        sample index i = sample index' i' -> index = index' /\ i = i')
  /\ (shuffle0 = false ->
      forall index i, 0 <= index < n / size -> 0 <= i < size ->
        sample index i = index * size + i)
  /\ forall index junk_x junk_y ds g,
       0 <= index < n / size ->
       exists batch_x batch_y,
         __getitem__ elastic_transform ndimage_rotate enhance_brightness
                     median_blur str_int str_round2 self index junk_x junk_y ds g
         = Done (batch_x, batch_y, self, g)
         /\ forall i, 0 <= i < size ->
              Np.get [] batch_x i = Np.get [] X0 (sample index i)
              /\ Np.get [] batch_y i
                 = map (map (map (fun v => v / 255)%Q))
                       (Np.get [] Y0 (sample index i)).
Proof.
  cbv zeta.
  destruct (init_fields X0 Y0 size (h, w) c shuffle0 false e_prob0 elastic0 vflip0
              hflip0 rotation0 range0 brightness0 median0 false length0 prob_map0
              train_prob0 val0 g0)
    as (FX & FY & Fsize & Fdim & Fch & Fda & Fcrops & _ & _ & _ & Harr & Hid).
  set (self := fst (__init__ X0 Y0 size (h, w) c shuffle0 false e_prob0 elastic0
                             vflip0 hflip0 rotation0 range0 brightness0 median0
                             false length0 prob_map0 train_prob0 val0 g0)) in *.
  pose proof (proj1 HX) as HX0. pose proof (proj1 HY) as HY0.
  assert (Hn : 0 <= n) by (rewrite <- HX0; apply shape0_nonneg).
  unfold volume, image in *. rewrite HX0 in Harr, Hid.
  pose proof (arrangement_length n _ Hn Harr) as HL.
  split.
  { unfold __len__. rewrite Fsize, FX. unfold volume, image in *. rewrite HX0.
    replace (size =? 0) with false by (symmetry; apply Z.eqb_neq; lia).
    reflexivity. }
  split.
  { intros index i Hindex Hi. apply (arrangement_get n _ _ Hn Harr).
    apply batch_position; assumption. }
  split.
  { intros index i index' i' Hindex Hi Hindex' Hi' E.
    apply (arrangement_get_inj n _ _ _ Hn Harr) in E;
      [|apply batch_position; assumption..].
    apply (radix_eq size index i index' i' Hi Hi' E). }
  split.
  { intros Hs index i Hindex Hi. rewrite (Hid Hs). unfold Np.get.
    pose proof (batch_position n size index i Hsize Hindex Hi) as Hp.
    rewrite range_list_nth by lia. lia. }
  intros index junk_x junk_y ds g Hindex.
  assert (HY' : rect4 n h w c (Y self))
    by (rewrite FY; apply scaled_rect4; exact HY).
  assert (HX' : rect4 n h w c (X self)) by (rewrite FX; exact HX).
  destruct (getitem_rows elastic_transform ndimage_rotate enhance_brightness
              median_blur str_int str_round2 self ds n h w c junk_x junk_y
              (Np.get [] (X self)) (Np.get [] (Y self)) Fdim Fch Hh Hw Hc
              (arrangement_in_range n _ Harr) ltac:(lia)) with (index := index) (g := g)
    as (bx & by_ & Hrun & _ & _ & Hrows).
  - intros. apply (plain_row elastic_transform ndimage_rotate enhance_brightness
                     median_blur str_int str_round2 self ds n h w c Fda Fdim Fch);
      assumption.
  - lia.
  - intros j Hj. split; [apply (rect4_get n h w c _ j HX' Hj)
                        | apply (rect4_get n h w c _ j HY' Hj)].
  - exists bx, by_. split; [exact Hrun|].
    intros i Hi. rewrite Fsize in Hrows. specialize (Hrows i Hi). cbv zeta in Hrows.
    pose proof (batch_position n size index i Hsize Hindex Hi) as Hp.
    unfold Np.shape0 in Hrows.
    replace (index * size + i <? Z.of_nat (length (indexes self))) with true in Hrows
      by (symmetry; apply Z.ltb_lt; lia).
    destruct Hrows as [Hbx Hby]. rewrite Hbx, Hby, FX, FY. split; [reflexivity|].
    apply (get_map [] []). rewrite HY0.
    apply (arrangement_get n _ _ Hn Harr Hp).
Qed.

Lemma getitem_without_train_prob (elastic_transform : image Q -> Q -> Q -> Q -> image Q)
      (ndimage_rotate : image Q -> Q -> Z -> image Q)
      (enhance_brightness : image Q -> Q -> image Q)
      (median_blur : image Q -> Z -> image Q)
      (str_int : Z -> string) (str_round2 : Q -> string)
      (self : ImageDataGenerator) (index : Z)
      (junk_x junk_y : Z -> Z -> Z -> Z -> Q) (ds : Z -> draws) (g : Rand.rng) :
  da self = true -> random_crops_in_DA self = true -> train_prob self = None ->
  1 <= batch_size self -> 0 <= fst (dim self) -> 0 <= snd (dim self) ->
  0 <= n_channels self -> 0 <= index ->
  index * batch_size self < Np.shape0 (indexes self) ->
  0 <= Np.get 0 (indexes self) (index * batch_size self) < Np.shape0 (X self) ->
  0 <= Np.get 0 (indexes self) (index * batch_size self) < Np.shape0 (Y self) ->
  __getitem__ elastic_transform ndimage_rotate enhance_brightness median_blur
              str_int str_round2 self index junk_x junk_y ds g
  = Failed TypeError.
Proof.
  intros Hda Hcrops Hprob Hsize Hh Hw Hc Hindex Hpos HjX HjY.
  destruct (slice_batch (indexes self) index (batch_size self) Hindex ltac:(lia))
    as [Hlen Hget].
  unfold __getitem__. destruct (dim self) as [h w] eqn:Hdim. cbn [fst snd] in Hh, Hw.
  unfold np_empty.
  assert (E : (batch_size self <? 0) || (h <? 0) || (w <? 0)
              || (n_channels self <? 0) = false).
  { rewrite !orb_false_iff, !Z.ltb_ge. lia. }
  rewrite E. cbn [lift batch_bind].
  set (rows := Py.slice (index * batch_size self) ((index + 1) * batch_size self)
                        (indexes self)) in *.
  unfold Np.shape0 in Hpos.
  assert (Hfirst : Np.get 0 rows 0
                   = Np.get 0 (indexes self) (index * batch_size self)).
  { rewrite Hget by lia. f_equal. lia. }
  destruct rows as [|j rows']; [simpl in Hlen; lia|].
  unfold Np.get in Hfirst at 1. cbn [Z.to_nat nth] in Hfirst.
  rewrite range_list_unit.
  destruct (Z.to_nat (batch_size self - 0)) as [|k] eqn:Ek; [lia|].
  cbn [seq map combine batch_for_each].
  unfold getitem_row at 1. rewrite Hdim, Hda, Hcrops, Hprob. cbn [negb].
  rewrite (lift_Ok _ _ (item_in_range [] (X self) j ltac:(rewrite Hfirst; exact HjX))).
  cbn [batch_bind].
  rewrite (lift_Ok _ _ (item_in_range [] (Y self) j ltac:(rewrite Hfirst; exact HjY))).
  reflexivity.
Qed.

(** With augmentation and random crops both on, [__getitem__] subscripts
    [train_prob] whether or not [prob_map] is set: a generator built by
    [__init__] with [da], [random_crops_in_DA] and no [train_prob] (the
    default) fails with a [TypeError] on every batch of the epoch. *)
Theorem getitem_da_random_crops_need_train_prob
        (elastic_transform : image Q -> Q -> Q -> Q -> image Q)
        (ndimage_rotate : image Q -> Q -> Z -> image Q)
        (enhance_brightness : image Q -> Q -> image Q)
        (median_blur : image Q -> Z -> image Q)
        (str_int : Z -> string) (str_round2 : Q -> string)
        (X0 Y0 : volume Q) (size : Z) (dim0 : Z * Z) (channels : Z)
        (shuffle0 : bool) (e_prob0 : Q) (elastic0 vflip0 hflip0 rotation0 : bool)
        (range0 : Q) (brightness0 : Q * Q) (median0 : Z * Z)
        (length0 : Z) (prob_map0 val0 : bool) (g0 : Rand.rng)
        (index : Z) (junk_x junk_y : Z -> Z -> Z -> Z -> Q) (ds : Z -> draws)
        (g : Rand.rng)
        (HY : Np.shape0 Y0 = Np.shape0 X0)
        (Hsize : 1 <= size) (Hlength : 0 <= length0) (Hchannels : 0 <= channels)
        (Hindex : 0 <= index < Np.shape0 X0 / size) :
  __getitem__ elastic_transform ndimage_rotate enhance_brightness median_blur
              str_int str_round2
              (fst (__init__ X0 Y0 size dim0 channels shuffle0 true e_prob0
                             elastic0 vflip0 hflip0 rotation0 range0 brightness0
                             median0 true length0 prob_map0 None val0 g0))
              index junk_x junk_y ds g
  = Failed TypeError.
Proof.
  destruct (init_fields X0 Y0 size dim0 channels shuffle0 true e_prob0 elastic0
              vflip0 hflip0 rotation0 range0 brightness0 median0 true length0
              prob_map0 None val0 g0)
    as (FX & FY & Fsize & Fdim & Fch & Fda & Fcrops & _ & Fprob & _ & Harr & _).
  set (self := fst (__init__ X0 Y0 size dim0 channels shuffle0 true e_prob0
                             elastic0 vflip0 hflip0 rotation0 range0 brightness0
                             median0 true length0 prob_map0 None val0 g0)) in *.
  pose proof (shape0_nonneg X0) as Hn.
  pose proof (arrangement_length _ _ Hn Harr) as HL.
  pose proof (batch_position (Np.shape0 X0) size index 0 Hsize Hindex ltac:(lia))
    as Hp.
  pose proof (arrangement_get _ _ _ Hn Harr Hp) as Hj.
  rewrite Z.add_0_r in Hp, Hj.
  apply getitem_without_train_prob; rewrite ?Fdim, ?Fsize, ?Fch; cbn [fst snd];
    try assumption; try lia.
  - unfold Np.shape0 at 1. lia.
  - rewrite FX. exact Hj.
  - rewrite FY, shape0_map. unfold volume, image in *. rewrite HY. exact Hj.
Qed.

(** A generator built by [__init__] for validation ([val]) with random crops
    and without augmentation serves no random crop: every row of a batch is
    the top-left [crop_length] square of its sample and of its mask (divided
    by 255), and the random state is left as it was. *)
Theorem getitem_validation_crops_are_top_left
        (elastic_transform : image Q -> Q -> Q -> Q -> image Q)
        (ndimage_rotate : image Q -> Q -> Z -> image Q)
        (enhance_brightness : image Q -> Q -> image Q)
        (median_blur : image Q -> Z -> image Q)
        (str_int : Z -> string) (str_round2 : Q -> string)
        (X0 Y0 : volume Q) (size : Z) (dim0 : Z * Z) (n h w : Z)
        (shuffle0 : bool) (e_prob0 : Q) (elastic0 vflip0 hflip0 rotation0 : bool)
        (range0 : Q) (brightness0 : Q * Q) (median0 : Z * Z)
        (length0 : Z) (prob_map0 : bool) (g0 : Rand.rng)
        (index : Z) (junk_x junk_y : Z -> Z -> Z -> Z -> Q) (ds : Z -> draws)
        (g : Rand.rng)
        (HX : rect4 n h w 1 X0) (HY : rect4 n h w 1 Y0)
        (Hsize : 1 <= size) (Hlength : 1 <= length0 <= h) (Hwidth : length0 <= w)
        (Hindex : 0 <= index < n / size) :
  let self := fst (__init__ X0 Y0 size dim0 1 shuffle0 false e_prob0 elastic0
                            vflip0 hflip0 rotation0 range0 brightness0 median0
                            true length0 prob_map0 None true g0) in
  exists batch_x batch_y,
    __getitem__ elastic_transform ndimage_rotate enhance_brightness median_blur
                str_int str_round2 self index junk_x junk_y ds g
    = Done (batch_x, batch_y, self, g)
    /\ rect4 size length0 length0 1 batch_x
    /\ rect4 size length0 length0 1 batch_y
    /\ forall i a b ch,
         0 <= i < size -> 0 <= a < length0 -> 0 <= b < length0 -> 0 <= ch < 1 ->
         let j := Np.get 0 (indexes self) (index * size + i) in
         0 <= j < n
         /\ px3 0%Q (Np.get [] batch_x i) a b ch = px3 0%Q (Np.get [] X0 j) a b ch
         /\ px3 0%Q (Np.get [] batch_y i) a b ch
            = (px3 0%Q (Np.get [] Y0 j) a b ch / 255)%Q.
Proof.
  cbv zeta.
  destruct (init_fields X0 Y0 size dim0 1 shuffle0 false e_prob0 elastic0 vflip0
              hflip0 rotation0 range0 brightness0 median0 true length0 prob_map0
              None true g0)
    as (FX & FY & Fsize & Fdim & Fch & Fda & Fcrops & Flen & Fprob & Fval & Harr & _).
  set (self := fst (__init__ X0 Y0 size dim0 1 shuffle0 false e_prob0 elastic0
                             vflip0 hflip0 rotation0 range0 brightness0 median0
                             true length0 prob_map0 None true g0)) in *.
  pose proof (proj1 HX) as HX0. pose proof (proj1 HY) as HY0.
  assert (Hn : 0 <= n) by (rewrite <- HX0; apply shape0_nonneg).
  unfold volume, image in *. rewrite HX0 in Harr.
  pose proof (arrangement_length n _ Hn Harr) as HL.
  assert (HY' : rect4 n h w 1 (Y self))
    by (rewrite FY; apply scaled_rect4; exact HY).
  assert (HX' : rect4 n h w 1 (X self)) by (rewrite FX; exact HX).
  set (crop := @Np.slice2 (list Q) 0 (0 + length0) 0 (0 + length0)).
  destruct (getitem_rows elastic_transform ndimage_rotate enhance_brightness
              median_blur str_int str_round2 self ds n length0 length0 1
              junk_x junk_y
              (fun j => crop (Np.get [] (X self) j))
              (fun j => crop (Np.get [] (Y self) j))
              Fdim Fch ltac:(lia) ltac:(lia) ltac:(lia)
              (arrangement_in_range n _ Harr) ltac:(lia)) with (index := index) (g := g)
    as (bx & by_ & Hrun & Hrx & Hry & Hrows).
  - intros. unfold crop. rewrite <- Flen.
    apply (val_crop_row elastic_transform ndimage_rotate enhance_brightness
             median_blur str_int str_round2 self ds n length0 length0 1 Fda Fdim
             Fch h w); try assumption; try (symmetry; exact Flen);
      try reflexivity; rewrite Flen; lia.
  - lia.
  - intros j Hj. unfold crop. split.
    + apply (crop_inside 0%Q h w 1 0 0 length0 length0 _
               (rect4_get n h w 1 _ j HX' Hj)); lia.
    + apply (crop_inside 0%Q h w 1 0 0 length0 length0 _
               (rect4_get n h w 1 _ j HY' Hj)); lia.
  - rewrite Fsize in *. exists bx, by_. split; [exact Hrun|].
    split; [exact Hrx|]. split; [exact Hry|].
    intros i a b ch Hi Ha Hb Hch. specialize (Hrows i Hi). cbv zeta in Hrows.
    pose proof (batch_position n size index i Hsize Hindex Hi) as Hp.
    pose proof (arrangement_get n _ _ Hn Harr Hp) as Hj.
    unfold Np.shape0 in Hrows.
    replace (index * size + i <? Z.of_nat (length (indexes self))) with true in Hrows
      by (symmetry; apply Z.ltb_lt; lia).
    destruct Hrows as [Hbx Hby]. rewrite Hbx, Hby. unfold crop.
    split; [exact Hj|].
    destruct (crop_inside 0%Q h w 1 0 0 length0 length0 _
                (rect4_get n h w 1 _ _ HX' Hj)) as [_ Hpx]; try lia.
    destruct (crop_inside 0%Q h w 1 0 0 length0 length0 _
                (rect4_get n h w 1 _ _ HY' Hj)) as [_ Hpy]; try lia.
    rewrite Hpx, Hpy by assumption. cbn [Z.add]. rewrite FX. split; [reflexivity|].
    rewrite FY. rewrite (get_map [] []) by (rewrite HY0; exact Hj).
    unfold px3.
    pose proof (rect4_get n h w 1 Y0 _ HY Hj) as Hm.
    rewrite (get_map [] []) by (rewrite (proj1 Hm); lia).
    rewrite (get_map [] []) by (rewrite (proj1 (rect3_row h w 1 _ a Hm ltac:(lia))); lia).
    pose proof (rect3_px h w 1 _ a b Hm ltac:(lia) ltac:(lia)) as Hc1.
    rewrite (get_map 0%Q 0%Q) by (rewrite Hc1; lia). reflexivity.
Qed.

(** ** The median filter along the first axis *)

Lemma map_result_map {A B : Type} (f : A -> result B) (g : A -> B) (l : list A) :
  Forall (fun x => f x = Ok (g x)) l -> Np.map_result f l = Ok (map g l).
Proof.
  induction 1 as [|x l Hx _ IH]; [reflexivity|].
  cbn [Np.map_result map]. rewrite Hx, IH. reflexivity.
Qed.

Lemma bcast_single {A : Type} (c : Z) (q : A) : Np.bcast c [q] = Ok (Np.zeros c q).
Proof.
  unfold Np.bcast. destruct (Np.shape0 [q] =? c) eqn:E; [|reflexivity].
  apply Z.eqb_eq in E. rewrite <- E. reflexivity.
Qed.

(** [np.expand_dims(sl, axis=-1)] broadcast to [c] channels. *)
Lemma bcast3_expand (n h c : Z) (sl : list (list Q)) :
  rect2 n h sl ->
  Np.bcast3 n h c (map (map (fun v => [v])) sl)
  = Ok (map (map (fun v => Np.zeros c v)) sl).
Proof.
  intros [Hn Hrows]. unfold Np.bcast3.
  rewrite bcast_id by (now rewrite shape0_map). cbn [bind].
  rewrite (map_result_map _ (map (fun px => Np.zeros c (Np.get 0%Q px 0)))).
  - rewrite map_map. f_equal. apply map_ext. intros r. rewrite map_map. reflexivity.
  - apply Forall_map_iff. eapply Forall_impl; [|exact Hrows].
    intros r Hr. cbv beta. rewrite bcast_id by (now rewrite shape0_map).
    cbn [bind]. apply map_result_map.
    apply Forall_map_iff, Forall_forall. intros v _. apply bcast_single.
Qed.

Lemma column_plane_rect2 (n h w c : Z) (data : volume Q) (i : Z) :
  rect4 n h w c data -> rect2 n h (column_plane data i).
Proof.
  intros [Hn Himgs]. unfold column_plane. split; [now rewrite shape0_map|].
  apply Forall_map_iff. eapply Forall_impl; [|exact Himgs].
  intros img [Hh _]. now rewrite shape0_map.
Qed.

Lemma rect2_row (n h : Z) (sl : list (list Q)) (k : Z) :
  rect2 n h sl -> 0 <= k < n -> Np.shape0 (Np.get [] sl k) = h.
Proof.
  intros [Hn Hrows] Hk. rewrite Forall_forall in Hrows. apply Hrows, get_in. lia.
Qed.

Section ZFilterProof.

Variable medianBlur : list (list Q) -> Z -> list (list Q).
Variables (data : volume Q) (n h w c mf : Z).

Hypothesis Hdata : rect4 n h w c data.
Hypothesis Hn : 1 <= n.
Hypothesis Hh : 1 <= h.
Hypothesis Hw : 1 <= w.
Hypothesis Hc : 1 <= c.
Hypothesis Hblur : forall sl, rect2 n h sl -> rect2 n h (medianBlur sl mf).

Let body (i : Z) (out_data : volume Q) : result (volume Q) :=
  _ <- Np.norm_index (Np.shape3 data) 0 ;;
  value <- Np.bcast3 (Np.shape0 out_data) (Np.shape1 out_data)
                     (Np.shape3 out_data)
                     (map (map (fun v => [v])) (medianBlur (column_plane data i) mf)) ;;
  Ok (Arr.zip_with
        (Arr.zip_with (fun row px => Np.set_nth (Z.to_nat i) px row))
        out_data value).

Lemma z_filter_step (p : nat) (out : volume Q) :
  Z.of_nat p < w ->
  z_filtered medianBlur data n h w c mf (Z.of_nat p) out ->
  exists out',
    body (Z.of_nat p) out = Ok out'
    /\ z_filtered medianBlur data n h w c mf (Z.of_nat p + 1) out'.
Proof.
  intros Hp [Hout Hpx].
  destruct (rect4_shapes n h w c data Hdata Hn Hh Hw) as (D0 & D1 & D2 & D3).
  destruct (rect4_shapes n h w c out Hout Hn Hh Hw) as (S0 & S1 & S2 & S3).
  pose proof (Hblur _ (column_plane_rect2 n h w c data (Z.of_nat p) Hdata)) as HB.
  set (B := medianBlur (column_plane data (Z.of_nat p)) mf) in *.
  unfold body. fold B. unfold volume, image in *.
  rewrite D3, S0, S1, S3. unfold Np.norm_index.
  replace ((0 <=? 0) && (0 <? c)) with true
    by (symmetry; apply andb_true_iff; split; [reflexivity | apply Z.ltb_lt; lia]).
  cbn [bind]. rewrite (bcast3_expand n h c B HB). cbn [bind].
  eexists. split; [reflexivity|].
  set (T := map (map (fun v => Np.zeros c v)) B).
  assert (HT0 : Np.shape0 T = n) by (unfold T; rewrite shape0_map; apply HB).
  assert (HTk : forall k, 0 <= k < n ->
                  Np.get [] T k = map (fun v => Np.zeros c v) (Np.get [] B k)).
  { intros k Hk. unfold T. apply (get_map [] []). rewrite (proj1 HB). exact Hk. }
  assert (HTky : forall k y, 0 <= k < n -> 0 <= y < h ->
                   Np.get [] (Np.get [] T k) y
                   = Np.zeros c (Np.get 0%Q (Np.get [] B k) y)).
  { intros k y Hk Hy. rewrite (HTk k Hk). apply (get_map 0%Q []).
    rewrite (rect2_row n h B k HB Hk). exact Hy. }
  split.
  - split.
    + rewrite shape0_zip_with by (rewrite HT0; apply Hout). apply Hout.
    + apply (Forall_zip_with (rect3 h w c)
               (fun t => Np.shape0 t = h
                         /\ Forall (fun px => Np.shape0 px = c) t));
        [ | apply Hout | ].
      * intros img t [Hih Hirows] [Hth Htpx]. split.
        -- rewrite shape0_zip_with by lia. exact Hih.
        -- apply (Forall_zip_with
                    (fun row => Np.shape0 row = w
                                /\ Forall (fun px => Np.shape0 px = c) row)
                    (fun px => Np.shape0 px = c)); [ | exact Hirows | exact Htpx].
           intros row px [Hrw Hrpx] Hpc. split.
           ++ unfold Np.shape0. rewrite set_nth_length. exact Hrw.
           ++ apply set_nth_Forall; assumption.
      * unfold T. apply Forall_map_iff. destruct HB as [_ HBrows].
        eapply Forall_impl; [|exact HBrows]. intros r Hr. split.
        -- now rewrite shape0_map.
        -- apply Forall_map_iff, Forall_forall. intros v _.
           apply zeros_shape0. lia.
  - intros k y x ch Hk Hy Hx Hch.
    unfold px3.
    rewrite (get_zip_with [] [] []) by (rewrite ?HT0, ?(proj1 Hout); lia).
    pose proof (rect4_get n h w c out k Hout Hk) as Himg.
    rewrite (get_zip_with [] [] [])
      by (rewrite ?(proj1 Himg), ?HTk, ?shape0_map, ?(rect2_row n h B k HB Hk);
          try assumption; lia).
    rewrite (HTky k y Hk Hy).
    destruct (rect3_row h w c _ y Himg Hy) as [Hrw _].
    destruct (Z.eq_dec x (Z.of_nat p)) as [-> | Hne].
    + rewrite get_set_nth_same by (rewrite Hrw; lia).
      rewrite zeros_get by lia.
      replace (Z.of_nat p <? Z.of_nat p + 1) with true
        by (symmetry; apply Z.ltb_lt; lia).
      reflexivity.
    + rewrite get_set_nth_other by lia.
      specialize (Hpx k y x ch Hk Hy Hx Hch). unfold px3 in Hpx. rewrite Hpx.
      replace (x <? Z.of_nat p + 1) with (x <? Z.of_nat p)
        by (apply eq_true_iff_eq; rewrite !Z.ltb_lt; lia).
      reflexivity.
Qed.

Lemma z_filter_from (q p : nat) (out : volume Q) :
  (p + q = Z.to_nat w)%nat ->
  z_filtered medianBlur data n h w c mf (Z.of_nat p) out ->
  exists out',
    Py.for_each (skipn p (Py.range_list 0 w 1)) body out = Ok out'
    /\ z_filtered medianBlur data n h w c mf w out'.
Proof.
  revert p out. induction q as [|q IH]; intros p out Hpq Hinv.
  - rewrite skipn_all2 by (rewrite range_list_length; lia).
    exists out. split; [reflexivity|].
    replace (Z.of_nat p) with w in Hinv by lia. exact Hinv.
  - rewrite (skipn_nth_cons 0) by (rewrite range_list_length; lia).
    rewrite range_list_nth by lia. cbn [Py.for_each].
    destruct (z_filter_step p out ltac:(lia) Hinv) as (out1 & -> & Hinv1).
    cbn [bind]. replace (Z.of_nat p + 1) with (Z.of_nat (S p)) in Hinv1 by lia.
    apply IH; [lia | exact Hinv1].
Qed.

Lemma z_filter_run :
  exists out,
    Py.for_range 0 (Np.shape2 data) 1 body data = Ok out
    /\ z_filtered medianBlur data n h w c mf w out.
Proof.
  destruct (rect4_shapes n h w c data Hdata Hn Hh Hw) as (D0 & D1 & D2 & D3).
  unfold volume, image in *. rewrite D2.
  rewrite for_range_steps by lia.
  apply (z_filter_from (Z.to_nat w) 0 data eq_refl).
  split; [exact Hdata|]. intros k y x ch Hk Hy Hx Hch.
  replace (x <? Z.of_nat 0) with false by (symmetry; apply Z.ltb_ge; lia).
  reflexivity.
Qed.

End ZFilterProof.


Lemma getitem_plain_rows_witness :
  exists batch_x batch_y,
    __getitem__ (fun im _ _ _ => im) (fun im _ _ => im) (fun im _ => im)
                (fun im _ => im) (fun _ => ""%string) (fun _ => ""%string)
                plain_generator 0 (fun _ _ _ _ => 7%Q) (fun _ _ _ _ => 7%Q)
                (fun _ => draws_flip_09) (fun _ => 5)
    = Done (batch_x, batch_y, plain_generator, fun _ => 5)
    /\ rect4 (batch_size plain_generator) 3 3 1 batch_x
    /\ rect4 (batch_size plain_generator) 3 3 1 batch_y
    /\ forall i, 0 <= i < batch_size plain_generator ->
         let p := 0 * batch_size plain_generator + i in
         if p <? Np.shape0 (indexes plain_generator)
         then Np.get [] batch_x i
              = Np.get [] (X plain_generator) (Np.get 0 (indexes plain_generator) p)
              /\ Np.get [] batch_y i
                 = Np.get [] (Y plain_generator)
                          (Np.get 0 (indexes plain_generator) p)
         else forall y x ch, 0 <= y < 3 -> 0 <= x < 3 -> 0 <= ch < 1 ->
                px3 0%Q (Np.get [] batch_x i) y x ch = 7%Q
                /\ px3 0%Q (Np.get [] batch_y i) y x ch = 7%Q.
Proof.
  apply (getitem_plain_rows
           (fun im _ _ _ => im) (fun im _ _ => im) (fun im _ => im) (fun im _ => im)
           (fun _ => ""%string) (fun _ => ""%string)
           plain_generator 0 (fun _ _ _ _ => 7%Q) (fun _ _ _ _ => 7%Q)
           (fun _ => draws_flip_09) (fun _ => 5) 2 3 3 1).
  - reflexivity.
  - reflexivity.
  - reflexivity.
  - reflexivity.
  - split; [reflexivity|]. repeat constructor.
  - split; [reflexivity|]. repeat constructor.
  - lia.
  - lia.
  - lia.
  - repeat constructor; simpl; lia.
  - simpl. lia.
  - lia.
Defined.

Lemma epoch_batches_serve_distinct_samples_witness :
  let self := fst (__init__ batch_images batch_masks 1 (3, 3) 1 true false 0
                            false false true false 0 (1, 1)%Q (0, 0)
                            false 0 false None false (fun _ => 5)) in
  let sample index i := Np.get 0 (indexes self) (index * 1 + i) in
  __len__ self = Ok (2 / 1)
  /\ (forall index i, 0 <= index < 2 / 1 -> 0 <= i < 1 ->
        0 <= sample index i < 2)
  /\ (forall index i index' i',
        0 <= index < 2 / 1 -> 0 <= i < 1 ->
        0 <= index' < 2 / 1 -> 0 <= i' < 1 ->
        sample index i = sample index' i' -> index = index' /\ i = i')
  /\ (true = false ->
      forall index i, 0 <= index < 2 / 1 -> 0 <= i < 1 ->
        sample index i = index * 1 + i)
  /\ forall index junk_x junk_y ds g,
       0 <= index < 2 / 1 ->
       exists batch_x batch_y,
         __getitem__ (fun im _ _ _ => im) (fun im _ _ => im) (fun im _ => im)
                     (fun im _ => im) (fun _ => ""%string) (fun _ => ""%string)
                     self index junk_x junk_y ds g
         = Done (batch_x, batch_y, self, g)
         /\ forall i, 0 <= i < 1 ->
              Np.get [] batch_x i = Np.get [] batch_images (sample index i)
              /\ Np.get [] batch_y i
                 = map (map (map (fun v => v / 255)%Q))
                       (Np.get [] batch_masks (sample index i)).
Proof.
  apply (epoch_batches_serve_distinct_samples
           (fun im _ _ _ => im) (fun im _ _ => im) (fun im _ => im) (fun im _ => im)
           (fun _ => ""%string) (fun _ => ""%string)
           batch_images batch_masks 1 2 3 3 1 true 0 false false true false 0
           (1, 1)%Q (0, 0) 0 false None false (fun _ => 5)).
  - split; [reflexivity|]. repeat constructor.
  - split; [reflexivity|]. repeat constructor.
  - lia.
  - lia.
  - lia.
  - lia.
Defined.

Lemma getitem_da_random_crops_need_train_prob_witness :
  __getitem__ (fun im _ _ _ => im) (fun im _ _ => im) (fun im _ => im)
              (fun im _ => im) (fun _ => ""%string) (fun _ => ""%string)
              (fst (__init__ batch_images batch_masks 1 (3, 3) 1 false true 0
                             false false true false 0 (1, 1)%Q (0, 0)
                             true 2 false None false (fun _ => 5)))
              1 (fun _ _ _ _ => 7%Q) (fun _ _ _ _ => 7%Q)
              (fun _ => draws_flip_09) (fun _ => 5)
  = Failed TypeError.
Proof.
  apply (getitem_da_random_crops_need_train_prob
           (fun im _ _ _ => im) (fun im _ _ => im) (fun im _ => im) (fun im _ => im)
           (fun _ => ""%string) (fun _ => ""%string)
           batch_images batch_masks 1 (3, 3) 1 false 0 false false true false 0
           (1, 1)%Q (0, 0) 2 false false (fun _ => 5) 1
           (fun _ _ _ _ => 7%Q) (fun _ _ _ _ => 7%Q) (fun _ => draws_flip_09)
           (fun _ => 5)).
  - reflexivity.
  - lia.
  - lia.
  - lia.
  - vm_compute. split; [discriminate | reflexivity].
Defined.

Lemma getitem_validation_crops_are_top_left_witness :
  let self := fst (__init__ batch_images batch_masks 1 (3, 3) 1 false false 0
                            false false true false 0 (1, 1)%Q (0, 0)
                            true 2 false None true (fun _ => 5)) in
  exists batch_x batch_y,
    __getitem__ (fun im _ _ _ => im) (fun im _ _ => im) (fun im _ => im)
                (fun im _ => im) (fun _ => ""%string) (fun _ => ""%string)
                self 1 (fun _ _ _ _ => 7%Q) (fun _ _ _ _ => 7%Q)
                (fun _ => draws_flip_09) (fun _ => 5)
    = Done (batch_x, batch_y, self, fun _ => 5)
    /\ rect4 1 2 2 1 batch_x
    /\ rect4 1 2 2 1 batch_y
    /\ forall i a b ch,
         0 <= i < 1 -> 0 <= a < 2 -> 0 <= b < 2 -> 0 <= ch < 1 ->
         let j := Np.get 0 (indexes self) (1 * 1 + i) in
         0 <= j < 2
         /\ px3 0%Q (Np.get [] batch_x i) a b ch
            = px3 0%Q (Np.get [] batch_images j) a b ch
         /\ px3 0%Q (Np.get [] batch_y i) a b ch
            = (px3 0%Q (Np.get [] batch_masks j) a b ch / 255)%Q.
Proof.
  apply (getitem_validation_crops_are_top_left
           (fun im _ _ _ => im) (fun im _ _ => im) (fun im _ => im) (fun im _ => im)
           (fun _ => ""%string) (fun _ => ""%string)
           batch_images batch_masks 1 (3, 3) 2 3 3 false 0 false false true false 0
           (1, 1)%Q (0, 0) 2 false (fun _ => 5) 1
           (fun _ _ _ _ => 7%Q) (fun _ _ _ _ => 7%Q) (fun _ => draws_flip_09)
           (fun _ => 5)).
  - split; [reflexivity|]. repeat constructor.
  - split; [reflexivity|]. repeat constructor.
  - lia.
  - lia.
  - lia.
  - vm_compute. split; [discriminate | reflexivity].
Defined.

